(** * Office NFL pick'em pool: outcome engine, importer, live cache, picks

    A shallow embedding of the parts of the application that decide the
    pool's results and keep its game records in step with the provider:

    - [app/routers/dashboard.py]: [_season_leaderboard], [_weekly_lunch];
    - [app/services/nfl/importer.py]: [import_week_schedule];
    - [app/services/nfl/live.py]: [fetch_live_event],
      [bulk_fetch_live_events];
    - [app/services/nfl/espn.py]: the event loop of
      [ESPNScoreboardProvider.get_week_schedule], [_parse_iso_utc];
    - [app/routers/picks.py]: [picks_save].

    Python integers are [Z]; identifiers of rows are [Z]; a [dict] whose
    iteration order is observed is an insertion-ordered association list
    ([dict_get]/[dict_set] below); the two process-wide caches of the live
    poller, whose order is never observed, are [gmap]s; the relational
    store is a record of tables, each a list of rows in the order a query
    without [ORDER BY] yields them. *)

From Stdlib Require Import ZArith QArith Lia Ascii String List Sorted Permutation.
From stdpp Require Import gmap strings list pretty.

Close Scope Q_scope.
Open Scope Z_scope.

(* ===================================================================== *)
(** * Part I: definitions                                                *)
(* ===================================================================== *)

(** ** Python dictionaries keyed by integers, in insertion order *)

Section PyDict.
Context {V : Type}.

(** [d.get(k)] *)
Fixpoint dict_get (d : list (Z * V)) (k : Z) : option V :=
  match d with
  | [] => None
  | (k', v) :: d' => if k' =? k then Some v else dict_get d' k
  end.

(** [d[k] = v]: an existing key keeps its position, a new key goes last. *)
Fixpoint dict_set (d : list (Z * V)) (k : Z) (v : V) : list (Z * V) :=
  match d with
  | [] => [(k, v)]
  | (k', v') :: d' =>
      if k' =? k then (k', v) :: d' else (k', v') :: dict_set d' k v
  end.

(** [d.pop(k, None)] *)
Fixpoint dict_pop (d : list (Z * V)) (k : Z) : list (Z * V) :=
  match d with
  | [] => []
  | (k', v') :: d' => if k' =? k then d' else (k', v') :: dict_pop d' k
  end.

Definition dict_keys (d : list (Z * V)) : list Z := map fst d.

End PyDict.

(** [d.get(k, 0)] *)
Definition dict_get0 (d : list (Z * Z)) (k : Z) : Z :=
  match dict_get d k with Some v => v | None => 0 end.

(** ** Strings: the ASCII fragment of [str.lower], [str.upper], [str.strip] *)

Definition ascii_lower (c : ascii) : ascii :=
  let n := nat_of_ascii c in
  if (Nat.leb 65 n && Nat.leb n 90)%bool then ascii_of_nat (n + 32) else c.

Definition ascii_upper (c : ascii) : ascii :=
  let n := nat_of_ascii c in
  if (Nat.leb 97 n && Nat.leb n 122)%bool then ascii_of_nat (n - 32) else c.

Fixpoint str_map (f : ascii -> ascii) (s : string) : string :=
  match s with
  | EmptyString => EmptyString
  | String c s' => String (f c) (str_map f s')
  end.

Definition lower (s : string) : string := str_map ascii_lower s.
Definition upper (s : string) : string := str_map ascii_upper s.

(** Whitespace as [str.strip] and [int] see it, within ASCII:
    space, tab, line feed, vertical tab, form feed, carriage return and
    the separators 28..31. *)
Definition is_space (c : ascii) : bool :=
  let n := nat_of_ascii c in
  (Nat.eqb n 32 || (Nat.leb 9 n && Nat.leb n 13) || (Nat.leb 28 n && Nat.leb n 31))%bool.

Fixpoint lstrip (s : string) : string :=
  match s with
  | EmptyString => EmptyString
  | String c s' => if is_space c then lstrip s' else s
  end.

Fixpoint rstrip (s : string) : string :=
  match s with
  | EmptyString => EmptyString
  | String c s' =>
      match rstrip s' with
      | EmptyString => if is_space c then EmptyString else String c EmptyString
      | r => String c r
      end
  end.

Definition strip (s : string) : string := rstrip (lstrip s).

(** [bool(s)] for a string and for an optional string *)
Definition str_truthy (s : string) : bool :=
  match s with EmptyString => false | _ => true end.

Definition opt_truthy (o : option string) : bool :=
  match o with Some s => str_truthy s | None => false end.

(** [a or b] on strings *)
Definition str_or (a b : string) : string := if str_truthy a then a else b.

(** ** Datetimes

    A [datetime] is its wall-clock reading in microseconds since the epoch,
    and whether it carries a time zone.  Every aware value of the program
    is in UTC ([_parse_iso_utc] and [datetime.now(timezone.utc)] produce
    nothing else), so for an aware value the reading is the UTC instant. *)

Record datetime := mkDT { dt_ticks : Z; dt_aware : bool }.

Definition utc (t : Z) : datetime := mkDT t true.
Definition naive (t : Z) : datetime := mkDT t false.

(** Python's [a == b] on datetimes: a naive and an aware value are never
    equal (no exception is raised by an equality test). *)
Definition dt_eqb (a b : datetime) : bool :=
  (Bool.eqb (dt_aware a) (dt_aware b) && (dt_ticks a =? dt_ticks b))%bool.

(** [_aware_utc] of [_weekly_lunch] (and the same step in [Week.is_locked]):
    a naive value is read as UTC. *)
Definition _aware_utc (d : datetime) : datetime := mkDT (dt_ticks d) true.

(** ** The relational model ([app/models]) *)

Inductive GameStatus := SCHEDULED | IN_PROGRESS | FINAL.

Definition status_eqb (a b : GameStatus) : bool :=
  match a, b with
  | SCHEDULED, SCHEDULED | IN_PROGRESS, IN_PROGRESS | FINAL, FINAL => true
  | _, _ => false
  end.

Record Season := mkSeason {
  s_id : Z; s_year : Z; s_is_active : bool }.

Record Week := mkWeek {
  w_id : Z; w_season_id : Z; w_week_number : Z; w_season_type : Z;
  w_first_kickoff_at : datetime }.

(** [alt_abbrs] is kept as the list [Team.alt_abbreviations()] returns. *)
Record Team := mkTeam {
  t_id : Z; t_abbr : string; t_alt_abbrs : list string }.

Record Game := mkGame {
  g_id : Z; g_season_id : Z; g_week_id : Z;
  g_home_team_id : Z; g_away_team_id : Z;
  g_start_time : datetime; g_status : GameStatus;
  g_home_score : Z; g_away_score : Z;
  g_provider_game_id : option string }.

Record Pick := mkPick {
  p_id : Z; p_user_id : Z; p_game_id : Z; p_chosen_team_id : Z }.

Record TieBreaker := mkTB {
  tb_id : Z; tb_user_id : Z; tb_week_id : Z; tb_guess_points : Z }.

Record User := mkUser {
  u_id : Z; u_username : string; u_first_name : string; u_last_name : string;
  u_is_admin : bool; u_must_change_password : bool }.

Record DB := mkDB {
  seasons : list Season; weeks : list Week; teams : list Team;
  games : list Game; picks : list Pick; tiebreakers : list TieBreaker;
  users : list User }.

(** [User.display_name] *)
Definition display_name (u : User) : string :=
  strip (u_first_name u ++ " " ++ u_last_name u)%string.

(** [Week.is_locked(now)] *)
Definition is_locked (w : Week) (now : Z) : bool :=
  dt_ticks (w_first_kickoff_at w) <=? now.

(** [max(xs, key=f)] and [min]: the first element that attains the bound. *)
Section PyMax.
Context {A K : Type} (key : A -> K) (key_lt : K -> K -> bool).

Fixpoint max_from (best : A) (l : list A) : A :=
  match l with
  | [] => best
  | x :: l' => max_from (if key_lt (key best) (key x) then x else best) l'
  end.

Definition py_max (l : list A) : option A :=
  match l with [] => None | x :: l' => Some (max_from x l') end.

End PyMax.

Definition max_Z (l : list Z) : option Z := py_max (fun x => x) Z.ltb l.
Definition min_Z (l : list Z) : option Z := py_max (fun x => x) Z.gtb l.

(** ** Outcome and ranking engine ([app/routers/dashboard.py]) *)

Definition in_Z (x : Z) (l : list Z) : bool := existsb (Z.eqb x) l.

(** The three-way branch both [_season_leaderboard] and [_weekly_lunch]
    run on every Final game: the winning team, or [None] for a tie. *)
Definition game_winner (g : Game) : option Z :=
  if g_home_score g >? g_away_score g then Some (g_home_team_id g)
  else if g_away_score g >? g_home_score g then Some (g_away_team_id g)
  else None.

(** [winners_by_game], filled in the order of [final_games]. *)
Definition winners_by_game (final_games : list Game) : list (Z * option Z) :=
  fold_left (fun d g => dict_set d (g_id g) (game_winner g)) final_games [].

(** [[gid for gid, w in winners_by_game.items() if w is not None]] *)
Definition decided_ids (wbg : list (Z * option Z)) : list Z :=
  map fst (List.filter (fun kv => match snd kv with Some _ => true | None => false end) wbg).

(** [db.query(Pick).filter(Pick.game_id.in_(ids)).all()] *)
Definition picks_on (db : DB) (ids : list Z) : list Pick :=
  List.filter (fun p => in_Z (p_game_id p) ids) (picks db).

(** One turn of the counting loop; the accumulator is
    [(correct_counts, pick_counts)]. *)
Definition count_step (wbg : list (Z * option Z))
    (acc : list (Z * Z) * list (Z * Z)) (p : Pick) : list (Z * Z) * list (Z * Z) :=
  let '(correct_counts, pick_counts) := acc in
  match dict_get wbg (p_game_id p) with
  | Some (Some winner) =>
      let pick_counts' :=
        dict_set pick_counts (p_user_id p) (dict_get0 pick_counts (p_user_id p) + 1) in
      if p_chosen_team_id p =? winner
      then (dict_set correct_counts (p_user_id p)
              (dict_get0 correct_counts (p_user_id p) + 1), pick_counts')
      else (correct_counts, pick_counts')
  | _ => acc
  end.

Definition count_picks (wbg : list (Z * option Z)) (ps : list Pick)
    : list (Z * Z) * list (Z * Z) :=
  fold_left (count_step wbg) ps ([], []).

(** [db.query(User).filter(User.id.in_(user_ids)).all()] *)
Definition users_in (db : DB) (uids : list Z) : list User :=
  List.filter (fun u => in_Z (u_id u) uids) (users db).

(** [{u.id: (u.display_name or u.username) for u in users}] *)
Definition name_by_id (us : list User) : list (Z * string) :=
  fold_left (fun d u => dict_set d (u_id u) (str_or (display_name u) (u_username u))) us [].

(** [name_by_id.get(uid, f"User {uid}")] *)
Definition name_of (nbi : list (Z * string)) (uid : Z) : string :=
  match dict_get nbi uid with
  | Some n => n
  | None => ("User " ++ pretty uid)%string
  end.

(** [(corr / total) if total else 0.0].  The quotient is kept exact; the
    program rounds it to a binary64 float, which keeps the order of two
    quotients of counts (and keeps them apart for counts below 2^26). *)
Definition pct_of (corr total : Z) : Q :=
  if total =? 0 then 0%Q else (inject_Z corr / inject_Z total)%Q.

(** An entry of the season board. *)
Record Entry := mkEntry {
  e_user_id : Z; e_name : string; e_correct : Z; e_picks : Z; e_pct : Q }.

(** The sort key [(-x["correct"], -x["pct"], x["name"].lower())]. *)
Definition board_key (e : Entry) : Z * Q * string :=
  (- e_correct e, Qopp (e_pct e), lower (e_name e)).

(** Python's [<] on such tuples: the first component that differs decides. *)
Definition key_lt (a b : Z * Q * string) : bool :=
  let '(a1, a2, a3) := a in
  let '(b1, b2, b3) := b in
  if negb (a1 =? b1) then a1 <? b1
  else if negb (Qeq_bool a2 b2) then negb (Qle_bool b2 a2)
  else String.ltb a3 b3.

(** [list.sort(key=...)] is stable: equal keys keep their order. *)
Section PySort.
Context {A : Type} (lt : A -> A -> bool).

Fixpoint insert_by (x : A) (l : list A) : list A :=
  match l with
  | [] => [x]
  | y :: l' => if lt y x then y :: insert_by x l' else x :: l
  end.

Definition py_sort (l : list A) : list A := foldr insert_by [] l.

End PySort.

Definition entry_lt (a b : Entry) : bool := key_lt (board_key a) (board_key b).

(** [_active_season] *)
Definition _active_season (db : DB) (selected_week : option Week) : option Season :=
  match selected_week with
  | Some w => List.find (fun s => s_id s =? w_season_id w) (seasons db)
  | None =>
      match py_max s_year Z.ltb (List.filter s_is_active (seasons db)) with
      | Some active => Some active
      | None => py_max s_year Z.ltb (seasons db)
      end
  end.

(** [db.query(Game).filter(Game.season_id == season.id,
    Game.status == GameStatus.FINAL).all()] *)
Definition season_final_games (db : DB) (season : Season) : list Game :=
  List.filter (fun g => (g_season_id g =? s_id season) && status_eqb (g_status g) FINAL)%bool
    (games db).

Definition board_entry (nbi : list (Z * string))
    (correct_counts pick_counts : list (Z * Z)) (uid : Z) : Entry :=
  let corr := dict_get0 correct_counts uid in
  let total := dict_get0 pick_counts uid in
  mkEntry uid (name_of nbi uid) corr total (pct_of corr total).

(** [_season_leaderboard]: the board and the number of decided games. *)
Definition _season_leaderboard (db : DB) (selected_week : option Week)
    : list Entry * Z :=
  match _active_season db selected_week with
  | None => ([], 0)
  | Some season =>
      let wbg := winners_by_game (season_final_games db season) in
      let decided_game_ids := decided_ids wbg in
      match decided_game_ids with
      | [] => ([], 0)
      | _ =>
          let '(correct_counts, pick_counts) := count_picks wbg (picks_on db decided_game_ids) in
          match pick_counts with
          | [] => ([], Z.of_nat (length decided_game_ids))
          | _ =>
              let user_ids := dict_keys pick_counts in
              let nbi := name_by_id (users_in db user_ids) in
              let board := map (board_entry nbi correct_counts pick_counts) user_ids in
              (firstn 10 (py_sort entry_lt board), Z.of_nat (length decided_game_ids))
          end
      end
  end.

(** A row of the weekly computation: a board entry and the user's
    tiebreaker guess, [tb_by_user.get(uid)]. *)
Record LunchRow := mkLunchRow {
  lr_user_id : Z; lr_name : string; lr_correct : Z; lr_picks : Z; lr_pct : Q;
  lr_tb : option Z }.

(** [winner_users]/[loser_users] carry the id and the name; the avatar URL
    of the template is left out. *)
Record UserDTO := mkUserDTO { dto_user_id : Z; dto_name : string }.

Inductive LunchStatus := no_week | no_games | pending | decided.

Record LunchResult := mkLunchResult {
  lunch_status : LunchStatus;
  lunch_total_games : Z;
  lunch_decided_games : Z;
  winner_names : list string;
  loser_names : list string;
  winner_users : list UserDTO;
  loser_users : list UserDTO;
  actual_total : option Z;
  tiebreaker_applied : bool;
  loser_tiebreaker_applied : bool }.

(** The four shapes of the dictionary [_weekly_lunch] returns. *)
Inductive Lunch :=
| LunchNoWeek
| LunchNoGames
| LunchPending (total_games decided_games : Z)
| LunchFull (r : LunchResult).

Definition status_of (l : Lunch) : LunchStatus :=
  match l with
  | LunchNoWeek => no_week
  | LunchNoGames => no_games
  | LunchPending _ _ => pending
  | LunchFull r => lunch_status r
  end.

(** [db.query(Game).filter(Game.week_id == week.id).all()] *)
Definition week_games (db : DB) (week : Week) : list Game :=
  List.filter (fun g => g_week_id g =? w_id week) (games db).

Definition final_games_of (gs : list Game) : list Game :=
  List.filter (fun g => status_eqb (g_status g) FINAL) gs.

(** [tb_by_user]: the guesses of this week's rows of the given users. *)
Definition tb_by_user (db : DB) (week : Week) (user_ids : list Z) : list (Z * Z) :=
  fold_left (fun d t => dict_set d (tb_user_id t) (tb_guess_points t))
    (List.filter (fun t => (tb_week_id t =? w_id week) && in_Z (tb_user_id t) user_ids)%bool
       (tiebreakers db)) [].

(** The combined score of the Final game that starts last, once the week
    is finalized. *)
Definition lunch_actual_total (week_finalized : bool) (final_games : list Game) : option Z :=
  if week_finalized then
    match py_max (fun g => dt_ticks (_aware_utc (g_start_time g))) Z.ltb final_games with
    | Some last_game => Some (g_home_score last_game + g_away_score last_game)
    | None => None
    end
  else None.

Definition lunch_row (nbi : list (Z * string)) (correct_counts pick_counts tbu : list (Z * Z))
    (uid : Z) : LunchRow :=
  let corr := dict_get0 correct_counts uid in
  let tot := dict_get0 pick_counts uid in
  mkLunchRow uid (name_of nbi uid) corr tot (pct_of corr tot) (dict_get tbu uid).

(** The second component of [_loss_key]: an integer distance or
    [float("inf")]. *)
Inductive Dist := Fin (d : Z) | Inf.

Definition dist_eqb (a b : Dist) : bool :=
  match a, b with
  | Fin x, Fin y => x =? y
  | Inf, Inf => true
  | _, _ => false
  end.

Definition dist_ltb (a b : Dist) : bool :=
  match a, b with
  | Fin x, Fin y => x <? y
  | Fin _, Inf => true
  | Inf, _ => false
  end.

Definition _loss_key (actual_total : Z) (r : LunchRow) : Z * Dist :=
  match lr_tb r with
  | None => (3, Inf)
  | Some tb =>
      if tb <=? actual_total then (1, Fin (actual_total - tb))
      else (2, Fin (tb - actual_total))
  end.

Definition loss_key_lt (a b : Z * Dist) : bool :=
  if negb (fst a =? fst b) then fst a <? fst b
  else if negb (dist_eqb (snd a) (snd b)) then dist_ltb (snd a) (snd b)
  else false.

(** [w["tb"]] read as a sort key, for rows known to have a guess. *)
Definition tb_key (r : LunchRow) : Z :=
  match lr_tb r with Some t => t | None => 0 end.

Definition eligible_of (actual : Z) (winners : list LunchRow) : list LunchRow :=
  List.filter (fun w => match lr_tb w with Some t => t <=? actual | None => false end) winners.

(** The rows of [_weekly_lunch], in the order of [pick_counts]. *)
Definition lunch_rows (db : DB) (week : Week) : list LunchRow :=
  let final_games := final_games_of (week_games db week) in
  let wbg := winners_by_game final_games in
  let decided := decided_ids wbg in
  let '(correct_counts, pick_counts) := count_picks wbg (picks_on db decided) in
  let user_ids := dict_keys pick_counts in
  let nbi := name_by_id (users_in db user_ids) in
  let tbu := tb_by_user db week user_ids in
  map (lunch_row nbi correct_counts pick_counts tbu) user_ids.

Definition week_finalized (db : DB) (week : Week) : bool :=
  Nat.eqb (length (final_games_of (week_games db week))) (length (week_games db week)).

Definition lunch_winners (rows : list LunchRow) : list LunchRow :=
  match max_Z (map lr_correct rows) with
  | Some max_correct => List.filter (fun r => lr_correct r =? max_correct) rows
  | None => []
  end.

Definition lunch_losers (rows : list LunchRow) : list LunchRow :=
  if Nat.ltb 1 (length rows) then
    match min_Z (map lr_correct rows) with
    | Some min_correct => List.filter (fun r => lr_correct r =? min_correct) rows
    | None => []
    end
  else [].

Definition user_dto (r : LunchRow) : UserDTO := mkUserDTO (lr_user_id r) (lr_name r).

(** The block under [if week_finalized and len(winners) > 1 and
    actual_total is not None]: closest without going over. *)
Definition break_winner_tie (finalized : bool) (actual : option Z)
    (winners : list LunchRow) : list LunchRow * bool :=
  match actual with
  | Some a =>
      if (finalized && Nat.ltb 1 (length winners))%bool then
        match py_max tb_key Z.ltb (eligible_of a winners) with
        | Some best => ([best], true)
        | None => (winners, false)
        end
      else (winners, false)
  | None => (winners, false)
  end.

(** The block under [if week_finalized and len(losers) > 1 and
    actual_total is not None]: the worst by [_loss_key]. *)
Definition break_loser_tie (finalized : bool) (actual : option Z)
    (losers : list LunchRow) : list LunchRow * bool :=
  match actual with
  | Some a =>
      if (finalized && Nat.ltb 1 (length losers))%bool then
        match py_max (_loss_key a) loss_key_lt losers with
        | Some worst => ([worst], true)
        | None => (losers, false)
        end
      else (losers, false)
  | None => (losers, false)
  end.

(** [_weekly_lunch] *)
Definition _weekly_lunch (db : DB) (week : option Week) : Lunch :=
  match week with
  | None => LunchNoWeek
  | Some week =>
      let games := week_games db week in
      let total_games := length games in
      if Nat.eqb total_games 0 then LunchNoGames else
      let final_games := final_games_of games in
      let decided_games := length final_games in
      let finalized := week_finalized db week in
      let rows := lunch_rows db week in
      match rows with
      | [] => LunchPending (Z.of_nat total_games) (Z.of_nat decided_games)
      | _ =>
          let actual := lunch_actual_total finalized final_games in
          let winners := lunch_winners rows in
          let losers := lunch_losers rows in
          let '(win, tb_applied) := break_winner_tie finalized actual winners in
          let '(lose, loser_tb_applied) := break_loser_tie finalized actual losers in
          let status :=
            if finalized && Nat.ltb 0 (length win) then decided else pending in
          LunchFull (mkLunchResult status (Z.of_nat total_games) (Z.of_nat decided_games)
                       (map lr_name win) (map lr_name lose)
                       (map user_dto win) (map user_dto lose)
                       actual tb_applied loser_tb_applied)
      end
  end%bool.

(** ** Schedule importer ([app/services/nfl/importer.py]) *)

(** [ProviderGame] of [app/services/nfl/base.py] *)
Record ProviderGame := mkPG {
  home_abbr : string; away_abbr : string;
  start_time : datetime;
  provider_game_id : option string }.

(** What the store does to a [DateTime(timezone=True)] column.  SQLite,
    the default [DATABASE_URL], keeps no zone: the value comes back naive
    (the case [Week.is_locked] and [_aware_utc] provide for).  A store with
    a zoned timestamp type returns the value it was given. *)
Inductive Backend := Sqlite | Zoned.

Definition store_dt (b : Backend) (d : datetime) : datetime :=
  match b with
  | Sqlite => naive (dt_ticks d)
  | Zoned => d
  end.

Definition store_game (b : Backend) (g : Game) : Game :=
  mkGame (g_id g) (g_season_id g) (g_week_id g) (g_home_team_id g) (g_away_team_id g)
         (store_dt b (g_start_time g)) (g_status g) (g_home_score g) (g_away_score g)
         (g_provider_game_id g).

(** A primary key for a new row: one more than the largest in the table. *)
Definition next_id (ids : list Z) : Z := fold_left Z.max ids 0 + 1.

(** [_team_lookup_map]: every abbreviation and alternate, upper-cased. *)
Definition _team_lookup_map (db : DB) : gmap string Team :=
  fold_left
    (fun out t =>
       let out1 := if str_truthy (t_abbr t) then <[upper (t_abbr t) := t]> out else out in
       fold_left (fun o alt => <[upper alt := t]> o) (t_alt_abbrs t) out1)
    (teams db) ∅.

(** SQL equality on a nullable text column: [NULL] equals nothing. *)
Definition sql_str_eqb (col : option string) (v : option string) : bool :=
  match col, v with
  | Some a, Some b => String.eqb a b
  | _, _ => false
  end.

(** Python's [!=] on two optional strings *)
Definition opt_str_eqb (a b : option string) : bool :=
  match a, b with
  | Some x, Some y => String.eqb x y
  | None, None => true
  | _, _ => false
  end.

(** The two look-ups of the loop body, run by the store on its rows (the
    session is created with [autoflush=False], so nothing the loop has
    changed or added is visible to them): first by provider id, then by
    exact home, away and start time. *)
Definition find_game (b : Backend) (rows : list Game) (week_id : Z)
    (home away : Team) (pg : ProviderGame) : option Game :=
  let by_id :=
    if opt_truthy (provider_game_id pg)
    then List.find (fun g => (g_week_id g =? week_id)
                             && sql_str_eqb (g_provider_game_id g) (provider_game_id pg))%bool rows
    else None in
  match by_id with
  | Some g => Some g
  | None =>
      List.find (fun g => (g_week_id g =? week_id)
                          && (g_home_team_id g =? t_id home)
                          && (g_away_team_id g =? t_id away)
                          && dt_eqb (g_start_time g) (store_dt b (start_time pg)))%bool rows
  end.

(** The state the loop threads: the objects of the session it has changed
    (by primary key), the objects it has added, the counter and
    [start_times]. *)
Record ImportState := mkIS {
  is_dirty : list (Z * Game);
  is_pending : list Game;
  is_upserted : Z;
  is_start_times : list datetime }.

(** The session's object for a row: the changed one if the loop has
    already touched it, else the row as loaded. *)
Definition session_obj (dirty : list (Z * Game)) (row : Game) : Game :=
  match dict_get dirty (g_id row) with Some o => o | None => row end.

Definition set_start_time (g : Game) (d : datetime) : Game :=
  mkGame (g_id g) (g_season_id g) (g_week_id g) (g_home_team_id g) (g_away_team_id g)
         d (g_status g) (g_home_score g) (g_away_score g) (g_provider_game_id g).

Definition set_teams (g : Game) (home away : Z) : Game :=
  mkGame (g_id g) (g_season_id g) (g_week_id g) home away
         (g_start_time g) (g_status g) (g_home_score g) (g_away_score g) (g_provider_game_id g).

Definition set_provider_game_id (g : Game) (p : option string) : Game :=
  mkGame (g_id g) (g_season_id g) (g_week_id g) (g_home_team_id g) (g_away_team_id g)
         (g_start_time g) (g_status g) (g_home_score g) (g_away_score g) p.

(** The [else] branch of the loop body: the minimal update of a matched
    game, and whether anything changed. *)
Definition update_game (g : Game) (home away : Team) (pg : ProviderGame) : Game * bool :=
  let '(g1, c1) :=
    if negb (dt_eqb (g_start_time g) (start_time pg))
    then (set_start_time g (start_time pg), true) else (g, false) in
  let '(g2, c2) :=
    if (negb (g_home_team_id g1 =? t_id home) || negb (g_away_team_id g1 =? t_id away))%bool
    then (set_teams g1 (t_id home) (t_id away), true) else (g1, c1) in
  if (opt_truthy (provider_game_id pg)
      && negb (opt_str_eqb (g_provider_game_id g2) (provider_game_id pg)))%bool
  then (set_provider_game_id g2 (provider_game_id pg), true) else (g2, c2).

(** One turn of [for pg in games]. *)
Definition import_step (b : Backend) (rows : list Game) (season_id week_id : Z)
    (lookup : gmap string Team) (st : ImportState) (pg : ProviderGame) : ImportState :=
  match lookup !! upper (home_abbr pg), lookup !! upper (away_abbr pg) with
  | Some home, Some away =>
      match find_game b rows week_id home away pg with
      | None =>
          let g := mkGame 0 season_id week_id (t_id home) (t_id away) (start_time pg)
                          SCHEDULED 0 0 (provider_game_id pg) in
          mkIS (is_dirty st) (is_pending st ++ [g]) (is_upserted st + 1)
               (is_start_times st ++ [start_time pg])
      | Some row =>
          let '(g', changed) := update_game (session_obj (is_dirty st) row) home away pg in
          if changed
          then mkIS (dict_set (is_dirty st) (g_id row) g') (is_pending st)
                    (is_upserted st + 1) (is_start_times st ++ [start_time pg])
          else mkIS (is_dirty st) (is_pending st) (is_upserted st)
                    (is_start_times st ++ [start_time pg])
      end
  | _, _ => st
  end.

Definition set_id (g : Game) (i : Z) : Game :=
  mkGame i (g_season_id g) (g_week_id g) (g_home_team_id g) (g_away_team_id g)
         (g_start_time g) (g_status g) (g_home_score g) (g_away_score g) (g_provider_game_id g).

Fixpoint assign_ids (next : Z) (new : list Game) : list Game :=
  match new with
  | [] => []
  | g :: new' => set_id g next :: assign_ids (next + 1) new'
  end.

(** The flush of [db.commit()] on the games table: changed rows are
    written in place, added rows are appended with fresh keys. *)
Definition commit_games (b : Backend) (rows : list Game) (st : ImportState) : list Game :=
  map (fun r => store_game b (session_obj (is_dirty st) r)) rows
  ++ assign_ids (next_id (map g_id rows)) (map (store_game b) (is_pending st)).

Definition set_first_kickoff_at (w : Week) (d : datetime) : Week :=
  mkWeek (w_id w) (w_season_id w) (w_week_number w) (w_season_type w) d.

Definition replace_week (ws : list Week) (w : Week) : list Week :=
  map (fun x => if w_id x =? w_id w then w else x) ws.

Definition min_dt (l : list datetime) : option datetime :=
  py_max dt_ticks Z.gtb l.

Definition with_seasons (db : DB) (l : list Season) : DB :=
  mkDB l (weeks db) (teams db) (games db) (picks db) (tiebreakers db) (users db).
Definition with_weeks (db : DB) (l : list Week) : DB :=
  mkDB (seasons db) l (teams db) (games db) (picks db) (tiebreakers db) (users db).
Definition with_games (db : DB) (l : list Game) : DB :=
  mkDB (seasons db) (weeks db) (teams db) l (picks db) (tiebreakers db) (users db).
Definition with_picks (db : DB) (l : list Pick) : DB :=
  mkDB (seasons db) (weeks db) (teams db) (games db) l (tiebreakers db) (users db).
Definition with_tiebreakers (db : DB) (l : list TieBreaker) : DB :=
  mkDB (seasons db) (weeks db) (teams db) (games db) (picks db) l (users db).

(** The season and week of the import, created (and flushed) if absent. *)
Definition ensure_season (db : DB) (season_year : Z) : DB * Season :=
  match List.find (fun s => s_year s =? season_year) (seasons db) with
  | Some s => (db, s)
  | None =>
      let s := mkSeason (next_id (map s_id (seasons db))) season_year true in
      (with_seasons db (seasons db ++ [s]), s)
  end.

Definition ensure_week (b : Backend) (db : DB) (season : Season)
    (week_number season_type now : Z) : DB * Week :=
  match List.find (fun w => (w_season_id w =? s_id season)
                            && (w_week_number w =? week_number)
                            && (w_season_type w =? season_type))%bool (weeks db) with
  | Some w => (db, w)
  | None =>
      let w := mkWeek (next_id (map w_id (weeks db))) (s_id season) week_number season_type
                      (store_dt b (utc now)) in
      (with_weeks db (weeks db ++ [w]), w)
  end.

(** [import_week_schedule], run in a session of its own on the committed
    store [db] with the provider's answer [payload] at time [now].  The
    result is the store the session leaves behind and the count returned.
    With an empty payload the function returns before [db.commit()], and
    what it flushed goes when the session is closed. *)
Definition import_week_schedule (b : Backend) (db : DB) (payload : list ProviderGame)
    (season_year week_number season_type now : Z) : DB * Z :=
  let '(db1, season) := ensure_season db season_year in
  let '(db2, week) := ensure_week b db1 season week_number season_type now in
  let lookup := _team_lookup_map db2 in
  match payload with
  | [] => (db, 0)
  | _ =>
      let st := fold_left (import_step b (games db2) (s_id season) (w_id week) lookup)
                  payload (mkIS [] [] 0 []) in
      let weeks' :=
        match min_dt (is_start_times st) with
        | Some m => replace_week (weeks db2) (set_first_kickoff_at week (store_dt b m))
        | None => weeks db2
        end in
      (with_games (with_weeks db2 weeks') (commit_games b (games db2) st), is_upserted st)
  end.

(** ** Live score cache ([app/services/nfl/live.py]) *)

(** The fields of [LiveGame] the reconciler reads; the display-only ones
    (clock, possession, venue, ...) are left out. *)
Record LiveGame := mkLiveGame {
  lg_event_id : string; lg_state : string;
  lg_home_score : option Z; lg_away_score : option Z }.

(** What one request for an event summary comes to: a body
    [_parse_summary] makes a game of or not, a status error, or any other
    failure (timeout, connection, bad JSON). *)
Inductive Reply :=
| Summary (parsed : option LiveGame)
| StatusError (code : Z)
| Failure.

(** The remote side: the reply to a request for an event and the time the
    request takes. *)
Record Remote := mkRemote {
  reply : string -> Reply;
  elapsed : string -> Z }.

(** The module state of [live.py] with the wall clock ([time.time()],
    in ticks) and the log of the requests sent. *)
Record Live := mkLive {
  _CACHE : gmap string (Z * LiveGame);
  _NEG_CACHE : gmap string Z;
  clock : Z;
  outbound : list string }.

Section LiveCache.

(** [_CACHE_TTL_SECONDS] and [_NEGATIVE_TTL_SECONDS] *)
Variables (_CACHE_TTL_SECONDS _NEGATIVE_TTL_SECONDS : Z).
Variable remote : Remote.
(** The order in which Python iterates over the set of ids. *)
Variable set_iter : list string -> list string.

(** [fetch_live_event] *)
Definition fetch_live_event (event_id : string) (s : Live) : option LiveGame * Live :=
  let s1 := mkLive (_CACHE s) (_NEG_CACHE s) (clock s + elapsed remote event_id)
                   (outbound s ++ [event_id]) in
  match reply remote event_id with
  | Summary parsed => (parsed, s1)
  | StatusError code =>
      if ((code =? 404) || (code =? 410))%bool
      then (None, mkLive (_CACHE s1) (<[event_id := clock s1 + _NEGATIVE_TTL_SECONDS]> (_NEG_CACHE s1))
                         (clock s1) (outbound s1))
      else (None, s1)
  | Failure => (None, s1)
  end.

(** [force=True]: drop both entries of every requested id. *)
Definition clear_ids (ids : list string) (s : Live) : Live :=
  fold_left (fun s eid => mkLive (delete eid (_CACHE s)) (delete eid (_NEG_CACHE s))
                                 (clock s) (outbound s)) ids s.

(** The first loop over [ids]: what is served from the cache and what is
    left to fetch. *)
Definition triage_step (force : bool) (now : Z) (s : Live)
    (acc : gmap string LiveGame * list string) (eid : string)
    : gmap string LiveGame * list string :=
  let '(out, to_fetch) := acc in
  let cached := _CACHE s !! eid in
  let neg_expiry := _NEG_CACHE s !! eid in
  if (negb force && match neg_expiry with Some e => now <=? e | None => false end)%bool
  then (out, to_fetch)
  else
    match cached with
    | Some (t, lg) =>
        if (negb force && (now - t <=? _CACHE_TTL_SECONDS))%bool
        then (<[eid := lg]> out, to_fetch)
        else (out, to_fetch ++ [eid])
    | None => (out, to_fetch ++ [eid])
    end.

(** The second loop: fetch, and on success fill the result and the cache. *)
Definition fetch_step (now : Z) (acc : gmap string LiveGame * Live) (eid : string)
    : gmap string LiveGame * Live :=
  let '(out, s) := acc in
  match fetch_live_event eid s with
  | (Some lg, s') =>
      (<[eid := lg]> out,
       mkLive (<[eid := (now, lg)]> (_CACHE s')) (_NEG_CACHE s') (clock s') (outbound s'))
  | (None, s') => (out, s')
  end.

(** [bulk_fetch_live_events] *)
Definition bulk_fetch_live_events (event_ids : list string) (force : bool) (s : Live)
    : gmap string LiveGame * Live :=
  let now := clock s in
  let ids := set_iter (List.filter str_truthy event_ids) in
  let s1 := if force then clear_ids ids s else s in
  let '(out, to_fetch) := fold_left (triage_step force now s1) ids (∅, []) in
  fold_left (fetch_step now) to_fetch (out, s1).

End LiveCache.

(** ** The event loop of the ESPN provider ([app/services/nfl/espn.py]) *)

(** Decoded JSON, as [resp.json()] returns it. *)
#[warnings="-register-all"]
Inductive json :=
| JNull
| JBool (b : bool)
| JNum (n : Z)
| JStr (s : string)
| JArr (items : list json)
| JObj (fields : list (string * json)).

(** [bool(v)] *)
Definition truthy (v : json) : bool :=
  match v with
  | JNull => false
  | JBool b => b
  | JNum n => negb (n =? 0)
  | JStr s => str_truthy s
  | JArr l => match l with [] => false | _ => true end
  | JObj f => match f with [] => false | _ => true end
  end.

(** The body of one turn of [for ev in events], inside its [try]:
    a value, [continue], or an exception (caught, logged, [continue]). *)
Inductive Turn (A : Type) :=
| Done (a : A)
| Continue
| Raised.
Arguments Done {A} a.
Arguments Continue {A}.
Arguments Raised {A}.

Definition bind {A B} (m : Turn A) (k : A -> Turn B) : Turn B :=
  match m with
  | Done a => k a
  | Continue => Continue
  | Raised => Raised
  end.

Notation "'try!' x ':=' m 'in' k" := (bind m (fun x => k))
  (at level 10, x name, m at level 200, k at level 200, only parsing).

Fixpoint fields_get (f : list (string * json)) (k : string) : json :=
  match f with
  | [] => JNull
  | (k', v) :: f' => if String.eqb k' k then v else fields_get f' k
  end.

(** [v.get(k)]: only a dict has [get]. *)
Definition jget (v : json) (k : string) : Turn json :=
  match v with
  | JObj f => Done (fields_get f k)
  | _ => Raised
  end.

(** [a or b] *)
Definition jor (a b : json) : json := if truthy a then a else b.

Section ESPN.

(** [datetime.fromisoformat]: the wall-clock reading and, if the string
    has one, the UTC offset (both in ticks); [None] when it raises. *)
Variable fromisoformat : string -> option (Z * option Z).
(** [str(v)] of a value that is neither a string nor an integer. *)
Variable py_repr : json -> string.

Fixpoint ends_with_Z (s : string) : bool :=
  match s with
  | EmptyString => false
  | String c EmptyString => Ascii.eqb c "Z"
  | String _ s' => ends_with_Z s'
  end.

Fixpoint drop_last (s : string) : string :=
  match s with
  | EmptyString => EmptyString
  | String c EmptyString => EmptyString
  | String c s' => String c (drop_last s')
  end.

(** [s[:-1] + "+00:00"] for a string that ends in [Z] *)
Definition iso_normalize (s : string) : string :=
  if ends_with_Z s then (drop_last s ++ "+00:00")%string else s.

(** [_parse_iso_utc]; whatever goes wrong, the answer is the current time. *)
Definition _parse_iso_utc (now : Z) (v : json) : datetime :=
  match v with
  | JStr s =>
      match fromisoformat (iso_normalize s) with
      | Some (wall, None) => utc wall
      | Some (wall, Some offset) => utc (wall - offset)
      | None => utc now
      end
  | _ => utc now
  end.

(** [str(v)] *)
Definition py_str (v : json) : string :=
  match v with
  | JStr s => s
  | JNum n => pretty n
  | _ => py_repr v
  end.

(** [(team.get("abbreviation") or "").upper()] *)
Definition abbr_of (team : json) : Turn string :=
  try! a := jget team "abbreviation" in
  if truthy a then
    match a with JStr s => Done (upper s) | _ => Raised end
  else Done EmptyString.

(** [for c in competitors]: the accumulator is [(home_abbr, away_abbr)]. *)
Fixpoint scan_competitors (cs : list json) (acc : option string * option string)
    : Turn (option string * option string) :=
  match cs with
  | [] => Done acc
  | c :: cs' =>
      try! t := jget c "team" in
      try! abbr := abbr_of (jor t (JObj [])) in
      try! side := jget c "homeAway" in
      let acc' :=
        match side with
        | JStr "home" => (Some abbr, snd acc)
        | JStr "away" => (fst acc, Some abbr)
        | _ => acc
        end in
      scan_competitors cs' acc'
  end.

(** Iterating over [competitors]: a list yields its items; anything else
    that is truthy either cannot be iterated or yields strings, on which
    [c.get] raises. *)
Definition competitors_of (v : json) : Turn (list json) :=
  match v with
  | JArr l => Done l
  | _ => if truthy v then Raised else Done []
  end.

Definition parse_event (now : Z) (ev : json) : Turn ProviderGame :=
  try! comps := jget ev "competitions" in
  if negb (truthy comps) then Continue else
  try! comp := match comps with JArr (c :: _) => Done c | _ => Raised end in
  try! d1 := jget comp "date" in
  try! d2 := (if truthy d1 then Done JNull else jget ev "date") in
  let date_str := jor d1 d2 in
  if negb (truthy date_str) then Continue else
  let dt := _parse_iso_utc now date_str in
  try! cv := jget comp "competitors" in
  try! cs := competitors_of cv in
  try! ha := scan_competitors cs (None, None) in
  if (negb (opt_truthy (fst ha)) || negb (opt_truthy (snd ha)))%bool then Continue else
  try! i := jget ev "id" in
  let provider_game_id := if truthy i then Some (py_str i) else None in
  Done (mkPG (default EmptyString (fst ha)) (default EmptyString (snd ha)) dt provider_game_id).

(** The loop of [get_week_schedule] over the fetched [events]. *)
Fixpoint schedule_of_events (now : Z) (events : list json) : list ProviderGame :=
  match events with
  | [] => []
  | ev :: events' =>
      match parse_event now ev with
      | Done g => g :: schedule_of_events now events'
      | _ => schedule_of_events now events'
      end
  end.

End ESPN.

(** ** Saving picks ([app/routers/picks.py]) *)

(** [int(s)] on the ASCII fragment: surrounding whitespace, an optional
    sign, then decimal digits, with single underscores allowed between
    digits.  [None] stands for [ValueError]. *)
Definition digit_of (c : ascii) : option Z :=
  let n := nat_of_ascii c in
  if (Nat.leb 48 n && Nat.leb n 57)%bool then Some (Z.of_nat (n - 48)) else None.

(** [after_digit] tells whether the previous character was a digit (an
    underscore must sit between two digits). *)
Fixpoint digits_val (s : string) (acc : Z) (after_digit : bool) : option Z :=
  match s with
  | EmptyString => if after_digit then Some acc else None
  | String c s' =>
      match digit_of c with
      | Some d => digits_val s' (10 * acc + d) true
      | None =>
          if (Ascii.eqb c "_" && after_digit)%bool
          then match s' with
               | EmptyString => None
               | _ => digits_val s' acc false
               end
          else None
      end
  end.

Definition py_int (s : string) : option Z :=
  match strip s with
  | String "-" r => option_map Z.opp (digits_val r 0 false)
  | String "+" r => digits_val r 0 false
  | r => digits_val r 0 false
  end.

Fixpoint str_drop (n : nat) (s : string) : string :=
  match n, s with
  | O, _ => s
  | S n', String _ s' => str_drop n' s'
  | S _, EmptyString => EmptyString
  end.

Definition starts_with (p s : string) : bool := String.prefix p s.

(** [form.get(k)] on the items of the submitted form *)
Fixpoint form_get (form : list (string * string)) (k : string) : option string :=
  match form with
  | [] => None
  | (k', v) :: f' => if String.eqb k' k then Some v else form_get f' k
  end.

(** The first loop: [picks_posted] and [game_ids] from the [pick_<gid>]
    fields; a field that does not parse is passed over. *)
Definition collect_picks (form : list (string * string)) : list (Z * Z) * list Z :=
  fold_left
    (fun acc kv =>
       let '(picks_posted, game_ids) := acc in
       if starts_with "pick_" (fst kv) then
         match py_int (str_drop 5 (fst kv)), py_int (snd kv) with
         | Some gid, Some tid => (dict_set picks_posted gid tid, game_ids ++ [gid])
         | _, _ => acc
         end
       else acc)
    form ([], []).

(** What the session holds when the handler reaches [db.commit()]. *)
Inductive TbChange :=
| TbKeep
| TbSet (tb_row_id : Z) (guess : Z)
| TbAdd (user_id week_id guess : Z).

Record Pending := mkPending {
  pick_updates : list (Z * Z);      (* pick id -> chosen team *)
  pick_adds : list Pick;
  tb_change : TbChange }.

Definition set_chosen (p : Pick) (t : Z) : Pick :=
  mkPick (p_id p) (p_user_id p) (p_game_id p) t.

(** The upsert loop over the week's games named in the form. *)
Definition upsert_step (user : User) (picks_posted : list (Z * Z)) (by_gid : list (Z * Pick))
    (acc : list (Z * Z) * list Pick) (g : Game) : list (Z * Z) * list Pick :=
  match dict_get picks_posted (g_id g) with
  | None => acc
  | Some chosen_team_id =>
      if negb ((chosen_team_id =? g_home_team_id g) || (chosen_team_id =? g_away_team_id g))%bool
      then acc
      else
        match dict_get by_gid (g_id g) with
        | Some row => (dict_set (fst acc) (p_id row) chosen_team_id, snd acc)
        | None => (fst acc, snd acc ++ [mkPick 0 (u_id user) (g_id g) chosen_team_id])
        end
  end.

(** The tables after the flush, before the constraints are checked. *)
Fixpoint assign_pick_ids (next : Z) (new : list Pick) : list Pick :=
  match new with
  | [] => []
  | p :: new' => mkPick next (p_user_id p) (p_game_id p) (p_chosen_team_id p)
                 :: assign_pick_ids (next + 1) new'
  end.

Definition flushed_picks (db : DB) (pd : Pending) : list Pick :=
  map (fun p => match dict_get (pick_updates pd) (p_id p) with
                | Some t => set_chosen p t
                | None => p
                end) (picks db)
  ++ assign_pick_ids (next_id (map p_id (picks db))) (pick_adds pd).

Definition flushed_tiebreakers (db : DB) (pd : Pending) : list TieBreaker :=
  match tb_change pd with
  | TbKeep => tiebreakers db
  | TbSet i v =>
      map (fun t => if tb_id t =? i
                    then mkTB (tb_id t) (tb_user_id t) (tb_week_id t) v else t)
          (tiebreakers db)
  | TbAdd u w v =>
      tiebreakers db ++ [mkTB (next_id (map tb_id (tiebreakers db))) u w v]
  end.

(** The unique constraints of the two tables:
    [uq_pick_user_game], [uq_week_points_unique], [uq_user_week_tiebreaker]. *)
Fixpoint distinct_pairs (l : list (Z * Z)) : bool :=
  match l with
  | [] => true
  | x :: l' => negb (existsb (fun y => (fst x =? fst y) && (snd x =? snd y))%bool l')
               && distinct_pairs l'
  end%bool.

Definition uq_pick_user_game (ps : list Pick) : bool :=
  distinct_pairs (map (fun p => (p_user_id p, p_game_id p)) ps).
Definition uq_week_points_unique (ts : list TieBreaker) : bool :=
  distinct_pairs (map (fun t => (tb_week_id t, tb_guess_points t)) ts).
Definition uq_user_week_tiebreaker (ts : list TieBreaker) : bool :=
  distinct_pairs (map (fun t => (tb_user_id t, tb_week_id t)) ts).

(** [db.commit()]: the new store, or [None] for [IntegrityError]. *)
Definition commit (db : DB) (pd : Pending) : option DB :=
  let ps := flushed_picks db pd in
  let ts := flushed_tiebreakers db pd in
  if (uq_pick_user_game ps && uq_week_points_unique ts && uq_user_week_tiebreaker ts)%bool
  then Some (with_tiebreakers (with_picks db ps) ts)
  else None.

(** The redirects of [picks_save]. *)
Inductive SaveReply :=
| ToLogin
| ToChangePassword
| ErrNoWeek
| ErrLocked (week_id : Z)
| ErrTbInvalid (week_id : Z)
| ErrTbUnique (week_id : Z)
| Saved (week_id : Z).

Definition redirect_url (r : SaveReply) : string :=
  match r with
  | ToLogin => "/login"
  | ToChangePassword => "/profile/change-password?force=1"
  | ErrNoWeek => "/picks?err=noweek"
  | ErrLocked w => "/picks?week=" ++ pretty w ++ "&err=locked"
  | ErrTbInvalid w => "/picks?week=" ++ pretty w ++ "&err=tb_invalid"
  | ErrTbUnique w => "/picks?week=" ++ pretty w ++ "&err=tb_unique"
  | Saved w => "/picks?week=" ++ pretty w ++ "&ok=1"
  end%string.

(** The tiebreaker field: absent or blank, a guess, or invalid. *)
Inductive TbField := TbAbsent | TbGuess (v : Z) | TbInvalid.

Definition read_tiebreaker (form : list (string * string)) : TbField :=
  match form_get form "tiebreaker" with
  | None => TbAbsent
  | Some raw =>
      if negb (str_truthy (strip raw)) then TbAbsent
      else match py_int (strip raw) with
           | Some v => if v <? 0 then TbInvalid else TbGuess v
           | None => TbInvalid
           end
  end.

(** The picks part of the handler: what it changes and adds in the session. *)
Definition stage_picks (db : DB) (user : User) (week : Week)
    (form : list (string * string)) : list (Z * Z) * list Pick :=
  let '(picks_posted0, game_ids) := collect_picks form in
  let games :=
    List.filter (fun g => in_Z (g_id g) game_ids && (g_week_id g =? w_id week))%bool (games db) in
  let valid_game_ids := map g_id games in
  let picks_posted :=
    fold_left (fun d gid => if in_Z gid valid_game_ids then d else dict_pop d gid)
      (dict_keys picks_posted0) picks_posted0 in
  match picks_posted with
  | [] => ([], [])
  | _ =>
      let existing :=
        List.filter (fun p => (p_user_id p =? u_id user)
                              && in_Z (p_game_id p) (dict_keys picks_posted))%bool (picks db) in
      let by_gid := fold_left (fun d p => dict_set d (p_game_id p) p) existing [] in
      fold_left (upsert_step user picks_posted by_gid) games ([], [])
  end.

(** [picks_save]: the signed-in user (what [get_current_user] returns), the
    [week_id] field, the rest of the form, and the time of the request.
    The result is the store after the request (its session is closed by
    [get_db], which drops whatever was not committed) and the redirect. *)
Definition picks_save (db : DB) (now : Z) (current_user : option User) (week_id : Z)
    (form : list (string * string)) : DB * SaveReply :=
  match current_user with
  | None => (db, ToLogin)
  | Some user =>
      if u_must_change_password user then (db, ToChangePassword) else
      match List.find (fun w => w_id w =? week_id) (weeks db) with
      | None => (db, ErrNoWeek)
      | Some week =>
          if is_locked week now then (db, ErrLocked (w_id week)) else
          let '(updates, adds) := stage_picks db user week form in
          match read_tiebreaker form with
          | TbInvalid => (db, ErrTbInvalid (w_id week))
          | tbf =>
              let change :=
                match tbf with
                | TbGuess v =>
                    match List.find (fun t => (tb_user_id t =? u_id user)
                                              && (tb_week_id t =? w_id week))%bool
                            (tiebreakers db) with
                    | Some existing_tb => TbSet (tb_id existing_tb) v
                    | None => TbAdd (u_id user) (w_id week) v
                    end
                | _ => TbKeep
                end in
              match commit db (mkPending updates adds change) with
              | Some db' => (db', Saved (w_id week))
              | None => (db, ErrTbUnique (w_id week))
              end
          end
      end
  end.

(** ** Notions used in the statements *)

(** The store with every pick on game [gid] deleted. *)
Definition without_picks_on (db : DB) (gid : Z) : DB :=
  with_picks db (List.filter (fun p => negb (p_game_id p =? gid)) (picks db)).

(** A decided game: Final, and one side has strictly more points. *)
Definition is_decided (g : Game) : bool :=
  (status_eqb (g_status g) FINAL && negb (g_home_score g =? g_away_score g))%bool.

(** ** Fixtures *)

Module Fixture.

Definition wk1 : Week := mkWeek 1 1 1 2 (utc 1000).

Definition game (i t : Z) (st : GameStatus) (h a : Z) : Game :=
  mkGame i 1 1 (10 * i) (10 * i + 1) (utc t) st h a None.

Definition user (i : Z) (first last : string) : User :=
  mkUser i first first last false false.

(** Two Final games, the later one 24-20; Ann (guess 40) and Bob (guess 45)
    each have one pick right. *)
Definition db_ab : DB :=
  mkDB [mkSeason 1 2024 true] [wk1] []
    [game 1 100 FINAL 21 14; game 2 200 FINAL 24 20]
    [mkPick 1 1 1 10; mkPick 2 2 1 10; mkPick 3 1 2 21; mkPick 4 2 2 21]
    [mkTB 1 1 1 40; mkTB 2 2 1 45]
    [user 1 "Ann" "A"; user 2 "Bob" "B"].

(** Cy (guess 50) and Di (no guess) each have one pick right, Ed has two. *)
Definition db_cd : DB :=
  mkDB [mkSeason 1 2024 true] [wk1] []
    [game 1 100 FINAL 21 14; game 2 200 FINAL 24 20]
    [mkPick 1 3 1 10; mkPick 2 4 1 10; mkPick 3 3 2 21; mkPick 4 4 2 21;
     mkPick 5 5 1 10; mkPick 6 5 2 20]
    [mkTB 1 3 1 50]
    [user 3 "Cy" "C"; user 4 "Di" "D"; user 5 "Ed" "E"].

(** Game 2 ends 17-17; both users picked in both games. *)
Definition tied_game : Game := game 2 200 FINAL 17 17.

Definition db_tie : DB :=
  mkDB [mkSeason 1 2024 true] [wk1] []
    [game 1 100 FINAL 21 14; tied_game]
    [mkPick 1 1 1 10; mkPick 2 2 1 11; mkPick 3 1 2 20; mkPick 4 2 2 21]
    []
    [user 1 "Ann" "A"; user 2 "Bob" "B"].

(** Game 2 is still being played. *)
Definition db_open : DB :=
  mkDB [mkSeason 1 2024 true] [wk1] []
    [game 1 100 FINAL 21 14; game 2 200 IN_PROGRESS 3 0]
    [mkPick 1 1 1 10; mkPick 2 2 1 11]
    []
    [user 1 "Ann" "A"; user 2 "Bob" "B"].

(** Three users with the same record, whose names differ in case. *)
Definition db_names : DB :=
  mkDB [mkSeason 1 2024 true] [wk1] []
    [game 1 100 FINAL 21 14]
    [mkPick 1 1 1 10; mkPick 2 2 1 10; mkPick 3 3 1 10]
    []
    [user 1 "carl" "Z"; user 2 "Amy" "Z"; user 3 "bob" "Z"].

(** A remote that knows event 401 and answers 404 for anything else. *)
Definition lg401 : LiveGame := mkLiveGame "401" "in" (Some 7) (Some 3).

Definition remote1 : Remote :=
  mkRemote (fun e => if String.eqb e "401" then Summary (Some lg401) else StatusError 404)
           (fun _ => 1).

(** Event 401 was cached at time 100; it is now 110. *)
Definition live0 : Live := mkLive {[ "401"%string := (100, lg401) ]} ∅ 110 [].

(** A parser for the one form the scoreboard sends,
    [YYYY-MM-DDTHH:MM+00:00] (the [Z] already replaced); anything else is
    refused.  The reading is in microseconds since the epoch. *)
Definition two_digits (a b : ascii) : option Z :=
  match digit_of a, digit_of b with
  | Some x, Some y => Some (10 * x + y)
  | _, _ => None
  end.

Definition days_from_civil (y m d : Z) : Z :=
  let y' := if m <=? 2 then y - 1 else y in
  let era := y' / 400 in
  let yoe := y' - era * 400 in
  let mp := (m + 9) mod 12 in
  let doy := (153 * mp + 2) / 5 + d - 1 in
  let doe := yoe * 365 + yoe / 4 - yoe / 100 + doy in
  era * 146097 + doe - 719468.

Definition iso_basic (s : string) : option (Z * option Z) :=
  match s with
  | String y1 (String y2 (String y3 (String y4 (String "-" (String m1 (String m2
      (String "-" (String d1 (String d2 (String "T" (String h1 (String h2
      (String ":" (String n1 (String n2 "+00:00"))))))))))))))) =>
      match two_digits y1 y2, two_digits y3 y4, two_digits m1 m2,
            two_digits d1 d2, two_digits h1 h2, two_digits n1 n2 with
      | Some ya, Some yb, Some mo, Some d, Some h, Some n =>
          Some (((days_from_civil (100 * ya + yb) mo d * 24 + h) * 60 + n) * 60000000,
                Some 0)
      | _, _, _, _, _, _ => None
      end
  | _ => None
  end.

(** [str(v)] of a list, a dict, a boolean or [None] is never reached by
    the fixtures. *)
Definition repr_none (v : json) : string := "".

Definition competitor (side abbr : string) : json :=
  JObj [("homeAway"%string, JStr side);
        ("team"%string, JObj [("abbreviation"%string, JStr abbr)])].

Definition event (id date home away : string) : json :=
  JObj [("id"%string, JStr id);
        ("competitions"%string,
         JArr [JObj [("date"%string, JStr date);
                     ("competitors"%string,
                      JArr [competitor "home" home; competitor "away" away])]])].

Definition ev_good : json := event "401" "2024-09-05T20:20Z" "KC" "BAL".
Definition ev_bad_date : json := event "402" "next thursday" "PHI" "GB".
Definition ev_no_teams : json :=
  JObj [("id"%string, JStr "403");
        ("competitions"%string, JArr [JObj [("date"%string, JStr "2024-09-08T17:00Z")]])].
Definition ev_not_object : json := JStr "oops".

(** A store with the three teams and no season, week or game. *)
Definition db_teams : DB :=
  mkDB [] [] [mkTeam 1 "KC" []; mkTeam 2 "BAL" []; mkTeam 3 "ARI" ["ARZ"%string]] [] [] [] [].

Definition payload1 : list ProviderGame :=
  [mkPG "KC" "BAL" (utc 5000) (Some "401"%string); mkPG "arz" "KC" (utc 6000) None].

(** The same event id twice, with two start times. *)
Definition payload_dup : list ProviderGame :=
  [mkPG "KC" "BAL" (utc 5000) (Some "401"%string);
   mkPG "KC" "BAL" (utc 6000) (Some "401"%string)].

(** Week 1 opens at time 1000; Ann holds the guess 40. *)
Definition db_picks : DB :=
  mkDB [mkSeason 1 2024 true] [wk1] []
    [game 1 2000 SCHEDULED 0 0; game 2 3000 SCHEDULED 0 0]
    []
    [mkTB 1 1 1 40]
    [user 1 "Ann" "A"; user 2 "Bob" "B"].

Definition bob : User := user 2 "Bob" "B".

End Fixture.

(** The value an event's turn reads its start time from,
    [comp.get("date") or ev.get("date")]. *)
Definition event_date (ev : json) : json :=
  match ev with
  | JObj f =>
      match fields_get f "competitions" with
      | JArr (JObj c :: _) => jor (fields_get c "date") (fields_get f "date")
      | _ => JNull
      end
  | _ => JNull
  end.

(** The ids of the winners and of the losers a result names. *)
Definition lunch_winner_ids (l : Lunch) : list Z :=
  match l with LunchFull r => map dto_user_id (winner_users r) | _ => [] end.

Definition lunch_loser_ids (l : Lunch) : list Z :=
  match l with LunchFull r => map dto_user_id (loser_users r) | _ => [] end.

(** The teams an entry of the payload resolves to, as the loop body looks
    them up. *)
Definition resolve (lookup : gmap string Team) (pg : ProviderGame) : option (Team * Team) :=
  match lookup !! upper (home_abbr pg), lookup !! upper (away_abbr pg) with
  | Some home, Some away => Some (home, away)
  | _, _ => None
  end.

(** The week an import is for: the one found or created. *)
Definition target_week (b : Backend) (db : DB) (season_year week_number season_type now : Z)
    : Week :=
  snd (ensure_week b (fst (ensure_season db season_year)) (snd (ensure_season db season_year))
         week_number season_type now).

(** Entries of a payload that carry the same event id describe the same
    game. *)
Definition consistent_ids (payload : list ProviderGame) : Prop :=
  forall pg pg', In pg payload -> In pg' payload ->
    opt_truthy (provider_game_id pg) = true ->
    provider_game_id pg = provider_game_id pg' ->
    upper (home_abbr pg) = upper (home_abbr pg') /\
    upper (away_abbr pg) = upper (away_abbr pg') /\
    start_time pg = start_time pg'.

(** A stored game already is what the entry says. *)
Definition agrees (g : Game) (home away : Team) (pg : ProviderGame) : Prop :=
  g_start_time g = start_time pg /\
  g_home_team_id g = t_id home /\ g_away_team_id g = t_id away /\
  (opt_truthy (provider_game_id pg) = true -> g_provider_game_id g = provider_game_id pg).

(** Every entry that resolves finds a stored game that agrees with it. *)
Definition settled (b : Backend) (rows : list Game) (week_id : Z)
    (lookup : gmap string Team) (payload : list ProviderGame) : Prop :=
  forall pg home away, In pg payload -> resolve lookup pg = Some (home, away) ->
    exists row, find_game b rows week_id home away pg = Some row /\ agrees row home away pg.

(** The whole ranking of a season, of which the board is the head. *)
Definition full_board (db : DB) (season : Season) : list Entry :=
  let wbg := winners_by_game (season_final_games db season) in
  let '(correct_counts, pick_counts) := count_picks wbg (picks_on db (decided_ids wbg)) in
  let user_ids := dict_keys pick_counts in
  py_sort entry_lt
    (map (board_entry (name_by_id (users_in db user_ids)) correct_counts pick_counts) user_ids).

(** ** Notions used in the proofs *)

(** [winners_by_game], started from a dictionary already filled. *)
Definition wbg_from (d : list (Z * option Z)) (fg : list Game) : list (Z * option Z) :=
  fold_left (fun d g => dict_set d (g_id g) (game_winner g)) fg d.

(** A pick is counted when its game has a recorded winner. *)
Definition counted (wbg : list (Z * option Z)) (p : Pick) : bool :=
  match dict_get wbg (p_game_id p) with Some (Some _) => true | _ => false end.

(** The counting loop, started from counts already made. *)
Definition count_from (wbg : list (Z * option Z)) (acc : list (Z * Z) * list (Z * Z))
    (ps : list Pick) : list (Z * Z) * list (Z * Z) :=
  fold_left (count_step wbg) ps acc.

(** [tb_by_user], started from a dictionary already filled. *)
Definition tbu_from (d : list (Z * Z)) (ts : list TieBreaker) : list (Z * Z) :=
  fold_left (fun d t => dict_set d (tb_user_id t) (tb_guess_points t)) ts d.

(** [<] on the second component of [_loss_key]. *)
Definition dist_lt (a b : Dist) : Prop :=
  match a, b with
  | Fin x, Fin y => x < y
  | Fin _, Inf => True
  | Inf, _ => False
  end.

(** [a] may stand before [b]: [b] is not smaller. *)
Definition before {A : Type} (lt : A -> A -> bool) (a b : A) : Prop :=
  lt b a = false.

(** The order of the board. *)
Definition entry_before : Entry -> Entry -> Prop := before entry_lt.

(** The two tests of the first loop of [bulk_fetch_live_events]. *)
Definition neg_live (force : bool) (now : Z) (s : Live) (eid : string) : bool :=
  (negb force && match _NEG_CACHE s !! eid with Some e => now <=? e | None => false end)%bool.

Definition fresh (ttl : Z) (force : bool) (now : Z) (s : Live) (eid : string) : bool :=
  (negb force && match _CACHE s !! eid with
                 | Some (t, _) => now - t <=? ttl
                 | None => false
                 end)%bool.

Definition needs_fetch (ttl : Z) (force : bool) (now : Z) (s : Live) (eid : string) : bool :=
  (negb (neg_live force now s eid) && negb (fresh ttl force now s eid))%bool.

(** The start times the loop collects: one per entry that resolves. *)
Definition resolved_times (lookup : gmap string Team) (payload : list ProviderGame)
    : list datetime :=
  flat_map (fun pg => match resolve lookup pg with Some _ => [start_time pg] | None => [] end)
    payload.

(** The games the loop creates when nothing matches. *)
Definition new_games (sid wk : Z) (lookup : gmap string Team) (payload : list ProviderGame)
    : list Game :=
  flat_map (fun pg => match resolve lookup pg with
                      | Some (home, away) =>
                          [mkGame 0 sid wk (t_id home) (t_id away) (start_time pg)
                                  SCHEDULED 0 0 (provider_game_id pg)]
                      | None => []
                      end) payload.

(** The filter of the week look-up of [import_week_schedule]. *)
Definition week_pred (season : Season) (week_number season_type : Z) (w : Week) : bool :=
  ((w_season_id w =? s_id season) && (w_week_number w =? week_number)
   && (w_season_type w =? season_type))%bool.

(** ** The week a page opens on ([_get_current_week]) *)

Definition kickoff (w : Week) : Z := dt_ticks (w_first_kickoff_at w).

(** [.filter(Week.first_kickoff_at >= now)] *)
Definition upcoming_weeks (now : Z) (ws : list Week) : list Week :=
  List.filter (fun w => now <=? kickoff w) ws.

(** [.order_by(Week.first_kickoff_at.asc()).first()] and
    [.order_by(Week.first_kickoff_at.desc()).first()].  Among weeks with
    the same kickoff SQL promises no order; the first row of the table is
    taken here, and nothing below depends on that choice. *)
Definition earliest (ws : list Week) : option Week := py_max kickoff Z.gtb ws.
Definition latest (ws : list Week) : option Week := py_max kickoff Z.ltb ws.

Module Dashboard.

(** [_get_current_week] of [app/routers/dashboard.py] *)
Definition _get_current_week (db : DB) (now : Z) : option Week :=
  match earliest (upcoming_weeks now (weeks db)) with
  | Some upcoming => Some upcoming
  | None => latest (weeks db)
  end.

End Dashboard.

Module Picks.

(** [_get_current_week] of [app/routers/picks.py] (and, word for word, of
    [app/routers/admin.py]).  Its first two queries are those of
    [_active_season] without a selected week. *)
Definition _get_current_week (db : DB) (now : Z) : option Week :=
  let in_season :=
    match _active_season db None with
    | Some season =>
        let ws := List.filter (fun w => w_season_id w =? s_id season) (weeks db) in
        match earliest (upcoming_weeks now ws) with
        | Some upcoming => Some upcoming
        | None => latest ws
        end
    | None => None
    end in
  match in_season with
  | Some w => Some w
  | None =>
      match earliest (upcoming_weeks now (weeks db)) with
      | Some upcoming_any => Some upcoming_any
      | None => latest (weeks db)
      end
  end.

End Picks.

(** ** What the pages share: the selected week and its neighbours *)

(** A page: a redirect to the login or to the change of password, or the
    context the template is rendered with. *)
Inductive Page (C : Type) :=
| ToLoginPage
| ToChangePasswordPage
| Render (ctx : C).
Arguments ToLoginPage {C}.
Arguments ToChangePasswordPage {C}.
Arguments Render {C} ctx.

(** The week of the query string if it names one, else the current week. *)
Definition selected_week (db : DB) (week : option Z) (current : option Week) : option Week :=
  match week with
  | Some i =>
      match List.find (fun w => w_id w =? i) (weeks db) with
      | Some w => Some w
      | None => current
      end
  | None => current
  end.

(** [.order_by(Week.season_type, Week.week_number)] *)
Definition segment_lt (a b : Week) : bool :=
  if w_season_type a =? w_season_type b then w_week_number a <? w_week_number b
  else w_season_type a <? w_season_type b.

(** The weeks of the selector: the season of the selected week, all
    segments.  Rows equal under [ORDER BY] are kept in table order. *)
Definition season_weeks (db : DB) (sel : option Week) : list Week :=
  match sel with
  | Some s =>
      py_sort segment_lt (List.filter (fun w => w_season_id w =? w_season_id s) (weeks db))
  | None => []
  end.

(** The weeks of the selector of [dashboard_content]: the season and the
    segment of the selected week, by number. *)
Definition segment_weeks (db : DB) (sel : option Week) : list Week :=
  match sel with
  | Some s =>
      py_sort (fun a b => w_week_number a <? w_week_number b)
        (List.filter (fun w => (w_season_id w =? w_season_id s)
                               && (w_season_type w =? w_season_type s))%bool (weeks db))
  | None => []
  end.

(** [l.index(x)]; [None] stands for [ValueError]. *)
Fixpoint index_of (x : Z) (l : list Z) : option nat :=
  match l with
  | [] => None
  | y :: l' => if y =? x then Some O else option_map S (index_of x l')
  end.

(** The block under [# Prev/Next helpers]. *)
Definition prev_next (weeks : list Week) (sel : option Week) : option Week * option Week :=
  match sel with
  | Some s =>
      match index_of (w_id s) (map w_id weeks) with
      | Some idx =>
          (if 0 <? Z.of_nat idx then nth_error weeks (idx - 1) else None,
           if Z.of_nat idx <? Z.of_nat (length weeks) - 1 then nth_error weeks (idx + 1)
           else None)
      | None => (None, None)
      end
  | None => (None, None)
  end.

(** [db.query(Game).filter(Game.week_id == w.id).order_by(Game.start_time).all()] *)
Definition games_by_start (db : DB) (sel : option Week) : list Game :=
  match sel with
  | Some w =>
      py_sort (fun a b => dt_ticks (g_start_time a) <? dt_ticks (g_start_time b))
        (week_games db w)
  | None => []
  end.

(** [{p.game_id: p.chosen_team_id for p in rows}] for the user's picks on
    the listed games. *)
Definition picks_by_game (db : DB) (uid : Z) (game_ids : list Z) : list (Z * Z) :=
  match game_ids with
  | [] => []
  | _ =>
      fold_left (fun d p => dict_set d (p_game_id p) (p_chosen_team_id p))
        (List.filter (fun p => (p_user_id p =? uid) && in_Z (p_game_id p) game_ids)%bool
           (picks db)) []
  end.

(** [teams_by_id] for the two sides of every listed game. *)
Definition teams_of_games (db : DB) (gs : list Game) : list (Z * Team) :=
  let team_ids := flat_map (fun g => [g_home_team_id g; g_away_team_id g]) gs in
  match team_ids with
  | [] => []
  | _ =>
      fold_left (fun d t => dict_set d (t_id t) t)
        (List.filter (fun t => in_Z (t_id t) team_ids) (teams db)) []
  end.

(** [tb_guess]: the guess of the user's tiebreaker for the week. *)
Definition tb_guess_of (db : DB) (uid : Z) (sel : option Week) : option Z :=
  match sel with
  | Some w =>
      option_map tb_guess_points
        (List.find (fun t => (tb_user_id t =? uid) && (tb_week_id t =? w_id w))%bool
           (tiebreakers db))
  | None => None
  end.

(** ** The picks page ([picks_page] of [app/routers/picks.py]) *)

Record PicksCtx := mkPicksCtx {
  pc_weeks : list Week;
  pc_selected_week : option Week;
  pc_games : list Game;
  pc_teams_by_id : list (Z * Team);
  pc_existing_picks : list (Z * Z);
  pc_tb_guess : option Z;
  pc_locked : bool;
  pc_err : option string;
  pc_ok : option string;
  pc_prev_week : option Week;
  pc_next_week : option Week }.

(** [picks_page]: the signed-in user, the [week], [err] and [ok] of the
    query string, and the two readings of the clock, in
    [_get_current_week] and in [is_locked].  Nothing in the [try] block
    raises on a store of this model, so the fallback context of the
    [except] is never rendered. *)
Definition picks_page (db : DB) (now now' : Z) (current_user : option User)
    (week : option Z) (err ok : option string) : Page PicksCtx :=
  match current_user with
  | None => ToLoginPage
  | Some user =>
      if u_must_change_password user then ToChangePasswordPage else
      let sel := selected_week db week (Picks._get_current_week db now) in
      let weeks := season_weeks db sel in
      let '(prev_week, next_week) := prev_next weeks sel in
      let games := games_by_start db sel in
      let game_ids := map g_id games in
      Render (mkPicksCtx weeks sel games (teams_of_games db games)
                (picks_by_game db (u_id user) game_ids)
                (tb_guess_of db (u_id user) sel)
                (match sel with Some w => is_locked w now' | None => true end)
                err ok prev_week next_week)
  end.

(** ** The dashboard ([dashboard], [dashboard_content]) *)

Record DashboardCtx := mkDashboardCtx {
  dc_selected_week : option Week;
  dc_weeks : list Week;
  dc_prev_week : option Week;
  dc_next_week : option Week;
  dc_needs_picks : bool;
  dc_picks_made : Z;
  dc_total_games : Z;
  dc_missing : Z;
  dc_leaderboard : list Entry;
  dc_decided_games_count : Z;
  dc_lunch : Lunch }.

(** The block under [# User picks progress for this week]:
    [(total_games, picks_made, missing, needs_picks)]. *)
Definition pick_progress (db : DB) (now' : Z) (user : User) (sel : option Week)
    : Z * Z * Z * bool :=
  match sel with
  | None => (0, 0, 0, false)
  | Some w =>
      let games := week_games db w in
      let total_games := Z.of_nat (length games) in
      let game_ids := map g_id games in
      let picks_made :=
        match game_ids with
        | [] => 0
        | _ => Z.of_nat (length (List.filter
                                   (fun p => (p_user_id p =? u_id user)
                                             && in_Z (p_game_id p) game_ids)%bool (picks db)))
        end in
      let missing := Z.max 0 (total_games - picks_made) in
      (total_games, picks_made, missing, ((0 <? missing) && negb (is_locked w now'))%bool)
  end.

Definition dashboard_ctx (db : DB) (now now' : Z) (user : User) (week : option Z)
    (weeks_of : DB -> option Week -> list Week) : DashboardCtx :=
  let sel := selected_week db week (Dashboard._get_current_week db now) in
  let weeks := weeks_of db sel in
  let '(prev_week, next_week) := prev_next weeks sel in
  let '(total_games, picks_made, missing, needs_picks) := pick_progress db now' user sel in
  let '(leaderboard, decided_games_count) := _season_leaderboard db sel in
  mkDashboardCtx sel weeks prev_week next_week needs_picks picks_made total_games missing
    leaderboard decided_games_count (_weekly_lunch db sel).

(** [dashboard] *)
Definition dashboard (db : DB) (now now' : Z) (current_user : option User)
    (week : option Z) : Page DashboardCtx :=
  match current_user with
  | None => ToLoginPage
  | Some user =>
      if u_must_change_password user then ToChangePasswordPage
      else Render (dashboard_ctx db now now' user week season_weeks)
  end.

(** [dashboard_content]: the same context with the weeks of the segment,
    and the [HX-Push-Url] header. *)
Definition dashboard_content (db : DB) (now now' : Z) (current_user : option User)
    (week : option Z) : Page (DashboardCtx * string) :=
  match current_user with
  | None => ToLoginPage
  | Some user =>
      if u_must_change_password user then ToChangePasswordPage
      else
        let ctx := dashboard_ctx db now now' user week segment_weeks in
        Render (ctx, match dc_selected_week ctx with
                     | Some w => ("/dashboard?week=" ++ pretty (w_id w))%string
                     | None => "/dashboard"%string
                     end)
  end.

(** ** The live board ([dashboard_live]) *)

(** [LiveGame.is_live] and [LiveGame.is_final] *)
Definition is_live (lg : LiveGame) : bool := String.eqb (lg_state lg) "in".
Definition is_final (lg : LiveGame) : bool := String.eqb (lg_state lg) "post".

(** An entry of [picks_summary].  [home_users] and [away_users], which
    pair each name of [home_all] and [away_all] with an avatar URL, are
    left out, as the avatar is in [UserDTO]. *)
Record GameSummary := mkGameSummary {
  home_count : Z; away_count : Z;
  home_names : list string; away_names : list string;
  home_all : list string; away_all : list string }.

(** [names.append(name)] under [if len(names) < 6] *)
Definition sample (names : list string) (name : string) : list string :=
  if Z.of_nat (length names) <? 6 then names ++ [name] else names.

(** One turn of [for p in all_picks]. *)
Definition summary_step (games : list Game) (nbi : list (Z * string))
    (by_game : list (Z * GameSummary)) (p : Pick) : list (Z * GameSummary) :=
  match dict_get by_game (p_game_id p) with
  | None => by_game
  | Some gmap =>
      let name := name_of nbi (p_user_id p) in
      match List.find (fun x => g_id x =? p_game_id p) games with
      | None => by_game
      | Some g =>
          if p_chosen_team_id p =? g_home_team_id g then
            dict_set by_game (p_game_id p)
              (mkGameSummary (home_count gmap + 1) (away_count gmap)
                 (sample (home_names gmap) name) (away_names gmap)
                 (home_all gmap ++ [name]) (away_all gmap))
          else if p_chosen_team_id p =? g_away_team_id g then
            dict_set by_game (p_game_id p)
              (mkGameSummary (home_count gmap) (away_count gmap + 1)
                 (home_names gmap) (sample (away_names gmap) name)
                 (home_all gmap) (away_all gmap ++ [name]))
          else by_game
      end
  end.

(** The block under [# Who picked who]. *)
Definition picks_summary (db : DB) (games : list Game) : list (Z * GameSummary) :=
  match map g_id games with
  | [] => []
  | game_ids =>
      let all_picks := picks_on db game_ids in
      let users := users_in db (map p_user_id all_picks) in
      let by_game :=
        fold_left (fun d g => dict_set d (g_id g) (mkGameSummary 0 0 [] [] [] [])) games [] in
      fold_left (summary_step games (name_by_id users)) all_picks by_game
  end.

(** [[g.provider_game_id for g in games if g.provider_game_id and
    g.status != GameStatus.FINAL]] *)
Definition live_event_ids (games : list Game) : list string :=
  flat_map (fun g =>
              match g_provider_game_id g with
              | Some e => if (str_truthy e && negb (status_eqb (g_status g) FINAL))%bool
                          then [e] else []
              | None => []
              end) games.

(** [live_map.get(g.provider_game_id) if g.provider_game_id else None] *)
Definition live_of (live_map : gmap string LiveGame) (g : Game) : option LiveGame :=
  match g_provider_game_id g with
  | Some e => if str_truthy e then live_map !! e else None
  | None => None
  end.

(** One turn of the loop under [# Group games by status for UI sections];
    the accumulator is [(live_games, upcoming_games, final_games)]. *)
Definition group_step (live_map : gmap string LiveGame)
    (acc : list Game * list Game * list Game) (g : Game)
    : list Game * list Game * list Game :=
  let '(live_games, upcoming_games, final_games) := acc in
  let lg := live_of live_map g in
  if (status_eqb (g_status g) FINAL || match lg with Some l => is_final l | None => false end)%bool
  then (live_games, upcoming_games, final_games ++ [g])
  else if match lg with Some l => is_live l | None => false end
       then (live_games ++ [g], upcoming_games, final_games)
       else (live_games, upcoming_games ++ [g], final_games).

Definition group_games (live_map : gmap string LiveGame) (games : list Game)
    : list Game * list Game * list Game :=
  fold_left (group_step live_map) games ([], [], []).

(** The demo card of the live board: [teams_by_id] (to which two teams may
    be added), [demo_home], [demo_away], [demo_live]. *)
Definition demo_card (db : DB) (games : list Game) (teams_by_id : list (Z * Team))
    : list (Z * Team) * option Team * option Team * option LiveGame :=
  let base_home_id := option_map g_home_team_id (head games) in
  let base_away_id := option_map g_away_team_id (head games) in
  let falsy (i : option Z) := match i with Some x => x =? 0 | None => true end in
  let '(teams_by_id', home_id, away_id) :=
    if ((falsy base_home_id || falsy base_away_id)
        && match teams_by_id with [] => true | _ => false end)%bool
    then match firstn 2 (teams db) with
         | [a; b] => (dict_set (dict_set teams_by_id (t_id a) a) (t_id b) b,
                      Some (t_id a), Some (t_id b))
         | _ => (teams_by_id, base_home_id, base_away_id)
         end
    else (teams_by_id, base_home_id, base_away_id) in
  let get (i : option Z) := if falsy i then None else
                              match i with Some x => dict_get teams_by_id' x | None => None end in
  (teams_by_id', get home_id, get away_id,
   Some (mkLiveGame "demo" "in" (Some 14) (Some 17))).

Record LiveCtx := mkLiveCtx {
  lc_games : list Game;
  lc_teams_by_id : list (Z * Team);
  lc_user_picks : list (Z * Z);
  lc_picks_summary : list (Z * GameSummary);
  lc_live_map : gmap string LiveGame;
  lc_selected_week : option Week;
  lc_live_games : list Game;
  lc_upcoming_games : list Game;
  lc_final_games : list Game;
  lc_refresh_interval : Z;
  lc_demo_mode : bool;
  lc_demo_home : option Team;
  lc_demo_away : option Team;
  lc_demo_live : option LiveGame }.

Section LivePages.

Variables (_CACHE_TTL_SECONDS _NEGATIVE_TTL_SECONDS : Z).
Variable remote : Remote.
Variable set_iter : list string -> list string.

(** [dashboard_live]: the page and the state of the live cache after it. *)
Definition dashboard_live (db : DB) (now : Z) (current_user : option User)
    (week : option Z) (demo : option Z) (s : Live) : Page LiveCtx * Live :=
  match current_user with
  | None => (ToLoginPage, s)
  | Some user =>
      if u_must_change_password user then (ToChangePasswordPage, s) else
      let sel := selected_week db week (Dashboard._get_current_week db now) in
      let games := games_by_start db sel in
      let teams_by_id := teams_of_games db games in
      let game_ids := map g_id games in
      let user_picks := picks_by_game db (u_id user) game_ids in
      let summary := picks_summary db games in
      let event_ids := live_event_ids games in
      let '(live_map, s') :=
        match event_ids with
        | [] => (∅, s)
        | _ => bulk_fetch_live_events _CACHE_TTL_SECONDS _NEGATIVE_TTL_SECONDS remote set_iter
                 event_ids false s
        end in
      let '(live_games, upcoming_games, final_games) := group_games live_map games in
      let refresh_interval := match live_games with [] => 60 | _ => 15 end in
      let demo_mode := match demo with Some d => negb (d =? 0) | None => false end in
      let '(teams_by_id', demo_home, demo_away, demo_live) :=
        if demo_mode then demo_card db games teams_by_id
        else (teams_by_id, None, None, None) in
      (Render (mkLiveCtx games teams_by_id' user_picks summary live_map sel
                 live_games upcoming_games final_games refresh_interval
                 demo_mode demo_home demo_away demo_live), s')
  end.

(** ** The live scoreboard job ([run_live_scoreboard] of
    [app/services/scheduler.py]) *)

(** The mapping of ESPN states to [GameStatus]. *)
Definition status_of_state (state : string) : GameStatus :=
  if String.eqb state "in" then IN_PROGRESS
  else if String.eqb state "post" then FINAL
  else SCHEDULED.

Definition set_status (g : Game) (st : GameStatus) : Game :=
  mkGame (g_id g) (g_season_id g) (g_week_id g) (g_home_team_id g) (g_away_team_id g)
         (g_start_time g) st (g_home_score g) (g_away_score g) (g_provider_game_id g).

Definition set_scores (g : Game) (home away : option Z) : Game :=
  mkGame (g_id g) (g_season_id g) (g_week_id g) (g_home_team_id g) (g_away_team_id g)
         (g_start_time g) (g_status g)
         (match home with Some h => h | None => g_home_score g end)
         (match away with Some a => a | None => g_away_score g end)
         (g_provider_game_id g).

(** The body of [for g in games] once a summary is found. *)
Definition apply_summary (lg : LiveGame) (g : Game) : Game :=
  set_scores (set_status g (status_of_state (lg_state lg))) (lg_home_score lg) (lg_away_score lg).

(** Six and ten hours, in the ticks of [datetime]. *)
Definition hours (n : Z) : Z := n * 3600 * 1000000.

(** The filter of the job's query: a provider id, a start between six
    hours ago and ten hours ahead, and not Final. *)
Definition in_window (now : Z) (g : Game) : bool :=
  (match g_provider_game_id g with Some _ => true | None => false end
   && (now - hours 6 <=? dt_ticks (g_start_time g))
   && (dt_ticks (g_start_time g) <=? now + hours 10)
   && negb (status_eqb (g_status g) FINAL))%bool.

(** [run_live_scoreboard], at the reading [now] of [datetime.now]: the
    store and the cache it leaves.  [session_scope] commits on exit. *)
Definition run_live_scoreboard (db : DB) (now : Z) (s : Live) : DB * Live :=
  let selected := List.filter (in_window now) (games db) in
  let event_ids :=
    flat_map (fun g => match g_provider_game_id g with
                       | Some e => if str_truthy e then [e] else []
                       | None => []
                       end) selected in
  match event_ids with
  | [] => (db, s)
  | _ =>
      let '(live, s') :=
        bulk_fetch_live_events _CACHE_TTL_SECONDS _NEGATIVE_TTL_SECONDS remote set_iter
          event_ids false s in
      (with_games db
         (map (fun g =>
                 if in_window now g then
                   match live !! default EmptyString (g_provider_game_id g) with
                   | Some lg => apply_summary lg g
                   | None => g
                   end
                 else g) (games db)), s')
  end.

End LivePages.

(** ** The administrator's save ([admin_picks_save] of
    [app/routers/admin.py]) *)



(** ** Deleting a user ([admin_user_delete] of [app/routers/admin.py]) *)

(** The redirects of [admin_user_delete]: to [/login], [/dashboard],
    [/profile/change-password?force=1], and to [/admin/users] with
    [err=notfound], [err=cant_delete_self] or [ok=deleted]. *)
Inductive UserDeleteReply :=
| DelToLogin
| DelToDashboard
| DelToChangePassword
| DelNotFound
| DelCantDeleteSelf
| DelDeleted.

(** [db.delete(target); db.commit()]: the row goes, and with it, by the
    cascades of [User.picks] and [User.tiebreakers], the picks and the
    tiebreakers of the user. *)
Definition delete_user (db : DB) (target : User) : DB :=
  mkDB (seasons db) (weeks db) (teams db) (games db)
       (List.filter (fun p => negb (p_user_id p =? u_id target)) (picks db))
       (List.filter (fun t => negb (tb_user_id t =? u_id target)) (tiebreakers db))
       (List.filter (fun u => negb (u_id u =? u_id target)) (users db)).

Definition admin_user_delete (db : DB) (current_user : option User) (user_id : Z)
    : DB * UserDeleteReply :=
  match current_user with
  | None => (db, DelToLogin)
  | Some user =>
      if negb (u_is_admin user) then (db, DelToDashboard) else
      if u_must_change_password user then (db, DelToChangePassword) else
      match List.find (fun u => u_id u =? user_id) (users db) with
      | None => (db, DelNotFound)
      | Some target =>
          if u_id target =? u_id user then (db, DelCantDeleteSelf)
          else (delete_user db target, DelDeleted)
      end
  end.

(** ** A whole season ([import_full_season] of
    [app/services/nfl/importer.py]) *)

(** One call of [import_week_schedule] in a session that other calls
    share: the store as the session sees it after the call, the count
    returned, and whether the call reached [db.commit()].  With an empty
    answer it returns before; the season and the week it flushed stay in
    the session, to be committed by a later call or dropped when the
    session is closed. *)
Definition import_week_in_session (b : Backend) (view : DB) (payload : list ProviderGame)
    (season_year week_number season_type now : Z) : DB * Z * bool :=
  match payload with
  | [] =>
      (fst (ensure_week b (fst (ensure_season view season_year))
              (snd (ensure_season view season_year)) week_number season_type now),
       0, false)
  | _ =>
      (fst (import_week_schedule b view payload season_year week_number season_type now),
       snd (import_week_schedule b view payload season_year week_number season_type now),
       true)
  end.

(** The [summary] dict. *)
Record SeasonSummary := mkSummary {
  sm_pre : Z; sm_reg : Z; sm_post : Z; sm_total : Z; sm_weeks : Z }.

(** The state of a run: the store as the session sees it, the store as
    committed, and the counters of [summary]. *)
Record SeasonRun := mkRun {
  run_view : DB; run_store : DB;
  run_pre : Z; run_reg : Z; run_post : Z; run_weeks : Z }.

(** [range(a, b)] *)
Definition py_range (a b : Z) : list Z :=
  map (fun i => a + Z.of_nat i) (seq 0 (Z.to_nat (b - a))).

Section FullSeason.

Variable b : Backend.
(** [provider.get_week_schedule(season_year, wk, season_type)], and the
    reading of the clock in the call for that week. *)
Variable provider : Z -> Z -> list ProviderGame.
Variable clock : Z -> Z -> Z.
Variable season_year : Z.

(** One turn of one of the three loops: the call, and
    [if c > 0: summary[key] += c; summary["weeks"] += 1]. *)
Definition season_step (season_type : Z) (r : SeasonRun) (wk : Z) : SeasonRun :=
  let '(view', c, committed) :=
    import_week_in_session b (run_view r) (provider wk season_type) season_year wk season_type
      (clock wk season_type) in
  let store' := if committed then view' else run_store r in
  if 0 <? c then
    mkRun view' store'
      (if season_type =? 1 then run_pre r + c else run_pre r)
      (if season_type =? 2 then run_reg r + c else run_reg r)
      (if season_type =? 3 then run_post r + c else run_post r)
      (run_weeks r + 1)
  else mkRun view' store' (run_pre r) (run_reg r) (run_post r) (run_weeks r).

(** [import_full_season], called on a session whose store is [db] and
    which is closed afterwards: the store it leaves and the summary. *)
Definition import_full_season (db : DB) (include_preseason include_postseason : bool)
    : DB * SeasonSummary :=
  let r0 := mkRun db db 0 0 0 0 in
  let r1 := if include_preseason then fold_left (season_step 1) (py_range 1 5) r0 else r0 in
  let r2 := fold_left (season_step 2) (py_range 1 19) r1 in
  let r3 := if include_postseason then fold_left (season_step 3) (py_range 1 6) r2 else r2 in
  (run_store r3,
   mkSummary (run_pre r3) (run_reg r3) (run_post r3)
     (run_pre r3 + run_reg r3 + run_post r3) (run_weeks r3)).

End FullSeason.

(** ** Refreshing the logos ([refresh_team_logos] of
    [app/services/nfl/importer.py]) *)

(** A row of the teams table with all its columns ([app/models/team.py]);
    [Team] above is what the pages and the import read of it. *)
Record TeamRow := mkTeamRow {
  tr_id : Z; tr_slug : string; tr_name : string; tr_location : option string;
  tr_abbr : string; tr_alt_abbrs : option string; tr_logo_path : option string }.

(** [ProviderTeam] of [app/services/nfl/base.py] *)
Record ProviderTeam := mkPT {
  pt_abbr : string; pt_name : string; pt_location : string;
  pt_slug : option string; pt_alt_abbrs : option (list string);
  pt_logo_path : option string }.

Definition set_logo_path (t : TeamRow) (p : option string) : TeamRow :=
  mkTeamRow (tr_id t) (tr_slug t) (tr_name t) (tr_location t) (tr_abbr t)
            (tr_alt_abbrs t) p.

(** [{t.abbr.upper(): t for t in db.query(Team).all()}].  The values are
    the row objects of the session, which the loop changes in place: they
    are named here by their place in the table.  A later row takes the key
    of an earlier one. *)
Fixpoint by_abbr_from (i : nat) (rows : list TeamRow) (m : gmap string nat)
    : gmap string nat :=
  match rows with
  | [] => m
  | t :: rest => by_abbr_from (S i) rest (<[upper (tr_abbr t) := i]> m)
  end.

Definition by_abbr_of (rows : list TeamRow) : gmap string nat := by_abbr_from 0 rows ∅.

(** One turn of [for pt in provider_teams], on the rows as the turns
    before left them and the two counters. *)
Definition refresh_step (by_abbr : gmap string nat) (st : list TeamRow * Z * Z)
    (pt : ProviderTeam) : list TeamRow * Z * Z :=
  let '(rows, updated, skipped) := st in
  match by_abbr !! upper (pt_abbr pt) with
  | None => (rows, updated, skipped + 1)
  | Some i =>
      match rows !! i with
      | None => (rows, updated, skipped + 1)   (* no such case: [i] is a place of the table *)
      | Some t =>
          if negb (opt_truthy (pt_logo_path pt)) then (rows, updated, skipped + 1)
          else if negb (opt_str_eqb (tr_logo_path t) (pt_logo_path pt))
          then (<[i := set_logo_path t (pt_logo_path pt)]> rows, updated + 1, skipped)
          else (rows, updated, skipped + 1)
      end
  end.

(** [refresh_team_logos]: the table after [db.commit()] and
    [(updated, skipped)].  Only [logo_path] is written, a nullable column
    under no constraint (SQLite, the default store, does not enforce its
    declared length), so the commit writes the rows as the loop left
    them. *)
Definition refresh_team_logos (rows : list TeamRow) (provider_teams : list ProviderTeam)
    : list TeamRow * (Z * Z) :=
  let by_abbr := by_abbr_of rows in
  let '(rows', updated, skipped) :=
    fold_left (refresh_step by_abbr) provider_teams (rows, 0, 0) in
  (rows', (updated, skipped)).

(** ** Further notions used in the statements and proofs *)

(** A pick that the counting loop scores a point for. *)
Definition hits (wbg : list (Z * option Z)) (p : Pick) : bool :=
  match dict_get wbg (p_game_id p) with
  | Some (Some w) => p_chosen_team_id p =? w
  | _ => false
  end.

(** A pick on a decided game among [gs]; one that names the winner of it. *)
Definition on_decided (gs : list Game) (p : Pick) : bool :=
  existsb (fun g => (g_id g =? p_game_id p) && is_decided g)%bool gs.

(** A pick that names the winner of a decided game among [gs]. *)
Definition names_winner (gs : list Game) (p : Pick) : bool :=
  existsb (fun g => (g_id g =? p_game_id p) && is_decided g
                    && match game_winner g with
                       | Some w => p_chosen_team_id p =? w
                       | None => false
                       end)%bool gs.

(** The picks of a user among [ps] that satisfy [f]. *)
Definition picks_where (uid : Z) (f : Pick -> bool) (ps : list Pick) : list Pick :=
  List.filter (fun p => (p_user_id p =? uid) && f p)%bool ps.

(** The games of a season. *)
Definition season_games (db : DB) (season : Season) : list Game :=
  List.filter (fun g => g_season_id g =? s_id season) (games db).

(** The team is one of the two of the game. *)
Definition plays_in (t : Z) (g : Game) : Prop :=
  t = g_home_team_id g \/ t = g_away_team_id g.

(** [picks_posted] after the fields that name no game of the week are
    dropped. *)
Definition posted_for (db : DB) (week : Week) (form : list (string * string))
    : list (Z * Z) :=
  let games :=
    List.filter (fun g => in_Z (g_id g) (snd (collect_picks form)) && (g_week_id g =? w_id week))%bool
      (games db) in
  fold_left (fun d gid => if in_Z gid (map g_id games) then d else dict_pop d gid)
    (dict_keys (fst (collect_picks form))) (fst (collect_picks form)).

(** The games of the week the form names. *)
Definition posted_games (db : DB) (week : Week) (form : list (string * string))
    : list Game :=
  List.filter (fun g => in_Z (g_id g) (snd (collect_picks form)) && (g_week_id g =? w_id week))%bool
    (games db).

(** The user's pick the upsert finds for a game. *)
Definition by_gid_of (db : DB) (user : User) (posted : list (Z * Z)) : list (Z * Pick) :=
  fold_left (fun d p => dict_set d (p_game_id p) p)
    (List.filter (fun p => (p_user_id p =? u_id user) && in_Z (p_game_id p) (dict_keys posted))%bool
       (picks db)) [].

(** The session a save commits. *)
Definition save_change (db : DB) (user : User) (week : Week) (form : list (string * string))
    : TbChange :=
  match read_tiebreaker form with
  | TbGuess v =>
      match List.find (fun t => (tb_user_id t =? u_id user) && (tb_week_id t =? w_id week))%bool
              (tiebreakers db) with
      | Some existing_tb => TbSet (tb_id existing_tb) v
      | None => TbAdd (u_id user) (w_id week) v
      end
  | _ => TbKeep
  end.

(** The session a save commits: the staged picks and the tiebreaker. *)
Definition save_pending (db : DB) (user : User) (week : Week) (form : list (string * string))
    : Pending :=
  mkPending (fst (stage_picks db user week form)) (snd (stage_picks db user week form))
    (save_change db user week form).


(** A store with three weeks of one season: the first two of the regular
    season, the third of the postseason. *)
Definition db_three_weeks : DB :=
  mkDB [mkSeason 1 2024 true]
    [mkWeek 7 1 1 3 (utc 9000); mkWeek 5 1 2 2 (utc 2000); mkWeek 4 1 1 2 (utc 1000)]
    [] [] [] [] [Fixture.user 1 "Ann" "A"].

(** The user has a pick on the game. *)
Definition has_pick (db : DB) (uid : Z) (g : Game) : bool :=
  existsb (fun p => (p_user_id p =? uid) && (p_game_id p =? g_id g))%bool (picks db).

(** The three tests of the grouping loop of [dashboard_live]. *)
Definition shown_final (live_map : gmap string LiveGame) (g : Game) : bool :=
  (status_eqb (g_status g) FINAL
   || match live_of live_map g with Some l => is_final l | None => false end)%bool.

Definition shown_live (live_map : gmap string LiveGame) (g : Game) : bool :=
  (negb (shown_final live_map g)
   && match live_of live_map g with Some l => is_live l | None => false end)%bool.

Definition shown_upcoming (live_map : gmap string LiveGame) (g : Game) : bool :=
  (negb (shown_final live_map g)
   && negb match live_of live_map g with Some l => is_live l | None => false end)%bool.

(** Week 1 with a Final game and a scheduled one the provider knows as
    event 401. *)
Definition db_live : DB :=
  mkDB [mkSeason 1 2024 true] [Fixture.wk1] []
    [mkGame 1 1 1 10 11 (utc 100) FINAL 21 14 (Some "400"%string);
     mkGame 2 1 1 20 21 (utc 200) SCHEDULED 0 0 (Some "401"%string)]
    [mkPick 1 1 1 10; mkPick 2 2 1 11; mkPick 3 1 2 20] []
    [Fixture.user 1 "Ann" "A"; Fixture.user 2 "Bob" "B"].

(** The name a user id is shown under: the display name of the user, the
    username if that is empty, and [User <id>] without a user row. *)
Definition shown_name (db : DB) (uid : Z) : string :=
  match List.find (fun u => u_id u =? uid) (users db) with
  | Some u => str_or (display_name u) (u_username u)
  | None => ("User " ++ pretty uid)%string
  end.

(** The picks on a game for its home side, and for its away side. *)
Definition on_home (g : Game) (p : Pick) : bool :=
  ((p_game_id p =? g_id g) && (p_chosen_team_id p =? g_home_team_id g))%bool.

Definition on_away (g : Game) (p : Pick) : bool :=
  ((p_game_id p =? g_id g) && negb (p_chosen_team_id p =? g_home_team_id g)
   && (p_chosen_team_id p =? g_away_team_id g))%bool.

(** The entry of a game after the picks [ps] have been through the loop. *)
Definition summary_of (nbi : list (Z * string)) (g : Game) (ps : list Pick) : GameSummary :=
  let names f := map (fun p => name_of nbi (p_user_id p)) (List.filter f ps) in
  mkGameSummary (Z.of_nat (length (List.filter (on_home g) ps)))
                (Z.of_nat (length (List.filter (on_away g) ps)))
                (firstn 6 (names (on_home g))) (firstn 6 (names (on_away g)))
                (names (on_home g)) (names (on_away g)).

(** [w] is the next week of [ws] to kick off at [now], or the last one to
    have kicked off if none is to come. *)
Definition next_or_last (now : Z) (ws : list Week) (w : Week) : Prop :=
  In w ws /\
  ((now <= kickoff w /\ forall w', In w' ws -> now <= kickoff w' -> kickoff w <= kickoff w') \/
   (forall w', In w' ws -> kickoff w' < now /\ kickoff w' <= kickoff w)).

(** The columns no import writes: key, season, week, status and scores. *)
Definition same_core (g o : Game) : Prop :=
  g_id o = g_id g /\ g_season_id o = g_season_id g /\ g_week_id o = g_week_id g /\
  g_status o = g_status g /\ g_home_score o = g_home_score g /\
  g_away_score o = g_away_score g.

(** The other columns, the start time as an instant. *)
Definition same_rest (g o : Game) : Prop :=
  g_home_team_id o = g_home_team_id g /\ g_away_team_id o = g_away_team_id g /\
  dt_ticks (g_start_time o) = dt_ticks (g_start_time g) /\
  g_provider_game_id o = g_provider_game_id g.

(** What the loop keeps true of the session: a changed object belongs to
    a row of the week and differs from it in no column an import does not
    write; an added object is a scheduled game of the week without score. *)
Definition session_ok (rows : list Game) (sid wk : Z) (st : ImportState) : Prop :=
  (forall k o, dict_get (is_dirty st) k = Some o ->
     exists row, In row rows /\ g_id row = k /\ g_week_id row = wk /\ same_core row o) /\
  (forall g, In g (is_pending st) ->
     g_season_id g = sid /\ g_week_id g = wk /\ g_status g = SCHEDULED /\
     g_home_score g = 0 /\ g_away_score g = 0) /\
  0 <= is_upserted st.

(** Weeks 1 and 2 of 2024: a Final game in week 1, a scheduled one in
    week 2. *)
Definition db_played : DB :=
  mkDB [mkSeason 1 2024 true]
    [mkWeek 1 1 1 2 (utc 1000); mkWeek 2 1 2 2 (utc 8000)]
    [mkTeam 1 "KC" []; mkTeam 2 "BAL" []; mkTeam 3 "ARI" ["ARZ"%string]]
    [mkGame 1 1 1 1 2 (utc 1000) FINAL 27 20 (Some "400"%string);
     mkGame 2 1 2 1 3 (utc 9000) SCHEDULED 0 0 (Some "401"%string)]
    [mkPick 1 1 1 1] [] [Fixture.user 1 "Ann" "A"].

(** The row of a user in the standings of a season: the name shown, the
    picks on decided games that name the winner, the picks on decided
    games, and their quotient. *)
Definition entry_of (db : DB) (season : Season) (uid : Z) : Entry :=
  let corr := Z.of_nat (length (picks_where uid (names_winner (season_games db season))
                                  (picks db))) in
  let total := Z.of_nat (length (picks_where uid (on_decided (season_games db season))
                                   (picks db))) in
  mkEntry uid (shown_name db uid) corr total (pct_of corr total).

(** What imports do to a store: they touch neither teams, picks,
    tiebreakers nor users; the games there were keep their places and the
    columns no import writes; the games added are scheduled, without
    score, and have new ids. *)
Definition grows (db db' : DB) : Prop :=
  teams db' = teams db /\ picks db' = picks db /\ tiebreakers db' = tiebreakers db /\
  users db' = users db /\
  exists kept added,
    games db' = kept ++ added /\
    Forall2 same_core (games db) kept /\
    NoDup (map g_id added) /\
    Forall (fun g' => g_status g' = SCHEDULED /\ g_home_score g' = 0 /\ g_away_score g' = 0 /\
                      forall g, In g (games db) -> g_id g < g_id g') added.

(** The state after the three loops. *)
Definition season_final (b : Backend) (provider : Z -> Z -> list ProviderGame)
    (clock : Z -> Z -> Z) (season_year : Z) (db : DB)
    (include_preseason include_postseason : bool) : SeasonRun :=
  let step := season_step b provider clock season_year in
  let r0 := mkRun db db 0 0 0 0 in
  let r1 := if include_preseason then fold_left (step 1) (py_range 1 5) r0 else r0 in
  let r2 := fold_left (step 2) (py_range 1 19) r1 in
  if include_postseason then fold_left (step 3) (py_range 1 6) r2 else r2.

(** What every turn keeps. *)
Definition run_ok (db : DB) (r : SeasonRun) : Prop :=
  grows db (run_view r) /\ grows db (run_store r) /\
  0 <= run_pre r /\ 0 <= run_reg r /\ 0 <= run_post r /\
  0 <= run_weeks r <= run_pre r + run_reg r + run_post r /\
  (run_weeks r = 0 -> run_pre r + run_reg r + run_post r = 0).

(** Nothing happens while the provider answers nothing. *)
Definition run_idle (db : DB) (r : SeasonRun) : Prop :=
  run_store r = db /\ run_pre r = 0 /\ run_reg r = 0 /\ run_post r = 0 /\ run_weeks r = 0.

(** A provider that has one game, for week 2 of the regular season. *)
Definition provider_week2 (wk season_type : Z) : list ProviderGame :=
  if ((wk =? 2) && (season_type =? 2))%bool
  then [mkPG "BAL" "ARZ" (utc 9500) (Some "402"%string)] else [].

(** The store has a season of the year with a week of the type and
    number. *)
Definition has_week (db : DB) (season_year season_type week_number : Z) : Prop :=
  exists s w, In s (seasons db) /\ s_year s = season_year /\
              In w (weeks db) /\ w_season_id w = s_id s /\
              w_week_number w = week_number /\ w_season_type w = season_type.

(** A store [db'] has the seasons of [db], and its weeks up to their
    first kickoff. *)
Definition keeps_weeks (db db' : DB) : Prop :=
  (forall s, In s (seasons db) -> In s (seasons db')) /\
  (forall w, In w (weeks db) ->
     exists w', In w' (weeks db') /\ w_id w' = w_id w /\ w_season_id w' = w_season_id w /\
                w_week_number w' = w_week_number w /\ w_season_type w' = w_season_type w).

(** The calls of a run as one loop over (season type, week). *)
Definition plan_step (b : Backend) (provider : Z -> Z -> list ProviderGame)
    (clock : Z -> Z -> Z) (season_year : Z) (r : SeasonRun) (p : Z * Z) : SeasonRun :=
  season_step b provider clock season_year (fst p) r (snd p).

(** The calls of a run in their order: preseason weeks 1 to 4 if asked
    for, regular weeks 1 to 18, postseason weeks 1 to 5 if asked for. *)
Definition season_plan (include_preseason include_postseason : bool) : list (Z * Z) :=
  (if include_preseason then map (pair 1) (py_range 1 5) else [])
  ++ map (pair 2) (py_range 1 19)
  ++ (if include_postseason then map (pair 3) (py_range 1 6) else []).

(** A run calls [import_week_schedule] for the week of this type and
    number. *)
Definition called (include_preseason include_postseason : bool)
    (season_type week_number : Z) : Prop :=
  (season_type = 1 /\ include_preseason = true /\ 1 <= week_number <= 4) \/
  (season_type = 2 /\ 1 <= week_number <= 18) \/
  (season_type = 3 /\ include_postseason = true /\ 1 <= week_number <= 5).

(** The order of the calls. *)
Definition lex_ltb (p q : Z * Z) : bool :=
  ((fst p <? fst q) || ((fst p =? fst q) && (snd p <? snd q)))%bool.

Fixpoint sorted_lex (l : list (Z * Z)) : bool :=
  match l with
  | [] => true
  | x :: l' => (forallb (lex_ltb x) l' && sorted_lex l')%bool
  end.

(** The columns [refresh_team_logos] does not write. *)
Definition same_but_logo (t t' : TeamRow) : Prop :=
  tr_id t' = tr_id t /\ tr_slug t' = tr_slug t /\ tr_name t' = tr_name t /\
  tr_location t' = tr_location t /\ tr_abbr t' = tr_abbr t /\
  tr_alt_abbrs t' = tr_alt_abbrs t.

(** The provider's entry is looked up under the row at place [i] and has
    a logo. *)
Definition names (m : gmap string nat) (i : nat) (pt : ProviderTeam) : bool :=
  bool_decide (m !! upper (pt_abbr pt) = Some i) && opt_truthy (pt_logo_path pt).

(** The row at place [i] after the loop: with the logo of the last entry
    that names it. *)
Definition refreshed (m : gmap string nat) (pts : list ProviderTeam) (i : nat)
    (t : TeamRow) : TeamRow :=
  match List.find (names m i) (rev pts) with
  | Some pt => set_logo_path t (pt_logo_path pt)
  | None => t
  end.

(* ===================================================================== *)
(** * Part II: properties                                                *)
(* ===================================================================== *)

(** ** Dictionaries *)

Section DictFacts.
Context {V : Type}.
Implicit Types (d : list (Z * V)) (k : Z) (v : V).

Lemma dict_get_set_eq d k v : dict_get (dict_set d k v) k = Some v.
Proof.
  induction d as [|[k' v'] d IH]; simpl.
  - by rewrite Z.eqb_refl.
  - destruct (k' =? k) eqn:E; simpl; rewrite E; auto.
Qed.

Lemma dict_get_set_ne d k k' v :
  k <> k' -> dict_get (dict_set d k v) k' = dict_get d k'.
Proof.
  intros Hne. induction d as [|[k0 v0] d IH]; simpl.
  - destruct (k =? k') eqn:E; auto. apply Z.eqb_eq in E. lia.
  - destruct (k0 =? k) eqn:E; simpl.
    + apply Z.eqb_eq in E. subst k0.
      destruct (k =? k') eqn:E'; auto. apply Z.eqb_eq in E'. lia.
    + destruct (k0 =? k'); auto.
Qed.

Lemma dict_get_In d k v : dict_get d k = Some v -> In (k, v) d.
Proof.
  induction d as [|[k' v'] d IH]; simpl; [discriminate|].
  destruct (k' =? k) eqn:E.
  - intros [= ->]. apply Z.eqb_eq in E. subst. by left.
  - intros H. right. auto.
Qed.

Lemma dict_get_None d k : dict_get d k = None <-> ~ In k (dict_keys d).
Proof.
  induction d as [|[k' v'] d IH]; simpl.
  - tauto.
  - destruct (k' =? k) eqn:E.
    + apply Z.eqb_eq in E. split; [discriminate|]. intros H. destruct H. by left.
    + apply Z.eqb_neq in E. rewrite IH. unfold dict_keys. tauto.
Qed.

Lemma dict_get_Some_key d k v : dict_get d k = Some v -> In k (dict_keys d).
Proof.
  intros H. destruct (in_dec Z.eq_dec k (dict_keys d)) as [|Hn]; auto.
  apply dict_get_None in Hn. congruence.
Qed.

Lemma dict_keys_set d k v :
  dict_keys (dict_set d k v) =
  match dict_get d k with Some _ => dict_keys d | None => dict_keys d ++ [k] end.
Proof.
  induction d as [|[k' v'] d IH]; simpl; auto.
  destruct (k' =? k) eqn:E; simpl; auto.
  rewrite IH. by destruct (dict_get d k).
Qed.

Lemma dict_keys_set_In d k v k' :
  In k' (dict_keys (dict_set d k v)) <-> k' = k \/ In k' (dict_keys d).
Proof.
  rewrite dict_keys_set. destruct (dict_get d k) eqn:E.
  - apply dict_get_Some_key in E. split; [tauto|]. intros [->|]; auto.
  - rewrite in_app_iff. simpl. split; [intros [|[|[]]]|intros [|]]; auto.
Qed.

Lemma dict_keys_set_NoDup d k v :
  NoDup (dict_keys d) -> NoDup (dict_keys (dict_set d k v)).
Proof.
  intros Hd. rewrite dict_keys_set. destruct (dict_get d k) eqn:E; auto.
  apply dict_get_None in E.
  apply NoDup_app; repeat split; auto.
  - intros x Hx [<-|[]]%list_elem_of_In. apply E. by apply list_elem_of_In.
  - apply NoDup_singleton.
Qed.

Lemma dict_In_get d k v :
  NoDup (dict_keys d) -> In (k, v) d -> dict_get d k = Some v.
Proof.
  induction d as [|[k' v'] d IH]; simpl; [tauto|].
  intros Hnd [[= -> ->]|Hin].
  - by rewrite Z.eqb_refl.
  - apply NoDup_cons in Hnd as [Hk Hnd].
    destruct (k' =? k) eqn:E; auto.
    apply Z.eqb_eq in E. subst. destruct Hk.
    apply list_elem_of_In. change (In k (map fst d)). apply in_map_iff. by exists (k, v).
Qed.

End DictFacts.

(** ** Winner resolution *)

Lemma NoDup_map_filter {A B} (f : A -> B) (p : A -> bool) (l : list A) :
  NoDup (map f l) -> NoDup (map f (List.filter p l)).
Proof.
  induction l as [|x l IH]; simpl; auto.
  intros [Hx Hl]%NoDup_cons. destruct (p x); simpl; auto.
  apply NoDup_cons; split; auto.
  intros Hin. apply Hx. apply list_elem_of_In in Hin. apply list_elem_of_In.
  apply in_map_iff in Hin as (y & <- & Hy). apply in_map. by apply filter_In in Hy as [].
Qed.

Lemma NoDup_map_eq {A B} (f : A -> B) (l : list A) (x y : A) :
  NoDup (map f l) -> In x l -> In y l -> f x = f y -> x = y.
Proof.
  induction l as [|z l IH]; simpl; [tauto|].
  intros [Hz Hl]%NoDup_cons [->|Hx] [->|Hy] Hf; auto.
  - destruct Hz. apply list_elem_of_In. rewrite Hf. by apply in_map.
  - destruct Hz. apply list_elem_of_In. rewrite <- Hf. by apply in_map.
Qed.

Lemma wbg_from_keys_NoDup fg : forall d,
  NoDup (dict_keys d) -> NoDup (dict_keys (wbg_from d fg)).
Proof.
  induction fg as [|g fg IH]; simpl; auto.
  intros d Hd. apply IH. by apply dict_keys_set_NoDup.
Qed.

Lemma wbg_from_get_other fg : forall d k,
  ~ In k (map g_id fg) -> dict_get (wbg_from d fg) k = dict_get d k.
Proof.
  induction fg as [|g fg IH]; simpl; auto.
  intros d k Hk. rewrite IH by tauto. apply dict_get_set_ne. intros <-. tauto.
Qed.

Lemma wbg_from_get fg : forall d g,
  NoDup (map g_id fg) -> In g fg ->
  dict_get (wbg_from d fg) (g_id g) = Some (game_winner g).
Proof.
  induction fg as [|x fg IH]; simpl; [tauto|].
  intros d g [Hx Hfg]%NoDup_cons [->|Hin].
  - rewrite wbg_from_get_other.
    + apply dict_get_set_eq.
    + intros H. apply Hx. by apply list_elem_of_In.
  - by apply IH.
Qed.

Lemma wbg_from_keys fg : forall d k,
  In k (dict_keys (wbg_from d fg)) <-> In k (dict_keys d) \/ In k (map g_id fg).
Proof.
  induction fg as [|x fg IH]; simpl; [tauto|].
  intros d k. rewrite IH, dict_keys_set_In. intuition congruence.
Qed.

Lemma winners_by_game_get fg g :
  NoDup (map g_id fg) -> In g fg ->
  dict_get (winners_by_game fg) (g_id g) = Some (game_winner g).
Proof. apply wbg_from_get. Qed.

Lemma winners_by_game_keys_NoDup fg : NoDup (dict_keys (winners_by_game fg)).
Proof. apply wbg_from_keys_NoDup. constructor. Qed.

Lemma decided_ids_In wbg k :
  In k (decided_ids wbg) <-> exists w, In (k, Some w) wbg.
Proof.
  unfold decided_ids. rewrite in_map_iff. split.
  - intros ([k' [w|]] & <- & [Hin Hf]%filter_In); simpl in *; [eauto|discriminate].
  - intros (w & Hin). exists (k, Some w). split; auto. apply filter_In. auto.
Qed.

Lemma decided_ids_get fg k :
  In k (decided_ids (winners_by_game fg)) <->
  exists w, dict_get (winners_by_game fg) k = Some (Some w).
Proof.
  rewrite decided_ids_In. split; intros (w & H); exists w.
  - apply dict_In_get; [apply winners_by_game_keys_NoDup|assumption].
  - by apply dict_get_In.
Qed.

(** A game whose winner is [None] is not among the decided ids, provided
    no other game of the selection carries its id. *)
Lemma tie_not_decided (gs fg : list Game) (g : Game) :
  NoDup (map g_id gs) -> In g gs ->
  (forall x, In x fg -> In x gs) -> NoDup (map g_id fg) ->
  game_winner g = None ->
  ~ In (g_id g) (decided_ids (winners_by_game fg)).
Proof.
  intros Hnd Hg Hsub Hfg Htie (w & Hw)%decided_ids_get.
  assert (Hk : In (g_id g) (map g_id fg)).
  { apply dict_get_Some_key in Hw. apply wbg_from_keys in Hw as [[]|]; auto. }
  apply in_map_iff in Hk as (g' & Hid & Hin').
  assert (g' = g) as -> by (apply (NoDup_map_eq g_id gs); auto).
  rewrite winners_by_game_get in Hw by auto. congruence.
Qed.

Lemma picks_on_without db gid ids :
  ~ In gid ids -> picks_on (without_picks_on db gid) ids = picks_on db ids.
Proof.
  intros Hn. unfold picks_on, without_picks_on. simpl.
  induction (picks db) as [|p l IH]; simpl; auto.
  destruct (p_game_id p =? gid) eqn:E; simpl.
  - apply Z.eqb_eq in E.
    destruct (in_Z (p_game_id p) ids) eqn:Hin; auto.
    unfold in_Z in Hin. apply existsb_exists in Hin as (y & Hy & Heq).
    apply Z.eqb_eq in Heq. subst. congruence.
  - rewrite IH. reflexivity.
Qed.

Lemma game_winner_tie g : g_home_score g = g_away_score g -> game_winner g = None.
Proof.
  intros H. unfold game_winner. rewrite H.
  destruct (_ >? _) eqn:E; auto. apply Z.gtb_lt in E. lia.
Qed.

Lemma season_final_games_sub db s x : In x (season_final_games db s) -> In x (games db).
Proof. unfold season_final_games. by intros []%filter_In. Qed.

Lemma week_final_games_sub db w x :
  In x (final_games_of (week_games db w)) -> In x (games db).
Proof. unfold final_games_of, week_games. by intros [[]%filter_In _]%filter_In. Qed.

Lemma season_leaderboard_without db g wk :
  NoDup (map g_id (games db)) -> In g (games db) -> game_winner g = None ->
  _season_leaderboard (without_picks_on db (g_id g)) wk = _season_leaderboard db wk.
Proof.
  intros Hnd Hg Htie. unfold _season_leaderboard.
  change (_active_season (without_picks_on db (g_id g)) wk) with (_active_season db wk).
  destruct (_active_season db wk) as [season|]; auto.
  change (season_final_games (without_picks_on db (g_id g)) season)
    with (season_final_games db season).
  rewrite picks_on_without; [reflexivity|].
  eapply tie_not_decided; eauto using season_final_games_sub.
  unfold season_final_games. by apply NoDup_map_filter.
Qed.

Lemma lunch_rows_without db g w :
  NoDup (map g_id (games db)) -> In g (games db) -> game_winner g = None ->
  lunch_rows (without_picks_on db (g_id g)) w = lunch_rows db w.
Proof.
  intros Hnd Hg Htie. unfold lunch_rows.
  change (week_games (without_picks_on db (g_id g)) w) with (week_games db w).
  rewrite picks_on_without; [reflexivity|].
  eapply tie_not_decided; eauto using week_final_games_sub.
  unfold final_games_of, week_games. by do 2 apply NoDup_map_filter.
Qed.

Lemma weekly_lunch_without db g wk :
  NoDup (map g_id (games db)) -> In g (games db) -> game_winner g = None ->
  _weekly_lunch (without_picks_on db (g_id g)) wk = _weekly_lunch db wk.
Proof.
  intros Hnd Hg Htie. destruct wk as [w|]; auto. unfold _weekly_lunch.
  change (week_games (without_picks_on db (g_id g)) w) with (week_games db w).
  change (week_finalized (without_picks_on db (g_id g)) w) with (week_finalized db w).
  by rewrite lunch_rows_without.
Qed.

(** C1.  Game ids being the primary key of the table: for a Final game
    the side with more points is the winner both computations record for
    it; with equal points the game has no winner, is not among the decided
    games, and no pick on it is counted: the season board and the weekly
    result are what they are with every pick on that game deleted. *)
Theorem C1_winner_resolution (db : DB) (g : Game) :
  NoDup (map g_id (games db)) -> In g (games db) -> g_status g = FINAL ->
  (g_home_score g > g_away_score g -> game_winner g = Some (g_home_team_id g)) /\
  (g_away_score g > g_home_score g -> game_winner g = Some (g_away_team_id g)) /\
  (forall s, g_season_id g = s_id s ->
     dict_get (winners_by_game (season_final_games db s)) (g_id g) = Some (game_winner g)) /\
  (forall w, g_week_id g = w_id w ->
     dict_get (winners_by_game (final_games_of (week_games db w))) (g_id g)
     = Some (game_winner g)) /\
  (g_home_score g = g_away_score g ->
     game_winner g = None /\
     (forall s, ~ In (g_id g) (decided_ids (winners_by_game (season_final_games db s)))) /\
     (forall w, ~ In (g_id g)
                  (decided_ids (winners_by_game (final_games_of (week_games db w))))) /\
     (forall wk, _season_leaderboard (without_picks_on db (g_id g)) wk
                 = _season_leaderboard db wk) /\
     (forall wk, _weekly_lunch (without_picks_on db (g_id g)) wk = _weekly_lunch db wk)).
Proof.
  intros Hnd Hg Hfin. repeat split.
  - intros H. unfold game_winner.
    destruct (g_home_score g >? g_away_score g) eqn:E; auto.
    rewrite Z.gtb_ltb in E. apply Z.ltb_ge in E. lia.
  - intros H. unfold game_winner.
    destruct (g_home_score g >? g_away_score g) eqn:E.
    + rewrite Z.gtb_ltb in E. apply Z.ltb_lt in E. lia.
    + destruct (g_away_score g >? g_home_score g) eqn:E'; auto.
      rewrite Z.gtb_ltb in E'. apply Z.ltb_ge in E'. lia.
  - intros s Hs. apply winners_by_game_get.
    + unfold season_final_games. by apply NoDup_map_filter.
    + unfold season_final_games. apply filter_In. split; auto.
      rewrite Hs, Z.eqb_refl, Hfin. reflexivity.
  - intros w Hw. apply winners_by_game_get.
    + unfold final_games_of, week_games. by do 2 apply NoDup_map_filter.
    + unfold final_games_of, week_games. apply filter_In. split.
      * apply filter_In. split; auto. rewrite Hw. apply Z.eqb_refl.
      * by rewrite Hfin.
  - by apply game_winner_tie.
  - intros s. eapply tie_not_decided; eauto using season_final_games_sub, game_winner_tie.
    unfold season_final_games. by apply NoDup_map_filter.
  - intros w. eapply tie_not_decided; eauto using week_final_games_sub, game_winner_tie.
    unfold final_games_of, week_games. by do 2 apply NoDup_map_filter.
  - intros wk. apply season_leaderboard_without; auto using game_winner_tie.
  - intros wk. apply weekly_lunch_without; auto using game_winner_tie.
Qed.

Lemma C1_witness :
  NoDup (map g_id (games Fixture.db_tie)) /\
  In Fixture.tied_game (games Fixture.db_tie) /\
  g_status Fixture.tied_game = FINAL /\
  game_winner Fixture.tied_game = None /\
  _season_leaderboard (without_picks_on Fixture.db_tie 2) (Some Fixture.wk1)
  = _season_leaderboard Fixture.db_tie (Some Fixture.wk1) /\
  _weekly_lunch (without_picks_on Fixture.db_tie 2) (Some Fixture.wk1)
  = _weekly_lunch Fixture.db_tie (Some Fixture.wk1).
Proof.
  assert (H1 : NoDup (map g_id (games Fixture.db_tie))).
  { apply (bool_decide_unpack _). vm_compute. exact I. }
  assert (H2 : In Fixture.tied_game (games Fixture.db_tie)) by (simpl; auto).
  assert (H3 : g_status Fixture.tied_game = FINAL) by reflexivity.
  destruct (C1_winner_resolution Fixture.db_tie Fixture.tied_game H1 H2 H3)
    as (_ & _ & _ & _ & Htie).
  destruct (Htie eq_refl) as (Hw & _ & _ & Hb & Hl).
  exact (conj H1 (conj H2 (conj H3 (conj Hw
           (conj (Hb (Some Fixture.wk1)) (Hl (Some Fixture.wk1))))))).
Defined.

(** ** [max] and [min] with a key *)

Section PyMaxFacts.
Context {A K : Type} (key : A -> K) (lt : K -> K -> bool).

Lemma max_from_In (l : list A) : forall b, In (max_from key lt b l) (b :: l).
Proof.
  induction l as [|x l IH]; intros b; simpl; auto.
  destruct (IH (if lt (key b) (key x) then x else b)) as [H|H]; auto.
  destruct (lt (key b) (key x)); auto.
Qed.

Lemma py_max_In (l : list A) (m : A) : py_max key lt l = Some m -> In m l.
Proof. destruct l; simpl; [discriminate|]. intros [= <-]. apply max_from_In. Qed.

Lemma py_max_Some (l : list A) : l <> [] -> exists m, py_max key lt l = Some m.
Proof. destruct l; [congruence|]. simpl. eauto. Qed.

Lemma py_max_None (l : list A) : py_max key lt l = None -> l = [].
Proof. destruct l; simpl; [auto|discriminate]. Qed.

(** What [<] on the keys has to satisfy for the result to be a maximum. *)
Hypothesis lt_asym : forall a b, lt a b = true -> lt b a = false.
Hypothesis ge_trans : forall a b c, lt a b = false -> lt b c = false -> lt a c = false.

Lemma lt_irrefl a : lt a a = false.
Proof. destruct (lt a a) eqn:E; auto. by rewrite (lt_asym _ _ E) in E. Qed.

Lemma max_from_upper (l : list A) : forall b,
  forall x, In x (b :: l) -> lt (key (max_from key lt b l)) (key x) = false.
Proof.
  induction l as [|y l IH]; intros b x; simpl.
  - intros [->|[]]. apply lt_irrefl.
  - intros Hx. destruct (lt (key b) (key y)) eqn:E.
    + destruct Hx as [->|[->|Hx]].
      * apply ge_trans with (key y); [apply IH; by left|by apply lt_asym].
      * apply IH. by left.
      * apply IH. by right.
    + destruct Hx as [->|[->|Hx]].
      * apply IH. by left.
      * apply ge_trans with (key b); [apply IH; by left|assumption].
      * apply IH. by right.
Qed.

Lemma py_max_upper (l : list A) (m x : A) :
  py_max key lt l = Some m -> In x l -> lt (key m) (key x) = false.
Proof. destruct l; simpl; [discriminate|]. intros [= <-]. apply max_from_upper. Qed.

End PyMaxFacts.

Lemma max_Z_In l m : max_Z l = Some m -> In m l.
Proof. apply py_max_In. Qed.

Lemma max_Z_upper l m x : max_Z l = Some m -> In x l -> x <= m.
Proof.
  intros Hm Hx.
  assert (H : Z.ltb m x = false); [|apply Z.ltb_ge in H; lia].
  apply (py_max_upper (fun x => x) Z.ltb) with l; auto.
  - intros a b ?%Z.ltb_lt. apply Z.ltb_ge. lia.
  - intros a b c ?%Z.ltb_ge ?%Z.ltb_ge. apply Z.ltb_ge. lia.
Qed.

Lemma min_Z_In l m : min_Z l = Some m -> In m l.
Proof. apply py_max_In. Qed.

Lemma min_Z_lower l m x : min_Z l = Some m -> In x l -> m <= x.
Proof.
  intros Hm Hx.
  assert (H : Z.gtb m x = false); [|rewrite Z.gtb_ltb in H; apply Z.ltb_ge in H; lia].
  apply (py_max_upper (fun x => x) Z.gtb) with l; auto.
  - intros a b. rewrite !Z.gtb_ltb. intros ?%Z.ltb_lt. apply Z.ltb_ge. lia.
  - intros a b c. rewrite !Z.gtb_ltb. intros ?%Z.ltb_ge ?%Z.ltb_ge. apply Z.ltb_ge. lia.
Qed.

(** ** The counting loop *)

Lemma dict_set_not_nil {V} (d : list (Z * V)) k v : dict_set d k v <> [].
Proof. destruct d as [|[k' v'] d]; simpl; [discriminate|]. by destruct (k' =? k). Qed.

Lemma count_step_counted wbg acc p :
  counted wbg p = true -> snd (count_step wbg acc p) <> [].
Proof.
  unfold counted, count_step. destruct acc as [cc pc].
  destruct (dict_get wbg (p_game_id p)) as [[w|]|]; try discriminate.
  intros _. destruct (p_chosen_team_id p =? w); simpl; apply dict_set_not_nil.
Qed.

Lemma count_step_not_counted wbg acc p :
  counted wbg p = false -> count_step wbg acc p = acc.
Proof.
  unfold counted, count_step. destruct acc as [cc pc].
  by destruct (dict_get wbg (p_game_id p)) as [[w|]|].
Qed.

Lemma count_step_keeps wbg acc p : snd acc <> [] -> snd (count_step wbg acc p) <> [].
Proof.
  intros H. destruct (counted wbg p) eqn:E.
  - by apply count_step_counted.
  - by rewrite count_step_not_counted.
Qed.

Lemma count_from_nonempty wbg ps : forall acc,
  snd (count_from wbg acc ps) <> [] <->
  snd acc <> [] \/ exists p, In p ps /\ counted wbg p = true.
Proof.
  induction ps as [|p ps IH]; intros acc; simpl.
  - split; [auto|]. intros [|(p & [] & _)]; auto.
  - unfold count_from in *. rewrite IH. split.
    + intros [H|(q & Hq & Hc)].
      * destruct (counted wbg p) eqn:E; [right; eauto|].
        rewrite count_step_not_counted in H by auto. auto.
      * right. eauto.
    + intros [H|(q & [->|Hq] & Hc)].
      * left. by apply count_step_keeps.
      * left. by apply count_step_counted.
      * right. eauto.
Qed.

Lemma count_picks_nonempty wbg ps :
  snd (count_picks wbg ps) <> [] <-> exists p, In p ps /\ counted wbg p = true.
Proof.
  unfold count_picks. rewrite (count_from_nonempty wbg ps ([], [])). simpl.
  split; [intros [|]; [congruence|auto]|auto].
Qed.

Lemma in_Z_In x l : in_Z x l = true <-> In x l.
Proof.
  unfold in_Z. rewrite existsb_exists. split.
  - intros (y & Hy & ->%Z.eqb_eq). auto.
  - intros H. exists x. split; auto. apply Z.eqb_refl.
Qed.

Lemma filter_length_all {A} (p : A -> bool) (l : list A) :
  length (List.filter p l) = length l <-> forall x, In x l -> p x = true.
Proof.
  induction l as [|x l IH]; simpl; [tauto|].
  pose proof (filter_length_le p l) as Hle.
  destruct (p x) eqn:E; simpl.
  - split.
    + intros H y [->|Hy]; auto. apply IH; auto.
    + intros H. f_equal. apply IH. auto.
  - split; [lia|]. intros H. rewrite H in E by auto. discriminate.
Qed.

Lemma week_finalized_iff db w :
  week_finalized db w = true <-> forall g, In g (week_games db w) -> g_status g = FINAL.
Proof.
  unfold week_finalized, final_games_of. rewrite Nat.eqb_eq, filter_length_all.
  split; intros H g Hg; specialize (H g Hg).
  - by destruct (g_status g).
  - by rewrite H.
Qed.

(** The rows of the week are empty exactly when no pick is counted. *)
Lemma lunch_rows_nonempty db w :
  lunch_rows db w <> [] <->
  exists p, In p (picks db) /\
    counted (winners_by_game (final_games_of (week_games db w))) p = true.
Proof.
  unfold lunch_rows.
  set (wbg := winners_by_game _).
  pose proof (count_picks_nonempty wbg (picks_on db (decided_ids wbg))) as Hc.
  destruct (count_picks wbg (picks_on db (decided_ids wbg))) as [cc pc].
  simpl in Hc. unfold dict_keys.
  assert (Hm : forall f : Z -> LunchRow, map f (map fst pc) <> [] <-> pc <> []).
  { intros f. destruct pc; simpl; split; congruence. }
  rewrite Hm, Hc. split.
  - intros (p & [Hp _]%filter_In & Hcnt). eauto.
  - intros (p & Hp & Hcnt). exists p. split; auto.
    apply filter_In. split; auto. apply in_Z_In.
    unfold counted in Hcnt.
    destruct (dict_get wbg (p_game_id p)) as [[x|]|] eqn:E; try discriminate.
    apply decided_ids_get. eauto.
Qed.

Lemma lunch_winners_nonempty rows : rows <> [] -> lunch_winners rows <> [].
Proof.
  intros Hr. unfold lunch_winners.
  destruct (max_Z (map lr_correct rows)) as [m|] eqn:E.
  - apply max_Z_In in E. apply in_map_iff in E as (r & Hr1 & Hr2).
    intros Hnil.
    assert (Hin : In r (List.filter (fun r => lr_correct r =? m) rows)).
    { apply filter_In. split; auto. rewrite Hr1. apply Z.eqb_refl. }
    rewrite Hnil in Hin. destruct Hin.
  - unfold max_Z in E. apply py_max_None in E.
    destruct rows as [|r rows]; [congruence|discriminate E].
Qed.

Lemma break_winner_tie_nonempty fin actual winners :
  winners <> [] -> fst (break_winner_tie fin actual winners) <> [].
Proof.
  intros H. unfold break_winner_tie.
  destruct actual; auto.
  destruct (fin && _)%bool; auto.
  destruct (py_max _ _ _); simpl; auto.
Qed.

(** The status in closed form. *)
Lemma weekly_lunch_status db w :
  week_games db w <> [] ->
  status_of (_weekly_lunch db (Some w)) =
  if (week_finalized db w && match lunch_rows db w with [] => false | _ => true end)%bool
  then decided else pending.
Proof.
  intros Hg. unfold _weekly_lunch.
  destruct (week_games db w) as [|g0 gs] eqn:Egs; [congruence|].
  change (Nat.eqb (length (g0 :: gs)) 0) with false. cbv iota.
  destruct (lunch_rows db w) as [|r rows] eqn:Er.
  - simpl. by rewrite andb_false_r.
  - set (winners := lunch_winners (r :: rows)).
    set (actual := lunch_actual_total _ _).
    pose proof (break_winner_tie_nonempty (week_finalized db w) actual winners) as Hne.
    destruct (break_winner_tie (week_finalized db w) actual winners) as [win tb].
    destruct (break_loser_tie _ _ _) as [lose ltb].
    simpl. rewrite andb_true_r.
    destruct win as [|x win]; [|by destruct (week_finalized db w)].
    destruct Hne; auto. apply lunch_winners_nonempty. discriminate.
Qed.

Lemma game_winner_None g : game_winner g = None <-> g_home_score g = g_away_score g.
Proof.
  split; [|apply game_winner_tie].
  unfold game_winner. rewrite !Z.gtb_ltb.
  destruct (g_away_score g <? g_home_score g) eqn:E1; [discriminate|].
  destruct (g_home_score g <? g_away_score g) eqn:E2; [discriminate|].
  apply Z.ltb_ge in E1, E2. lia.
Qed.

Lemma is_decided_iff g :
  is_decided g = true <-> g_status g = FINAL /\ game_winner g <> None.
Proof.
  unfold is_decided. rewrite andb_true_iff, negb_true_iff, Z.eqb_neq, game_winner_None.
  split; intros [H1 H2]; split; auto; by destruct (g_status g).
Qed.

Lemma counted_week_iff db w p :
  NoDup (map g_id (games db)) ->
  counted (winners_by_game (final_games_of (week_games db w))) p = true <->
  exists g, In g (week_games db w) /\ is_decided g = true /\ p_game_id p = g_id g.
Proof.
  intros Hnd.
  assert (Hfg : NoDup (map g_id (final_games_of (week_games db w)))).
  { unfold final_games_of, week_games. by do 2 apply NoDup_map_filter. }
  unfold counted. split.
  - destruct (dict_get _ (p_game_id p)) as [[x|]|] eqn:E; try discriminate. intros _.
    assert (Hk : In (p_game_id p) (map g_id (final_games_of (week_games db w)))).
    { apply dict_get_Some_key in E. apply wbg_from_keys in E as [[]|]; auto. }
    apply in_map_iff in Hk as (g & Hid & Hin).
    rewrite <- Hid, winners_by_game_get in E by auto.
    exists g. unfold final_games_of in Hin. apply filter_In in Hin as [Hin Hst].
    repeat split; auto. apply is_decided_iff. split; [by destruct (g_status g)|congruence].
  - intros (g & Hin & [Hst Hw]%is_decided_iff & ->).
    rewrite winners_by_game_get; auto.
    + by destruct (game_winner g).
    + apply filter_In. split; auto. by rewrite Hst.
Qed.

(** C4.  The status of the weekly result: [no_week] without a week,
    [no_games] for a week without games; for a week with games it is
    [pending] as soon as one game is not Final, and it is [decided] exactly
    when every game is Final and some pick is on a decided game (a game
    being found by its id, the primary key). *)
Theorem C4_lunch_status (db : DB) :
  NoDup (map g_id (games db)) ->
  status_of (_weekly_lunch db None) = no_week /\
  forall w : Week,
    (week_games db w = [] -> status_of (_weekly_lunch db (Some w)) = no_games) /\
    (week_games db w <> [] ->
       ((exists g, In g (week_games db w) /\ g_status g <> FINAL) ->
          status_of (_weekly_lunch db (Some w)) = pending) /\
       (status_of (_weekly_lunch db (Some w)) = decided <->
          (forall g, In g (week_games db w) -> g_status g = FINAL) /\
          (exists p g, In p (picks db) /\ In g (week_games db w) /\
                       is_decided g = true /\ p_game_id p = g_id g)) /\
       (status_of (_weekly_lunch db (Some w)) = pending \/
        status_of (_weekly_lunch db (Some w)) = decided)).
Proof.
  intros Hnd. split; [reflexivity|]. intros w. split.
  - intros H. unfold _weekly_lunch. by rewrite H.
  - intros Hg. rewrite (weekly_lunch_status db w Hg).
    assert (Hrows : match lunch_rows db w with [] => false | _ => true end = true <->
                    exists p g, In p (picks db) /\ In g (week_games db w) /\
                                is_decided g = true /\ p_game_id p = g_id g).
    { transitivity (lunch_rows db w <> []).
      { destruct (lunch_rows db w); split; congruence. }
      rewrite lunch_rows_nonempty. split.
      - intros (p & Hp & (g & Hc)%counted_week_iff); eauto.
      - intros (p & g & Hp & Hc). exists p. split; auto.
        apply counted_week_iff; eauto. }
    split; [|split; [split|]].
    + intros (g & Hin & Hst).
      destruct (week_finalized db w) eqn:E; auto.
      exfalso. apply Hst. by apply (proj1 (week_finalized_iff db w) E).
    + destruct (week_finalized db w) eqn:E; [|discriminate].
      simpl. destruct (match lunch_rows db w with [] => false | _ => true end) eqn:E2;
        [|discriminate]. intros _. split; [by apply week_finalized_iff|by apply Hrows].
    + intros [Hall Hp]. apply week_finalized_iff in Hall. apply Hrows in Hp.
      by rewrite Hall, Hp.
    + destruct (_ && _)%bool; auto.
Qed.

Lemma C4_witness :
  NoDup (map g_id (games Fixture.db_open)) /\
  Fixture.game 2 200 IN_PROGRESS 3 0 ∈ week_games Fixture.db_open Fixture.wk1 /\
  status_of (_weekly_lunch Fixture.db_open (Some Fixture.wk1)) = pending.
Proof.
  assert (H1 : NoDup (map g_id (games Fixture.db_open))).
  { apply (bool_decide_unpack _). vm_compute. exact I. }
  assert (H2 : week_games Fixture.db_open Fixture.wk1 <> []) by (vm_compute; discriminate).
  assert (H3 : In (Fixture.game 2 200 IN_PROGRESS 3 0)
                  (week_games Fixture.db_open Fixture.wk1)) by (vm_compute; auto).
  destruct (C4_lunch_status Fixture.db_open H1) as [_ H].
  destruct (H Fixture.wk1) as [_ Hw].
  destruct (Hw H2) as (Hpend & _ & _).
  split; [exact H1|]. split; [by apply list_elem_of_In|].
  apply Hpend. exists (Fixture.game 2 200 IN_PROGRESS 3 0). split; [exact H3|discriminate].
Defined.

(** ** The weekly result, field by field *)

Lemma weekly_lunch_full db w r :
  _weekly_lunch db (Some w) = LunchFull r ->
  let fin := week_finalized db w in
  let rows := lunch_rows db w in
  let actual := lunch_actual_total fin (final_games_of (week_games db w)) in
  let win := break_winner_tie fin actual (lunch_winners rows) in
  let lose := break_loser_tie fin actual (lunch_losers rows) in
  actual_total r = actual /\
  winner_users r = map user_dto (fst win) /\ winner_names r = map lr_name (fst win) /\
  tiebreaker_applied r = snd win /\
  loser_users r = map user_dto (fst lose) /\ loser_names r = map lr_name (fst lose) /\
  loser_tiebreaker_applied r = snd lose.
Proof.
  unfold _weekly_lunch.
  destruct (Nat.eqb _ 0); [discriminate|].
  destruct (lunch_rows db w) as [|r0 rows] eqn:Er; [discriminate|].
  cbv zeta.
  destruct (break_winner_tie _ _ _) as [win tb].
  destruct (break_loser_tie _ _ _) as [lose ltb].
  intros [= <-]. simpl. repeat split.
Qed.

(** ** Tie-break for the winner *)

Lemma eligible_of_In a winners x :
  In x (eligible_of a winners) <-> In x winners /\ exists t, lr_tb x = Some t /\ t <= a.
Proof.
  unfold eligible_of. rewrite filter_In. split.
  - intros [Hin H]. split; auto. destruct (lr_tb x) as [t|]; [|discriminate].
    exists t. split; auto. by apply Z.leb_le.
  - intros [Hin (t & -> & Ht)]. split; auto. by apply Z.leb_le.
Qed.

Lemma break_winner_tie_best a winners :
  (1 < length winners)%nat ->
  (exists x t, In x winners /\ lr_tb x = Some t /\ t <= a) ->
  exists best t,
    break_winner_tie true (Some a) winners = ([best], true) /\
    In best winners /\ lr_tb best = Some t /\ t <= a /\
    (forall x t', In x winners -> lr_tb x = Some t' -> t' <= a -> t' <= t) /\
    py_max tb_key Z.ltb (eligible_of a winners) = Some best.
Proof.
  intros Hlen (x & t & Hx & Ht & Hle).
  unfold break_winner_tie. simpl.
  apply Nat.ltb_lt in Hlen. rewrite Hlen.
  assert (Hne : eligible_of a winners <> []).
  { intros E. assert (Hin : In x (eligible_of a winners)) by (apply eligible_of_In; eauto).
    rewrite E in Hin. destruct Hin. }
  destruct (py_max_Some tb_key Z.ltb _ Hne) as [best Hbest]. rewrite Hbest.
  pose proof (py_max_In _ _ _ _ Hbest) as Hin.
  apply eligible_of_In in Hin as (Hin & tb & Htb & Hb).
  exists best, tb. repeat split; auto.
  intros y t' Hy Hty Hle'.
  assert (Hy' : In y (eligible_of a winners)) by (apply eligible_of_In; eauto).
  assert (H : Z.ltb (tb_key best) (tb_key y) = false).
  { apply (py_max_upper tb_key Z.ltb) with (eligible_of a winners); auto.
    - intros u v ?%Z.ltb_lt. apply Z.ltb_ge. lia.
    - intros u v z ?%Z.ltb_ge ?%Z.ltb_ge. apply Z.ltb_ge. lia. }
  unfold tb_key in H. rewrite Htb, Hty in H. apply Z.ltb_ge in H. lia.
Qed.

Lemma break_winner_tie_none a winners fin :
  (forall x t, In x winners -> lr_tb x = Some t -> a < t) ->
  break_winner_tie fin (Some a) winners = (winners, false).
Proof.
  intros H. unfold break_winner_tie.
  destruct (fin && _)%bool; auto.
  destruct (py_max _ _ _) as [best|] eqn:E; auto.
  apply py_max_In in E. apply eligible_of_In in E as (Hin & t & Ht & Hle).
  specialize (H best t Hin Ht). lia.
Qed.

(** ** The rows: one per user, with the guess the store holds *)

Lemma count_step_keys_NoDup wbg acc p :
  NoDup (dict_keys (snd acc)) -> NoDup (dict_keys (snd (count_step wbg acc p))).
Proof.
  unfold count_step. destruct acc as [cc pc]. simpl.
  destruct (dict_get wbg (p_game_id p)) as [[x|]|]; auto.
  intros H. destruct (p_chosen_team_id p =? x); simpl; by apply dict_keys_set_NoDup.
Qed.

Lemma count_from_keys_NoDup wbg ps : forall acc,
  NoDup (dict_keys (snd acc)) -> NoDup (dict_keys (snd (count_from wbg acc ps))).
Proof.
  induction ps as [|p ps IH]; intros acc H; simpl; auto.
  apply IH. by apply count_step_keys_NoDup.
Qed.

Lemma lunch_rows_In db w x :
  In x (lunch_rows db w) ->
  exists nbi cc pc tbu uid,
    x = lunch_row nbi cc pc tbu uid /\
    tbu = tb_by_user db w (dict_keys pc) /\
    pc = snd (count_picks (winners_by_game (final_games_of (week_games db w)))
                (picks_on db (decided_ids (winners_by_game
                                             (final_games_of (week_games db w)))))) /\
    In uid (dict_keys pc).
Proof.
  unfold lunch_rows.
  destruct (count_picks _ _) as [cc pc] eqn:E. simpl.
  intros (uid & <- & Hin)%in_map_iff. do 5 eexists. repeat split; eauto.
Qed.

Lemma lunch_rows_uid_inj db w x y :
  In x (lunch_rows db w) -> In y (lunch_rows db w) ->
  lr_user_id x = lr_user_id y -> x = y.
Proof.
  unfold lunch_rows.
  destruct (count_picks _ _) as [cc pc]. 
  intros (u & <- & _)%in_map_iff (v & <- & _)%in_map_iff. simpl. by intros ->.
Qed.

Lemma tbu_from_get ts : forall d u v,
  dict_get (tbu_from d ts) u = Some v ->
  dict_get d u = Some v \/
  exists t, In t ts /\ tb_user_id t = u /\ tb_guess_points t = v.
Proof.
  induction ts as [|t ts IH]; intros d u v; simpl; auto.
  intros [H|(t' & Hin & Hu & Hv)]%IH.
  - destruct (Z.eq_dec (tb_user_id t) u) as [He|Hne].
    + subst u. rewrite dict_get_set_eq in H. injection H as <-. right. eauto.
    + rewrite dict_get_set_ne in H by auto. auto.
  - right. eauto.
Qed.

Lemma tb_by_user_get db w uids u v :
  dict_get (tb_by_user db w uids) u = Some v ->
  exists t, In t (tiebreakers db) /\ tb_user_id t = u /\ tb_week_id t = w_id w /\
            tb_guess_points t = v.
Proof.
  unfold tb_by_user. intros [H|(t & Hin & Hu & Hv)]%tbu_from_get; [discriminate|].
  apply filter_In in Hin as [Hin [Hw _]%andb_true_iff]. apply Z.eqb_eq in Hw.
  eauto.
Qed.

Lemma distinct_pairs_inj {A} (f : A -> Z * Z) (l : list A) (x y : A) :
  distinct_pairs (map f l) = true -> In x l -> In y l -> f x = f y -> x = y.
Proof.
  induction l as [|z l IH]; simpl; [tauto|].
  intros [Hz Hl]%andb_true_iff Hx Hy Hf.
  apply negb_true_iff in Hz.
  assert (Hno : forall u, In u l -> f z <> f u).
  { intros u Hu E.
    assert (existsb (fun y => (fst (f z) =? fst y) && (snd (f z) =? snd y))%bool (map f l) = true);
      [|congruence].
    apply existsb_exists. exists (f u). split; [by apply in_map|].
    rewrite E, !Z.eqb_refl. reflexivity. }
  destruct Hx as [->|Hx], Hy as [->|Hy]; auto.
  - destruct (Hno y Hy Hf).
  - destruct (Hno x Hx). auto.
Qed.

(** Two rows of a week with the same guess are the same row, when the
    store satisfies [uq_week_points_unique]. *)
Lemma lunch_rows_guess_inj db w x y t :
  uq_week_points_unique (tiebreakers db) = true ->
  In x (lunch_rows db w) -> In y (lunch_rows db w) ->
  lr_tb x = Some t -> lr_tb y = Some t -> x = y.
Proof.
  intros Huq Hx Hy Htx Hty.
  apply (lunch_rows_uid_inj db w); auto.
  destruct (lunch_rows_In db w x Hx) as (n1 & c1 & p1 & tbu1 & u1 & -> & -> & _ & _).
  destruct (lunch_rows_In db w y Hy) as (n2 & c2 & p2 & tbu2 & u2 & -> & -> & _ & _).
  simpl in *.
  apply tb_by_user_get in Htx as (t1 & Hin1 & Hu1 & Hw1 & Hg1).
  apply tb_by_user_get in Hty as (t2 & Hin2 & Hu2 & Hw2 & Hg2).
  assert (t1 = t2); [|congruence].
  apply (distinct_pairs_inj (fun t => (tb_week_id t, tb_guess_points t)) (tiebreakers db));
    auto. congruence.
Qed.

Lemma lunch_winners_sub rows x : In x (lunch_winners rows) -> In x rows.
Proof.
  unfold lunch_winners. destruct (max_Z _); [|intros []]. by intros []%filter_In.
Qed.

(** C2.  With more than one user at the top, the week finalized and an
    actual total [a]: if some tied user guessed at most [a], the one winner
    is the tied user with the highest such guess (strictly the highest when
    no two users of a week hold the same guess); if none did, the winners
    are the whole tied group.  Ann (40) and Bob (45) with a total of 44:
    Ann alone. *)
Theorem C2_winner_tiebreak :
  (forall (db : DB) (w : Week) (r : LunchResult) (a : Z),
     _weekly_lunch db (Some w) = LunchFull r ->
     week_finalized db w = true ->
     (1 < length (lunch_winners (lunch_rows db w)))%nat ->
     actual_total r = Some a ->
     let tied := lunch_winners (lunch_rows db w) in
     ((exists x t, In x tied /\ lr_tb x = Some t /\ t <= a) ->
        exists best t,
          In best tied /\ lr_tb best = Some t /\ t <= a /\
          (forall x t', In x tied -> lr_tb x = Some t' -> t' <= a -> t' <= t) /\
          (uq_week_points_unique (tiebreakers db) = true ->
           forall x t', In x tied -> x <> best -> lr_tb x = Some t' -> t' <= a -> t' < t) /\
          winner_users r = [user_dto best] /\ winner_names r = [lr_name best] /\
          tiebreaker_applied r = true) /\
     ((forall x t, In x tied -> lr_tb x = Some t -> a < t) ->
        winner_users r = map user_dto tied /\ winner_names r = map lr_name tied /\
        tiebreaker_applied r = false)) /\
  lunch_winner_ids (_weekly_lunch Fixture.db_ab (Some Fixture.wk1)) = [1].
Proof.
  split; [|reflexivity].
  intros db w r a Hfull Hfin Hlen Hact tied.
  destruct (weekly_lunch_full db w r Hfull) as (Ha & Hwu & Hwn & Htb & _).
  rewrite Hact in Ha. rewrite <- Ha, Hfin in Hwu, Hwn, Htb.
  fold tied in Hwu, Hwn, Htb. split.
  - intros Hex.
    destruct (break_winner_tie_best a tied Hlen Hex) as (best & t & Hb & Hin & Ht & Hle & Hmax & _).
    rewrite Hb in Hwu, Hwn, Htb. simpl in *.
    exists best, t. repeat split; auto.
    intros Huq x t' Hx Hne Htx Hle'.
    specialize (Hmax x t' Hx Htx Hle').
    destruct (Z.eq_dec t' t) as [->|]; [|lia].
    destruct Hne. apply (lunch_rows_guess_inj db w x best t); auto using lunch_winners_sub.
  - intros Hnone. rewrite (break_winner_tie_none a tied true Hnone) in Hwu, Hwn, Htb. auto.
Qed.

Lemma C2_witness :
  exists r,
    _weekly_lunch Fixture.db_ab (Some Fixture.wk1) = LunchFull r /\
    week_finalized Fixture.db_ab Fixture.wk1 = true /\
    (1 < length (lunch_winners (lunch_rows Fixture.db_ab Fixture.wk1)))%nat /\
    actual_total r = Some 44 /\
    exists best t,
      In best (lunch_winners (lunch_rows Fixture.db_ab Fixture.wk1)) /\
      lr_tb best = Some t /\ t <= 44 /\
      winner_users r = [user_dto best] /\ tiebreaker_applied r = true.
Proof.
  set (r := mkLunchResult decided 2 2 ["Ann A"%string] ["Bob B"%string]
              [mkUserDTO 1 "Ann A"] [mkUserDTO 2 "Bob B"] (Some 44) true true).
  assert (H1 : _weekly_lunch Fixture.db_ab (Some Fixture.wk1) = LunchFull r) by reflexivity.
  assert (H2 : week_finalized Fixture.db_ab Fixture.wk1 = true) by reflexivity.
  assert (H3 : (1 < length (lunch_winners (lunch_rows Fixture.db_ab Fixture.wk1)))%nat)
    by (vm_compute; lia).
  assert (H4 : actual_total r = Some 44) by reflexivity.
  destruct (proj1 C2_winner_tiebreak _ _ _ _ H1 H2 H3 H4) as [Hbest _].
  destruct Hbest as (best & t & Hin & Ht & Hle & _ & _ & Hwu & _ & Htb).
  { eexists _, 40. split; [vm_compute; left; reflexivity|]. split; [reflexivity|lia]. }
  exists r. split; [exact H1|]. split; [exact H2|]. split; [exact H3|]. split; [exact H4|].
  exists best, t. auto.
Defined.

(** ** Tie-break for the loser *)

Lemma dist_ltb_lt a b : dist_ltb a b = true <-> dist_lt a b.
Proof.
  destruct a, b; simpl; try (split; congruence || tauto).
  apply Z.ltb_lt.
Qed.

Lemma dist_eqb_eq a b : dist_eqb a b = true <-> a = b.
Proof.
  destruct a, b; simpl; try (split; congruence).
  rewrite Z.eqb_eq. split; congruence.
Qed.

Lemma loss_key_lt_iff (a b : Z * Dist) :
  loss_key_lt a b = true <->
  fst a < fst b \/ (fst a = fst b /\ dist_lt (snd a) (snd b)).
Proof.
  unfold loss_key_lt. destruct a as [a1 a2], b as [b1 b2]. simpl.
  destruct (a1 =? b1) eqn:E1; simpl.
  - apply Z.eqb_eq in E1. subst.
    destruct (dist_eqb a2 b2) eqn:E2; simpl.
    + apply dist_eqb_eq in E2. subst. split; [discriminate|].
      intros [|[_ H]]; [lia|]. destruct b2; simpl in H; [lia|tauto].
    + rewrite dist_ltb_lt. split; [auto|]. intros [|[_ H]]; [lia|auto].
  - apply Z.eqb_neq in E1. rewrite Z.ltb_lt. split; [auto|]. intros [|[]]; [auto|lia].
Qed.

Lemma loss_key_lt_asym a b : loss_key_lt a b = true -> loss_key_lt b a = false.
Proof.
  intros H. destruct (loss_key_lt b a) eqn:E; auto.
  apply loss_key_lt_iff in H, E.
  destruct a as [a1 [x|]], b as [b1 [y|]]; simpl in *; lia || tauto.
Qed.

Lemma loss_key_ge_trans a b c :
  loss_key_lt a b = false -> loss_key_lt b c = false -> loss_key_lt a c = false.
Proof.
  intros H1 H2. destruct (loss_key_lt a c) eqn:E; auto.
  apply not_true_iff_false in H1, H2. rewrite loss_key_lt_iff in H1, H2.
  apply loss_key_lt_iff in E.
  destruct a as [a1 [x|]], b as [b1 [y|]], c as [c1 [z|]]; simpl in *;
    try lia; try tauto;
    solve [exfalso; destruct (Z.lt_trichotomy a1 b1) as [|[|]],
                             (Z.lt_trichotomy b1 c1) as [|[|]]; try lia; tauto].
Qed.

Lemma break_loser_tie_worst a losers :
  (1 < length losers)%nat ->
  exists worst,
    break_loser_tie true (Some a) losers = ([worst], true) /\
    In worst losers /\
    (forall x, In x losers -> loss_key_lt (_loss_key a worst) (_loss_key a x) = false).
Proof.
  intros Hlen. unfold break_loser_tie. simpl.
  pose proof Hlen as Hlen'. apply Nat.ltb_lt in Hlen'. rewrite Hlen'.
  assert (Hne : losers <> []) by (intros ->; simpl in Hlen; lia).
  destruct (py_max_Some (_loss_key a) loss_key_lt _ Hne) as [worst Hw]. rewrite Hw.
  exists worst. split; [reflexivity|split].
  - eapply py_max_In; eauto.
  - intros x Hx.
    exact (py_max_upper (_loss_key a) loss_key_lt loss_key_lt_asym loss_key_ge_trans
             losers worst x Hw Hx).
Qed.

(** C3.  With more than one user at the bottom, the week finalized and an
    actual total [a], the one loser is a tied user no other tied user
    outranks in badness.  Badness is the order of [_loss_key]: among
    guesses at or under [a] the one farther below is worse; a guess over
    [a] is worse than any guess at or under it; among guesses over [a] the
    one farther above is worse; no guess is worse than any guess.  Cy (50,
    total 44) and Di (no guess): Di alone. *)
Theorem C3_loser_tiebreak :
  (forall (db : DB) (w : Week) (r : LunchResult) (a : Z),
     _weekly_lunch db (Some w) = LunchFull r ->
     week_finalized db w = true ->
     (1 < length (lunch_losers (lunch_rows db w)))%nat ->
     actual_total r = Some a ->
     let tied := lunch_losers (lunch_rows db w) in
     exists worst,
       In worst tied /\
       (forall x, In x tied -> loss_key_lt (_loss_key a worst) (_loss_key a x) = false) /\
       loser_users r = [user_dto worst] /\ loser_names r = [lr_name worst] /\
       loser_tiebreaker_applied r = true) /\
  (forall (a : Z) (x y : LunchRow) (tx ty : Z),
     lr_tb x = Some tx -> lr_tb y = Some ty ->
     (ty <= a -> tx < ty -> loss_key_lt (_loss_key a y) (_loss_key a x) = true) /\
     (tx <= a -> a < ty -> loss_key_lt (_loss_key a x) (_loss_key a y) = true) /\
     (a < tx -> tx < ty -> loss_key_lt (_loss_key a x) (_loss_key a y) = true)) /\
  (forall (a : Z) (x y : LunchRow),
     lr_tb x <> None -> lr_tb y = None ->
     loss_key_lt (_loss_key a x) (_loss_key a y) = true) /\
  lunch_loser_ids (_weekly_lunch Fixture.db_cd (Some Fixture.wk1)) = [4].
Proof.
  split; [|split; [|split; [|reflexivity]]].
  - intros db w r a Hfull Hfin Hlen Hact tied.
    destruct (weekly_lunch_full db w r Hfull) as (Ha & _ & _ & _ & Hlu & Hln & Htb).
    rewrite Hact in Ha. rewrite <- Ha, Hfin in Hlu, Hln, Htb.
    fold tied in Hlu, Hln, Htb.
    destruct (break_loser_tie_worst a tied Hlen) as (worst & Hb & Hin & Hmax).
    rewrite Hb in Hlu, Hln, Htb. exists worst. auto.
  - intros a x y tx ty Hx Hy. unfold _loss_key. rewrite Hx, Hy.
    repeat split; intros H1 H2; apply loss_key_lt_iff.
    + assert (E1 : (ty <=? a) = true) by (apply Z.leb_le; lia).
      assert (E2 : (tx <=? a) = true) by (apply Z.leb_le; lia).
      rewrite E1, E2. simpl. right. split; auto. lia.
    + assert (E1 : (tx <=? a) = true) by (apply Z.leb_le; lia).
      assert (E2 : (ty <=? a) = false) by (apply Z.leb_gt; lia).
      rewrite E1, E2. simpl. lia.
    + assert (E1 : (tx <=? a) = false) by (apply Z.leb_gt; lia).
      assert (E2 : (ty <=? a) = false) by (apply Z.leb_gt; lia).
      rewrite E1, E2. simpl. right. split; auto. lia.
  - intros a x y Hx Hy. apply loss_key_lt_iff. unfold _loss_key. rewrite Hy.
    destruct (lr_tb x) as [tx|]; [|congruence].
    destruct (tx <=? a); simpl; lia.
Qed.

Lemma C3_witness :
  exists r,
    _weekly_lunch Fixture.db_cd (Some Fixture.wk1) = LunchFull r /\
    week_finalized Fixture.db_cd Fixture.wk1 = true /\
    (1 < length (lunch_losers (lunch_rows Fixture.db_cd Fixture.wk1)))%nat /\
    actual_total r = Some 44 /\
    exists worst,
      In worst (lunch_losers (lunch_rows Fixture.db_cd Fixture.wk1)) /\
      loser_users r = [user_dto worst] /\ loser_tiebreaker_applied r = true.
Proof.
  set (r := mkLunchResult decided 2 2 ["Ed E"%string] ["Di D"%string]
              [mkUserDTO 5 "Ed E"] [mkUserDTO 4 "Di D"] (Some 44) false true).
  assert (H1 : _weekly_lunch Fixture.db_cd (Some Fixture.wk1) = LunchFull r) by reflexivity.
  assert (H2 : week_finalized Fixture.db_cd Fixture.wk1 = true) by reflexivity.
  assert (H3 : (1 < length (lunch_losers (lunch_rows Fixture.db_cd Fixture.wk1)))%nat)
    by (vm_compute; lia).
  assert (H4 : actual_total r = Some 44) by reflexivity.
  destruct (proj1 C3_loser_tiebreak _ _ _ _ H1 H2 H3 H4) as (worst & Hin & _ & Hlu & _ & Htb).
  exists r. split; [exact H1|]. split; [exact H2|]. split; [exact H3|]. split; [exact H4|].
  exists worst. auto.
Defined.

(** ** The order of the sort keys *)

Lemma ascii_compare_trans a b c :
  Ascii.compare a b = Lt -> Ascii.compare b c = Lt -> Ascii.compare a c = Lt.
Proof.
  unfold Ascii.compare. rewrite !N.compare_lt_iff. lia.
Qed.

Lemma ascii_compare_refl a : Ascii.compare a a = Eq.
Proof. unfold Ascii.compare. apply N.compare_refl. Qed.

Lemma str_compare_refl s : String.compare s s = Eq.
Proof. induction s as [|c s IH]; simpl; auto. by rewrite ascii_compare_refl. Qed.

Lemma str_compare_trans a : forall b c,
  String.compare a b = Lt -> String.compare b c = Lt -> String.compare a c = Lt.
Proof.
  induction a as [|x a IH]; intros [|y b] [|z c]; simpl; try congruence.
  destruct (Ascii.compare x y) eqn:E1; try discriminate;
  destruct (Ascii.compare y z) eqn:E2; try discriminate; intros H1 H2.
  - apply Ascii.compare_eq_iff in E1, E2. subst. rewrite ascii_compare_refl. eauto.
  - apply Ascii.compare_eq_iff in E1. subst. by rewrite E2.
  - apply Ascii.compare_eq_iff in E2. subst. by rewrite E1.
  - by rewrite (ascii_compare_trans _ _ _ E1 E2).
Qed.

Lemma str_ltb_asym a b : String.ltb a b = true -> String.ltb b a = false.
Proof.
  unfold String.ltb. rewrite (String.compare_antisym a b).
  by destruct (String.compare b a).
Qed.

Lemma str_ltb_irrefl a : String.ltb a a = false.
Proof. unfold String.ltb. by rewrite str_compare_refl. Qed.

Lemma str_ltb_false a b :
  String.ltb a b = false <-> a = b \/ String.ltb b a = true.
Proof.
  unfold String.ltb. rewrite (String.compare_antisym b a). split.
  - destruct (String.compare a b) eqn:E; simpl; auto; try discriminate.
    left. by apply String.compare_eq_iff.
  - intros [->|H]; [by rewrite str_compare_refl|].
    by destruct (String.compare a b).
Qed.

Lemma str_ltb_trans a b c :
  String.ltb a b = true -> String.ltb b c = true -> String.ltb a c = true.
Proof.
  unfold String.ltb.
  destruct (String.compare a b) eqn:E1; try discriminate.
  destruct (String.compare b c) eqn:E2; try discriminate.
  by rewrite (str_compare_trans _ _ _ E1 E2).
Qed.

Lemma str_ge_trans a b c :
  String.ltb a b = false -> String.ltb b c = false -> String.ltb a c = false.
Proof.
  intros [->|H1]%str_ltb_false [->|H2]%str_ltb_false; apply str_ltb_false; auto.
  right. eapply str_ltb_trans; eauto.
Qed.

Lemma key_lt_iff (a b : Z * Q * string) :
  key_lt a b = true <->
  fst (fst a) < fst (fst b) \/
  (fst (fst a) = fst (fst b) /\
   ((snd (fst a) < snd (fst b))%Q \/
    ((snd (fst a) == snd (fst b))%Q /\ String.ltb (snd a) (snd b) = true))).
Proof.
  destruct a as [[a1 a2] a3], b as [[b1 b2] b3]. unfold key_lt. simpl.
  destruct (a1 =? b1) eqn:E1; simpl.
  - apply Z.eqb_eq in E1. subst.
    destruct (Qeq_bool a2 b2) eqn:E2; simpl.
    + apply Qeq_bool_iff in E2. split.
      * intros H. right. split; auto.
      * intros [|[_ [H|[_ H]]]]; [lia| |auto]. rewrite E2 in H. by apply Qlt_irrefl in H.
    + apply Qeq_bool_neq in E2. rewrite negb_true_iff. split.
      * intros H. right. split; auto. left. apply Qnot_le_lt.
        intros Hle%Qle_bool_iff. congruence.
      * intros [|[_ [H|[H _]]]]; [lia| |tauto].
        apply not_true_iff_false. intros Hle%Qle_bool_iff. by apply Qle_not_lt in Hle.
  - apply Z.eqb_neq in E1. rewrite Z.ltb_lt. split; [auto|]. intros [|[]]; [auto|lia].
Qed.

Lemma key_lt_asym a b : key_lt a b = true -> key_lt b a = false.
Proof.
  intros H. destruct (key_lt b a) eqn:E; auto.
  apply key_lt_iff in H, E.
  destruct H as [|[H1 [H|[H2 H3]]]], E as [|[E1 [E|[E2 E3]]]]; try lia.
  - exfalso. apply (Qlt_irrefl (snd (fst a))). eapply Qlt_trans; eauto.
  - exfalso. rewrite E2 in H. by apply Qlt_irrefl in H.
  - exfalso. rewrite H2 in E. by apply Qlt_irrefl in E.
  - apply str_ltb_asym in H3. congruence.
Qed.

Lemma key_ge_trans a b c :
  key_lt a b = false -> key_lt b c = false -> key_lt a c = false.
Proof.
  intros H1 H2. destruct (key_lt a c) eqn:E; auto. exfalso.
  apply not_true_iff_false in H1, H2. rewrite key_lt_iff in H1, H2.
  apply key_lt_iff in E.
  destruct a as [[a1 a2] a3], b as [[b1 b2] b3], c as [[c1 c2] c3]. simpl in *.
  assert (Hab : b1 <= a1) by lia.
  assert (Hbc : c1 <= b1) by lia.
  destruct E as [E|[E1 E]]; [lia|].
  assert (a1 = b1) by lia. assert (b1 = c1) by lia.
  assert (Hq1 : (b2 <= a2)%Q).
  { apply Qnot_lt_le. intros Hlt. apply H1. right. auto. }
  assert (Hq2 : (c2 <= b2)%Q).
  { apply Qnot_lt_le. intros Hlt. apply H2. right. auto. }
  destruct E as [E|[E2 E3]].
  - apply (Qlt_irrefl a2). eapply Qlt_le_trans; [exact E|]. eapply Qle_trans; eauto.
  - assert (Hab2 : (a2 == b2)%Q).
    { apply Qle_antisym; auto. rewrite E2. auto. }
    assert (Hbc2 : (b2 == c2)%Q).
    { apply Qle_antisym; auto. rewrite <- E2. auto. }
    assert (S1 : String.ltb a3 b3 = false).
    { apply not_true_iff_false. intros S. apply H1. right. auto. }
    assert (S2 : String.ltb b3 c3 = false).
    { apply not_true_iff_false. intros S. apply H2. right. auto. }
    rewrite (str_ge_trans _ _ _ S1 S2) in E3. discriminate.
Qed.

(** ** The stable sort *)

Section PySortFacts.
Context {A : Type} (lt : A -> A -> bool).
Hypothesis lt_asym : forall a b, lt a b = true -> lt b a = false.
Hypothesis ge_trans : forall a b c, lt a b = false -> lt b c = false -> lt a c = false.

Lemma insert_by_In x l y : In y (insert_by lt x l) <-> y = x \/ In y l.
Proof.
  induction l as [|z l IH]; simpl; [intuition|].
  destruct (lt z x); simpl; rewrite ?IH; intuition.
Qed.

Lemma insert_by_sorted x l :
  StronglySorted (before lt) l -> StronglySorted (before lt) (insert_by lt x l).
Proof.
  induction 1 as [|z l Hl IH Hz]; simpl.
  - repeat constructor.
  - destruct (lt z x) eqn:E.
    + constructor; auto. apply List.Forall_forall. intros y [->|Hy]%insert_by_In.
      * unfold before. by apply lt_asym.
      * rewrite List.Forall_forall in Hz. auto.
    + constructor; [by constructor|].
      constructor; auto. rewrite List.Forall_forall in Hz |- *.
      intros y Hy. unfold before. apply ge_trans with z; auto. by apply Hz.
Qed.

Lemma py_sort_sorted l : StronglySorted (before lt) (py_sort lt l).
Proof.
  induction l as [|x l IH]; simpl; [constructor|]. by apply insert_by_sorted.
Qed.

Lemma py_sort_In l y : In y (py_sort lt l) <-> In y l.
Proof.
  induction l as [|x l IH]; simpl; [tauto|]. rewrite insert_by_In, IH. intuition.
Qed.

Lemma insert_by_length x l : length (insert_by lt x l) = S (length l).
Proof. induction l as [|z l IH]; simpl; auto. destruct (lt z x); simpl; auto. Qed.

Lemma py_sort_length l : length (py_sort lt l) = length l.
Proof. induction l as [|x l IH]; simpl; auto. by rewrite insert_by_length, IH. Qed.

Lemma firstn_sub n : forall (l : list A) y, In y (firstn n l) -> In y l.
Proof.
  induction n as [|n IH]; intros [|x l] y; simpl; try tauto.
  intros [->|H]; auto.
Qed.

Lemma StronglySorted_firstn n (l : list A) :
  StronglySorted (before lt) l -> StronglySorted (before lt) (firstn n l).
Proof.
  intros H. revert n. induction H as [|z l Hl IH Hz]; intros [|n]; simpl; try constructor; auto.
  rewrite List.Forall_forall in Hz |- *. intros y Hy. apply Hz. eapply firstn_sub; eauto.
Qed.

Lemma StronglySorted_lookup (l : list A) (i j : nat) (a b : A) :
  StronglySorted (before lt) l -> (i < j)%nat ->
  l !! i = Some a -> l !! j = Some b -> (before lt) a b.
Proof.
  intros H. revert i j. induction H as [|z l Hl IH Hz]; intros i j Hij Hi Hj.
  - discriminate.
  - destruct i as [|i], j as [|j]; try lia; simpl in *.
    + injection Hi as ->. rewrite List.Forall_forall in Hz. apply Hz.
      apply list_elem_of_In. eapply list_elem_of_lookup_2; eauto.
    + apply (IH i j); auto. lia.
Qed.

End PySortFacts.

Lemma entry_lt_asym a b : entry_lt a b = true -> entry_lt b a = false.
Proof. apply key_lt_asym. Qed.

Lemma entry_ge_trans a b c :
  entry_lt a b = false -> entry_lt b c = false -> entry_lt a c = false.
Proof. apply key_ge_trans. Qed.

Lemma entry_lt_iff a b :
  entry_lt a b = true <->
  e_correct b < e_correct a \/
  (e_correct a = e_correct b /\
   ((e_pct b < e_pct a)%Q \/
    ((e_pct a == e_pct b)%Q /\ String.ltb (lower (e_name a)) (lower (e_name b)) = true))).
Proof.
  unfold entry_lt. rewrite key_lt_iff. unfold board_key. simpl.
  split.
  - intros [H|[H1 [H|[H2 H3]]]].
    + left. lia.
    + right. split; [lia|]. left. by apply Qopp_lt_compat in H; rewrite !Qopp_involutive in H.
    + right. split; [lia|]. right. split; auto.
      rewrite <- (Qopp_involutive (e_pct a)), <- (Qopp_involutive (e_pct b)), H2. reflexivity.
  - intros [H|[H1 [H|[H2 H3]]]].
    + left. lia.
    + right. split; [lia|]. left. by apply Qopp_lt_compat.
    + right. split; [lia|]. right. split; auto. by rewrite H2.
Qed.

(** ** The counts *)

Lemma count_step_values wbg acc p :
  (forall k v, dict_get (snd acc) k = Some v -> 1 <= v) ->
  forall k v, dict_get (snd (count_step wbg acc p)) k = Some v -> 1 <= v.
Proof.
  intros Hinv. destruct (counted wbg p) eqn:E.
  - unfold counted in E. unfold count_step. destruct acc as [cc pc]. simpl in *.
    destruct (dict_get wbg (p_game_id p)) as [[x|]|]; try discriminate.
    assert (Hset : forall k v,
      dict_get (dict_set pc (p_user_id p) (dict_get0 pc (p_user_id p) + 1)) k = Some v ->
      1 <= v).
    { intros k v. destruct (Z.eq_dec (p_user_id p) k) as [<-|Hne].
      - rewrite dict_get_set_eq. intros [= <-]. unfold dict_get0.
        destruct (dict_get pc (p_user_id p)) as [v0|] eqn:E0; [|lia].
        specialize (Hinv _ _ E0). lia.
      - rewrite dict_get_set_ne by auto. apply Hinv. }
    destruct (p_chosen_team_id p =? x); simpl; auto.
  - by rewrite count_step_not_counted.
Qed.

Lemma count_from_values wbg ps : forall acc,
  (forall k v, dict_get (snd acc) k = Some v -> 1 <= v) ->
  forall k v, dict_get (snd (count_from wbg acc ps)) k = Some v -> 1 <= v.
Proof.
  induction ps as [|p ps IH]; intros acc Hinv; simpl; auto.
  apply IH. by apply count_step_values.
Qed.

Lemma count_step_keys wbg acc p k :
  In k (dict_keys (snd (count_step wbg acc p))) ->
  In k (dict_keys (snd acc)) \/ (counted wbg p = true /\ p_user_id p = k).
Proof.
  destruct (counted wbg p) eqn:E.
  - unfold counted in E. unfold count_step. destruct acc as [cc pc]. simpl in *.
    destruct (dict_get wbg (p_game_id p)) as [[x|]|]; try discriminate.
    destruct (p_chosen_team_id p =? x); simpl;
      intros [->|H]%dict_keys_set_In; auto.
  - rewrite count_step_not_counted by auto. auto.
Qed.

Lemma count_from_keys wbg ps : forall acc k,
  In k (dict_keys (snd (count_from wbg acc ps))) ->
  In k (dict_keys (snd acc)) \/
  exists p, In p ps /\ counted wbg p = true /\ p_user_id p = k.
Proof.
  induction ps as [|p ps IH]; intros acc k; simpl; auto.
  intros [H|(q & Hq & Hc & Hu)]%IH.
  - apply count_step_keys in H as [H|[Hc Hu]]; [auto|].
    right. exists p. simpl. auto.
  - right. exists q. simpl. auto.
Qed.

(** ** The number of decided games *)

Lemma dict_set_fresh {V} (d : list (Z * V)) k v :
  ~ In k (dict_keys d) -> dict_set d k v = d ++ [(k, v)].
Proof.
  induction d as [|[k' v'] d IH]; simpl; auto.
  intros H. destruct (k' =? k) eqn:E.
  - apply Z.eqb_eq in E. tauto.
  - rewrite IH; auto.
Qed.

Lemma wbg_from_NoDup fg : forall d,
  NoDup (dict_keys d ++ map g_id fg) ->
  wbg_from d fg = d ++ map (fun g => (g_id g, game_winner g)) fg.
Proof.
  induction fg as [|g fg IH]; intros d H; simpl.
  - by rewrite app_nil_r.
  - rewrite IH.
    + rewrite dict_set_fresh, <- app_assoc; auto.
      apply NoDup_app in H as (_ & H & _). intros Hin. apply (H (g_id g)).
      * by apply list_elem_of_In.
      * left.
    + rewrite dict_set_fresh.
      * unfold dict_keys in *. rewrite map_app, <- app_assoc. exact H.
      * apply NoDup_app in H as (_ & H & _). intros Hin. apply (H (g_id g)).
        -- by apply list_elem_of_In.
        -- left.
Qed.

Lemma winners_by_game_NoDup fg :
  NoDup (map g_id fg) ->
  winners_by_game fg = map (fun g => (g_id g, game_winner g)) fg.
Proof. intros H. apply (wbg_from_NoDup fg []). exact H. Qed.

Lemma decided_ids_length fg :
  NoDup (map g_id fg) ->
  length (decided_ids (winners_by_game fg))
  = length (List.filter (fun g => match game_winner g with Some _ => true | None => false end) fg).
Proof.
  intros H. rewrite winners_by_game_NoDup by auto. unfold decided_ids.
  rewrite length_map. clear H.
  induction fg as [|g fg IH]; simpl; auto.
  destruct (game_winner g); simpl; auto.
Qed.

Lemma season_decided_length db season :
  length (List.filter (fun g => match game_winner g with Some _ => true | None => false end)
            (season_final_games db season))
  = length (List.filter is_decided
              (List.filter (fun g => g_season_id g =? s_id season) (games db))).
Proof.
  unfold season_final_games. induction (games db) as [|g l IH]; simpl; auto.
  destruct (g_season_id g =? s_id season); simpl; auto.
  assert (Hd : is_decided g =
               (status_eqb (g_status g) FINAL
                && match game_winner g with Some _ => true | None => false end)%bool).
  { unfold is_decided. f_equal.
    destruct (g_home_score g =? g_away_score g) eqn:E.
    - apply Z.eqb_eq in E. by rewrite game_winner_tie.
    - apply Z.eqb_neq in E. destruct (game_winner g) eqn:Ew; auto.
      apply game_winner_None in Ew. congruence. }
  rewrite Hd. destruct (status_eqb (g_status g) FINAL); simpl; auto.
  destruct (game_winner g); simpl; auto.
Qed.

Lemma counted_season_iff db season p :
  NoDup (map g_id (games db)) ->
  counted (winners_by_game (season_final_games db season)) p = true <->
  exists g, In g (games db) /\ g_season_id g = s_id season /\ is_decided g = true /\
            p_game_id p = g_id g.
Proof.
  intros Hnd.
  assert (Hfg : NoDup (map g_id (season_final_games db season))).
  { unfold season_final_games. by apply NoDup_map_filter. }
  unfold counted. split.
  - destruct (dict_get _ (p_game_id p)) as [[x|]|] eqn:E; try discriminate. intros _.
    assert (Hk : In (p_game_id p) (map g_id (season_final_games db season))).
    { apply dict_get_Some_key in E. apply wbg_from_keys in E as [[]|]; auto. }
    apply in_map_iff in Hk as (g & Hid & Hin).
    rewrite <- Hid, winners_by_game_get in E by auto.
    exists g. unfold season_final_games in Hin.
    apply filter_In in Hin as [Hin [Hs Hst]%andb_true_iff]. apply Z.eqb_eq in Hs.
    repeat split; auto. apply is_decided_iff. split; [by destruct (g_status g)|congruence].
  - intros (g & Hin & Hs & [Hst Hw]%is_decided_iff & ->).
    rewrite winners_by_game_get; auto.
    + by destruct (game_winner g).
    + apply filter_In. split; auto. by rewrite Hs, Z.eqb_refl, Hst.
Qed.

(** ** The season board *)

Lemma season_leaderboard_shape db wk :
  fst (_season_leaderboard db wk) = [] \/
  exists season cc pc,
    _active_season db wk = Some season /\
    count_picks (winners_by_game (season_final_games db season))
      (picks_on db (decided_ids (winners_by_game (season_final_games db season)))) = (cc, pc) /\
    fst (_season_leaderboard db wk) =
    firstn 10 (py_sort entry_lt
                 (map (board_entry (name_by_id (users_in db (dict_keys pc))) cc pc)
                      (dict_keys pc))).
Proof.
  unfold _season_leaderboard.
  destruct (_active_season db wk) as [season|]; [|by left].
  destruct (decided_ids _) as [|i ids] eqn:Ei; [by left|]. rewrite <- Ei.
  destruct (count_picks _ _) as [cc pc] eqn:Ec.
  destruct pc as [|kv pc]; [by left|].
  right. exists season, cc, (kv :: pc). auto.
Qed.

Lemma season_leaderboard_count db wk season :
  _active_season db wk = Some season ->
  snd (_season_leaderboard db wk)
  = Z.of_nat (length (decided_ids (winners_by_game (season_final_games db season)))).
Proof.
  unfold _season_leaderboard. intros ->.
  destruct (decided_ids _) as [|i ids] eqn:Ei; [reflexivity|].
  destruct (count_picks _ _) as [cc pc]. by destruct pc.
Qed.

Lemma season_leaderboard_sorted db wk :
  StronglySorted entry_before (fst (_season_leaderboard db wk)).
Proof.
  destruct (season_leaderboard_shape db wk) as [->|(s & cc & pc & _ & _ & ->)].
  - constructor.
  - apply StronglySorted_firstn.
    exact (py_sort_sorted entry_lt entry_lt_asym entry_ge_trans _).
Qed.

Lemma dict_keys_get {V} (d : list (Z * V)) k :
  In k (dict_keys d) -> exists v, dict_get d k = Some v.
Proof.
  intros H. destruct (dict_get d k) as [v|] eqn:E; eauto.
  apply dict_get_None in E. tauto.
Qed.

Lemma season_leaderboard_full db wk season :
  _active_season db wk = Some season ->
  fst (_season_leaderboard db wk) = firstn 10 (full_board db season).
Proof.
  unfold _season_leaderboard, full_board. intros ->.
  destruct (decided_ids _) as [|i ids] eqn:Ei.
  - unfold picks_on. simpl.
    replace (List.filter (fun _ : Pick => false) (picks db)) with (@nil Pick); [reflexivity|].
    induction (picks db); simpl; auto.
  - rewrite <- Ei. destruct (count_picks _ _) as [cc pc]. by destruct pc.
Qed.

Lemma full_board_sorted db season : StronglySorted entry_before (full_board db season).
Proof.
  unfold full_board. destruct (count_picks _ _) as [cc pc].
  exact (py_sort_sorted entry_lt entry_lt_asym entry_ge_trans _).
Qed.

Lemma count_step_keys_mono wbg acc p k :
  In k (dict_keys (snd acc)) -> In k (dict_keys (snd (count_step wbg acc p))).
Proof.
  intros H. destruct (counted wbg p) eqn:E.
  - unfold counted in E. unfold count_step. destruct acc as [cc pc]. simpl in *.
    destruct (dict_get wbg (p_game_id p)) as [[x|]|]; try discriminate.
    destruct (p_chosen_team_id p =? x); simpl; apply dict_keys_set_In; auto.
  - by rewrite count_step_not_counted.
Qed.

Lemma count_step_keys_new wbg acc p :
  counted wbg p = true -> In (p_user_id p) (dict_keys (snd (count_step wbg acc p))).
Proof.
  intros E. unfold counted in E. unfold count_step. destruct acc as [cc pc]. simpl.
  destruct (dict_get wbg (p_game_id p)) as [[x|]|]; try discriminate.
  destruct (p_chosen_team_id p =? x); simpl; apply dict_keys_set_In; auto.
Qed.

Lemma count_from_keys_rev wbg ps : forall acc k,
  (In k (dict_keys (snd acc)) \/
   exists p, In p ps /\ counted wbg p = true /\ p_user_id p = k) ->
  In k (dict_keys (snd (count_from wbg acc ps))).
Proof.
  induction ps as [|p ps IH]; intros acc k; simpl.
  - intros [H|(p & [] & _)]. exact H.
  - intros [H|(q & [->|Hq] & Hc & Hu)]; apply IH.
    + left. by apply count_step_keys_mono.
    + left. subst k. by apply count_step_keys_new.
    + right. eauto.
Qed.

(** The users of the ranking are the users with a pick on a decided game
    of the season. *)
Lemma full_board_users db season uid :
  NoDup (map g_id (games db)) ->
  (exists e, In e (full_board db season) /\ e_user_id e = uid) <->
  (exists p g, In p (picks db) /\ p_user_id p = uid /\
               In g (games db) /\ g_season_id g = s_id season /\ is_decided g = true /\
               p_game_id p = g_id g).
Proof.
  intros Hnd. unfold full_board.
  set (wbg := winners_by_game (season_final_games db season)).
  pose proof (count_from_keys wbg (picks_on db (decided_ids wbg)) ([], []) uid) as H1.
  pose proof (count_from_keys_rev wbg (picks_on db (decided_ids wbg)) ([], []) uid) as H2.
  unfold count_from in H1, H2. fold (count_picks wbg (picks_on db (decided_ids wbg))) in H1, H2.
  destruct (count_picks wbg (picks_on db (decided_ids wbg))) as [cc pc]. simpl in H1, H2.
  split.
  - intros (e & He & Hu). apply py_sort_In in He.
    apply in_map_iff in He as (u & <- & Hin). simpl in Hu. subst u.
    destruct (H1 Hin) as [[]|(p & Hp & Hc & Hpu)].
    apply filter_In in Hp as [Hp _].
    apply counted_season_iff in Hc as (g & Hg & Hs & Hd & Hpg); auto.
    exists p, g. auto 10.
  - intros (p & g & Hp & Hpu & Hg & Hs & Hd & Hpg).
    assert (Hc : counted wbg p = true) by (apply counted_season_iff; eauto 10).
    assert (Hin : In uid (dict_keys pc)).
    { apply H2. right. exists p. split; [|auto]. apply filter_In. split; auto.
      apply in_Z_In. unfold counted in Hc.
      destruct (dict_get wbg (p_game_id p)) as [[x|]|] eqn:E; try discriminate.
      apply decided_ids_get. eauto. }
    eexists. split; [apply py_sort_In, in_map; exact Hin|reflexivity].
Qed.

(** C5.  The season board is in order: of two entries the one with more
    correct picks stands first; with equal correct counts the one with the
    higher accuracy; with both equal the one whose lower-cased name is
    smaller.  It has at most ten entries; every entry has at least one
    counted pick (a pick of that user on a decided game of the season) and
    its accuracy is correct/picks; the number returned with it is the
    number of decided games of the season; the board is the first ten of
    the ranking of all users with a pick on a decided game of the season. *)
Theorem C5_leaderboard_order :
  (forall (db : DB) (wk : option Week),
     NoDup (map g_id (games db)) ->
     let board := fst (_season_leaderboard db wk) in
     (length board <= 10)%nat /\
     (forall (i j : nat) (a b : Entry),
        board !! i = Some a -> board !! j = Some b ->
        (e_correct b < e_correct a -> (i < j)%nat) /\
        (e_correct a = e_correct b -> (e_pct b < e_pct a)%Q -> (i < j)%nat) /\
        (e_correct a = e_correct b -> (e_pct a == e_pct b)%Q ->
         String.ltb (lower (e_name a)) (lower (e_name b)) = true -> (i < j)%nat)) /\
     (forall e, In e board ->
        1 <= e_picks e /\
        e_pct e = (inject_Z (e_correct e) / inject_Z (e_picks e))%Q /\
        exists season p g,
          _active_season db wk = Some season /\
          In p (picks db) /\ p_user_id p = e_user_id e /\
          In g (games db) /\ g_season_id g = s_id season /\ is_decided g = true /\
          p_game_id p = g_id g) /\
     (forall season, _active_season db wk = Some season ->
        snd (_season_leaderboard db wk)
        = Z.of_nat (length (List.filter is_decided
                              (List.filter (fun g => g_season_id g =? s_id season)
                                 (games db)))) /\
        board = firstn 10 (full_board db season) /\
        StronglySorted (fun a b => entry_lt b a = false) (full_board db season) /\
        forall uid,
          (exists e, In e (full_board db season) /\ e_user_id e = uid) <->
          (exists p g, In p (picks db) /\ p_user_id p = uid /\
                       In g (games db) /\ g_season_id g = s_id season /\
                       is_decided g = true /\ p_game_id p = g_id g))) /\
  map e_name (fst (_season_leaderboard Fixture.db_names (Some Fixture.wk1)))
  = ["Amy Z"; "bob Z"; "carl Z"]%string.
Proof.
  split; [|reflexivity].
  intros db wk Hnd board.
  pose proof (season_leaderboard_sorted db wk) as Hsorted. fold board in Hsorted.
  split; [|split; [|split]].
  - subst board.
    destruct (season_leaderboard_shape db wk) as [->|(s & cc & pc & _ & _ & ->)];
      [simpl; lia|apply firstn_le_length].
  - intros i j a b Hi Hj.
    assert (Hkey : entry_lt a b = true -> (i < j)%nat).
    { intros Hlt. destruct (Nat.lt_trichotomy i j) as [|[->|Hji]]; auto.
      - rewrite Hi in Hj. injection Hj as ->.
        pose proof (entry_lt_asym _ _ Hlt). congruence.
      - pose proof (StronglySorted_lookup entry_lt board j i b a Hsorted Hji Hj Hi) as Hb.
        unfold before in Hb. congruence. }
    repeat split; intros; apply Hkey, entry_lt_iff; auto.
  - intros e He. subst board.
    destruct (season_leaderboard_shape db wk) as [E|(s & cc & pc & Hs & Hc & E)];
      rewrite E in He; [destruct He|].
    apply firstn_sub in He. apply py_sort_In in He.
    apply in_map_iff in He as (uid & <- & Huid). simpl.
    assert (Hpc : pc = snd (count_picks (winners_by_game (season_final_games db s))
                              (picks_on db (decided_ids (winners_by_game
                                                            (season_final_games db s))))))
      by (by rewrite Hc).
    destruct (dict_keys_get pc uid Huid) as [v Hv].
    assert (Hv1 : 1 <= v).
    { rewrite Hpc in Hv. unfold count_picks in Hv.
      eapply (count_from_values _ _ ([], [])); [|exact Hv]. simpl. discriminate. }
    unfold dict_get0 at 1 4. rewrite Hv. split; [exact Hv1|]. split.
    + unfold pct_of, dict_get0. rewrite Hv.
      destruct (v =? 0) eqn:E0; [apply Z.eqb_eq in E0; lia|reflexivity].
    + rewrite Hpc in Huid. unfold count_picks in Huid.
      apply (count_from_keys _ _ ([], [])) in Huid as [[]|(p & Hp & Hcnt & Hu)].
      apply filter_In in Hp as [Hp _].
      apply counted_season_iff in Hcnt as (g & Hg & Hgs & Hd & Hpg); auto.
      exists s, p, g. auto 10.
  - intros season Hs. split; [|split; [|split]].
    + rewrite (season_leaderboard_count db wk season Hs).
      rewrite decided_ids_length, season_decided_length; auto.
      unfold season_final_games. by apply NoDup_map_filter.
    + by apply season_leaderboard_full.
    + apply full_board_sorted.
    + intros uid. by apply full_board_users.
Qed.

Lemma C5_witness :
  NoDup (map g_id (games Fixture.db_names)) /\
  (length (fst (_season_leaderboard Fixture.db_names (Some Fixture.wk1))) <= 10)%nat /\
  snd (_season_leaderboard Fixture.db_names (Some Fixture.wk1)) = 1.
Proof.
  assert (H1 : NoDup (map g_id (games Fixture.db_names))).
  { apply (bool_decide_unpack _). vm_compute. exact I. }
  destruct (proj1 C5_leaderboard_order Fixture.db_names (Some Fixture.wk1) H1)
    as (Hlen & _ & _ & Hcount).
  split; [exact H1|]. split; [exact Hlen|].
  exact (proj1 (Hcount (mkSeason 1 2024 true) eq_refl)).
Defined.

(** ** The live cache *)

Section LiveFacts.
Variables (ttl neg_ttl : Z) (remote : Remote).

Lemma triage_step_spec force now s out tf eid :
  triage_step ttl force now s (out, tf) eid =
  if neg_live force now s eid then (out, tf)
  else if fresh ttl force now s eid
       then (match _CACHE s !! eid with Some (_, lg) => <[eid := lg]> out | None => out end, tf)
       else (out, tf ++ [eid]).
Proof.
  unfold triage_step, neg_live, fresh.
  destruct (negb force && match _NEG_CACHE s !! eid with
                          | Some e => now <=? e | None => false end)%bool; auto.
  destruct (_CACHE s !! eid) as [[t lg]|]; [|by rewrite andb_false_r].
  by destruct (negb force && (now - t <=? ttl))%bool.
Qed.

Lemma triage_to_fetch force now s ids : forall out tf,
  snd (fold_left (triage_step ttl force now s) ids (out, tf))
  = tf ++ List.filter (needs_fetch ttl force now s) ids.
Proof.
  induction ids as [|x ids IH]; intros out tf; cbn [fold_left List.filter].
  - by rewrite app_nil_r.
  - rewrite triage_step_spec. unfold needs_fetch.
    destruct (neg_live force now s x); cbn [negb andb]; [apply IH|].
    destruct (fresh ttl force now s x); cbn [negb andb]; [apply IH|].
    rewrite IH, <- app_assoc. reflexivity.
Qed.

Lemma triage_out_skip force now s eid ids : forall out tf,
  (neg_live force now s eid = true \/ fresh ttl force now s eid = false) ->
  fst (fold_left (triage_step ttl force now s) ids (out, tf)) !! eid = out !! eid.
Proof.
  induction ids as [|x ids IH]; intros out tf H; cbn [fold_left]; auto.
  rewrite triage_step_spec.
  destruct (neg_live force now s x) eqn:En; [by apply IH|].
  destruct (fresh ttl force now s x) eqn:Ef; [|by apply IH].
  rewrite IH by auto.
  destruct (_CACHE s !! x) as [[t lg]|]; auto.
  apply lookup_insert_ne. intros ->. destruct H; congruence.
Qed.

Lemma triage_out_served force now s eid t lg ids : forall out tf,
  neg_live force now s eid = false -> fresh ttl force now s eid = true ->
  _CACHE s !! eid = Some (t, lg) ->
  (In eid ids \/ out !! eid = Some lg) ->
  fst (fold_left (triage_step ttl force now s) ids (out, tf)) !! eid = Some lg.
Proof.
  induction ids as [|x ids IH]; intros out tf Hn Hf Hc H; cbn [fold_left].
  - destruct H as [[]|]; auto.
  - rewrite triage_step_spec.
    destruct (String.string_dec x eid) as [->|Hne].
    + rewrite Hn, Hf, Hc. apply IH; auto. right. apply lookup_insert_eq.
    + assert (H' : In eid ids \/ out !! eid = Some lg) by (destruct H as [[|]|]; auto; congruence).
      destruct (neg_live force now s x); [by apply IH|].
      destruct (fresh ttl force now s x); [|by apply IH].
      apply IH; auto. destruct H' as [|H']; auto. right.
      destruct (_CACHE s !! x) as [[t' lg']|]; auto.
      by rewrite lookup_insert_ne.
Qed.

(** The second loop. *)
Lemma fetch_live_event_outbound eid s :
  outbound (snd (fetch_live_event neg_ttl remote eid s)) = outbound s ++ [eid].
Proof.
  unfold fetch_live_event. destruct (reply remote eid) as [p|code|]; simpl; auto.
  by destruct ((code =? 404) || (code =? 410))%bool.
Qed.

Lemma fetch_live_event_cache eid s :
  _CACHE (snd (fetch_live_event neg_ttl remote eid s)) = _CACHE s.
Proof.
  unfold fetch_live_event. destruct (reply remote eid) as [p|code|]; simpl; auto.
  by destruct ((code =? 404) || (code =? 410))%bool.
Qed.

Lemma fetch_live_event_result eid s :
  fst (fetch_live_event neg_ttl remote eid s)
  = match reply remote eid with Summary p => p | _ => None end.
Proof.
  unfold fetch_live_event. destruct (reply remote eid) as [p|code|]; simpl; auto.
  by destruct ((code =? 404) || (code =? 410))%bool.
Qed.

Lemma fetch_live_event_neg_other eid s x :
  x <> eid ->
  _NEG_CACHE (snd (fetch_live_event neg_ttl remote eid s)) !! x = _NEG_CACHE s !! x.
Proof.
  intros Hne. unfold fetch_live_event.
  destruct (reply remote eid) as [p|code|]; simpl; auto.
  destruct ((code =? 404) || (code =? 410))%bool; simpl; auto.
  by rewrite lookup_insert_ne.
Qed.

Lemma fetch_step_spec now out s eid :
  fetch_step neg_ttl remote now (out, s) eid =
  match fetch_live_event neg_ttl remote eid s with
  | (Some lg, s') =>
      (<[eid := lg]> out,
       mkLive (<[eid := (now, lg)]> (_CACHE s')) (_NEG_CACHE s') (clock s') (outbound s'))
  | (None, s') => (out, s')
  end.
Proof. reflexivity. Qed.

Lemma fetch_fold_outbound now tf : forall out s,
  outbound (snd (fold_left (fetch_step neg_ttl remote now) tf (out, s))) = outbound s ++ tf.
Proof.
  induction tf as [|x tf IH]; intros out s; cbn [fold_left].
  - by rewrite app_nil_r.
  - rewrite fetch_step_spec.
    pose proof (fetch_live_event_outbound x s) as Ho.
    destruct (fetch_live_event neg_ttl remote x s) as [[lg|] s']; simpl in Ho;
      rewrite IH; simpl; rewrite Ho, <- app_assoc; reflexivity.
Qed.

Lemma fetch_fold_other now eid tf : forall out s,
  ~ In eid tf ->
  fst (fold_left (fetch_step neg_ttl remote now) tf (out, s)) !! eid = out !! eid /\
  _CACHE (snd (fold_left (fetch_step neg_ttl remote now) tf (out, s))) !! eid = _CACHE s !! eid /\
  _NEG_CACHE (snd (fold_left (fetch_step neg_ttl remote now) tf (out, s))) !! eid
  = _NEG_CACHE s !! eid.
Proof.
  induction tf as [|x tf IH]; intros out s Hn; cbn [fold_left]; auto.
  assert (Hx : x <> eid) by (intros ->; apply Hn; by left).
  assert (Hn' : ~ In eid tf) by (intros H; apply Hn; by right).
  rewrite fetch_step_spec.
  pose proof (fetch_live_event_cache x s) as Hc.
  pose proof (fetch_live_event_neg_other x s eid (not_eq_sym Hx)) as Hg.
  destruct (fetch_live_event neg_ttl remote x s) as [[lg|] s']; simpl in Hc, Hg.
  - destruct (IH (<[x:=lg]> out)
                (mkLive (<[x:=(now, lg)]> (_CACHE s')) (_NEG_CACHE s') (clock s') (outbound s'))
                Hn') as (H1 & H2 & H3).
    rewrite H1, H2, H3. simpl. rewrite !lookup_insert_ne by auto. by rewrite Hc, Hg.
  - destruct (IH out s' Hn') as (H1 & H2 & H3). rewrite H1, H2, H3. by rewrite Hc, Hg.
Qed.

Lemma fetch_fold_success now eid lg tf : forall out s,
  reply remote eid = Summary (Some lg) ->
  (In eid tf \/ (out !! eid = Some lg /\ _CACHE s !! eid = Some (now, lg))) ->
  fst (fold_left (fetch_step neg_ttl remote now) tf (out, s)) !! eid = Some lg /\
  _CACHE (snd (fold_left (fetch_step neg_ttl remote now) tf (out, s))) !! eid = Some (now, lg).
Proof.
  induction tf as [|x tf IH]; intros out s Hr H; cbn [fold_left].
  - destruct H as [[]|]; auto.
  - rewrite fetch_step_spec.
    pose proof (fetch_live_event_cache x s) as Hc.
    pose proof (fetch_live_event_result x s) as Hres.
    destruct (fetch_live_event neg_ttl remote x s) as [[lg'|] s']; simpl in Hc, Hres.
    + apply IH; auto. simpl.
      destruct (String.string_dec x eid) as [->|Hne].
      * rewrite Hr in Hres. injection Hres as ->. right. by rewrite !lookup_insert_eq.
      * destruct H as [[|]|[H1 H2]]; [congruence|auto|].
        right. rewrite !lookup_insert_ne by auto. by rewrite Hc.
    + apply IH; auto.
      destruct H as [[->|]|[H1 H2]]; [|auto|].
      * rewrite Hr in Hres. discriminate.
      * right. by rewrite Hc.
Qed.

Lemma fetch_fold_failure now eid tf : forall out s,
  (forall lg, reply remote eid <> Summary (Some lg)) ->
  fst (fold_left (fetch_step neg_ttl remote now) tf (out, s)) !! eid = out !! eid /\
  _CACHE (snd (fold_left (fetch_step neg_ttl remote now) tf (out, s))) !! eid = _CACHE s !! eid.
Proof.
  induction tf as [|x tf IH]; intros out s Hr; cbn [fold_left]; auto.
  rewrite fetch_step_spec.
  pose proof (fetch_live_event_cache x s) as Hc.
  pose proof (fetch_live_event_result x s) as Hres.
  destruct (fetch_live_event neg_ttl remote x s) as [[lg'|] s']; simpl in Hc, Hres.
  - assert (Hx : x <> eid).
    { intros ->. destruct (reply remote eid) as [[p|]|c|] eqn:E; try discriminate.
      exact (Hr p eq_refl). }
    destruct (IH (<[x:=lg']> out)
                (mkLive (<[x:=(now, lg')]> (_CACHE s')) (_NEG_CACHE s') (clock s') (outbound s'))
                Hr) as (H1 & H2).
    rewrite H1, H2. simpl. rewrite !lookup_insert_ne by auto. by rewrite Hc.
  - destruct (IH out s' Hr) as (H1 & H2). rewrite H1, H2. by rewrite Hc.
Qed.

Lemma fetch_live_event_neg_same eid s :
  (forall code, reply remote eid = StatusError code -> code <> 404 /\ code <> 410) ->
  _NEG_CACHE (snd (fetch_live_event neg_ttl remote eid s)) = _NEG_CACHE s.
Proof.
  intros H. unfold fetch_live_event.
  destruct (reply remote eid) as [p|code|] eqn:E; simpl; auto.
  destruct (H code eq_refl) as [H1 H2].
  apply Z.eqb_neq in H1, H2. by rewrite H1, H2.
Qed.

Lemma fetch_fold_neg_keep now eid tf : forall out s,
  (forall code, reply remote eid = StatusError code -> code <> 404 /\ code <> 410) ->
  _NEG_CACHE (snd (fold_left (fetch_step neg_ttl remote now) tf (out, s))) !! eid
  = _NEG_CACHE s !! eid.
Proof.
  induction tf as [|x tf IH]; intros out s Hr; cbn [fold_left]; auto.
  rewrite fetch_step_spec.
  assert (Hn : _NEG_CACHE (snd (fetch_live_event neg_ttl remote x s)) !! eid
               = _NEG_CACHE s !! eid).
  { destruct (String.string_dec x eid) as [->|Hne].
    - by rewrite fetch_live_event_neg_same.
    - by apply fetch_live_event_neg_other. }
  destruct (fetch_live_event neg_ttl remote x s) as [[lg|] s']; simpl in Hn;
    rewrite IH by auto; exact Hn.
Qed.

(** [force=True] clears both entries of every requested id and nothing else. *)
Lemma clear_ids_spec ids : forall s,
  clock (clear_ids ids s) = clock s /\ outbound (clear_ids ids s) = outbound s /\
  forall eid,
    (In eid ids -> _CACHE (clear_ids ids s) !! eid = None /\
                   _NEG_CACHE (clear_ids ids s) !! eid = None) /\
    (~ In eid ids -> _CACHE (clear_ids ids s) !! eid = _CACHE s !! eid /\
                     _NEG_CACHE (clear_ids ids s) !! eid = _NEG_CACHE s !! eid).
Proof.
  induction ids as [|x ids IH]; intros s; simpl.
  - repeat split; tauto.
  - destruct (IH (mkLive (delete x (_CACHE s)) (delete x (_NEG_CACHE s)) (clock s) (outbound s)))
      as (Hc & Ho & He).
    unfold clear_ids in *. simpl. rewrite Hc, Ho. simpl.
    split; [reflexivity|]. split; [reflexivity|]. intros eid. split.
    + intros [->|Hin].
      * destruct (in_dec String.string_dec eid ids) as [Hi|Hi].
        -- apply (He eid); auto.
        -- destruct (proj2 (He eid) Hi) as [H1 H2]. rewrite H1, H2. simpl.
           by rewrite !lookup_delete_eq.
      * apply (He eid); auto.
    + intros Hn. destruct (proj2 (He eid)) as [H1 H2]; [tauto|].
      rewrite H1, H2. simpl. rewrite !lookup_delete_ne; auto.
Qed.

End LiveFacts.

Section LiveCacheBehaviour.
Variables (ttl neg_ttl : Z) (remote : Remote) (set_iter : list string -> list string).

(** Iterating over the set built from a list yields the elements of the
    list, in whatever order. *)
Hypothesis set_iter_In : forall l x, In x (set_iter l) <-> In x l.

Lemma bulk_unfold (event_ids : list string) (force : bool) (s : Live) :
  let now := clock s in
  let ids := set_iter (List.filter str_truthy event_ids) in
  let s1 := if force then clear_ids ids s else s in
  bulk_fetch_live_events ttl neg_ttl remote set_iter event_ids force s
  = fold_left (fetch_step neg_ttl remote now)
      (List.filter (needs_fetch ttl force now s1) ids)
      (fst (fold_left (triage_step ttl force now s1) ids ((∅ : gmap string LiveGame), ([] : list string))), s1).
Proof.
  intros now ids s1. unfold bulk_fetch_live_events. fold now ids s1.
  pose proof (triage_to_fetch ttl force now s1 ids ∅ []) as Htf.
  destruct (fold_left (triage_step ttl force now s1) ids ((∅ : gmap string LiveGame), ([] : list string))) as [out tf].
  simpl in Htf. subst tf. reflexivity.
Qed.

Lemma requested_In event_ids eid :
  In eid event_ids -> eid <> EmptyString ->
  In eid (set_iter (List.filter str_truthy event_ids)).
Proof.
  intros Hin Hne. apply set_iter_In, filter_In. split; auto.
  destruct eid; [congruence|reflexivity].
Qed.

(** C7.  For a requested, non-empty id, without [force]: while its
    negative entry has not expired it is passed over, with no request sent
    for it; otherwise, while its positive entry is no older than the TTL,
    the cached game is the result, with no request sent; once that entry
    is older, a request is sent, and a game it yields goes to the result
    and, stamped with the time of the call, to the cache.  With [force]
    both entries are dropped first and a request is sent whatever they
    held; what the cache holds afterwards comes from that request alone. *)
Theorem C7_live_cache (event_ids : list string) (s : Live) (eid : string) :
  In eid event_ids -> eid <> EmptyString ->
  let now := clock s in
  let quiet (r : gmap string LiveGame * Live) :=
    exists sent, outbound (snd r) = outbound s ++ sent /\ ~ In eid sent in
  let fetched (r : gmap string LiveGame * Live) :=
    exists sent, outbound (snd r) = outbound s ++ sent /\ In eid sent in
  let unforced := bulk_fetch_live_events ttl neg_ttl remote set_iter event_ids false s in
  let forced := bulk_fetch_live_events ttl neg_ttl remote set_iter event_ids true s in
  (forall e, _NEG_CACHE s !! eid = Some e -> now <= e ->
     fst unforced !! eid = None /\ quiet unforced) /\
  (forall t lg,
     (forall e, _NEG_CACHE s !! eid = Some e -> e < now) ->
     _CACHE s !! eid = Some (t, lg) -> now - t <= ttl ->
     fst unforced !! eid = Some lg /\ quiet unforced) /\
  (forall t lg0,
     (forall e, _NEG_CACHE s !! eid = Some e -> e < now) ->
     _CACHE s !! eid = Some (t, lg0) -> ttl < now - t ->
     fetched unforced /\
     forall lg, reply remote eid = Summary (Some lg) ->
       fst unforced !! eid = Some lg /\ _CACHE (snd unforced) !! eid = Some (now, lg)) /\
  (fetched forced /\
   (forall lg, reply remote eid = Summary (Some lg) ->
      fst forced !! eid = Some lg /\ _CACHE (snd forced) !! eid = Some (now, lg)) /\
   ((forall lg, reply remote eid <> Summary (Some lg)) ->
      fst forced !! eid = None /\ _CACHE (snd forced) !! eid = None) /\
   ((forall code, reply remote eid = StatusError code -> code <> 404 /\ code <> 410) ->
      _NEG_CACHE (snd forced) !! eid = None)).
Proof.
  intros Hin Hne now quiet fetched unforced forced.
  pose proof (requested_In event_ids eid Hin Hne) as Hid.
  set (ids := set_iter (List.filter str_truthy event_ids)) in *.
  assert (Hnolive : (forall e, _NEG_CACHE s !! eid = Some e -> e < now) ->
                    neg_live false now s eid = false).
  { intros H. unfold neg_live. simpl. destruct (_NEG_CACHE s !! eid) as [e|] eqn:E; auto.
    apply Z.leb_gt. by apply H. }
  split; [|split; [|split]].
  - intros e He Hle.
    assert (Hlive : neg_live false now s eid = true).
    { unfold neg_live. rewrite He. simpl. by apply Z.leb_le. }
    assert (Hnf : ~ In eid (List.filter (needs_fetch ttl false now s) ids)).
    { intros [_ H]%filter_In. unfold needs_fetch in H. rewrite Hlive in H. discriminate. }
    subst unforced quiet. rewrite bulk_unfold. fold now ids. cbv iota. split.
    + destruct (fetch_fold_other neg_ttl remote now eid _
                  (fst (fold_left (triage_step ttl false now s) ids ((∅ : gmap string LiveGame), ([] : list string)))) s Hnf)
        as (H1 & _). rewrite H1.
      rewrite (triage_out_skip ttl false now s eid ids ∅ _); auto.
    + eexists. split; [apply fetch_fold_outbound|exact Hnf].
  - intros t lg Hneg Hc Hfresh.
    specialize (Hnolive Hneg).
    assert (Hfr : fresh ttl false now s eid = true).
    { unfold fresh. rewrite Hc. simpl. by apply Z.leb_le. }
    assert (Hnf : ~ In eid (List.filter (needs_fetch ttl false now s) ids)).
    { intros [_ H]%filter_In. unfold needs_fetch in H. rewrite Hfr, andb_false_r in H.
      discriminate. }
    subst unforced quiet. rewrite bulk_unfold. fold now ids. cbv iota. split.
    + destruct (fetch_fold_other neg_ttl remote now eid _
                  (fst (fold_left (triage_step ttl false now s) ids ((∅ : gmap string LiveGame), ([] : list string)))) s Hnf)
        as (H1 & _). rewrite H1.
      apply (triage_out_served ttl false now s eid t lg); auto.
    + eexists. split; [apply fetch_fold_outbound|exact Hnf].
  - intros t lg0 Hneg Hc Hold.
    specialize (Hnolive Hneg).
    assert (Hfr : fresh ttl false now s eid = false).
    { unfold fresh. rewrite Hc. simpl. apply Z.leb_gt. lia. }
    assert (Hf : In eid (List.filter (needs_fetch ttl false now s) ids)).
    { apply filter_In. split; auto. unfold needs_fetch. by rewrite Hnolive, Hfr. }
    subst unforced fetched. rewrite bulk_unfold. fold now ids. cbv iota. split.
    + eexists. split; [apply fetch_fold_outbound|exact Hf].
    + intros lg Hr. apply fetch_fold_success; auto.
  - assert (Hf : In eid (List.filter (needs_fetch ttl true now (clear_ids ids s)) ids)).
    { apply filter_In. split; auto. }
    destruct (clear_ids_spec ids s) as (Hclk & Hout & Hcl).
    destruct (proj1 (Hcl eid) Hid) as [Hc0 Hn0].
    subst forced fetched. rewrite bulk_unfold. fold now ids. cbv iota.
    split; [|split; [|split]]; cycle 3.
    { intros Hr. rewrite (fetch_fold_neg_keep neg_ttl remote now eid _ _ _ Hr). exact Hn0. }
    + eexists. split; [|exact Hf]. rewrite fetch_fold_outbound. by rewrite Hout.
    + intros lg Hr. apply fetch_fold_success; auto.
    + intros Hr.
      destruct (fetch_fold_failure neg_ttl remote now eid
                  (List.filter (needs_fetch ttl true now (clear_ids ids s)) ids)
                  (fst (fold_left (triage_step ttl true now (clear_ids ids s)) ids ((∅ : gmap string LiveGame), ([] : list string))))
                  (clear_ids ids s) Hr) as [H1 H2].
      rewrite H1, H2, Hc0. split; auto.
      rewrite (triage_out_skip ttl true now (clear_ids ids s) eid ids ∅ _); auto.
Qed.

End LiveCacheBehaviour.

Lemma C7_witness :
  In "401"%string ["401"; ""]%string /\ "401"%string <> EmptyString /\
  _CACHE Fixture.live0 !! "401"%string = Some (100, Fixture.lg401) /\
  clock Fixture.live0 - 100 <= 15 /\
  fst (bulk_fetch_live_events 15 600 Fixture.remote1 remove_dups
         ["401"; ""]%string false Fixture.live0) !! "401"%string = Some Fixture.lg401.
Proof.
  assert (Hin : forall (l : list string) x, In x (remove_dups l) <-> In x l).
  { intros l x. rewrite <- !list_elem_of_In. apply elem_of_remove_dups. }
  assert (H1 : In "401"%string ["401"; ""]%string) by (simpl; auto).
  assert (H2 : "401"%string <> EmptyString) by discriminate.
  assert (H3 : _CACHE Fixture.live0 !! "401"%string = Some (100, Fixture.lg401))
    by (vm_compute; reflexivity).
  assert (H4 : clock Fixture.live0 - 100 <= 15) by (simpl; lia).
  destruct (C7_live_cache 15 600 Fixture.remote1 remove_dups Hin
              ["401"; ""]%string Fixture.live0 "401"%string H1 H2) as (_ & Hb & _).
  destruct (Hb 100 Fixture.lg401) as [Hout _]; auto.
  intros e He. vm_compute in He. discriminate He.
Defined.

(** ** The event loop of the provider *)

Section ESPNFacts.
Variable fromisoformat : string -> option (Z * option Z).
Variable py_repr : json -> string.

Lemma schedule_app now evs1 evs2 :
  schedule_of_events fromisoformat py_repr now (evs1 ++ evs2)
  = schedule_of_events fromisoformat py_repr now evs1
    ++ schedule_of_events fromisoformat py_repr now evs2.
Proof.
  induction evs1 as [|ev evs1 IH]; simpl; auto.
  destruct (parse_event fromisoformat py_repr now ev); simpl; by rewrite IH.
Qed.

Lemma parse_iso_fallback now s :
  fromisoformat (iso_normalize s) = None -> _parse_iso_utc fromisoformat now (JStr s) = utc now.
Proof. intros H. unfold _parse_iso_utc. by rewrite H. Qed.

Lemma parse_iso_not_string now v :
  (forall s, v <> JStr s) -> _parse_iso_utc fromisoformat now v = utc now.
Proof. intros H. destruct v; auto. by destruct (H s). Qed.

(** The start time of a returned game is what [_parse_iso_utc] makes of
    the event's date. *)
Lemma parse_event_start_time now ev g :
  parse_event fromisoformat py_repr now ev = Done g ->
  start_time g = _parse_iso_utc fromisoformat now (event_date ev).
Proof.
  unfold parse_event, event_date, bind, jget.
  destruct ev as [| | | | |fl]; try discriminate.
  destruct (negb (truthy (fields_get fl "competitions"))); [discriminate|].
  destruct (fields_get fl "competitions") as [| | | |[|c cs]|]; try discriminate.
  destruct c as [| | | | |cf]; try discriminate.
  assert (Hd : forall a1,
             (if truthy (fields_get cf "date") then Done JNull
              else Done (fields_get fl "date")) = Done a1 ->
             jor (fields_get cf "date") a1
             = jor (fields_get cf "date") (fields_get fl "date")).
  { unfold jor. destruct (truthy (fields_get cf "date")); [auto|]. by intros a1 [= <-]. }
  destruct (if truthy (fields_get cf "date") then Done JNull else Done (fields_get fl "date"))
    as [a1| |]; try discriminate.
  rewrite (Hd a1 eq_refl).
  destruct (negb (truthy _)); [discriminate|].
  destruct (competitors_of (fields_get cf "competitors")) as [cs'| |]; try discriminate.
  destruct (scan_competitors cs' (None, None)) as [ha| |]; try discriminate.
  destruct (negb (opt_truthy ha.1) || negb (opt_truthy ha.2))%bool; [discriminate|].
  by intros [= <-].
Qed.

End ESPNFacts.

(** Whether an event is returned does not depend on what the parser makes
    of its date. *)
Lemma parse_event_any_parser f1 f2 py_repr now ev :
  (exists g, parse_event f1 py_repr now ev = Done g) ->
  (exists g, parse_event f2 py_repr now ev = Done g).
Proof.
  unfold parse_event, bind, jget.
  destruct ev as [| | | | |fl]; try (intros [g H]; discriminate).
  destruct (negb (truthy (fields_get fl "competitions"))); [intros [g H]; discriminate|].
  destruct (fields_get fl "competitions") as [| | | |[|c cs]|]; try (intros [g H]; discriminate).
  destruct c as [| | | | |cf]; try (intros [g H]; discriminate).
  destruct (if truthy (fields_get cf "date") then Done JNull else Done (fields_get fl "date"))
    as [d2| |]; try (intros [g H]; discriminate).
  destruct (negb (truthy (jor (fields_get cf "date") d2))); [intros [g H]; discriminate|].
  destruct (competitors_of (fields_get cf "competitors")) as [cs'| |];
    try (intros [g H]; discriminate).
  destruct (scan_competitors cs' (None, None)) as [ha| |]; try (intros [g H]; discriminate).
  destruct (negb (opt_truthy ha.1) || negb (opt_truthy ha.2))%bool;
    [intros [g H]; discriminate|].
  intros _. eauto.
Qed.

(** C8, as the code has it.  A turn of the loop that ends in [continue] or
    in an exception drops its own event and nothing else; every other event
    is read and returned in order.  The timestamp is not among the things
    that can drop an event: a game is returned with whatever
    [_parse_iso_utc] makes of the event's date, which is the current time
    when the date does not parse, and whether the event is returned is the
    same under every parser. *)
Theorem C8_partial_failure
    (fromisoformat : string -> option (Z * option Z)) (py_repr : json -> string)
    (now : Z) (evs1 evs2 : list json) (ev : json) :
  ((forall g, parse_event fromisoformat py_repr now ev <> Done g) ->
     schedule_of_events fromisoformat py_repr now (evs1 ++ ev :: evs2)
     = schedule_of_events fromisoformat py_repr now evs1
       ++ schedule_of_events fromisoformat py_repr now evs2) /\
  (forall g, parse_event fromisoformat py_repr now ev = Done g ->
     schedule_of_events fromisoformat py_repr now (evs1 ++ ev :: evs2)
     = schedule_of_events fromisoformat py_repr now evs1
       ++ g :: schedule_of_events fromisoformat py_repr now evs2 /\
     start_time g = _parse_iso_utc fromisoformat now (event_date ev)) /\
  ((forall s, event_date ev = JStr s -> fromisoformat (iso_normalize s) = None) ->
     _parse_iso_utc fromisoformat now (event_date ev) = utc now) /\
  (forall f' : string -> option (Z * option Z),
     (exists g, parse_event f' py_repr now ev = Done g) ->
     exists g, parse_event fromisoformat py_repr now ev = Done g) /\
  ((forall f, ev <> JObj f) -> parse_event fromisoformat py_repr now ev = Raised).
Proof.
  split; [|split; [|split; [|split]]].
  - intros H. rewrite schedule_app. simpl.
    destruct (parse_event fromisoformat py_repr now ev) as [g| |]; auto.
    by destruct (H g).
  - intros g H. split.
    + rewrite schedule_app. simpl. by rewrite H.
    + by apply (parse_event_start_time fromisoformat py_repr).
  - intros H. destruct (event_date ev) as [| | |s| |] eqn:E;
      try (apply parse_iso_not_string; intros s0; discriminate).
    apply parse_iso_fallback. by apply H.
  - intros f'. apply parse_event_any_parser.
  - intros H. destruct ev as [| | | | |f]; try reflexivity. by destruct (H f).
Qed.

Lemma C8_witness :
  (forall s, event_date Fixture.ev_bad_date = JStr s ->
             Fixture.iso_basic (iso_normalize s) = None) /\
  _parse_iso_utc Fixture.iso_basic 777 (event_date Fixture.ev_bad_date) = utc 777 /\
  (forall g, parse_event Fixture.iso_basic Fixture.repr_none 777 Fixture.ev_no_teams <> Done g) /\
  schedule_of_events Fixture.iso_basic Fixture.repr_none 777
    ([Fixture.ev_good] ++ Fixture.ev_no_teams :: [Fixture.ev_bad_date])
  = schedule_of_events Fixture.iso_basic Fixture.repr_none 777 [Fixture.ev_good]
    ++ schedule_of_events Fixture.iso_basic Fixture.repr_none 777 [Fixture.ev_bad_date].
Proof.
  assert (H1 : forall s, event_date Fixture.ev_bad_date = JStr s ->
                         Fixture.iso_basic (iso_normalize s) = None).
  { intros s [= <-]. reflexivity. }
  assert (H2 : forall g, parse_event Fixture.iso_basic Fixture.repr_none 777
                           Fixture.ev_no_teams <> Done g).
  { intros g H. vm_compute in H. discriminate H. }
  destruct (C8_partial_failure Fixture.iso_basic Fixture.repr_none 777
              [Fixture.ev_good] [Fixture.ev_bad_date] Fixture.ev_bad_date)
    as (_ & _ & Hnow & _).
  destruct (C8_partial_failure Fixture.iso_basic Fixture.repr_none 777
              [Fixture.ev_good] [Fixture.ev_bad_date] Fixture.ev_no_teams)
    as (Hskip & _).
  exact (conj H1 (conj (Hnow H1) (conj H2 (Hskip H2)))).
Defined.

(** C8 as stated does not hold: the event whose date does not parse is in
    the returned sequence. *)
Lemma C8_counterexample :
  ~ (Fixture.iso_basic (iso_normalize "next thursday") = None ->
     schedule_of_events Fixture.iso_basic Fixture.repr_none 777
       [Fixture.ev_good; Fixture.ev_bad_date]
     = schedule_of_events Fixture.iso_basic Fixture.repr_none 777 [Fixture.ev_good]).
Proof.
  intros H. specialize (H eq_refl). vm_compute in H. discriminate H.
Qed.

Example bad_date_is_kept :
  schedule_of_events Fixture.iso_basic Fixture.repr_none 777
    [Fixture.ev_good; Fixture.ev_bad_date; Fixture.ev_no_teams; Fixture.ev_not_object]
  = [mkPG "KC" "BAL" (utc 1725567600000000) (Some "401"%string);
     mkPG "PHI" "GB" (utc 777) (Some "402"%string)].
Proof. reflexivity. Qed.

(** ** Saving picks *)

(** Past the sign-in, week and lock checks, the handler is the tiebreaker
    check followed by the commit. *)
Lemma picks_save_unlocked db now user week_id form week :
  u_must_change_password user = false ->
  List.find (fun w => w_id w =? week_id) (weeks db) = Some week ->
  is_locked week now = false ->
  picks_save db now (Some user) week_id form =
  let '(updates, adds) := stage_picks db user week form in
  match read_tiebreaker form with
  | TbInvalid => (db, ErrTbInvalid (w_id week))
  | tbf =>
      let change :=
        match tbf with
        | TbGuess v =>
            match List.find (fun t => (tb_user_id t =? u_id user)
                                      && (tb_week_id t =? w_id week))%bool
                    (tiebreakers db) with
            | Some existing_tb => TbSet (tb_id existing_tb) v
            | None => TbAdd (u_id user) (w_id week) v
            end
        | _ => TbKeep
        end in
      match commit db (mkPending updates adds change) with
      | Some db' => (db', Saved (w_id week))
      | None => (db, ErrTbUnique (w_id week))
      end
  end.
Proof. intros H1 H2 H3. unfold picks_save. by rewrite H1, H2, H3. Qed.

Lemma read_tiebreaker_invalid form raw :
  form_get form "tiebreaker" = Some raw -> strip raw <> EmptyString ->
  (py_int (strip raw) = None \/ exists v, py_int (strip raw) = Some v /\ v < 0) ->
  read_tiebreaker form = TbInvalid.
Proof.
  intros Hraw Hne Hbad. unfold read_tiebreaker. rewrite Hraw.
  destruct (strip raw) as [|c r] eqn:E; [congruence|]. simpl.
  destruct Hbad as [->|(v & -> & Hv)]; auto.
  apply Z.ltb_lt in Hv. by rewrite Hv.
Qed.

(** C10.  A tiebreaker field that is not blank and is not a number, or is
    a negative number, ends the request with [tb_invalid] and the store as
    it was: the picks of the same form are not saved.  Whatever the
    earlier checks answer, a request with such a field changes nothing.
    (The same form without the field saves its pick.) *)
Theorem C10_invalid_tiebreaker :
  (forall (db : DB) (now : Z) (user : User) (week_id : Z)
          (form : list (string * string)) (week : Week) (raw : string),
     u_must_change_password user = false ->
     List.find (fun w => w_id w =? week_id) (weeks db) = Some week ->
     is_locked week now = false ->
     form_get form "tiebreaker" = Some raw ->
     strip raw <> EmptyString ->
     (py_int (strip raw) = None \/ exists v, py_int (strip raw) = Some v /\ v < 0) ->
     picks_save db now (Some user) week_id form = (db, ErrTbInvalid (w_id week))) /\
  (forall (db : DB) (now : Z) (current_user : option User) (week_id : Z)
          (form : list (string * string)) (raw : string),
     form_get form "tiebreaker" = Some raw ->
     strip raw <> EmptyString ->
     (py_int (strip raw) = None \/ exists v, py_int (strip raw) = Some v /\ v < 0) ->
     fst (picks_save db now current_user week_id form) = db) /\
  picks_save Fixture.db_picks 500 (Some Fixture.bob) 1
    [("pick_1", "10"); ("tiebreaker", "4o")]%string
  = (Fixture.db_picks, ErrTbInvalid 1) /\
  picks_save Fixture.db_picks 500 (Some Fixture.bob) 1
    [("pick_1", "10"); ("tiebreaker", "-3")]%string
  = (Fixture.db_picks, ErrTbInvalid 1) /\
  picks (fst (picks_save Fixture.db_picks 500 (Some Fixture.bob) 1
                [("pick_1", "10")]%string))
  = [mkPick 1 2 1 10].
Proof.
  assert (Hmain : forall (db : DB) (now : Z) (user : User) (week_id : Z)
            (form : list (string * string)) (week : Week) (raw : string),
            u_must_change_password user = false ->
            List.find (fun w => w_id w =? week_id) (weeks db) = Some week ->
            is_locked week now = false ->
            form_get form "tiebreaker" = Some raw ->
            strip raw <> EmptyString ->
            (py_int (strip raw) = None \/ exists v, py_int (strip raw) = Some v /\ v < 0) ->
            picks_save db now (Some user) week_id form = (db, ErrTbInvalid (w_id week))).
  { intros db now user week_id form week raw Hpw Hweek Hlock Hraw Hne Hbad.
    rewrite (picks_save_unlocked db now user week_id form week Hpw Hweek Hlock).
    destruct (stage_picks db user week form) as [updates adds].
    by rewrite (read_tiebreaker_invalid form raw Hraw Hne Hbad). }
  split; [exact Hmain|]. split; [|repeat split; reflexivity].
  intros db now [user|] week_id form raw Hraw Hne Hbad; [|reflexivity].
  destruct (u_must_change_password user) eqn:Hpw.
  { unfold picks_save. by rewrite Hpw. }
  destruct (List.find (fun w => w_id w =? week_id) (weeks db)) as [week|] eqn:Hweek.
  - destruct (is_locked week now) eqn:Hlock.
    + unfold picks_save. by rewrite Hpw, Hweek, Hlock.
    + by rewrite (Hmain db now user week_id form week raw).
  - unfold picks_save. by rewrite Hpw, Hweek.
Qed.

Lemma C10_witness :
  u_must_change_password Fixture.bob = false /\
  List.find (fun w => w_id w =? 1) (weeks Fixture.db_picks) = Some Fixture.wk1 /\
  is_locked Fixture.wk1 500 = false /\
  form_get [("pick_1", "10"); ("tiebreaker", " x1 ")]%string "tiebreaker"
  = Some " x1 "%string /\
  py_int (strip " x1 ") = None /\
  picks_save Fixture.db_picks 500 (Some Fixture.bob) 1
    [("pick_1", "10"); ("tiebreaker", " x1 ")]%string
  = (Fixture.db_picks, ErrTbInvalid (w_id Fixture.wk1)).
Proof.
  assert (H1 : u_must_change_password Fixture.bob = false) by reflexivity.
  assert (H2 : List.find (fun w => w_id w =? 1) (weeks Fixture.db_picks) = Some Fixture.wk1)
    by reflexivity.
  assert (H3 : is_locked Fixture.wk1 500 = false) by reflexivity.
  assert (H4 : form_get [("pick_1", "10"); ("tiebreaker", " x1 ")]%string "tiebreaker"
               = Some " x1 "%string) by reflexivity.
  assert (H5 : strip " x1 " <> EmptyString) by (vm_compute; discriminate).
  assert (H6 : py_int (strip " x1 ") = None) by reflexivity.
  exact (conj H1 (conj H2 (conj H3 (conj H4 (conj H6
           (proj1 C10_invalid_tiebreaker Fixture.db_picks 500 Fixture.bob 1 _
              Fixture.wk1 " x1 "%string H1 H2 H3 H4 H5 (or_introl H6))))))).
Defined.

(** ** The unique constraint on (week, guess) *)

Lemma distinct_pairs_false {A} (f : A -> Z * Z) (l : list A) (x y : A) :
  In x l -> In y l -> x <> y -> f x = f y -> distinct_pairs (map f l) = false.
Proof.
  intros Hx Hy Hne Hf. destruct (distinct_pairs (map f l)) eqn:E; auto.
  destruct Hne. by apply (distinct_pairs_inj f l).
Qed.

Lemma find_some_tb (p : TieBreaker -> bool) l t :
  List.find p l = Some t -> In t l /\ p t = true.
Proof. apply find_some. Qed.

Lemma flushed_conflict db updates adds user week v other :
  In other (tiebreakers db) -> tb_week_id other = w_id week ->
  tb_user_id other <> u_id user -> tb_guess_points other = v ->
  let change :=
    match List.find (fun t => (tb_user_id t =? u_id user) && (tb_week_id t =? w_id week))%bool
            (tiebreakers db) with
    | Some existing_tb => TbSet (tb_id existing_tb) v
    | None => TbAdd (u_id user) (w_id week) v
    end in
  uq_week_points_unique (flushed_tiebreakers db (mkPending updates adds change)) = false.
Proof.
  intros Hin Hw Hu Hv change. unfold uq_week_points_unique, flushed_tiebreakers. simpl.
  subst change.
  destruct (List.find _ (tiebreakers db)) as [ex|] eqn:Ef; simpl.
  - apply find_some_tb in Ef as [Hex [Hxu Hxw]%andb_true_iff].
    apply Z.eqb_eq in Hxu, Hxw.
    set (f := fun t => if tb_id t =? tb_id ex
                       then mkTB (tb_id t) (tb_user_id t) (tb_week_id t) v else t).
    apply (distinct_pairs_false _ _ (f other) (f ex)).
    + by apply in_map.
    + by apply in_map.
    + intros E. apply (f_equal tb_user_id) in E. subst f. simpl in E.
      rewrite Z.eqb_refl in E. destruct (tb_id other =? tb_id ex); simpl in E; congruence.
    + subst f. simpl. rewrite Z.eqb_refl.
      destruct (tb_id other =? tb_id ex); simpl; congruence.
  - apply (distinct_pairs_false _ _ other
             (mkTB (next_id (map tb_id (tiebreakers db))) (u_id user) (w_id week) v)).
    + apply in_or_app. by left.
    + apply in_or_app. right. by left.
    + intros E. apply (f_equal tb_user_id) in E. simpl in E. congruence.
    + simpl. congruence.
Qed.

Lemma commit_Some db pd db' :
  commit db pd = Some db' ->
  uq_pick_user_game (picks db') = true /\
  uq_week_points_unique (tiebreakers db') = true /\
  uq_user_week_tiebreaker (tiebreakers db') = true.
Proof.
  unfold commit.
  destruct (uq_pick_user_game _) eqn:E1; [|discriminate].
  destruct (uq_week_points_unique _) eqn:E2; [|discriminate].
  destruct (uq_user_week_tiebreaker _) eqn:E3; [|discriminate].
  simpl. by intros [= <-].
Qed.

(** C9.  No store comes out of a commit with two rows of one week holding
    the same guess.  A save whose guess is already held by another user in
    that week leaves the store as it was, picks included, and answers with
    the [tb_unique] redirect, which no other outcome of the handler uses. *)
Theorem C9_tiebreaker_conflict :
  (forall (db db' : DB) (pd : Pending),
     commit db pd = Some db' ->
     uq_week_points_unique (tiebreakers db') = true /\
     forall t1 t2, In t1 (tiebreakers db') -> In t2 (tiebreakers db') ->
       tb_week_id t1 = tb_week_id t2 -> tb_guess_points t1 = tb_guess_points t2 ->
       t1 = t2) /\
  (forall (db : DB) (now : Z) (user : User) (week_id : Z)
          (form : list (string * string)) (week : Week) (v : Z) (other : TieBreaker),
     u_must_change_password user = false ->
     List.find (fun w => w_id w =? week_id) (weeks db) = Some week ->
     is_locked week now = false ->
     read_tiebreaker form = TbGuess v ->
     In other (tiebreakers db) -> tb_week_id other = w_id week ->
     tb_user_id other <> u_id user -> tb_guess_points other = v ->
     picks_save db now (Some user) week_id form = (db, ErrTbUnique (w_id week))) /\
  (forall w, redirect_url (ErrTbUnique w)
             = ("/picks?week=" ++ pretty w ++ "&err=tb_unique")%string) /\
  picks_save Fixture.db_picks 500 (Some Fixture.bob) 1
    [("pick_1", "10"); ("tiebreaker", "40")]%string
  = (Fixture.db_picks, ErrTbUnique 1).
Proof.
  split; [|split; [|split; [|reflexivity]]].
  - intros db db' pd (_ & H & _)%commit_Some. split; auto.
    intros t1 t2 H1 H2 Hw Hg.
    apply (distinct_pairs_inj (fun t => (tb_week_id t, tb_guess_points t)) (tiebreakers db'));
      auto. congruence.
  - intros db now user week_id form week v other Hpw Hweek Hlock Htb Hin Hw Hu Hv.
    rewrite (picks_save_unlocked db now user week_id form week Hpw Hweek Hlock).
    destruct (stage_picks db user week form) as [updates adds]. rewrite Htb.
    unfold commit.
    rewrite (flushed_conflict db updates adds user week v other Hin Hw Hu Hv).
    by rewrite andb_false_r.
  - reflexivity.
Qed.

Lemma C9_witness :
  u_must_change_password Fixture.bob = false /\
  List.find (fun w => w_id w =? 1) (weeks Fixture.db_picks) = Some Fixture.wk1 /\
  is_locked Fixture.wk1 500 = false /\
  read_tiebreaker [("pick_2", "21"); ("tiebreaker", "40")]%string = TbGuess 40 /\
  In (mkTB 1 1 1 40) (tiebreakers Fixture.db_picks) /\
  picks_save Fixture.db_picks 500 (Some Fixture.bob) 1
    [("pick_2", "21"); ("tiebreaker", "40")]%string
  = (Fixture.db_picks, ErrTbUnique (w_id Fixture.wk1)).
Proof.
  assert (H1 : u_must_change_password Fixture.bob = false) by reflexivity.
  assert (H2 : List.find (fun w => w_id w =? 1) (weeks Fixture.db_picks) = Some Fixture.wk1)
    by reflexivity.
  assert (H3 : is_locked Fixture.wk1 500 = false) by reflexivity.
  assert (H4 : read_tiebreaker [("pick_2", "21"); ("tiebreaker", "40")]%string = TbGuess 40)
    by reflexivity.
  assert (H5 : In (mkTB 1 1 1 40) (tiebreakers Fixture.db_picks)) by (simpl; auto).
  assert (H6 : tb_week_id (mkTB 1 1 1 40) = w_id Fixture.wk1) by reflexivity.
  assert (H7 : tb_user_id (mkTB 1 1 1 40) <> u_id Fixture.bob) by (simpl; lia).
  assert (H8 : tb_guess_points (mkTB 1 1 1 40) = 40) by reflexivity.
  destruct C9_tiebreaker_conflict as (_ & Hsave & _).
  exact (conj H1 (conj H2 (conj H3 (conj H4 (conj H5
           (Hsave Fixture.db_picks 500 Fixture.bob 1 _ Fixture.wk1 40 (mkTB 1 1 1 40)
              H1 H2 H3 H4 H5 H6 H7 H8)))))).
Defined.

(** ** The importer *)

Lemma dt_eqb_refl d : dt_eqb d d = true.
Proof. unfold dt_eqb. by rewrite Bool.eqb_reflx, Z.eqb_refl. Qed.

Lemma dt_eqb_eq a b : dt_eqb a b = true -> a = b.
Proof.
  unfold dt_eqb. intros [H1 H2]%andb_true_iff.
  apply Bool.eqb_prop in H1. apply Z.eqb_eq in H2.
  destruct a, b; simpl in *; congruence.
Qed.

Lemma opt_str_eqb_refl o : opt_str_eqb o o = true.
Proof. destruct o; simpl; auto. apply String.eqb_refl. Qed.

Lemma sql_str_eqb_eq a b : sql_str_eqb a b = true -> a = b.
Proof.
  destruct a, b; simpl; try discriminate. by intros ->%String.eqb_eq.
Qed.

Lemma store_game_zoned g : store_game Zoned g = g.
Proof. by destruct g. Qed.

Lemma session_obj_nil row : session_obj [] row = row.
Proof. reflexivity. Qed.

Lemma import_step_resolve b rows sid wk lookup st pg :
  import_step b rows sid wk lookup st pg =
  match resolve lookup pg with
  | Some (home, away) =>
      match find_game b rows wk home away pg with
      | None =>
          mkIS (is_dirty st)
               (is_pending st ++ [mkGame 0 sid wk (t_id home) (t_id away) (start_time pg)
                                         SCHEDULED 0 0 (provider_game_id pg)])
               (is_upserted st + 1) (is_start_times st ++ [start_time pg])
      | Some row =>
          let '(g', changed) := update_game (session_obj (is_dirty st) row) home away pg in
          if changed
          then mkIS (dict_set (is_dirty st) (g_id row) g') (is_pending st)
                    (is_upserted st + 1) (is_start_times st ++ [start_time pg])
          else mkIS (is_dirty st) (is_pending st) (is_upserted st)
                    (is_start_times st ++ [start_time pg])
      end
  | None => st
  end.
Proof.
  unfold import_step, resolve.
  destruct (lookup !! upper (home_abbr pg)); auto.
  destruct (lookup !! upper (away_abbr pg)); auto.
Qed.

(** A game that agrees with its entry is left alone. *)
Lemma update_game_agrees g home away pg :
  agrees g home away pg -> update_game g home away pg = (g, false).
Proof.
  intros (Ht & Hh & Ha & Hp). unfold update_game.
  rewrite Ht, dt_eqb_refl. simpl. rewrite Hh, Ha, !Z.eqb_refl. simpl.
  destruct (opt_truthy (provider_game_id pg)) eqn:E; simpl; auto.
  rewrite (Hp eq_refl), opt_str_eqb_refl. reflexivity.
Qed.

(** On a settled store the loop changes nothing and counts nothing. *)
Lemma import_fold_settled b rows sid wk lookup payload : forall st,
  settled b rows wk lookup payload -> is_dirty st = [] ->
  fold_left (import_step b rows sid wk lookup) payload st
  = mkIS [] (is_pending st) (is_upserted st)
         (is_start_times st ++ resolved_times lookup payload).
Proof.
  induction payload as [|pg payload IH]; intros st Hs Hd; cbn [fold_left].
  - unfold resolved_times. simpl. rewrite app_nil_r. destruct st; simpl in *. by subst.
  - assert (Hs' : settled b rows wk lookup payload).
    { intros pg' h a Hin. apply Hs. by right. }
    rewrite import_step_resolve.
    unfold resolved_times. cbn [flat_map]. fold (resolved_times lookup payload).
    destruct (resolve lookup pg) as [[home away]|] eqn:Er.
    + destruct (Hs pg home away (or_introl eq_refl) Er) as (row & Hf & Hag).
      rewrite Hf, Hd, session_obj_nil, (update_game_agrees _ _ _ _ Hag).
      rewrite IH by auto. simpl. by rewrite <- app_assoc.
    + rewrite IH by auto. reflexivity.
Qed.

Lemma find_all_false {A} (p : A -> bool) (l : list A) :
  (forall x, In x l -> p x = false) -> List.find p l = None.
Proof.
  induction l as [|x l IH]; simpl; auto.
  intros H. rewrite (H x) by auto. apply IH. auto.
Qed.

Lemma find_exists {A} (p : A -> bool) (l : list A) (x : A) :
  In x l -> p x = true -> exists y, List.find p l = Some y /\ In y l /\ p y = true.
Proof.
  intros Hin Hp. destruct (List.find p l) as [y|] eqn:E.
  - exists y. split; auto. by apply find_some in E.
  - rewrite (find_none _ _ E x Hin) in Hp. discriminate.
Qed.

Lemma find_game_fresh b rows wk home away pg :
  (forall g, In g rows -> g_week_id g <> wk) ->
  find_game b rows wk home away pg = None.
Proof.
  intros H. unfold find_game.
  assert (Hw : forall g, In g rows -> (g_week_id g =? wk) = false).
  { intros g Hg. by apply Z.eqb_neq, H. }
  rewrite (find_all_false (fun g => (g_week_id g =? wk)
             && sql_str_eqb (g_provider_game_id g) (provider_game_id pg))%bool rows)
    by (intros g Hg; by rewrite (Hw g Hg)).
  rewrite (find_all_false (fun g => (g_week_id g =? wk) && (g_home_team_id g =? t_id home)
             && (g_away_team_id g =? t_id away)
             && dt_eqb (g_start_time g) (store_dt b (start_time pg)))%bool rows)
    by (intros g Hg; by rewrite (Hw g Hg)).
  by destruct (opt_truthy (provider_game_id pg)).
Qed.

(** On a week without games the loop adds one game per entry that
    resolves. *)
Lemma import_fold_fresh b rows sid wk lookup payload : forall st,
  (forall g, In g rows -> g_week_id g <> wk) ->
  fold_left (import_step b rows sid wk lookup) payload st
  = mkIS (is_dirty st) (is_pending st ++ new_games sid wk lookup payload)
         (is_upserted st + Z.of_nat (length (new_games sid wk lookup payload)))
         (is_start_times st ++ resolved_times lookup payload).
Proof.
  induction payload as [|pg payload IH]; intros st Hf; cbn [fold_left].
  - unfold new_games, resolved_times. simpl. rewrite !app_nil_r, Z.add_0_r. by destruct st.
  - rewrite import_step_resolve.
    unfold new_games, resolved_times. cbn [flat_map].
    fold (new_games sid wk lookup payload). fold (resolved_times lookup payload).
    destruct (resolve lookup pg) as [[home away]|] eqn:Er.
    + rewrite find_game_fresh by auto. rewrite IH by auto. simpl.
      rewrite <- !app_assoc. simpl. f_equal. lia.
    + rewrite IH by auto. reflexivity.
Qed.

Lemma assign_ids_In n l g : forall next,
  nth_error (assign_ids next l) n = Some g ->
  exists g0, nth_error l n = Some g0 /\ g = set_id g0 (next + Z.of_nat n).
Proof.
  revert n. induction l as [|x l IH]; intros [|n] next; simpl; try discriminate.
  - intros [= <-]. exists x. split; auto. f_equal. lia.
  - intros (g0 & H1 & H2)%IH. exists g0. split; auto. rewrite H2. f_equal. lia.
Qed.

Lemma assign_ids_elem l g next :
  In g (assign_ids next l) -> exists g0 i, In g0 l /\ g = set_id g0 i.
Proof.
  intros (n & Hn)%In_nth_error. apply assign_ids_In in Hn as (g0 & H1 & H2).
  exists g0, (next + Z.of_nat n). split; auto. eapply nth_error_In; eauto.
Qed.

Lemma assign_ids_has l g0 : forall next,
  In g0 l -> exists i, In (set_id g0 i) (assign_ids next l).
Proof.
  induction l as [|x l IH]; intros next; simpl; [tauto|].
  intros [->|Hin].
  - exists next. by left.
  - destruct (IH (next + 1) Hin) as [i Hi]. exists i. by right.
Qed.

Lemma new_games_In sid wk lookup payload g :
  In g (new_games sid wk lookup payload) <->
  exists pg home away,
    In pg payload /\ resolve lookup pg = Some (home, away) /\
    g = mkGame 0 sid wk (t_id home) (t_id away) (start_time pg) SCHEDULED 0 0
               (provider_game_id pg).
Proof.
  unfold new_games. rewrite in_flat_map. split.
  - intros (pg & Hin & Hg). destruct (resolve lookup pg) as [[h a]|] eqn:E; [|destruct Hg].
    destruct Hg as [<-|[]]. eauto 6.
  - intros (pg & h & a & Hin & Hr & ->). exists pg. split; auto. rewrite Hr. by left.
Qed.

(** After an import into a week without games, every entry of a payload
    with consistent ids finds its game. *)
Lemma fresh_then_settled rows sid wk lookup payload next :
  (forall g, In g rows -> g_week_id g <> wk) ->
  consistent_ids payload ->
  settled Zoned (rows ++ assign_ids next (new_games sid wk lookup payload)) wk lookup payload.
Proof.
  intros Hfresh Hcons pg home away Hin Hr.
  set (rows' := rows ++ assign_ids next (new_games sid wk lookup payload)).
  (* the game the first run made of this entry *)
  assert (Hown : exists i, In (set_id (mkGame 0 sid wk (t_id home) (t_id away) (start_time pg)
                                         SCHEDULED 0 0 (provider_game_id pg)) i) rows').
  { destruct (assign_ids_has (new_games sid wk lookup payload)
                (mkGame 0 sid wk (t_id home) (t_id away) (start_time pg) SCHEDULED 0 0
                        (provider_game_id pg)) next) as [i Hi].
    - apply new_games_In. eauto 6.
    - exists i. apply in_or_app. by right. }
  destruct Hown as [i Hown].
  (* whatever a look-up returns is a game of the first run *)
  assert (Hnew : forall r, In r rows' -> g_week_id r = wk ->
            exists pg' h' a' j, In pg' payload /\ resolve lookup pg' = Some (h', a') /\
              r = set_id (mkGame 0 sid wk (t_id h') (t_id a') (start_time pg')
                                 SCHEDULED 0 0 (provider_game_id pg')) j).
  { intros r [Hr0|Hr1]%in_app_or Hwk.
    - destruct (Hfresh r Hr0 Hwk).
    - apply assign_ids_elem in Hr1 as (g0 & j & (pg' & h' & a' & H1 & H2 & ->)%new_games_In & ->).
      eauto 10. }
  unfold find_game. fold rows'.
  destruct (opt_truthy (provider_game_id pg)) eqn:Et.
  - destruct (find_exists
                (fun g => (g_week_id g =? wk)
                          && sql_str_eqb (g_provider_game_id g) (provider_game_id pg))%bool
                rows' _ Hown) as (r & Hf & Hrin & Hp).
    { simpl. rewrite Z.eqb_refl. simpl.
      destruct (provider_game_id pg) as [s|]; [apply String.eqb_refl|discriminate]. }
    rewrite Hf. exists r. split; auto.
    apply andb_true_iff in Hp as [Hwk Hpid]. apply Z.eqb_eq in Hwk.
    apply sql_str_eqb_eq in Hpid.
    destruct (Hnew r Hrin Hwk) as (pg' & h' & a' & j & Hin' & Hr' & ->). simpl in *.
    destruct (Hcons pg pg' Hin Hin' Et (eq_sym Hpid)) as (Hh & Ha & Hst).
    assert (Hsame : Some (h', a') = Some (home, away)).
    { rewrite <- Hr, <- Hr'. unfold resolve. by rewrite Hh, Ha. }
    injection Hsame as -> ->.
    unfold agrees. simpl. auto.
  - destruct (find_exists
                (fun g => (g_week_id g =? wk) && (g_home_team_id g =? t_id home)
                          && (g_away_team_id g =? t_id away)
                          && dt_eqb (g_start_time g) (store_dt Zoned (start_time pg)))%bool
                rows' _ Hown) as (r & Hf & Hrin & Hp).
    { simpl. by rewrite !Z.eqb_refl, dt_eqb_refl. }
    rewrite Hf. exists r. split; auto.
    apply andb_true_iff in Hp as [[[Hwk Hh]%andb_true_iff Ha]%andb_true_iff Hd].
    apply Z.eqb_eq in Hwk, Hh, Ha. apply dt_eqb_eq in Hd. simpl in Hd.
    unfold agrees. repeat split; auto. congruence.
Qed.

Lemma find_app_new {A} (p : A -> bool) (l : list A) (x : A) :
  List.find p l = None -> p x = true -> List.find p (l ++ [x]) = Some x.
Proof.
  induction l as [|y l IH]; simpl; intros H Hx.
  - by rewrite Hx.
  - destruct (p y); [discriminate|]. auto.
Qed.

Lemma ensure_season_find db y :
  List.find (fun s => s_year s =? y) (seasons (fst (ensure_season db y)))
  = Some (snd (ensure_season db y)).
Proof.
  unfold ensure_season.
  destruct (List.find _ (seasons db)) as [s|] eqn:E; simpl; auto.
  apply find_app_new; auto. simpl. apply Z.eqb_refl.
Qed.

Lemma ensure_season_keeps db y :
  teams (fst (ensure_season db y)) = teams db /\
  games (fst (ensure_season db y)) = games db /\
  weeks (fst (ensure_season db y)) = weeks db.
Proof. unfold ensure_season. by destruct (List.find _ (seasons db)). Qed.

Lemma ensure_season_stable db y s :
  List.find (fun s => s_year s =? y) (seasons db) = Some s ->
  ensure_season db y = (db, s).
Proof. intros H. unfold ensure_season. by rewrite H. Qed.

Lemma ensure_week_find b db season wn st now :
  List.find (week_pred season wn st) (weeks (fst (ensure_week b db season wn st now)))
  = Some (snd (ensure_week b db season wn st now)).
Proof.
  unfold ensure_week. fold (week_pred season wn st).
  destruct (List.find _ (weeks db)) as [w|] eqn:E; simpl; auto.
  apply find_app_new; auto. unfold week_pred. simpl. by rewrite !Z.eqb_refl.
Qed.

Lemma ensure_week_keeps b db season wn st now :
  teams (fst (ensure_week b db season wn st now)) = teams db /\
  games (fst (ensure_week b db season wn st now)) = games db /\
  seasons (fst (ensure_week b db season wn st now)) = seasons db.
Proof. unfold ensure_week. by destruct (List.find _ (weeks db)). Qed.

Lemma ensure_week_stable b db season wn st now w :
  List.find (week_pred season wn st) (weeks db) = Some w ->
  ensure_week b db season wn st now = (db, w).
Proof. intros H. unfold ensure_week. fold (week_pred season wn st). by rewrite H. Qed.

(** Writing the first kick-off back leaves the week where a later
    look-up finds it. *)
Lemma find_replace_week season wn st ws w d :
  List.find (week_pred season wn st) ws = Some w ->
  exists w2, List.find (week_pred season wn st) (replace_week ws (set_first_kickoff_at w d))
             = Some w2 /\ w_id w2 = w_id w.
Proof.
  assert (Hp : forall x, week_pred season wn st (set_first_kickoff_at x d)
                         = week_pred season wn st x) by reflexivity.
  induction ws as [|x ws IH]; simpl; [discriminate|].
  destruct (week_pred season wn st x) eqn:Ex.
  - intros [= ->]. rewrite Z.eqb_refl, Hp, Ex. eauto.
  - intros Hf. specialize (Hp w).
    pose proof (find_some _ _ Hf) as [_ Hw].
    destruct (w_id x =? w_id w) eqn:Eid.
    + rewrite Hp, Hw. eauto.
    + rewrite Ex. auto.
Qed.

Lemma team_lookup_map_teams db db' :
  teams db' = teams db -> _team_lookup_map db' = _team_lookup_map db.
Proof. intros H. unfold _team_lookup_map. by rewrite H. Qed.

Lemma import_unfold b db payload y wn st now :
  payload <> [] ->
  let season := snd (ensure_season db y) in
  let db1 := fst (ensure_season db y) in
  let week := snd (ensure_week b db1 season wn st now) in
  let db2 := fst (ensure_week b db1 season wn st now) in
  let stt := fold_left (import_step b (games db2) (s_id season) (w_id week)
                          (_team_lookup_map db2)) payload (mkIS [] [] 0 []) in
  import_week_schedule b db payload y wn st now
  = (with_games
       (with_weeks db2
          match min_dt (is_start_times stt) with
          | Some m => replace_week (weeks db2) (set_first_kickoff_at week (store_dt b m))
          | None => weeks db2
          end)
       (commit_games b (games db2) stt),
     is_upserted stt).
Proof.
  intros Hne. unfold import_week_schedule.
  destruct (ensure_season db y) as [db1 season]. simpl.
  destruct (ensure_week b db1 season wn st now) as [db2 week]. simpl.
  destruct payload; [congruence|reflexivity].
Qed.

Lemma commit_games_clean rows pend ups times :
  commit_games Zoned rows (mkIS [] pend ups times)
  = rows ++ assign_ids (next_id (map g_id rows)) pend.
Proof.
  unfold commit_games. simpl. f_equal.
  - induction rows as [|r rows IH]; simpl; auto.
    by rewrite session_obj_nil, store_game_zoned, IH.
  - f_equal. induction pend as [|g pend IH]; simpl; auto.
    by rewrite store_game_zoned, IH.
Qed.

(** Two imports in a row into a week that had no game. *)
Lemma import_twice_fresh (db : DB) (payload : list ProviderGame)
    (season_year week_number season_type now now' : Z) :
  consistent_ids payload ->
  (forall g, In g (games db) ->
     g_week_id g <> w_id (target_week Zoned db season_year week_number season_type now)) ->
  let first := import_week_schedule Zoned db payload season_year week_number season_type now in
  let second :=
    import_week_schedule Zoned (fst first) payload season_year week_number season_type now' in
  snd second = 0 /\
  games (fst second) = games (fst first) /\
  length (games (fst second)) = length (games (fst first)).
Proof.
  intros Hcons Hfresh first second.
  assert (Hgoal : snd second = 0 /\ games (fst second) = games (fst first));
    [|destruct Hgoal as [H1 H2]; by rewrite H1, H2].
  assert (Hcase : payload = [] \/ payload <> []).
  { destruct payload; [by left|right; discriminate]. }
  destruct Hcase as [->|Hne].
  { subst first second. simpl. unfold import_week_schedule.
    destruct (ensure_season db season_year) as [d1 s1].
    destruct (ensure_week Zoned d1 s1 week_number season_type now) as [d2 w2].
    simpl.
    destruct (ensure_season db season_year) as [d1' s1'].
    destruct (ensure_week Zoned d1' s1' week_number season_type now') as [d2' w2'].
    auto. }
  (* the first run *)
  subst second. subst first. rewrite (import_unfold Zoned db payload _ _ _ now Hne).
  set (season := snd (ensure_season db season_year)).
  set (db1 := fst (ensure_season db season_year)).
  set (week := snd (ensure_week Zoned db1 season week_number season_type now)).
  set (db2 := fst (ensure_week Zoned db1 season week_number season_type now)).
  destruct (ensure_season_keeps db season_year) as (Ht1 & Hg1 & Hw1). fold db1 in Ht1, Hg1, Hw1.
  destruct (ensure_week_keeps Zoned db1 season week_number season_type now)
    as (Ht2 & Hg2 & Hs2). fold db2 in Ht2, Hg2, Hs2.
  assert (Hrows : games db2 = games db) by congruence.
  assert (Hfresh' : forall g, In g (games db2) -> g_week_id g <> w_id week).
  { rewrite Hrows. exact Hfresh. }
  rewrite (import_fold_fresh Zoned (games db2) (s_id season) (w_id week)
             (_team_lookup_map db2) payload (mkIS [] [] 0 []) Hfresh').
  cbn [is_dirty is_pending is_upserted is_start_times app fst snd].
  set (lookup := _team_lookup_map db2).
  set (news := new_games (s_id season) (w_id week) lookup payload).
  rewrite commit_games_clean.
  set (rows1 := games db2 ++ assign_ids (next_id (map g_id (games db2))) news).
  set (weeks1 := match min_dt (resolved_times lookup payload) with
                 | Some m => replace_week (weeks db2)
                               (set_first_kickoff_at week (store_dt Zoned m))
                 | None => weeks db2
                 end).
  set (dbA := with_games (with_weeks db2 weeks1) rows1).
  (* the second run finds the same season, week and teams *)
  assert (Hseason : ensure_season dbA season_year = (dbA, season)).
  { apply ensure_season_stable. change (seasons dbA) with (seasons db2). rewrite Hs2.
    apply ensure_season_find. }
  assert (Hweek : exists week2,
             ensure_week Zoned dbA season week_number season_type now' = (dbA, week2) /\
             w_id week2 = w_id week).
  { pose proof (ensure_week_find Zoned db1 season week_number season_type now) as Hf.
    fold db2 week in Hf.
    assert (Hex : exists w2, List.find (week_pred season week_number season_type) weeks1
                             = Some w2 /\ w_id w2 = w_id week).
    { subst weeks1. destruct (min_dt _); [by apply find_replace_week|eauto]. }
    destruct Hex as (w2 & Hw2 & Hid). exists w2. split; auto.
    by apply ensure_week_stable. }
  destruct Hweek as (week2 & Hweek & Hid).
  assert (Hlookup : _team_lookup_map dbA = lookup) by (by apply team_lookup_map_teams).
  rewrite (import_unfold Zoned dbA payload _ _ _ now' Hne).
  rewrite Hseason. cbn [fst snd]. rewrite Hweek. cbn [fst snd].
  rewrite Hid, Hlookup. change (games dbA) with rows1.
  rewrite (import_fold_settled Zoned rows1 (s_id season) (w_id week) lookup payload
             (mkIS [] [] 0 [])); auto.
  - cbn [is_dirty is_pending is_upserted is_start_times app fst snd].
    rewrite commit_games_clean. simpl. by rewrite app_nil_r.
  - apply fresh_then_settled; auto.
Qed.

(** An import into a settled store counts nothing and changes no game. *)
Lemma import_settled_noop (db : DB) (payload : list ProviderGame)
    (season_year week_number season_type now : Z) :
  settled Zoned (games db)
    (w_id (target_week Zoned db season_year week_number season_type now))
    (_team_lookup_map db) payload ->
  snd (import_week_schedule Zoned db payload season_year week_number season_type now) = 0 /\
  games (fst (import_week_schedule Zoned db payload season_year week_number season_type now))
  = games db.
Proof.
  intros Hs.
  assert (Hcase : payload = [] \/ payload <> []).
  { destruct payload; [by left|right; discriminate]. }
  destruct Hcase as [->|Hne].
  { unfold import_week_schedule.
    destruct (ensure_season db season_year) as [d1 s1].
    by destruct (ensure_week Zoned d1 s1 week_number season_type now) as [d2 w2]. }
  rewrite (import_unfold Zoned db payload _ _ _ now Hne).
  unfold target_week in Hs.
  set (season := snd (ensure_season db season_year)) in *.
  set (db1 := fst (ensure_season db season_year)) in *.
  set (week := snd (ensure_week Zoned db1 season week_number season_type now)) in *.
  set (db2 := fst (ensure_week Zoned db1 season week_number season_type now)).
  destruct (ensure_season_keeps db season_year) as (Ht1 & Hg1 & Hw1). fold db1 in Ht1, Hg1, Hw1.
  destruct (ensure_week_keeps Zoned db1 season week_number season_type now)
    as (Ht2 & Hg2 & Hs2). fold db2 in Ht2, Hg2, Hs2.
  assert (Hrows : games db2 = games db) by congruence.
  assert (Hl : _team_lookup_map db2 = _team_lookup_map db)
    by (apply team_lookup_map_teams; congruence).
  rewrite Hl, Hrows.
  rewrite (import_fold_settled Zoned (games db) (s_id season) (w_id week)
             (_team_lookup_map db) payload (mkIS [] [] 0 [])); auto.
  cbn [is_dirty is_pending is_upserted is_start_times app fst snd].
  rewrite commit_games_clean. simpl. by rewrite app_nil_r.
Qed.

(** C6, as the code has it.  On a store that returns start times with
    their zone: an import counts nothing and changes no game when every
    entry that resolves is matched, by event id or else by home, away and
    start time, to a game that already agrees with it; and that is what a
    second import of the same payload finds, when the entries that share an
    event id describe the same game and the week had no game before the
    first import.  The second import then returns 0 and the games are as
    the first import left them. *)
Theorem C6_import_twice :
  (forall (db : DB) (payload : list ProviderGame)
          (season_year week_number season_type now : Z),
     settled Zoned (games db)
       (w_id (target_week Zoned db season_year week_number season_type now))
       (_team_lookup_map db) payload ->
     snd (import_week_schedule Zoned db payload season_year week_number season_type now) = 0 /\
     games (fst (import_week_schedule Zoned db payload season_year week_number season_type now))
     = games db) /\
  (forall (db : DB) (payload : list ProviderGame)
          (season_year week_number season_type now now' : Z),
     consistent_ids payload ->
     (forall g, In g (games db) ->
        g_week_id g <> w_id (target_week Zoned db season_year week_number season_type now)) ->
     let first :=
       import_week_schedule Zoned db payload season_year week_number season_type now in
     let second :=
       import_week_schedule Zoned (fst first) payload season_year week_number season_type now' in
     snd second = 0 /\
     games (fst second) = games (fst first) /\
     length (games (fst second)) = length (games (fst first))).
Proof.
  split.
  - exact import_settled_noop.
  - exact import_twice_fresh.
Qed.

Lemma C6_witness :
  consistent_ids Fixture.payload1 /\
  (forall g, In g (games Fixture.db_teams) ->
     g_week_id g <> w_id (target_week Zoned Fixture.db_teams 2024 1 2 77)) /\
  snd (import_week_schedule Zoned
         (fst (import_week_schedule Zoned Fixture.db_teams Fixture.payload1 2024 1 2 77))
         Fixture.payload1 2024 1 2 78) = 0.
Proof.
  assert (H1 : consistent_ids Fixture.payload1).
  { intros pg pg' Hin Hin' Ht Hp. simpl in Hin, Hin'.
    destruct Hin as [<-|[<-|[]]]; destruct Hin' as [<-|[<-|[]]];
      simpl in Ht, Hp; try discriminate; auto. }
  assert (H2 : forall g, In g (games Fixture.db_teams) ->
                 g_week_id g <> w_id (target_week Zoned Fixture.db_teams 2024 1 2 77)).
  { intros g Hg. destruct Hg. }
  destruct (proj2 C6_import_twice Fixture.db_teams Fixture.payload1 2024 1 2 77 78 H1 H2)
    as (Hzero & _).
  exact (conj H1 (conj H2 Hzero)).
Defined.

(** C6 as stated does not hold: a payload that lists event 401 twice, with
    two start times, is counted again on the second import. *)
Lemma C6_counterexample :
  snd (import_week_schedule Zoned
         (fst (import_week_schedule Zoned Fixture.db_teams Fixture.payload_dup 2024 1 2 77))
         Fixture.payload_dup 2024 1 2 78) <> 0.
Proof. vm_compute. discriminate. Qed.

(** On SQLite the stored start time comes back naive, so
    [g.start_time != pg.start_time] holds for every matched game: the
    second import counts both games of an ordinary payload, and leaves
    the rows as they were. *)
(** A game stored under the event id of another entry: the first import
    moves the row to the second entry, the second import adds a game. *)
Example import_twice_stale_row :
  let db0 :=
    mkDB [mkSeason 1 2024 true] [Fixture.wk1]
      [mkTeam 1 "KC" []; mkTeam 2 "BAL" []; mkTeam 3 "ARI" []]
      [mkGame 1 1 1 1 2 (utc 5000) SCHEDULED 0 0 (Some "402"%string)] [] [] [] in
  let payload :=
    [mkPG "KC" "BAL" (utc 5000) (Some "401"%string);
     mkPG "ARI" "KC" (utc 6000) (Some "402"%string)] in
  let first := import_week_schedule Zoned db0 payload 2024 1 2 77 in
  let second := import_week_schedule Zoned (fst first) payload 2024 1 2 78 in
  length (games (fst first)) = 1%nat /\ snd second = 1 /\
  length (games (fst second)) = 2%nat.
Proof. vm_compute. auto. Qed.

Example import_twice_sqlite :
  let first := import_week_schedule Sqlite Fixture.db_teams Fixture.payload1 2024 1 2 77 in
  let second := import_week_schedule Sqlite (fst first) Fixture.payload1 2024 1 2 78 in
  snd first = 2 /\ snd second = 2 /\ games (fst second) = games (fst first).
Proof. vm_compute. auto. Qed.

(* ===================================================================== *)
(** * Part III: further properties of the code                           *)
(* ===================================================================== *)

(** ** What the two counts of a user are *)

Lemma dict_get0_set d k v k' :
  dict_get0 (dict_set d k v) k' = if k =? k' then v else dict_get0 d k'.
Proof.
  unfold dict_get0. destruct (k =? k') eqn:E.
  - apply Z.eqb_eq in E as <-. by rewrite dict_get_set_eq.
  - apply Z.eqb_neq in E. by rewrite dict_get_set_ne.
Qed.

Lemma count_step_get0 wbg acc p u :
  dict_get0 (snd (count_step wbg acc p)) u
  = dict_get0 (snd acc) u
    + (if ((p_user_id p =? u) && counted wbg p)%bool then 1 else 0) /\
  dict_get0 (fst (count_step wbg acc p)) u
  = dict_get0 (fst acc) u
    + (if ((p_user_id p =? u) && hits wbg p)%bool then 1 else 0).
Proof.
  unfold count_step, counted, hits. destruct acc as [cc pc]. simpl.
  destruct (dict_get wbg (p_game_id p)) as [[w|]|]; simpl;
    rewrite ?andb_false_r, ?Z.add_0_r; auto.
  destruct (p_chosen_team_id p =? w); simpl; rewrite ?dict_get0_set;
    destruct (p_user_id p =? u) eqn:E; simpl; try apply Z.eqb_eq in E as ->;
    split; lia.
Qed.

Lemma count_from_get0 wbg u ps : forall acc,
  dict_get0 (snd (count_from wbg acc ps)) u
  = dict_get0 (snd acc) u + Z.of_nat (length (picks_where u (counted wbg) ps)) /\
  dict_get0 (fst (count_from wbg acc ps)) u
  = dict_get0 (fst acc) u + Z.of_nat (length (picks_where u (hits wbg) ps)).
Proof.
  induction ps as [|p ps IH]; intros acc; simpl.
  - split; lia.
  - unfold count_from in *. simpl.
    destruct (IH (count_step wbg acc p)) as [-> ->].
    destruct (count_step_get0 wbg acc p u) as [-> ->].
    unfold picks_where. simpl.
    destruct ((p_user_id p =? u) && counted wbg p)%bool;
      destruct ((p_user_id p =? u) && hits wbg p)%bool; simpl length; split; lia.
Qed.

Lemma hits_counted wbg p : hits wbg p = true -> counted wbg p = true.
Proof.
  unfold hits, counted. by destruct (dict_get wbg (p_game_id p)) as [[w|]|].
Qed.

Lemma filter_ext_in' {A} (f g : A -> bool) (l : list A) :
  (forall x, In x l -> f x = g x) -> List.filter f l = List.filter g l.
Proof.
  induction l as [|x l IH]; simpl; auto. intros H.
  rewrite (H x) by auto. rewrite IH by auto. reflexivity.
Qed.

Lemma filter_filter' {A} (f g : A -> bool) (l : list A) :
  List.filter f (List.filter g l) = List.filter (fun x => g x && f x)%bool l.
Proof.
  induction l as [|x l IH]; simpl; auto.
  destruct (g x); simpl; [destruct (f x)|]; by rewrite IH.
Qed.

(** The picks the query hands to the loop lose nothing that would be
    counted. *)
Lemma picks_on_counted db fg u (f : Pick -> bool) :
  (forall p, f p = true -> counted (winners_by_game fg) p = true) ->
  picks_where u f (picks_on db (decided_ids (winners_by_game fg)))
  = picks_where u f (picks db).
Proof.
  intros Hf. unfold picks_where, picks_on. rewrite filter_filter'.
  apply filter_ext_in'. intros p _.
  destruct ((p_user_id p =? u) && f p)%bool eqn:E; [|by rewrite andb_false_r].
  rewrite andb_true_r. apply andb_true_iff in E as [_ E]. apply Hf in E.
  apply in_Z_In. unfold counted in E.
  destruct (dict_get (winners_by_game fg) (p_game_id p)) as [[x|]|] eqn:Eg; try discriminate.
  apply decided_ids_get. eauto.
Qed.

Lemma existsb_ext_in {A} (f g : A -> bool) (l : list A) :
  (forall x, In x l -> f x = g x) -> existsb f l = existsb g l.
Proof.
  induction l as [|x l IH]; simpl; auto. intros H.
  rewrite (H x) by auto. rewrite IH by auto. reflexivity.
Qed.

(** With game ids unique, the dictionary of winners says of a pick what
    the games say. *)
Lemma counted_on_decided (gs fg : list Game) p :
  NoDup (map g_id gs) ->
  (forall g, In g fg <-> In g gs /\ g_status g = FINAL) ->
  NoDup (map g_id fg) ->
  counted (winners_by_game fg) p = on_decided gs p /\
  hits (winners_by_game fg) p = names_winner gs p.
Proof.
  intros Hnd Hfg Hndf. unfold counted, hits, on_decided, names_winner.
  destruct (dict_get (winners_by_game fg) (p_game_id p)) as [ow|] eqn:E.
  - assert (Hk : In (p_game_id p) (map g_id fg)).
    { apply dict_get_Some_key in E. apply wbg_from_keys in E as [[]|]; auto. }
    apply in_map_iff in Hk as (g & Hid & Hin).
    rewrite <- Hid, winners_by_game_get in E by auto. injection E as <-.
    pose proof (proj1 (Hfg g) Hin) as [Hg Hst].
    assert (Hd : is_decided g = match game_winner g with Some _ => true | None => false end).
    { destruct (is_decided g) eqn:Ed.
      - apply is_decided_iff in Ed as [_ Hw]. by destruct (game_winner g).
      - destruct (game_winner g) eqn:Ew; auto.
        assert (is_decided g = true) by (apply is_decided_iff; split; congruence).
        congruence. }
    assert (Hone : forall (f : Game -> bool),
      existsb (fun x => (g_id x =? p_game_id p) && f x)%bool gs = f g).
    { intros f. destruct (f g) eqn:Ef.
      - apply existsb_exists. exists g. split; auto. by rewrite Hid, Z.eqb_refl.
      - apply not_true_is_false. intros (x & Hx & [Hi Hfx]%andb_true_iff)%existsb_exists.
        apply Z.eqb_eq in Hi.
        assert (x = g) by (apply (NoDup_map_eq g_id gs); auto; congruence).
        congruence. }
    split.
    + rewrite (Hone is_decided). rewrite Hd. by destruct (game_winner g).
    + rewrite (existsb_ext_in _
        (fun x => (g_id x =? p_game_id p)
                  && (is_decided x && match game_winner x with
                                      | Some w => p_chosen_team_id p =? w
                                      | None => false
                                      end))%bool).
      * rewrite (Hone (fun x => is_decided x && match game_winner x with
                                                | Some w => p_chosen_team_id p =? w
                                                | None => false
                                                end)%bool).
        rewrite Hd. by destruct (game_winner g).
      * intros x _. by rewrite andb_assoc.
  - assert (Hno : forall g, In g gs -> g_id g = p_game_id p -> is_decided g = false).
    { intros g Hg Hid. apply not_true_is_false. intros [Hst _]%is_decided_iff.
      assert (Hin : In g fg) by (apply Hfg; auto).
      rewrite <- Hid, winners_by_game_get in E by auto. discriminate. }
    split; symmetry; apply not_true_is_false;
      intros (g & Hg & H)%existsb_exists;
      repeat (apply andb_true_iff in H as [H ?]); apply Z.eqb_eq in H;
      rewrite (Hno g Hg H) in *; discriminate.
Qed.

Lemma season_final_games_iff db season g :
  In g (season_final_games db season) <-> In g (season_games db season) /\ g_status g = FINAL.
Proof.
  unfold season_final_games, season_games. rewrite !filter_In, andb_true_iff.
  split.
  - intros [H [H1 H2]]. repeat split; auto. by destruct (g_status g).
  - intros [[H H1] H2]. repeat split; auto. by rewrite H2.
Qed.

Lemma week_final_games_iff db w g :
  In g (final_games_of (week_games db w)) <-> In g (week_games db w) /\ g_status g = FINAL.
Proof.
  unfold final_games_of. rewrite filter_In. split.
  - intros [H H1]. split; auto. by destruct (g_status g).
  - intros [H H1]. split; auto. by rewrite H1.
Qed.

(** The two counts of the loop, for the games [fg] of a season or of a
    week. *)
Lemma count_picks_counts db (gs fg : list Game) u :
  NoDup (map g_id gs) ->
  (forall g, In g fg <-> In g gs /\ g_status g = FINAL) ->
  NoDup (map g_id fg) ->
  let r := count_picks (winners_by_game fg) (picks_on db (decided_ids (winners_by_game fg))) in
  dict_get0 (snd r) u = Z.of_nat (length (picks_where u (on_decided gs) (picks db))) /\
  dict_get0 (fst r) u = Z.of_nat (length (picks_where u (names_winner gs) (picks db))).
Proof.
  intros Hnd Hfg Hndf r. unfold r, count_picks.
  destruct (count_from_get0 (winners_by_game fg) u
              (picks_on db (decided_ids (winners_by_game fg))) ([], [])) as [H1 H2].
  unfold count_from in H1, H2. rewrite H1, H2. simpl.
  rewrite !picks_on_counted by (auto using hits_counted).
  unfold picks_where.
  rewrite (filter_ext_in' _ (fun p => (p_user_id p =? u) && on_decided gs p)%bool (picks db)).
  2:{ intros p _. by rewrite (proj1 (counted_on_decided gs fg p Hnd Hfg Hndf)). }
  rewrite (filter_ext_in' (fun p => (p_user_id p =? u) && hits _ p)%bool
             (fun p => (p_user_id p =? u) && names_winner gs p)%bool (picks db)).
  2:{ intros p _. by rewrite (proj2 (counted_on_decided gs fg p Hnd Hfg Hndf)). }
  split; reflexivity.
Qed.

Lemma names_winner_on_decided gs p : names_winner gs p = true -> on_decided gs p = true.
Proof.
  unfold names_winner, on_decided. intros (g & Hg & H)%existsb_exists.
  apply existsb_exists. exists g. split; auto.
  apply andb_true_iff in H as [H _]. exact H.
Qed.

Lemma filter_length_le {A} (f g : A -> bool) (l : list A) :
  (forall x, f x = true -> g x = true) ->
  (length (List.filter f l) <= length (List.filter g l))%nat.
Proof.
  intros H. induction l as [|x l IH]; simpl; auto.
  destruct (f x) eqn:E.
  - rewrite (H x E). simpl. lia.
  - destruct (g x); simpl; lia.
Qed.

Lemma season_games_NoDup db season :
  NoDup (map g_id (games db)) -> NoDup (map g_id (season_games db season)).
Proof. intros H. unfold season_games. by apply NoDup_map_filter. Qed.

Lemma week_games_NoDup db w :
  NoDup (map g_id (games db)) -> NoDup (map g_id (week_games db w)).
Proof. intros H. unfold week_games. by apply NoDup_map_filter. Qed.

Lemma full_board_In db season e :
  In e (full_board db season) ->
  exists cc pc,
    count_picks (winners_by_game (season_final_games db season))
      (picks_on db (decided_ids (winners_by_game (season_final_games db season)))) = (cc, pc) /\
    In (e_user_id e) (dict_keys pc) /\
    e_correct e = dict_get0 cc (e_user_id e) /\ e_picks e = dict_get0 pc (e_user_id e).
Proof.
  unfold full_board.
  destruct (count_picks _ _) as [cc pc] eqn:E.
  intros H%py_sort_In. apply in_map_iff in H as (uid & <- & Hin).
  exists cc, pc. simpl. auto.
Qed.

Lemma lunch_rows_counts db w x :
  In x (lunch_rows db w) ->
  let r := count_picks (winners_by_game (final_games_of (week_games db w)))
             (picks_on db (decided_ids (winners_by_game (final_games_of (week_games db w))))) in
  In (lr_user_id x) (dict_keys (snd r)) /\
  lr_correct x = dict_get0 (fst r) (lr_user_id x) /\
  lr_picks x = dict_get0 (snd r) (lr_user_id x).
Proof.
  unfold lunch_rows.
  destruct (count_picks _ _) as [cc pc] eqn:E. simpl.
  intros (uid & <- & Hin)%in_map_iff. simpl. auto.
Qed.

(** X1.  Game ids being unique: on the season board and in the rows of the
    weekly computation, a user's [picks] is the number of that user's
    picks on decided games of the season (of the week) and [correct] the
    number of those that name the winner; so [0 <= correct <= picks]. *)
Theorem X1_counts_are_pick_counts (db : DB) :
  NoDup (map g_id (games db)) ->
  (forall (wk : option Week) (season : Season) (e : Entry),
     _active_season db wk = Some season ->
     In e (fst (_season_leaderboard db wk)) ->
     let mine f := Z.of_nat (length (picks_where (e_user_id e) f (picks db))) in
     e_picks e = mine (on_decided (season_games db season)) /\
     e_correct e = mine (names_winner (season_games db season)) /\
     0 <= e_correct e <= e_picks e) /\
  (forall (w : Week) (x : LunchRow),
     In x (lunch_rows db w) ->
     let mine f := Z.of_nat (length (picks_where (lr_user_id x) f (picks db))) in
     lr_picks x = mine (on_decided (week_games db w)) /\
     lr_correct x = mine (names_winner (week_games db w)) /\
     0 <= lr_correct x <= lr_picks x).
Proof.
  intros Hnd. split.
  - intros wk season e Hs He mine.
    rewrite (season_leaderboard_full db wk season Hs) in He.
    apply firstn_sub in He.
    apply full_board_In in He as (cc & pc & Hc & _ & Hcorr & Hpicks).
    pose proof (count_picks_counts db (season_games db season) (season_final_games db season)
                  (e_user_id e) (season_games_NoDup db season Hnd)
                  (season_final_games_iff db season)) as H.
    assert (Hndf : NoDup (map g_id (season_final_games db season))).
    { unfold season_final_games. by apply NoDup_map_filter. }
    specialize (H Hndf). cbv zeta in H. rewrite Hc in H. simpl in H.
    destruct H as [H1 H2]. unfold mine. rewrite Hpicks, Hcorr, H1, H2.
    split; [reflexivity|]. split; [reflexivity|]. split; [lia|].
    apply inj_le. unfold picks_where. apply filter_length_le.
    intros p [Hu Hw]%andb_true_iff. rewrite Hu. simpl. by apply names_winner_on_decided.
  - intros w x Hx mine.
    apply lunch_rows_counts in Hx. cbv zeta in Hx. destruct Hx as (_ & Hcorr & Hpicks).
    pose proof (count_picks_counts db (week_games db w) (final_games_of (week_games db w))
                  (lr_user_id x) (week_games_NoDup db w Hnd) (week_final_games_iff db w)) as H.
    assert (Hndf : NoDup (map g_id (final_games_of (week_games db w)))).
    { unfold final_games_of. apply NoDup_map_filter. by apply week_games_NoDup. }
    specialize (H Hndf). cbv zeta in H. destruct H as [H1 H2].
    unfold mine. rewrite Hpicks, Hcorr, H1, H2.
    split; [reflexivity|]. split; [reflexivity|]. split; [lia|].
    apply inj_le. unfold picks_where. apply filter_length_le.
    intros p [Hu Hw]%andb_true_iff. rewrite Hu. simpl. by apply names_winner_on_decided.
Qed.

(** Ann has one pick on each of the two decided games and named the winner
    of the first. *)
Lemma X1_witness :
  NoDup (map g_id (games Fixture.db_ab)) /\
  (forall e, In e (fst (_season_leaderboard Fixture.db_ab (Some Fixture.wk1))) ->
     0 <= e_correct e <= e_picks e) /\
  map (fun e => (e_user_id e, e_correct e, e_picks e))
      (fst (_season_leaderboard Fixture.db_ab (Some Fixture.wk1)))
  = [(1, 1, 2); (2, 1, 2)].
Proof.
  assert (Hnd : NoDup (map g_id (games Fixture.db_ab))).
  { apply (bool_decide_unpack _). vm_compute. exact I. }
  split; [exact Hnd|]. split; [|reflexivity].
  intros e He.
  destruct (X1_counts_are_pick_counts Fixture.db_ab Hnd) as [H _].
  apply (H (Some Fixture.wk1) (mkSeason 1 2024 true) e eq_refl He).
Defined.

(** ** The actual total and the people a result names *)

Lemma filter_all {A} (p : A -> bool) (l : list A) :
  (forall x, In x l -> p x = true) -> List.filter p l = l.
Proof.
  induction l as [|x l IH]; simpl; auto. intros H.
  rewrite (H x) by auto. rewrite IH by auto. reflexivity.
Qed.

Lemma weekly_lunch_full_games db w r :
  _weekly_lunch db (Some w) = LunchFull r -> week_games db w <> [].
Proof.
  unfold _weekly_lunch. destruct (week_games db w) eqn:E; [discriminate|]. discriminate.
Qed.

Lemma lunch_actual_total_spec db w :
  week_games db w <> [] ->
  week_finalized db w = true ->
  exists last,
    In last (week_games db w) /\
    lunch_actual_total true (final_games_of (week_games db w))
    = Some (g_home_score last + g_away_score last) /\
    forall g, In g (week_games db w) ->
      dt_ticks (g_start_time g) <= dt_ticks (g_start_time last).
Proof.
  intros Hne Hfin.
  assert (Hall : final_games_of (week_games db w) = week_games db w).
  { unfold final_games_of. apply filter_all. intros g Hg.
    rewrite (proj1 (week_finalized_iff db w) Hfin g Hg). reflexivity. }
  rewrite Hall. unfold lunch_actual_total.
  destruct (py_max_Some (fun g => dt_ticks (_aware_utc (g_start_time g))) Z.ltb _ Hne)
    as [last Hlast].
  rewrite Hlast. exists last. split; [eapply py_max_In; eauto|]. split; [reflexivity|].
  intros g Hg.
  assert (H : Z.ltb (dt_ticks (_aware_utc (g_start_time last)))
                    (dt_ticks (_aware_utc (g_start_time g))) = false).
  { apply (py_max_upper (fun g => dt_ticks (_aware_utc (g_start_time g))) Z.ltb)
      with (week_games db w); auto.
    - intros u v ?%Z.ltb_lt. apply Z.ltb_ge. lia.
    - intros u v z ?%Z.ltb_ge ?%Z.ltb_ge. apply Z.ltb_ge. lia. }
  simpl in H. apply Z.ltb_ge in H. exact H.
Qed.

(** X2.  The actual total of a weekly result: none before every game of
    the week is Final (and then no tie-break is applied and the status is
    pending); once the week is finalized, the combined score of a game of
    the week that no other game of the week starts after. *)
Theorem X2_actual_total (db : DB) (w : Week) (r : LunchResult) :
  _weekly_lunch db (Some w) = LunchFull r ->
  (week_finalized db w = false ->
     actual_total r = None /\ tiebreaker_applied r = false /\
     loser_tiebreaker_applied r = false /\ lunch_status r = pending) /\
  (week_finalized db w = true ->
     exists last,
       In last (week_games db w) /\
       actual_total r = Some (g_home_score last + g_away_score last) /\
       forall g, In g (week_games db w) ->
         dt_ticks (g_start_time g) <= dt_ticks (g_start_time last)).
Proof.
  intros Hr.
  pose proof (weekly_lunch_full_games db w r Hr) as Hne.
  pose proof (weekly_lunch_status db w Hne) as Hst. rewrite Hr in Hst. simpl in Hst.
  destruct (weekly_lunch_full db w r Hr) as (Ha & _ & _ & Htb & _ & _ & Hltb).
  split.
  - intros Hfin. rewrite Hfin in *. simpl in *.
    rewrite Ha, Htb, Hltb, Hst. auto.
  - intros Hfin. rewrite Hfin in Ha. rewrite Ha.
    apply lunch_actual_total_spec; auto.
Qed.

(** Both games are Final; the later one ended 24-20. *)
Lemma X2_witness :
  exists r,
    _weekly_lunch Fixture.db_ab (Some Fixture.wk1) = LunchFull r /\
    week_finalized Fixture.db_ab Fixture.wk1 = true /\
    exists last,
      In last (week_games Fixture.db_ab Fixture.wk1) /\
      actual_total r = Some (g_home_score last + g_away_score last).
Proof.
  destruct (_weekly_lunch Fixture.db_ab (Some Fixture.wk1)) as [| | |r] eqn:E;
    try (vm_compute in E; discriminate E).
  exists r. split; [reflexivity|]. split; [reflexivity|].
  destruct (X2_actual_total Fixture.db_ab Fixture.wk1 r E) as [_ H].
  destruct (H eq_refl) as (last & Hin & Ha & _). eauto.
Defined.

Lemma lunch_winners_max rows x :
  In x (lunch_winners rows) -> forall y, In y rows -> lr_correct y <= lr_correct x.
Proof.
  unfold lunch_winners. destruct (max_Z (map lr_correct rows)) as [m|] eqn:E; [|intros []].
  intros [_ Hx%Z.eqb_eq]%filter_In y Hy. rewrite Hx.
  apply (max_Z_upper _ _ _ E). by apply in_map.
Qed.

Lemma lunch_losers_min rows x :
  In x (lunch_losers rows) ->
  In x rows /\ forall y, In y rows -> lr_correct x <= lr_correct y.
Proof.
  unfold lunch_losers. destruct (Nat.ltb 1 (length rows)); [|intros []].
  destruct (min_Z (map lr_correct rows)) as [m|] eqn:E; [|intros []].
  intros [Hin Hx%Z.eqb_eq]%filter_In. split; auto. intros y Hy. rewrite Hx.
  apply (min_Z_lower _ _ _ E). by apply in_map.
Qed.

Lemma lunch_losers_In rows x :
  (1 < length rows)%nat -> In x rows ->
  (forall y, In y rows -> lr_correct x <= lr_correct y) ->
  In x (lunch_losers rows).
Proof.
  intros Hlen Hx Hmin. unfold lunch_losers.
  apply Nat.ltb_lt in Hlen. rewrite Hlen.
  destruct (min_Z (map lr_correct rows)) as [m|] eqn:E.
  - apply filter_In. split; auto. apply Z.eqb_eq.
    pose proof (min_Z_In _ _ E) as (y & Hy & Hin)%in_map_iff.
    pose proof (min_Z_lower _ _ _ E (in_map lr_correct _ _ Hx)).
    specialize (Hmin y Hin). lia.
  - unfold min_Z in E. apply py_max_None in E. destruct rows; [destruct Hx|discriminate E].
Qed.

Lemma break_winner_tie_sub fin actual winners x :
  In x (fst (break_winner_tie fin actual winners)) -> In x winners.
Proof.
  unfold break_winner_tie. destruct actual as [a|]; auto.
  destruct (fin && _)%bool; auto.
  destruct (py_max _ _ _) as [best|] eqn:E; auto.
  simpl. intros [<-|[]]. apply py_max_In in E. by apply eligible_of_In in E as [? _].
Qed.

Lemma break_loser_tie_sub fin actual losers x :
  In x (fst (break_loser_tie fin actual losers)) -> In x losers.
Proof.
  unfold break_loser_tie. destruct actual as [a|]; auto.
  destruct (fin && _)%bool; auto.
  destruct (py_max _ _ _) as [worst|] eqn:E; auto.
  simpl. intros [<-|[]]. by apply py_max_In in E.
Qed.

Lemma break_winner_tie_applied fin actual winners :
  snd (break_winner_tie fin actual winners) = true ->
  fin = true /\ (1 < length winners)%nat /\
  exists a, actual = Some a /\ exists x t, In x winners /\ lr_tb x = Some t /\ t <= a.
Proof.
  unfold break_winner_tie. destruct actual as [a|]; [|discriminate].
  destruct fin; simpl; [|discriminate].
  destruct (Nat.ltb 1 (length winners)) eqn:El; [|discriminate].
  destruct (py_max _ _ _) as [best|] eqn:E; [|discriminate]. intros _.
  apply Nat.ltb_lt in El. repeat split; auto. exists a. split; auto.
  apply py_max_In in E. apply eligible_of_In in E as (Hin & t & Ht & Hle). eauto.
Qed.

Lemma lunch_rows_uids_NoDup db w : NoDup (map lr_user_id (lunch_rows db w)).
Proof.
  unfold lunch_rows.
  pose proof (count_from_keys_NoDup
                (winners_by_game (final_games_of (week_games db w)))
                (picks_on db (decided_ids (winners_by_game (final_games_of (week_games db w)))))
                ([], [])) as Hk.
  unfold count_from in Hk.
  fold (count_picks (winners_by_game (final_games_of (week_games db w)))
          (picks_on db (decided_ids (winners_by_game (final_games_of (week_games db w)))))) in Hk.
  destruct (count_picks _ _) as [cc pc]. simpl in Hk.
  rewrite map_map. simpl. rewrite map_id. apply Hk. constructor.
Qed.

Lemma NoDup_map_other {A} (f : A -> Z) (l : list A) (b : Z) :
  NoDup (map f l) -> (1 < length l)%nat -> exists y, In y l /\ f y <> b.
Proof.
  intros Hnd Hlen. destruct l as [|x [|y l]]; simpl in Hlen; try lia.
  simpl in Hnd. inversion Hnd as [|? ? Hx _]; subst.
  destruct (Z.eq_dec (f x) b) as [E|E].
  - exists y. split; [simpl; auto|]. intros E'. apply Hx. rewrite E, <- E'. left.
  - exists x. split; [simpl; auto|]. exact E.
Qed.

Lemma lunch_winners_uids_NoDup db w :
  NoDup (map lr_user_id (lunch_winners (lunch_rows db w))).
Proof.
  unfold lunch_winners. destruct (max_Z _); [|constructor].
  apply NoDup_map_filter. apply lunch_rows_uids_NoDup.
Qed.

(** The one winner of an applied tie-break is outranked in badness by
    another tied user, when guesses are unique in the week. *)
Lemma best_is_not_worst db w a best t :
  uq_week_points_unique (tiebreakers db) = true ->
  let tied := lunch_winners (lunch_rows db w) in
  (1 < length tied)%nat ->
  In best tied -> lr_tb best = Some t -> t <= a ->
  (forall x t', In x tied -> lr_tb x = Some t' -> t' <= a -> t' <= t) ->
  exists y, In y tied /\ loss_key_lt (_loss_key a best) (_loss_key a y) = true.
Proof.
  intros Huq tied Hlen Hb Ht Hle Hmax.
  destruct (NoDup_map_other lr_user_id tied (lr_user_id best)
              (lunch_winners_uids_NoDup db w) Hlen) as (y & Hy & Hne).
  exists y. split; auto. apply loss_key_lt_iff.
  unfold _loss_key. rewrite Ht.
  destruct (Z.leb_spec t a); [|lia].
  destruct (lr_tb y) as [t'|] eqn:Ety; simpl; [|left; lia].
  destruct (Z.leb_spec t' a); simpl; [|left; lia].
  right. split; auto.
  assert (t' <= t) by (apply (Hmax y); auto).
  assert (t' <> t).
  { intros ->. apply Hne. f_equal.
    apply (lunch_rows_guess_inj db w y best t); auto using lunch_winners_sub. }
  lia.
Qed.

(** X3.  Who a weekly result names.  There is always a winner; every
    winner has the highest and every loser the lowest number of correct
    picks among the participants; a lone participant is not a loser; when
    two participants differ in correct picks, or when the winner's
    tie-break was applied and no two users of a week hold the same guess,
    nobody is both a winner and a loser. *)
Theorem X3_winners_and_losers (db : DB) (w : Week) (r : LunchResult) :
  _weekly_lunch db (Some w) = LunchFull r ->
  let rows := lunch_rows db w in
  let disjoint :=
    forall d, In d (winner_users r) ->
      ~ In (dto_user_id d) (map dto_user_id (loser_users r)) in
  winner_users r <> [] /\
  (forall d, In d (winner_users r) ->
     exists x, In x rows /\ d = user_dto x /\
               forall y, In y rows -> lr_correct y <= lr_correct x) /\
  (forall d, In d (loser_users r) ->
     exists x, In x rows /\ d = user_dto x /\
               forall y, In y rows -> lr_correct x <= lr_correct y) /\
  (length rows = 1%nat -> loser_users r = []) /\
  ((exists x y, In x rows /\ In y rows /\ lr_correct x <> lr_correct y) -> disjoint) /\
  (tiebreaker_applied r = true -> uq_week_points_unique (tiebreakers db) = true -> disjoint).
Proof.
  intros Hr rows disjoint.
  destruct (weekly_lunch_full db w r Hr) as (Ha & Hwu & _ & Htb & Hlu & _ & _).
  cbv zeta in *.
  set (fin := week_finalized db w) in *.
  set (actual := lunch_actual_total fin (final_games_of (week_games db w))) in *.
  assert (Hrows : rows <> []).
  { unfold rows. intros E. unfold _weekly_lunch in Hr.
    destruct (Nat.eqb _ 0); [discriminate|]. rewrite E in Hr. discriminate. }
  assert (Hwin : forall d, In d (winner_users r) ->
            exists x, In x (fst (break_winner_tie fin actual (lunch_winners rows))) /\
                      In x (lunch_winners rows) /\ d = user_dto x).
  { intros d Hd. rewrite Hwu in Hd. apply in_map_iff in Hd as (x & <- & Hx).
    exists x. split; auto. split; auto. eapply break_winner_tie_sub; eauto. }
  assert (Hlose : forall d, In d (loser_users r) ->
            exists x, In x (fst (break_loser_tie fin actual (lunch_losers rows))) /\
                      In x (lunch_losers rows) /\ d = user_dto x).
  { intros d Hd. rewrite Hlu in Hd. apply in_map_iff in Hd as (x & <- & Hx).
    exists x. split; auto. split; auto. eapply break_loser_tie_sub; eauto. }
  assert (Hsame : forall dw dl, In dw (winner_users r) -> In dl (loser_users r) ->
            dto_user_id dw = dto_user_id dl ->
            exists x, In x (fst (break_winner_tie fin actual (lunch_winners rows))) /\
                      In x (fst (break_loser_tie fin actual (lunch_losers rows))) /\
                      In x (lunch_winners rows) /\ In x (lunch_losers rows)).
  { intros dw dl (x & Hx1 & Hx2 & ->)%Hwin (y & Hy1 & Hy2 & ->)%Hlose E. simpl in E.
    assert (x = y); [|subst; eauto 6].
    apply (lunch_rows_uid_inj db w); auto.
    - by apply lunch_winners_sub.
    - by apply lunch_losers_min in Hy2 as [? _]. }
  split; [|split; [|split; [|split; [|split]]]].
  - rewrite Hwu. intros E%map_eq_nil. revert E.
    apply break_winner_tie_nonempty. by apply lunch_winners_nonempty.
  - intros d (x & _ & Hx & ->)%Hwin. exists x.
    split; [by apply lunch_winners_sub|]. split; auto. by apply lunch_winners_max.
  - intros d (x & _ & Hx & ->)%Hlose. exists x.
    apply lunch_losers_min in Hx as [? ?]. auto.
  - intros Hlen. destruct (loser_users r) as [|d l] eqn:E; auto.
    destruct (Hlose d) as (x & _ & Hx & _); [simpl; auto|].
    unfold lunch_losers in Hx. fold rows in Hlen. rewrite Hlen in Hx. destruct Hx.
  - intros (x & y & Hx & Hy & Hne) d Hd Hin.
    apply in_map_iff in Hin as (dl & Hid & Hdl).
    destruct (Hsame d dl Hd Hdl (eq_sym Hid)) as (z & _ & _ & Hzw & Hzl).
    pose proof (lunch_winners_max rows z Hzw) as Hmax.
    apply lunch_losers_min in Hzl as [_ Hmin].
    pose proof (Hmax x Hx). pose proof (Hmin x Hx).
    pose proof (Hmax y Hy). pose proof (Hmin y Hy). lia.
  - intros Happ Huq d Hd Hin.
    apply in_map_iff in Hin as (dl & Hid & Hdl).
    destruct (Hsame d dl Hd Hdl (eq_sym Hid)) as (z & Hz1 & Hz2 & Hzw & Hzl).
    rewrite Htb in Happ.
    destruct (break_winner_tie_applied _ _ _ Happ) as (Hfin & Hlen & a & Hact & Hel).
    rewrite Hfin, Hact in Hz1, Hz2.
    destruct (break_winner_tie_best a (lunch_winners rows) Hlen Hel)
      as (best & t & Hbw & Hb & Ht & Hle & Hmax & _).
    rewrite Hbw in Hz1. simpl in Hz1. destruct Hz1 as [->|[]].
    destruct (best_is_not_worst db w a z t Huq Hlen Hb Ht Hle Hmax) as (y & Hy & Hlt).
    pose proof (lunch_winners_max rows z Hzw) as Hzmax.
    pose proof (lunch_losers_min rows z Hzl) as [_ Hzmin].
    assert (Hyl : In y (lunch_losers rows)).
    { assert (Hlr : (1 < length rows)%nat).
      { unfold lunch_losers in Hzl. destruct (Nat.ltb 1 (length rows)) eqn:El; [|destruct Hzl].
        by apply Nat.ltb_lt. }
      apply lunch_losers_In; auto using lunch_winners_sub.
      intros u Hu. pose proof (lunch_winners_max rows y Hy z (lunch_winners_sub _ _ Hzw)).
      pose proof (lunch_winners_max rows z Hzw y (lunch_winners_sub _ _ Hy)).
      specialize (Hzmin u Hu). lia. }
    assert (Hll : (1 < length (lunch_losers rows))%nat).
    { assert (Hnd : NoDup (map lr_user_id (lunch_losers rows))).
      { unfold lunch_losers. destruct (Nat.ltb 1 _); [|constructor].
        destruct (min_Z _); [|constructor].
        apply NoDup_map_filter. apply lunch_rows_uids_NoDup. }
      destruct (lunch_losers rows) as [|u [|v l]] eqn:El; simpl; try lia.
      - destruct Hzl.
      - simpl in Hzl, Hyl. destruct Hzl as [Hzu|[]]. destruct Hyl as [Hyu|[]].
        rewrite <- Hzu, <- Hyu in Hlt.
        pose proof (loss_key_lt_asym _ _ Hlt). congruence. }
    destruct (break_loser_tie_worst a (lunch_losers rows) Hll) as (worst & Hbl & _ & Hup).
    rewrite Hbl in Hz2. simpl in Hz2. destruct Hz2 as [->|[]].
    rewrite (Hup y Hyl) in Hlt. discriminate.
Qed.

(** Ann and Bob are level; Ann wins on the guess and Bob is the loser. *)
Lemma X3_witness :
  exists r,
    _weekly_lunch Fixture.db_ab (Some Fixture.wk1) = LunchFull r /\
    tiebreaker_applied r = true /\
    uq_week_points_unique (tiebreakers Fixture.db_ab) = true /\
    winner_users r <> [] /\
    forall d, In d (winner_users r) ->
      ~ In (dto_user_id d) (map dto_user_id (loser_users r)).
Proof.
  destruct (_weekly_lunch Fixture.db_ab (Some Fixture.wk1)) as [| | |r] eqn:E;
    try (vm_compute in E; discriminate E).
  assert (Htb : tiebreaker_applied r = true).
  { vm_compute in E. injection E as <-. reflexivity. }
  exists r. split; [reflexivity|]. split; [exact Htb|]. split; [reflexivity|].
  destruct (X3_winners_and_losers Fixture.db_ab Fixture.wk1 r E) as (H1 & _ & _ & _ & _ & H6).
  split; [exact H1|]. exact (H6 Htb eq_refl).
Defined.

(** ** What a save stages *)

Lemma fold_left_inv {A B} (P : A -> Prop) (f : A -> B -> A) (l : list B) : forall a,
  P a -> (forall a x, In x l -> P a -> P (f a x)) -> P (fold_left f l a).
Proof.
  induction l as [|x l IH]; intros a Ha Hstep; simpl; auto.
  apply IH.
  - apply Hstep; simpl; auto.
  - intros a' y Hy. apply Hstep. simpl. auto.
Qed.

Lemma fold_dict_get {A V} (key : A -> Z) (val : A -> V) (l : list A) : forall d k v,
  dict_get (fold_left (fun d x => dict_set d (key x) (val x)) l d) k = Some v ->
  dict_get d k = Some v \/ exists x, In x l /\ key x = k /\ val x = v.
Proof.
  induction l as [|x l IH]; intros d k v; simpl; auto.
  intros [H|(y & Hy & Hk & Hv)]%IH.
  - destruct (Z.eq_dec (key x) k) as [E|E].
    + rewrite <- E, dict_get_set_eq in H. injection H as <-. right. eauto.
    + rewrite dict_get_set_ne in H by auto. auto.
  - right. eauto.
Qed.

Lemma stage_picks_unfold db user week form :
  stage_picks db user week form =
  match posted_for db week form with
  | [] => ([], [])
  | _ => fold_left (upsert_step user (posted_for db week form)
                      (by_gid_of db user (posted_for db week form)))
           (posted_games db week form) ([], [])
  end.
Proof.
  unfold stage_picks, posted_for, posted_games, by_gid_of.
  destruct (collect_picks form) as [posted0 game_ids]. reflexivity.
Qed.

Lemma by_gid_of_get db user posted k row :
  dict_get (by_gid_of db user posted) k = Some row ->
  In row (picks db) /\ p_user_id row = u_id user /\ p_game_id row = k.
Proof.
  unfold by_gid_of. intros [H|(x & Hx & Hk & Hv)]%fold_dict_get; [discriminate|].
  subst. apply filter_In in Hx as [Hin [Hu _]%andb_true_iff].
  apply Z.eqb_eq in Hu. auto.
Qed.

Lemma posted_games_In db week form g :
  In g (posted_games db week form) -> In g (games db) /\ g_week_id g = w_id week.
Proof.
  unfold posted_games. intros [Hin [_ Hw]%andb_true_iff]%filter_In.
  apply Z.eqb_eq in Hw. auto.
Qed.

(** What the upsert loop leaves in the session: every change is to a pick
    of the user on a game of the week, every addition is such a pick, and
    the team is one of the two of the game. *)
Lemma stage_picks_spec db user week form :
  let posted := posted_for db week form in
  (forall k t, dict_get (fst (stage_picks db user week form)) k = Some t ->
     exists g row,
       In g (games db) /\ g_week_id g = w_id week /\ dict_get posted (g_id g) = Some t /\
       plays_in t g /\
       In row (picks db) /\ p_user_id row = u_id user /\ p_game_id row = g_id g /\
       p_id row = k) /\
  (forall a, In a (snd (stage_picks db user week form)) ->
     exists g t,
       In g (games db) /\ g_week_id g = w_id week /\ dict_get posted (g_id g) = Some t /\
       plays_in t g /\ a = mkPick 0 (u_id user) (g_id g) t).
Proof.
  intros posted. rewrite stage_picks_unfold. fold posted.
  destruct posted as [|kv posted'] eqn:Ep.
  { split; [intros k t H; discriminate H|intros a []]. }
  rewrite <- Ep. clear Ep kv posted'.
  apply (fold_left_inv (fun acc =>
    (forall k t, dict_get (fst acc) k = Some t ->
       exists g row,
         In g (games db) /\ g_week_id g = w_id week /\ dict_get posted (g_id g) = Some t /\
         plays_in t g /\
         In row (picks db) /\ p_user_id row = u_id user /\ p_game_id row = g_id g /\
         p_id row = k) /\
    (forall a, In a (snd acc) ->
       exists g t,
         In g (games db) /\ g_week_id g = w_id week /\ dict_get posted (g_id g) = Some t /\
         plays_in t g /\ a = mkPick 0 (u_id user) (g_id g) t))).
  - split; [intros k t H; discriminate H|intros a []].
  - intros [upd adds] g Hg [Hu Ha]. simpl in Hu, Ha.
    apply posted_games_In in Hg as [Hg Hw].
    unfold upsert_step.
    destruct (dict_get posted (g_id g)) as [t|] eqn:Et; [|split; auto].
    destruct ((t =? g_home_team_id g) || (t =? g_away_team_id g))%bool eqn:Ev;
      simpl; [|split; auto].
    assert (Hv : plays_in t g).
    { apply orb_true_iff in Ev as [E|E]; apply Z.eqb_eq in E; [left|right]; auto. }
    destruct (dict_get (by_gid_of db user posted) (g_id g)) as [row|] eqn:Er; simpl.
    + split; auto. intros k t'.
      destruct (Z.eq_dec (p_id row) k) as [E|E].
      * rewrite <- E, dict_get_set_eq. intros [= <-].
        apply by_gid_of_get in Er as (Hr1 & Hr2 & Hr3).
        exists g, row. auto 10.
      * rewrite dict_get_set_ne by auto. apply Hu.
    + split; auto. intros a [Ha'|[<-|[]]]%in_app_or; auto.
      exists g, t. auto 10.
Qed.

(** ** What the flush writes *)

Lemma assign_pick_ids_In new : forall next p,
  In p (assign_pick_ids next new) ->
  exists a i, In a new /\ next <= i /\
    p = mkPick i (p_user_id a) (p_game_id a) (p_chosen_team_id a).
Proof.
  induction new as [|a new IH]; intros next p; simpl; [intros []|].
  intros [<-|H].
  - exists a, next. split; auto. split; [lia|reflexivity].
  - apply IH in H as (b & i & Hb & Hi & ->). exists b, i. split; auto. split; [lia|reflexivity].
Qed.

Lemma filter_map_same {A} (f : A -> bool) (g : A -> A) (l : list A) :
  (forall x, In x l -> f (g x) = f x /\ (f x = true -> g x = x)) ->
  List.filter f (map g l) = List.filter f l.
Proof.
  induction l as [|x l IH]; simpl; auto. intros H.
  destruct (H x) as [H1 H2]; auto. rewrite H1.
  destruct (f x) eqn:E.
  - rewrite H2 by auto. f_equal. apply IH. auto.
  - apply IH. auto.
Qed.

Lemma filter_none {A} (f : A -> bool) (l : list A) :
  (forall x, In x l -> f x = false) -> List.filter f l = [].
Proof.
  induction l as [|x l IH]; simpl; auto. intros H.
  rewrite (H x) by auto. apply IH. auto.
Qed.

(** Every way through the handler. *)
Lemma picks_save_cases db now current_user week_id form :
  let r := picks_save db now current_user week_id form in
  (fst r = db /\ forall w, snd r <> Saved w) \/
  exists user week,
    current_user = Some user /\ u_must_change_password user = false /\
    List.find (fun w => w_id w =? week_id) (weeks db) = Some week /\
    is_locked week now = false /\
    commit db (save_pending db user week form) = Some (fst r) /\
    snd r = Saved (w_id week).
Proof.
  intros r. unfold r. clear r.
  destruct current_user as [user|]; [|left; split; [reflexivity|discriminate]].
  destruct (u_must_change_password user) eqn:Em.
  { left. unfold picks_save. rewrite Em. split; [reflexivity|discriminate]. }
  destruct (List.find (fun w => w_id w =? week_id) (weeks db)) as [week|] eqn:Ew.
  2:{ left. unfold picks_save. rewrite Em, Ew. split; [reflexivity|discriminate]. }
  destruct (is_locked week now) eqn:El.
  { left. unfold picks_save. rewrite Em, Ew, El. split; [reflexivity|discriminate]. }
  rewrite (picks_save_unlocked db now user week_id form week Em Ew El).
  unfold save_pending, save_change.
  rewrite (surjective_pairing (stage_picks db user week form)).
  cbn [fst snd].
  destruct (read_tiebreaker form) as [|v|].
  - destruct (commit db _) as [db'|] eqn:Ec.
    + right. exists user, week. simpl. auto 10.
    + left. split; [reflexivity|discriminate].
  - destruct (commit db _) as [db'|] eqn:Ec.
    + right. exists user, week. simpl. auto 10.
    + left. split; [reflexivity|discriminate].
  - left. split; [reflexivity|discriminate].
Qed.

Lemma find_some_week (p : Week -> bool) l w :
  List.find p l = Some w -> In w l /\ p w = true.
Proof. apply find_some. Qed.

Lemma commit_tables db pd db' :
  commit db pd = Some db' ->
  seasons db' = seasons db /\ weeks db' = weeks db /\ teams db' = teams db /\
  games db' = games db /\ users db' = users db /\
  picks db' = flushed_picks db pd /\ tiebreakers db' = flushed_tiebreakers db pd.
Proof.
  unfold commit. destruct (_ && _)%bool; [|discriminate]. intros [= <-]. simpl. auto 10.
Qed.

Lemma updates_own_rows db user week form p t :
  NoDup (map p_id (picks db)) -> In p (picks db) ->
  dict_get (fst (stage_picks db user week form)) (p_id p) = Some t ->
  p_user_id p = u_id user /\
  exists g, In g (games db) /\ g_week_id g = w_id week /\ p_game_id p = g_id g /\
            dict_get (posted_for db week form) (g_id g) = Some t /\ plays_in t g.
Proof.
  intros Hnd Hp H.
  destruct (stage_picks_spec db user week form) as [Hu _].
  destruct (Hu _ _ H) as (g & row & Hg & Hw & Hpost & Hv & Hrow & Hru & Hrg & Hid).
  assert (row = p) by (apply (NoDup_map_eq p_id (picks db)); auto). subst row.
  split; auto. exists g. auto 10.
Qed.

(** X4.  What a save can touch.  Only the reply [ok=1] comes with a changed
    store, and it is given only to a signed-in user before the first
    kickoff of the week; seasons, weeks, teams, games and users are as
    before; the picks of every other user and the tiebreakers of every
    other user or week are as before, in the same order; and every pick
    that was stored is still stored, under the same id, for the same user
    and game. *)
Theorem X4_save_touches_own_rows_only (db : DB) (now : Z) (current_user : option User)
    (week_id : Z) (form : list (string * string)) :
  NoDup (map p_id (picks db)) -> NoDup (map tb_id (tiebreakers db)) ->
  let db' := fst (picks_save db now current_user week_id form) in
  let reply := snd (picks_save db now current_user week_id form) in
  ((forall w, reply <> Saved w) -> db' = db) /\
  (forall w, reply = Saved w ->
     w = week_id /\
     exists user week,
       current_user = Some user /\ u_must_change_password user = false /\
       In week (weeks db) /\ w_id week = week_id /\ is_locked week now = false) /\
  (seasons db' = seasons db /\ weeks db' = weeks db /\ teams db' = teams db /\
   games db' = games db /\ users db' = users db) /\
  (forall user, current_user = Some user ->
     List.filter (fun p => negb (p_user_id p =? u_id user)) (picks db')
     = List.filter (fun p => negb (p_user_id p =? u_id user)) (picks db) /\
     List.filter (fun t => negb ((tb_user_id t =? u_id user) && (tb_week_id t =? week_id)))
       (tiebreakers db')
     = List.filter (fun t => negb ((tb_user_id t =? u_id user) && (tb_week_id t =? week_id)))
         (tiebreakers db)) /\
  map (fun p => (p_id p, p_user_id p, p_game_id p)) (firstn (length (picks db)) (picks db'))
  = map (fun p => (p_id p, p_user_id p, p_game_id p)) (picks db).
Proof.
  intros Hndp Hndt db' reply.
  destruct (picks_save_cases db now current_user week_id form)
    as [[Hsame Hno]|(user & week & Hcu & Hm & Hw & Hl & Hc & Hr)];
    fold db' in Hsame || fold db' in Hc; fold reply in Hno || fold reply in Hr.
  { rewrite Hsame. split; [auto|]. split; [intros w Hw; destruct (Hno w Hw)|].
    split; [auto 10|]. split; [auto|]. by rewrite firstn_all. }
  apply find_some_week in Hw as [Hwin Hwid%Z.eqb_eq].
  destruct (commit_tables _ _ _ Hc) as (H1 & H2 & H3 & H4 & H5 & Hp & Ht).
  split; [intros Hno; destruct (Hno _ Hr)|].
  split; [intros w Hw'; rewrite Hr in Hw'; injection Hw' as <-; split; eauto 10|].
  split; [auto 10|].
  split.
  - intros user' Hcu'. rewrite Hcu in Hcu'. injection Hcu' as <-.
    rewrite Hp, Ht. split.
    + unfold flushed_picks. simpl. rewrite List.filter_app.
      rewrite (filter_none _ (assign_pick_ids _ _)).
      2:{ intros p (a & i & Ha & _ & ->)%assign_pick_ids_In. simpl.
          destruct (stage_picks_spec db user week form) as [_ Hadd].
          destruct (Hadd a Ha) as (g & t & _ & _ & _ & _ & ->). simpl.
          by rewrite Z.eqb_refl. }
      rewrite app_nil_r. apply filter_map_same. intros p Hin.
      destruct (dict_get _ (p_id p)) as [t|] eqn:E; [|auto].
      split; [reflexivity|]. simpl. intros Hother.
      apply (updates_own_rows db user week form p t Hndp Hin) in E as [E _].
      rewrite E, Z.eqb_refl in Hother. discriminate.
    + unfold flushed_tiebreakers, save_pending, save_change. simpl.
      destruct (read_tiebreaker form) as [|v|]; auto.
      destruct (List.find _ (tiebreakers db)) as [ex|] eqn:Ef.
      * apply find_some in Ef as [Hex [Hu Hk]%andb_true_iff].
        apply filter_map_same. intros t Hin.
        destruct (tb_id t =? tb_id ex) eqn:Eid; [|auto].
        apply Z.eqb_eq in Eid.
        assert (t = ex) by (apply (NoDup_map_eq tb_id (tiebreakers db)); auto). subst t.
        simpl. rewrite <- Hwid, Hu, Hk. simpl. split; [reflexivity|discriminate].
      * rewrite List.filter_app. simpl. rewrite <- Hwid, !Z.eqb_refl. simpl.
        by rewrite app_nil_r.
  - rewrite Hp. unfold flushed_picks.
    rewrite <- (length_map (fun p => match dict_get (pick_updates (save_pending db user week form)) (p_id p) with
                                     | Some t => set_chosen p t
                                     | None => p
                                     end) (picks db)) at 1.
    rewrite firstn_app, firstn_all, Nat.sub_diag. simpl. rewrite app_nil_r, map_map.
    apply map_ext. intros p. by destruct (dict_get _ (p_id p)).
Qed.

(** Bob saves a pick and a guess; Ann's guess stays. *)
Lemma X4_witness :
  NoDup (map p_id (picks Fixture.db_picks)) /\
  NoDup (map tb_id (tiebreakers Fixture.db_picks)) /\
  snd (picks_save Fixture.db_picks 500 (Some Fixture.bob) 1
         [("pick_1", "10"); ("tiebreaker", "41")]%string) = Saved 1 /\
  List.filter (fun t => negb ((tb_user_id t =? 2) && (tb_week_id t =? 1)))
    (tiebreakers (fst (picks_save Fixture.db_picks 500 (Some Fixture.bob) 1
                         [("pick_1", "10"); ("tiebreaker", "41")]%string)))
  = [mkTB 1 1 1 40].
Proof.
  assert (H1 : NoDup (map p_id (picks Fixture.db_picks))) by constructor.
  assert (H2 : NoDup (map tb_id (tiebreakers Fixture.db_picks))).
  { apply (bool_decide_unpack _). vm_compute. exact I. }
  split; [exact H1|]. split; [exact H2|]. split; [reflexivity|].
  destruct (X4_save_touches_own_rows_only Fixture.db_picks 500 (Some Fixture.bob) 1
              [("pick_1", "10"); ("tiebreaker", "41")]%string H1 H2)
    as (_ & _ & _ & H & _).
  destruct (H Fixture.bob eq_refl) as [_ Ht]. exact Ht.
Defined.

(** X5.  What a save can store.  Pick ids being unique, every pick of the
    store after a save is either a pick of the store before, unchanged, or
    a pick of the saving user on a game of the saved week for one of the
    two teams of that game. *)
Theorem X5_save_stores_valid_picks (db : DB) (now : Z) (current_user : option User)
    (week_id : Z) (form : list (string * string)) (p' : Pick) :
  NoDup (map p_id (picks db)) ->
  In p' (picks (fst (picks_save db now current_user week_id form))) ->
  In p' (picks db) \/
  exists user g,
    current_user = Some user /\ p_user_id p' = u_id user /\
    In g (games db) /\ g_week_id g = week_id /\ p_game_id p' = g_id g /\
    plays_in (p_chosen_team_id p') g.
Proof.
  intros Hndp Hin.
  destruct (picks_save_cases db now current_user week_id form)
    as [[Hsame _]|(user & week & Hcu & Hm & Hw & Hl & Hc & Hr)].
  { rewrite Hsame in Hin. auto. }
  apply find_some_week in Hw as [Hwin Hwid%Z.eqb_eq].
  destruct (commit_tables _ _ _ Hc) as (_ & _ & _ & _ & _ & Hp & _).
  rewrite Hp in Hin. unfold flushed_picks in Hin. simpl in Hin.
  apply in_app_or in Hin as [Hin|Hin].
  - apply in_map_iff in Hin as (p & <- & Hin).
    destruct (dict_get _ (p_id p)) as [t|] eqn:E; [|auto].
    apply (updates_own_rows db user week form p t Hndp Hin) in E
      as (Hu & g & Hg & Hgw & Hpg & _ & Hv).
    right. exists user, g. simpl. rewrite <- Hwid. auto 10.
  - apply assign_pick_ids_In in Hin as (a & i & Ha & _ & ->).
    destruct (stage_picks_spec db user week form) as [_ Hadd].
    destruct (Hadd a Ha) as (g & t & Hg & Hgw & _ & Hv & ->). simpl.
    right. exists user, g. rewrite <- Hwid. auto 10.
Qed.

(** Bob's new pick is on game 1 of week 1, for its home team. *)
Lemma X5_witness :
  NoDup (map p_id (picks Fixture.db_picks)) /\
  In (mkPick 1 2 1 10)
     (picks (fst (picks_save Fixture.db_picks 500 (Some Fixture.bob) 1
                    [("pick_1", "10"); ("pick_2", "99")]%string))) /\
  exists g, In g (games Fixture.db_picks) /\ g_week_id g = 1 /\ g_id g = 1 /\
            plays_in 10 g.
Proof.
  assert (H1 : NoDup (map p_id (picks Fixture.db_picks))) by constructor.
  assert (H2 : In (mkPick 1 2 1 10)
     (picks (fst (picks_save Fixture.db_picks 500 (Some Fixture.bob) 1
                    [("pick_1", "10"); ("pick_2", "99")]%string)))).
  { vm_compute. auto. }
  split; [exact H1|]. split; [exact H2|].
  destruct (X5_save_stores_valid_picks Fixture.db_picks 500 (Some Fixture.bob) 1
              [("pick_1", "10"); ("pick_2", "99")]%string (mkPick 1 2 1 10) H1 H2)
    as [[]|(user & g & _ & _ & Hg & Hw & Hid & Hv)].
  exists g. simpl in Hid. auto.
Defined.

(** ** The administrator's save and the user's *)



(** ** From the form to the store *)

Lemma collect_picks_keys form k :
  In k (dict_keys (fst (collect_picks form))) -> In k (snd (collect_picks form)).
Proof.
  unfold collect_picks.
  apply (fold_left_inv (fun acc : list (Z * Z) * list Z =>
                          In k (dict_keys (fst acc)) -> In k (snd acc))).
  - intros [].
  - intros [posted ids] [key value] _ IH. cbn [fst snd] in *.
    destruct (starts_with "pick_" key); auto.
    destruct (py_int (str_drop 5 key)) as [gid|]; auto.
    destruct (py_int value) as [tid|]; auto. cbn [fst snd].
    intros [->|H]%dict_keys_set_In; apply in_or_app; simpl; auto.
Qed.

Lemma dict_get_pop_ne {V} (d : list (Z * V)) k k' :
  k <> k' -> dict_get (dict_pop d k) k' = dict_get d k'.
Proof.
  intros Hne. induction d as [|[a v] d IH]; simpl; auto.
  destruct (a =? k) eqn:E.
  - apply Z.eqb_eq in E. subst a.
    destruct (k =? k') eqn:E'; auto. apply Z.eqb_eq in E'. congruence.
  - simpl. destruct (a =? k'); auto.
Qed.

Lemma posted_games_intro db week form g :
  In g (games db) -> g_week_id g = w_id week ->
  In (g_id g) (snd (collect_picks form)) -> In g (posted_games db week form).
Proof.
  intros Hg Hw Hin. unfold posted_games. apply filter_In. split; auto.
  apply andb_true_iff. split; [by apply in_Z_In|by apply Z.eqb_eq].
Qed.

(** A field that names a game of the week survives the validation. *)
Lemma posted_for_get db week form g t :
  In g (games db) -> g_week_id g = w_id week ->
  dict_get (fst (collect_picks form)) (g_id g) = Some t ->
  dict_get (posted_for db week form) (g_id g) = Some t /\ In g (posted_games db week form).
Proof.
  intros Hg Hw Ht.
  assert (Hpg : In g (posted_games db week form)).
  { apply posted_games_intro; auto. apply collect_picks_keys.
    eapply dict_get_Some_key; eauto. }
  split; auto. unfold posted_for. fold (posted_games db week form).
  apply (fold_left_inv (fun d => dict_get d (g_id g) = Some t)); auto.
  intros d gid _ IH. destruct (in_Z gid (map g_id (posted_games db week form))) eqn:E; auto.
  rewrite dict_get_pop_ne; auto. intros ->.
  assert (in_Z (g_id g) (map g_id (posted_games db week form)) = true).
  { apply in_Z_In. by apply in_map. }
  congruence.
Qed.

(** What the loop has staged stays staged, unless a later game finds the
    same pick. *)
Lemma upsert_fold_keeps user posted by_gid gs : forall acc,
  let r := fold_left (upsert_step user posted by_gid) gs acc in
  (forall a, In a (snd acc) -> In a (snd r)) /\
  (forall k t, dict_get (fst acc) k = Some t ->
     (forall g row, In g gs -> dict_get by_gid (g_id g) = Some row -> p_id row <> k) ->
     dict_get (fst r) k = Some t).
Proof.
  induction gs as [|g gs IH]; intros acc; simpl; [auto|].
  destruct (IH (upsert_step user posted by_gid acc g)) as [IH1 IH2].
  split.
  - intros a Ha. apply IH1. unfold upsert_step.
    destruct (dict_get posted (g_id g)); auto.
    destruct (negb _); auto.
    destruct (dict_get by_gid (g_id g)); simpl; auto. apply in_or_app. auto.
  - intros k t Hk Hno. apply IH2.
    + unfold upsert_step.
      destruct (dict_get posted (g_id g)); auto.
      destruct (negb _); auto.
      destruct (dict_get by_gid (g_id g)) as [row|] eqn:Er; simpl; auto.
      rewrite dict_get_set_ne; auto. apply (Hno g row); simpl; auto.
    + intros g' row' Hg'. apply Hno. simpl. auto.
Qed.

(** Every game of the week the form names a side of leaves its mark: a
    change of the user's pick on it, or a new pick. *)
Lemma upsert_fold_complete user posted by_gid gs : forall acc g t,
  NoDup (map g_id gs) ->
  (forall g1 g2 r1 r2, In g1 gs -> In g2 gs ->
     dict_get by_gid (g_id g1) = Some r1 -> dict_get by_gid (g_id g2) = Some r2 ->
     p_id r1 = p_id r2 -> g1 = g2) ->
  In g gs -> dict_get posted (g_id g) = Some t -> plays_in t g ->
  let r := fold_left (upsert_step user posted by_gid) gs acc in
  match dict_get by_gid (g_id g) with
  | Some row => dict_get (fst r) (p_id row) = Some t
  | None => In (mkPick 0 (u_id user) (g_id g) t) (snd r)
  end.
Proof.
  induction gs as [|g0 gs IH]; intros acc g t Hnd Hinj [] Ht Hv; simpl.
  - subst g0.
    destruct (upsert_fold_keeps user posted by_gid gs (upsert_step user posted by_gid acc g))
      as [K1 K2].
    assert (Hvb : negb ((t =? g_home_team_id g) || (t =? g_away_team_id g)) = false).
    { destruct Hv as [->| ->]; rewrite Z.eqb_refl; simpl; auto. by rewrite orb_true_r. }
    destruct (dict_get by_gid (g_id g)) as [row|] eqn:Er.
    + apply K2.
      * unfold upsert_step. rewrite Ht, Hvb, Er. simpl. apply dict_get_set_eq.
      * intros g' row' Hg' Hr' Hid.
        assert (g = g') by (apply (Hinj g g' row row'); simpl; auto).
        subst g'. inversion Hnd as [|? ? Hnotin _]; subst.
        apply Hnotin. apply list_elem_of_In. by apply in_map.
    + apply K1. unfold upsert_step. rewrite Ht, Hvb, Er. simpl.
      apply in_or_app. simpl. auto.
  - inversion Hnd as [|? ? _ Hnd']; subst.
    apply IH; auto.
    intros g1 g2 r1 r2 H1 H2. apply Hinj; simpl; auto.
Qed.

Lemma posted_games_NoDup db week form :
  NoDup (map g_id (games db)) -> NoDup (map g_id (posted_games db week form)).
Proof. intros H. unfold posted_games. by apply NoDup_map_filter. Qed.

(** With game and pick ids unique: after the upsert, the user's pick on a
    game of the week the form names a side of is changed to that side, or
    a pick for that side is added. *)
Lemma stage_picks_complete db user week form g t :
  NoDup (map g_id (games db)) -> NoDup (map p_id (picks db)) ->
  In g (games db) -> g_week_id g = w_id week ->
  dict_get (fst (collect_picks form)) (g_id g) = Some t -> plays_in t g ->
  (exists row, In row (picks db) /\ p_user_id row = u_id user /\ p_game_id row = g_id g /\
               dict_get (fst (stage_picks db user week form)) (p_id row) = Some t) \/
  In (mkPick 0 (u_id user) (g_id g) t) (snd (stage_picks db user week form)).
Proof.
  intros Hndg Hndp Hg Hw Ht Hv.
  destruct (posted_for_get db week form g t Hg Hw Ht) as [Hpost Hpg].
  rewrite stage_picks_unfold.
  destruct (posted_for db week form) as [|kv rest] eqn:Ep; [discriminate Hpost|].
  rewrite <- Ep in *. clear Ep kv rest.
  pose proof (upsert_fold_complete user (posted_for db week form)
                (by_gid_of db user (posted_for db week form))
                (posted_games db week form) ([], []) g t
                (posted_games_NoDup db week form Hndg)) as H.
  cbv zeta in H.
  assert (Hr : forall g1 r1, dict_get (by_gid_of db user (posted_for db week form)) (g_id g1)
                             = Some r1 ->
               In r1 (picks db) /\ p_user_id r1 = u_id user /\ p_game_id r1 = g_id g1).
  { intros g1 r1. apply by_gid_of_get. }
  assert (Hsame : forall g1 g2, In g1 (posted_games db week form) ->
                  In g2 (posted_games db week form) -> g_id g1 = g_id g2 -> g1 = g2).
  { intros g1 g2 H1 H2. apply (NoDup_map_eq g_id (posted_games db week form)); auto.
    by apply posted_games_NoDup. }
  assert (Hinj : forall g1 g2 r1 r2,
            In g1 (posted_games db week form) -> In g2 (posted_games db week form) ->
            dict_get (by_gid_of db user (posted_for db week form)) (g_id g1) = Some r1 ->
            dict_get (by_gid_of db user (posted_for db week form)) (g_id g2) = Some r2 ->
            p_id r1 = p_id r2 -> g1 = g2).
  { intros g1 g2 r1 r2 H1 H2 E1 E2 Hid.
    destruct (Hr g1 r1 E1) as (I1 & _ & G1). destruct (Hr g2 r2 E2) as (I2 & _ & G2).
    assert (r1 = r2) by (apply (NoDup_map_eq p_id (picks db)); auto).
    apply Hsame; auto. congruence. }
  specialize (H Hinj Hpg Hpost Hv).
  destruct (dict_get (by_gid_of db user (posted_for db week form)) (g_id g)) as [row|] eqn:Er.
  - left. exists row. destruct (Hr g row Er) as (? & ? & ?). auto.
  - right. exact H.
Qed.

Lemma assign_pick_ids_has new a : forall next,
  In a new ->
  exists i, In (mkPick i (p_user_id a) (p_game_id a) (p_chosen_team_id a))
               (assign_pick_ids next new).
Proof.
  induction new as [|b new IH]; intros next; simpl; [intros []|].
  intros [->|H].
  - exists next. auto.
  - destruct (IH (next + 1) H) as [i Hi]. exists i. auto.
Qed.

(** The store a save commits holds, for every game of the week the form
    names a side of, a pick of the user for that side. *)
Lemma saved_pick_stored db user week form db' g t :
  NoDup (map g_id (games db)) -> NoDup (map p_id (picks db)) ->
  commit db (save_pending db user week form) = Some db' ->
  In g (games db) -> g_week_id g = w_id week ->
  dict_get (fst (collect_picks form)) (g_id g) = Some t -> plays_in t g ->
  exists p', In p' (picks db') /\ p_user_id p' = u_id user /\ p_game_id p' = g_id g /\
             p_chosen_team_id p' = t.
Proof.
  intros Hndg Hndp Hc Hg Hw Ht Hv.
  destruct (commit_tables _ _ _ Hc) as (_ & _ & _ & _ & _ & Hp & _).
  rewrite Hp. unfold flushed_picks. simpl.
  destruct (stage_picks_complete db user week form g t Hndg Hndp Hg Hw Ht Hv)
    as [(row & Hrow & Hu & Hgm & Hupd)|Hadd].
  - exists (set_chosen row t). split; [|simpl; auto].
    apply in_or_app. left. apply in_map_iff. exists row. by rewrite Hupd.
  - destruct (assign_pick_ids_has _ _ (next_id (map p_id (picks db))) Hadd) as [i Hi].
    simpl in Hi. eexists. split; [apply in_or_app; right; exact Hi|]. simpl. auto.
Qed.

(** ** From the store to the page *)

Lemma distinct_pairs_NoDup (l : list (Z * Z)) : distinct_pairs l = true -> NoDup l.
Proof.
  induction l as [|x l IH]; simpl; [constructor|].
  intros [Hx Hl]%andb_true_iff. constructor; auto.
  intros Hin%list_elem_of_In. apply negb_true_iff in Hx.
  assert (existsb (fun y => (fst x =? fst y) && (snd x =? snd y))%bool l = true);
    [|congruence].
  apply existsb_exists. exists x. split; auto. by rewrite !Z.eqb_refl.
Qed.

Lemma fold_dict_get_last {A V} (key : A -> Z) (val : A -> V) (l : list A) : forall d x,
  NoDup (map key l) -> In x l ->
  dict_get (fold_left (fun d x => dict_set d (key x) (val x)) l d) (key x) = Some (val x).
Proof.
  induction l as [|y l IH]; intros d x Hnd; simpl; [intros []|].
  inversion Hnd as [|? ? Hy Hnd']; subst. intros [->|Hx]; [|auto].
  assert (Hk : forall d', dict_get d' (key x) = Some (val x) ->
            dict_get (fold_left (fun d x => dict_set d (key x) (val x)) l d') (key x)
            = Some (val x)).
  { clear IH Hnd Hnd'. induction l as [|z l IH]; intros d' Hd'; simpl; auto.
    apply IH.
    - intros Hin%list_elem_of_In. apply Hy. apply list_elem_of_In. simpl. auto.
    - rewrite dict_get_set_ne; auto. intros E. apply Hy. apply list_elem_of_In. simpl. auto. }
  apply Hk. apply dict_get_set_eq.
Qed.

Lemma user_picks_games_NoDup (ps : list Pick) uid (f : Pick -> bool) :
  uq_pick_user_game ps = true ->
  NoDup (map p_game_id (List.filter (fun p => (p_user_id p =? uid) && f p)%bool ps)).
Proof.
  intros Huq%distinct_pairs_NoDup.
  induction ps as [|p ps IH]; simpl in *; [constructor|].
  inversion Huq as [|? ? Hp Hnd]; subst. specialize (IH Hnd).
  destruct ((p_user_id p =? uid) && f p)%bool eqn:E; auto.
  simpl. constructor; auto.
  intros Hin%list_elem_of_In. apply in_map_iff in Hin as (q & Hq & Hin).
  apply filter_In in Hin as [Hin [Hu _]%andb_true_iff].
  apply andb_true_iff in E as [E _]. apply Z.eqb_eq in E, Hu.
  apply Hp. apply list_elem_of_In. apply in_map_iff. exists q. split; auto. congruence.
Qed.

Lemma find_by_id_week (ws : list Week) (w : Week) :
  NoDup (map w_id ws) -> In w ws -> List.find (fun x => w_id x =? w_id w) ws = Some w.
Proof.
  intros Hnd Hin.
  destruct (find_exists (fun x => w_id x =? w_id w) ws w Hin (Z.eqb_refl _))
    as (y & Hf & Hy & E).
  rewrite Hf. f_equal. apply (NoDup_map_eq w_id ws); auto. by apply Z.eqb_eq.
Qed.

(** The guess the page shows after a save that carried one. *)
Lemma saved_guess_first db user week form v :
  read_tiebreaker form = TbGuess v ->
  option_map tb_guess_points
    (List.find (fun t => (tb_user_id t =? u_id user) && (tb_week_id t =? w_id week))%bool
       (flushed_tiebreakers db (save_pending db user week form)))
  = Some v.
Proof.
  intros Hr. unfold flushed_tiebreakers, save_pending, save_change. simpl. rewrite Hr.
  set (mine := fun t => ((tb_user_id t =? u_id user) && (tb_week_id t =? w_id week))%bool).
  destruct (List.find mine (tiebreakers db)) as [ex|] eqn:Ef.
  - induction (tiebreakers db) as [|t ts IH]; simpl in *; [discriminate|].
    destruct (mine t) eqn:Em.
    + injection Ef as ->. rewrite Z.eqb_refl. unfold mine in *. simpl. by rewrite Em.
    + destruct (tb_id t =? tb_id ex); simpl.
      * unfold mine in *. simpl. rewrite Em. auto.
      * rewrite Em. auto.
  - rewrite (find_app_new mine _ _ Ef); [reflexivity|].
    unfold mine. simpl. by rewrite !Z.eqb_refl.
Qed.

(** X7.  What is saved is what the page shows.  With game, pick and week
    ids unique: after a save that is answered [ok=1], the picks page of
    the same user for the same week shows, for every game of the week the
    form named one of the two sides of, that side as the user's pick, and
    the guess of the form as the user's tiebreaker. *)
Theorem X7_saved_picks_are_shown (db db' : DB) (now : Z) (user : User) (week_id : Z)
    (form : list (string * string)) (now1 now2 : Z) (err ok : option string) :
  NoDup (map g_id (games db)) -> NoDup (map p_id (picks db)) ->
  NoDup (map w_id (weeks db)) ->
  picks_save db now (Some user) week_id form = (db', Saved week_id) ->
  exists ctx,
    picks_page db' now1 now2 (Some user) (Some week_id) err ok = Render ctx /\
    (forall g t, In g (games db) -> g_week_id g = week_id ->
       dict_get (fst (collect_picks form)) (g_id g) = Some t -> plays_in t g ->
       In g (pc_games ctx) /\ dict_get (pc_existing_picks ctx) (g_id g) = Some t) /\
    (forall v, read_tiebreaker form = TbGuess v -> pc_tb_guess ctx = Some v).
Proof.
  intros Hndg Hndp Hndw Hs.
  destruct (picks_save_cases db now (Some user) week_id form)
    as [[_ Hno]|(user' & week & Hcu & Hm & Hw & Hl & Hc & Hr)].
  { rewrite Hs in Hno. destruct (Hno week_id). reflexivity. }
  injection Hcu as <-. rewrite Hs in Hc. simpl in Hc.
  apply find_some_week in Hw as [Hwin Hwid%Z.eqb_eq].
  destruct (commit_tables _ _ _ Hc) as (_ & Hwk & _ & Hgm & _ & Hp & Ht).
  destruct (commit_Some _ _ _ Hc) as (Huq & _ & _).
  unfold picks_page. rewrite Hm.
  assert (Hsel : selected_week db' (Some week_id) (Picks._get_current_week db' now1)
                 = Some week).
  { unfold selected_week. rewrite Hwk, <- Hwid, find_by_id_week; auto. }
  rewrite Hsel.
  destruct (prev_next (season_weeks db' (Some week)) (Some week)) as [pw nw].
  eexists. split; [reflexivity|]. simpl. split.
  - intros g t Hg Hgw Hpost Hv.
    assert (Hgin : In g (py_sort (fun a b => dt_ticks (g_start_time a) <? dt_ticks (g_start_time b))
                           (week_games db' week))).
    { apply py_sort_In. unfold week_games. rewrite Hgm. apply filter_In. split; auto.
      apply Z.eqb_eq. congruence. }
    split; auto.
    destruct (saved_pick_stored db user week form db' g t Hndg Hndp Hc Hg
                (eq_trans Hgw (eq_sym Hwid)) Hpost Hv) as (p' & Hp' & Hu & Hpg & Hch).
    unfold picks_by_game.
    set (games := py_sort _ (week_games db' week)) in *.
    destruct (map g_id games) as [|i ids] eqn:Eids.
    { apply (in_map g_id) in Hgin. rewrite Eids in Hgin. destruct Hgin. }
    rewrite <- Eids. clear Eids i ids.
    rewrite <- Hpg, <- Hch.
    apply (fold_dict_get_last p_game_id p_chosen_team_id).
    + by apply user_picks_games_NoDup.
    + apply filter_In. split; auto. rewrite Hu, Z.eqb_refl. simpl.
      apply in_Z_In. rewrite Hpg. by apply in_map.
  - intros v Hv. unfold tb_guess_of. rewrite Ht. by apply saved_guess_first.
Qed.

(** Bob picks the home side of game 1 and guesses 41; the page shows both. *)
Lemma X7_witness :
  exists ctx,
    picks_page (fst (picks_save Fixture.db_picks 500 (Some Fixture.bob) 1
                       [("pick_1", "10"); ("tiebreaker", "41")]%string))
      600 601 (Some Fixture.bob) (Some 1) None (Some "1"%string) = Render ctx /\
    dict_get (pc_existing_picks ctx) 1 = Some 10 /\ pc_tb_guess ctx = Some 41.
Proof.
  set (form := [("pick_1", "10"); ("tiebreaker", "41")]%string).
  assert (H1 : NoDup (map g_id (games Fixture.db_picks))).
  { apply (bool_decide_unpack _). vm_compute. exact I. }
  assert (H2 : NoDup (map p_id (picks Fixture.db_picks))) by constructor.
  assert (H3 : NoDup (map w_id (weeks Fixture.db_picks))).
  { apply (bool_decide_unpack _). vm_compute. exact I. }
  destruct (X7_saved_picks_are_shown Fixture.db_picks
              (fst (picks_save Fixture.db_picks 500 (Some Fixture.bob) 1 form))
              500 Fixture.bob 1 form 600 601 None (Some "1"%string) H1 H2 H3 eq_refl)
    as (ctx & Hctx & Hpicks & Hguess).
  exists ctx. split; [exact Hctx|]. split.
  - apply (Hpicks (Fixture.game 1 2000 SCHEDULED 0 0) 10); try reflexivity.
    + simpl. auto.
    + left. reflexivity.
  - apply Hguess. reflexivity.
Defined.

(** ** Saving the same form again *)

Lemma fold_max_ge (l : list Z) : forall a, a <= fold_left Z.max l a.
Proof.
  induction l as [|x l IH]; intros a; simpl; [lia|].
  specialize (IH (Z.max a x)). lia.
Qed.

Lemma fold_max_upper (l : list Z) : forall a x, In x l -> x <= fold_left Z.max l a.
Proof.
  induction l as [|y l IH]; intros a x; simpl; [intros []|].
  intros [->|H]; [|auto].
  pose proof (fold_max_ge l (Z.max a x)). lia.
Qed.

(** A new key is above every key of the table. *)
Lemma next_id_gt (l : list Z) (x : Z) : In x l -> x < next_id l.
Proof. intros H. unfold next_id. pose proof (fold_max_upper l 0 x H). lia. Qed.

Lemma assign_pick_ids_ids new : forall next,
  map p_id (assign_pick_ids next new) = map (fun i => next + Z.of_nat i) (seq 0 (length new)).
Proof.
  induction new as [|a new IH]; intros next; simpl; auto.
  rewrite IH. f_equal; [lia|]. rewrite <- seq_shift, map_map.
  apply map_ext. intros i. lia.
Qed.

Lemma flushed_picks_ids_NoDup db pd :
  NoDup (map p_id (picks db)) -> NoDup (map p_id (flushed_picks db pd)).
Proof.
  intros Hnd. unfold flushed_picks. rewrite map_app, map_map.
  rewrite (map_ext (fun p => p_id match dict_get (pick_updates pd) (p_id p) with
                                  | Some t => set_chosen p t
                                  | None => p
                                  end) p_id).
  2:{ intros p. by destruct (dict_get _ _). }
  rewrite assign_pick_ids_ids.
  apply NoDup_app. split; [exact Hnd|]. split.
  - intros x Hx%list_elem_of_In Hy%list_elem_of_In.
    apply in_map_iff in Hy as (i & <- & _). apply next_id_gt in Hx. lia.
  - apply NoDup_fmap_2; [|apply NoDup_ListNoDup, seq_NoDup].
    intros i j. lia.
Qed.

Lemma flushed_tiebreakers_ids_NoDup db pd :
  NoDup (map tb_id (tiebreakers db)) -> NoDup (map tb_id (flushed_tiebreakers db pd)).
Proof.
  intros Hnd. unfold flushed_tiebreakers. destruct (tb_change pd) as [|i v|u w v]; auto.
  - rewrite map_map.
    rewrite (map_ext (fun t => tb_id (if tb_id t =? i
                                      then mkTB (tb_id t) (tb_user_id t) (tb_week_id t) v
                                      else t)) tb_id); auto.
    intros t. by destruct (tb_id t =? i).
  - rewrite map_app. simpl. apply NoDup_app. split; [exact Hnd|]. split.
    + intros x Hx%list_elem_of_In Hy%list_elem_of_In. destruct Hy as [<-|[]].
      apply next_id_gt in Hx. lia.
    + apply NoDup_singleton.
Qed.

Lemma dict_pop_keys_sub {V} (d : list (Z * V)) k x :
  In x (dict_keys (dict_pop d k)) -> In x (dict_keys d).
Proof.
  induction d as [|[a v] d IH]; simpl; auto.
  destruct (a =? k); simpl; tauto.
Qed.

Lemma dict_pop_NoDup {V} (d : list (Z * V)) k :
  NoDup (dict_keys d) -> NoDup (dict_keys (dict_pop d k)).
Proof.
  induction d as [|[a v] d IH]; simpl; auto.
  intros Hnd. inversion Hnd as [|? ? Ha Hd]; subst.
  destruct (a =? k); simpl; auto. constructor; auto.
  intros Hin%list_elem_of_In. apply Ha. apply list_elem_of_In.
  eapply dict_pop_keys_sub; eauto.
Qed.

Lemma dict_pop_get_eq {V} (d : list (Z * V)) k :
  NoDup (dict_keys d) -> dict_get (dict_pop d k) k = None.
Proof.
  induction d as [|[a v] d IH]; simpl; auto.
  intros Hnd. inversion Hnd as [|? ? Ha Hd]; subst.
  destruct (a =? k) eqn:E; simpl.
  - apply Z.eqb_eq in E. subst a. apply dict_get_None.
    intros Hin. apply Ha. by apply list_elem_of_In.
  - rewrite E. auto.
Qed.

Lemma collect_picks_NoDup form : NoDup (dict_keys (fst (collect_picks form))).
Proof.
  unfold collect_picks.
  apply (fold_left_inv (fun acc : list (Z * Z) * list Z => NoDup (dict_keys (fst acc)))).
  - constructor.
  - intros [posted ids] [key value] _ IH. cbn [fst snd] in *.
    destruct (starts_with "pick_" key); auto.
    destruct (py_int (str_drop 5 key)) as [gid|]; auto.
    destruct (py_int value) as [tid|]; auto. cbn [fst snd].
    by apply dict_keys_set_NoDup.
Qed.

Lemma pop_fold_None (valid : list Z) (k : Z) : forall keys (d : list (Z * Z)),
  dict_get d k = None ->
  dict_get (fold_left (fun d gid => if in_Z gid valid then d else dict_pop d gid) keys d) k
  = None.
Proof.
  induction keys as [|g keys IH]; intros d Hd; simpl; auto.
  apply IH. destruct (in_Z g valid); auto.
  destruct (Z.eq_dec g k) as [->|Hne].
  - apply dict_get_None. intros Hin%dict_pop_keys_sub.
    apply dict_get_None in Hd. auto.
  - by rewrite dict_get_pop_ne.
Qed.

(** What the validation keeps was in the form. *)
Lemma posted_for_sub db week form k t :
  dict_get (posted_for db week form) k = Some t ->
  dict_get (fst (collect_picks form)) k = Some t /\
  In k (map g_id (posted_games db week form)).
Proof.
  unfold posted_for. fold (posted_games db week form).
  set (valid := map g_id (posted_games db week form)).
  set (d0 := fst (collect_picks form)).
  assert (Hgen : forall keys d,
    NoDup (dict_keys d) ->
    (forall k t, dict_get d k = Some t -> dict_get d0 k = Some t) ->
    let r := fold_left (fun d gid => if in_Z gid valid then d else dict_pop d gid) keys d in
    NoDup (dict_keys r) /\
    (forall k t, dict_get r k = Some t -> dict_get d0 k = Some t) /\
    (forall k t, dict_get r k = Some t -> In k keys -> In k valid)).
  { induction keys as [|gid keys IH]; intros d Hnd Hsub; simpl.
    - split; auto. split; auto. intros ? ? _ [].
    - destruct (in_Z gid valid) eqn:E.
      + destruct (IH d Hnd Hsub) as (I1 & I2 & I3). split; auto. split; auto.
        intros k' t' Hk [->|Hin]; [by apply in_Z_In|eauto].
      + assert (Hnd' : NoDup (dict_keys (dict_pop d gid))) by by apply dict_pop_NoDup.
        assert (Hsub' : forall k t, dict_get (dict_pop d gid) k = Some t ->
                                    dict_get d0 k = Some t).
        { intros k' t' Hk. apply Hsub. destruct (Z.eq_dec gid k') as [->|Hne].
          - rewrite dict_pop_get_eq in Hk by auto. discriminate.
          - by rewrite dict_get_pop_ne in Hk. }
        destruct (IH _ Hnd' Hsub') as (I1 & I2 & I3). split; auto. split; auto.
        intros k' t' Hk [->|Hin]; [|eauto]. exfalso.
        rewrite pop_fold_None in Hk; [discriminate|]. by apply dict_pop_get_eq. }
  intros Hk.
  destruct (Hgen (dict_keys d0) d0 (collect_picks_NoDup form) (fun _ _ H => H))
    as (_ & H2 & H3).
  split; [eauto|]. apply (H3 k t Hk). eapply dict_get_Some_key. eauto.
Qed.

Lemma fold_dict_keys_has {A V} (key : A -> Z) (val : A -> V) (l : list A) : forall d x,
  In x l -> In (key x) (dict_keys (fold_left (fun d x => dict_set d (key x) (val x)) l d)).
Proof.
  assert (Hmono : forall l d k, In k (dict_keys d) ->
            In k (dict_keys (fold_left (fun d x => dict_set d (key x) (val x)) l d))).
  { induction l0 as [|y l0 IH]; intros d k Hk; simpl; auto.
    apply IH. apply dict_keys_set_In. auto. }
  induction l as [|y l IH]; intros d x; simpl; [intros []|].
  intros [->|H]; [|auto]. apply Hmono. apply dict_keys_set_In. auto.
Qed.

(** The upsert adds a pick only where the user has none. *)
Lemma by_gid_of_None db user posted k p :
  dict_get (by_gid_of db user posted) k = None ->
  In p (picks db) -> p_user_id p = u_id user -> p_game_id p = k ->
  ~ In k (dict_keys posted).
Proof.
  intros Hn Hp Hu Hg Hk. apply dict_get_None in Hn. apply Hn. unfold by_gid_of.
  rewrite <- Hg. apply (fold_dict_keys_has p_game_id (fun p => p)).
  apply filter_In. split; auto. rewrite Hu, Z.eqb_refl. simpl. apply in_Z_In. by rewrite Hg.
Qed.

Lemma stage_adds_fresh db user week form a :
  In a (snd (stage_picks db user week form)) ->
  exists g t,
    In g (games db) /\ g_week_id g = w_id week /\
    dict_get (posted_for db week form) (g_id g) = Some t /\ plays_in t g /\
    a = mkPick 0 (u_id user) (g_id g) t /\
    dict_get (by_gid_of db user (posted_for db week form)) (g_id g) = None.
Proof.
  rewrite stage_picks_unfold.
  destruct (posted_for db week form) as [|kv rest] eqn:Ep; [intros []|].
  rewrite <- Ep. clear Ep kv rest.
  set (posted := posted_for db week form).
  revert a.
  apply (fold_left_inv (fun acc : list (Z * Z) * list Pick =>
    forall a, In a (snd acc) ->
      exists g t,
        In g (games db) /\ g_week_id g = w_id week /\
        dict_get posted (g_id g) = Some t /\ plays_in t g /\
        a = mkPick 0 (u_id user) (g_id g) t /\
        dict_get (by_gid_of db user posted) (g_id g) = None)).
  - intros a [].
  - intros [upd adds] g Hg Ha. simpl in Ha.
    apply posted_games_In in Hg as [Hg Hw].
    unfold upsert_step.
    destruct (dict_get posted (g_id g)) as [t|] eqn:Et; auto.
    destruct ((t =? g_home_team_id g) || (t =? g_away_team_id g))%bool eqn:Ev;
      simpl; auto.
    assert (Hv : plays_in t g).
    { apply orb_true_iff in Ev as [E|E]; apply Z.eqb_eq in E; [left|right]; auto. }
    destruct (dict_get (by_gid_of db user posted) (g_id g)) as [row|] eqn:Er; simpl; auto.
    intros a [Ha'|[<-|[]]]%in_app_or; auto.
    exists g, t. auto 10.
Qed.

Lemma map_same {A} (f : A -> A) (l : list A) : (forall x, In x l -> f x = x) -> map f l = l.
Proof.
  induction l as [|x l IH]; simpl; auto. intros H.
  rewrite (H x) by auto. rewrite IH by auto. reflexivity.
Qed.

(** The handler past the lock and the tiebreaker check. *)
Lemma picks_save_commit db now user week_id form week :
  u_must_change_password user = false ->
  List.find (fun w => w_id w =? week_id) (weeks db) = Some week ->
  is_locked week now = false ->
  read_tiebreaker form <> TbInvalid ->
  picks_save db now (Some user) week_id form =
  match commit db (save_pending db user week form) with
  | Some db' => (db', Saved (w_id week))
  | None => (db, ErrTbUnique (w_id week))
  end.
Proof.
  intros Hm Hw Hl Hr.
  rewrite (picks_save_unlocked db now user week_id form week Hm Hw Hl).
  unfold save_pending, save_change.
  rewrite (surjective_pairing (stage_picks db user week form)). cbn [fst snd].
  destruct (read_tiebreaker form); [reflexivity|reflexivity|congruence].
Qed.

(** X8.  Saving the same form again changes nothing.  With game, pick and
    tiebreaker ids unique: if a save is answered [ok=1], the same form
    sent again by the same user while the week is still open is answered
    [ok=1] and leaves the store as the first save left it. *)
Theorem X8_save_twice (db db' : DB) (now now' : Z) (user : User) (week_id : Z)
    (form : list (string * string)) :
  NoDup (map g_id (games db)) -> NoDup (map p_id (picks db)) ->
  NoDup (map tb_id (tiebreakers db)) ->
  picks_save db now (Some user) week_id form = (db', Saved week_id) ->
  (forall week, In week (weeks db) -> w_id week = week_id -> is_locked week now' = false) ->
  picks_save db' now' (Some user) week_id form = (db', Saved week_id).
Proof.
  intros Hndg Hndp Hndt Hs Hl.
  destruct (picks_save_cases db now (Some user) week_id form)
    as [[_ Hno]|(user' & week & Hcu & Hm & Hw & Hl1 & Hc & Hr)].
  { rewrite Hs in Hno. destruct (Hno week_id). reflexivity. }
  injection Hcu as <-. rewrite Hs in Hc, Hr. simpl in Hc, Hr.
  destruct (find_some_week _ _ _ Hw) as [Hwin Hwid%Z.eqb_eq].
  destruct (commit_tables _ _ _ Hc) as (Hse & Hwk & Hte & Hgm & Hus & Hp & Ht).
  destruct (commit_Some _ _ _ Hc) as (Hu1 & Hu2 & Hu3).
  assert (Hread : read_tiebreaker form <> TbInvalid).
  { intros E. rewrite (picks_save_unlocked db now user week_id form week Hm Hw Hl1) in Hs.
    destruct (stage_picks db user week form). rewrite E in Hs. discriminate. }
  assert (Hndp' : NoDup (map p_id (picks db'))).
  { rewrite Hp. by apply flushed_picks_ids_NoDup. }
  assert (Hndt' : NoDup (map tb_id (tiebreakers db'))).
  { rewrite Ht. by apply flushed_tiebreakers_ids_NoDup. }
  assert (Hpost : posted_for db' week form = posted_for db week form).
  { unfold posted_for. by rewrite Hgm. }
  assert (Hstored : forall g t, In g (games db') -> g_week_id g = w_id week ->
            dict_get (posted_for db' week form) (g_id g) = Some t -> plays_in t g ->
            exists p', In p' (picks db') /\ p_user_id p' = u_id user /\
                       p_game_id p' = g_id g /\ p_chosen_team_id p' = t).
  { intros g t Hg Hgw Hpo Hv. rewrite Hgm in Hg.
    apply posted_for_sub in Hpo as [Hpo _].
    apply (saved_pick_stored db user week form db' g t); auto. }
  assert (Hpicks : flushed_picks db' (save_pending db' user week form) = picks db').
  { unfold flushed_picks, save_pending. simpl.
    destruct (snd (stage_picks db' user week form)) as [|a adds] eqn:Ea.
    - simpl. rewrite app_nil_r. apply map_same. intros p Hin.
      destruct (dict_get _ (p_id p)) as [t|] eqn:E; auto.
      apply (updates_own_rows db' user week form p t Hndp' Hin) in E
        as (Hu & g & Hg & Hgw & Hpg & Hpo & Hv).
      destruct (Hstored g t Hg Hgw Hpo Hv) as (p' & Hp' & Hu' & Hg' & Hch).
      assert (p' = p).
      { apply (distinct_pairs_inj (fun p => (p_user_id p, p_game_id p)) (picks db')); auto.
        congruence. }
      subst p'. destruct p. simpl in *. unfold set_chosen. simpl. congruence.
    - exfalso.
      destruct (stage_adds_fresh db' user week form a) as (g & t & Hg & Hgw & Hpo & Hv & _ & Hn).
      { rewrite Ea. simpl. auto. }
      destruct (Hstored g t Hg Hgw Hpo Hv) as (p' & Hp' & Hu' & Hg' & _).
      apply (by_gid_of_None db' user _ (g_id g) p' Hn Hp' Hu' Hg').
      eapply dict_get_Some_key; eauto. }
  assert (Htbs : flushed_tiebreakers db' (save_pending db' user week form) = tiebreakers db').
  { unfold flushed_tiebreakers, save_pending, save_change. simpl.
    destruct (read_tiebreaker form) as [|v|] eqn:Erd; auto.
    pose proof (saved_guess_first db user week form v Erd) as Hfirst.
    rewrite <- Ht in Hfirst.
    destruct (List.find _ (tiebreakers db')) as [ex|] eqn:Ef; [|discriminate].
    simpl in Hfirst. injection Hfirst as Hv.
    apply find_some in Ef as [Hex _].
    apply map_same. intros t Hin.
    destruct (tb_id t =? tb_id ex) eqn:Eid; auto.
    apply Z.eqb_eq in Eid.
    assert (t = ex) by (apply (NoDup_map_eq tb_id (tiebreakers db')); auto). subst t.
    destruct ex. simpl in *. congruence. }
  assert (Hw' : List.find (fun w => w_id w =? week_id) (weeks db') = Some week)
    by (by rewrite Hwk).
  rewrite (picks_save_commit db' now' user week_id form week Hm Hw' (Hl week Hwin Hwid) Hread).
  unfold commit. rewrite Hpicks, Htbs, Hu1, Hu2, Hu3. simpl.
  rewrite Hwid. f_equal. destruct db'. reflexivity.
Qed.

(** Bob's form, sent twice before the kickoff at 1000. *)
Lemma X8_witness :
  let form := [("pick_1", "10"); ("pick_2", "21"); ("tiebreaker", "41")]%string in
  let db1 := fst (picks_save Fixture.db_picks 500 (Some Fixture.bob) 1 form) in
  picks db1 = [mkPick 1 2 1 10; mkPick 2 2 2 21] /\
  picks_save db1 600 (Some Fixture.bob) 1 form = (db1, Saved 1).
Proof.
  intros form db1. split; [reflexivity|].
  apply (X8_save_twice Fixture.db_picks db1 500 600 Fixture.bob 1 form).
  - apply (bool_decide_unpack _). vm_compute. exact I.
  - constructor.
  - apply (bool_decide_unpack _). vm_compute. exact I.
  - reflexivity.
  - intros week [<-|[]] _. reflexivity.
Defined.

(** ** The week selector and its neighbours *)

Lemma insert_by_Permutation {A} (lt : A -> A -> bool) x l :
  Permutation (insert_by lt x l) (x :: l).
Proof.
  induction l as [|y l IH]; simpl; auto.
  destruct (lt y x); auto.
  apply perm_trans with (y :: x :: l); [by apply perm_skip|apply perm_swap].
Qed.

Lemma py_sort_Permutation {A} (lt : A -> A -> bool) l : Permutation (py_sort lt l) l.
Proof.
  induction l as [|x l IH]; simpl; auto.
  apply perm_trans with (x :: py_sort lt l); [apply insert_by_Permutation|by apply perm_skip].
Qed.

Lemma py_sort_NoDup_map {A B} (lt : A -> A -> bool) (f : A -> B) l :
  NoDup (map f l) -> NoDup (map f (py_sort lt l)).
Proof.
  intros H. apply NoDup_ListNoDup.
  apply (Permutation_NoDup (l := map f l)).
  - apply Permutation_map. symmetry. apply py_sort_Permutation.
  - by apply NoDup_ListNoDup.
Qed.

Lemma index_of_nth x l i : index_of x l = Some i -> nth_error l i = Some x.
Proof.
  revert i. induction l as [|y l IH]; simpl; intros i; [discriminate|].
  destruct (y =? x) eqn:E.
  - intros [= <-]. simpl. f_equal. by apply Z.eqb_eq.
  - destruct (index_of x l) as [j|]; simpl; [|discriminate].
    intros [= <-]. simpl. by apply IH.
Qed.

Lemma nth_index_of x l i : NoDup l -> nth_error l i = Some x -> index_of x l = Some i.
Proof.
  revert i. induction l as [|y l IH]; intros i Hnd; [by destruct i|].
  apply NoDup_cons in Hnd as [Hy Hl].
  destruct i as [|i]; simpl.
  - intros [= ->]. by rewrite Z.eqb_refl.
  - intros Hn. destruct (y =? x) eqn:E.
    + apply Z.eqb_eq in E. subst y. destruct Hy. apply list_elem_of_In.
      by apply nth_error_In in Hn.
    + by rewrite (IH i Hl Hn).
Qed.

Lemma nth_error_map_id (ws : list Week) i w :
  nth_error ws i = Some w -> nth_error (map w_id ws) i = Some (w_id w).
Proof. intros H. by rewrite nth_error_map, H. Qed.

Lemma selected_week_In db week cur w :
  (forall c, cur = Some c -> In c (weeks db)) ->
  selected_week db week cur = Some w -> In w (weeks db).
Proof.
  intros Hc. unfold selected_week. destruct week as [i|]; [|by auto].
  destruct (List.find _ (weeks db)) as [x|] eqn:E; [|by auto].
  intros [= <-]. by apply find_some in E as [? _].
Qed.

Lemma earliest_In ws w : earliest ws = Some w -> In w ws.
Proof. apply py_max_In. Qed.

Lemma latest_In ws w : latest ws = Some w -> In w ws.
Proof. apply py_max_In. Qed.

Lemma upcoming_weeks_In now ws w : In w (upcoming_weeks now ws) -> In w ws /\ now <= kickoff w.
Proof. unfold upcoming_weeks. rewrite filter_In. intros [? ?%Z.leb_le]. auto. Qed.

Lemma dashboard_current_week_In db now w :
  Dashboard._get_current_week db now = Some w -> In w (weeks db).
Proof.
  unfold Dashboard._get_current_week.
  destruct (earliest _) as [u|] eqn:E.
  - intros [= <-]. apply earliest_In in E. by apply upcoming_weeks_In in E as [? _].
  - apply latest_In.
Qed.

Lemma picks_current_week_In db now w :
  Picks._get_current_week db now = Some w -> In w (weeks db).
Proof.
  unfold Picks._get_current_week.
  assert (Hfall : match earliest (upcoming_weeks now (weeks db)) with
                  | Some u => Some u | None => latest (weeks db) end = Some w ->
                  In w (weeks db)).
  { destruct (earliest _) as [u|] eqn:E.
    - intros [= <-]. apply earliest_In in E. by apply upcoming_weeks_In in E as [? _].
    - apply latest_In. }
  destruct (_active_season db None) as [season|]; [|exact Hfall].
  cbv zeta.
  destruct (earliest (upcoming_weeks now (List.filter _ (weeks db)))) as [u|] eqn:E.
  - simpl. intros [= <-]. apply earliest_In in E. apply upcoming_weeks_In in E as [E _].
    by apply filter_In in E as [? _].
  - destruct (latest (List.filter _ (weeks db))) as [u|] eqn:E2; [|exact Hfall].
    simpl. intros [= <-]. apply latest_In in E2. by apply filter_In in E2 as [? _].
Qed.

Section Neighbours.

(** The weeks of a selector: rows of the table, the same list for every
    week it lists, with their keys distinct. *)
Variable weeks_of : DB -> option Week -> list Week.
Variable db : DB.
Hypothesis weeks_of_sub : forall s w, In w (weeks_of db (Some s)) -> In w (weeks db).
Hypothesis weeks_of_same : forall s w,
  In w (weeks_of db (Some s)) -> weeks_of db (Some w) = weeks_of db (Some s).
Hypothesis weeks_of_NoDup : forall s, NoDup (map w_id (weeks_of db (Some s))).
Hypothesis weeks_NoDup : NoDup (map w_id (weeks db)).

Lemma selected_of_id w cur : In w (weeks db) -> selected_week db (Some (w_id w)) cur = Some w.
Proof. intros H. unfold selected_week. by rewrite find_by_id_week. Qed.

Lemma prev_next_In s p n :
  prev_next (weeks_of db (Some s)) (Some s) = (p, n) ->
  (forall x, p = Some x -> In x (weeks_of db (Some s))) /\
  (forall x, n = Some x -> In x (weeks_of db (Some s))).
Proof.
  unfold prev_next. destruct (index_of _ _) as [idx|]; [|by intros [= <- <-]].
  intros [= <- <-]. split; intros x.
  - destruct (0 <? Z.of_nat idx); [|discriminate]. apply nth_error_In.
  - destruct (Z.of_nat idx <? _); [|discriminate]. apply nth_error_In.
Qed.

Lemma next_then_prev s n :
  In s (weeks db) ->
  snd (prev_next (weeks_of db (Some s)) (Some s)) = Some n ->
  In n (weeks db) /\
  weeks_of db (Some n) = weeks_of db (Some s) /\
  fst (prev_next (weeks_of db (Some n)) (Some n)) = Some s.
Proof.
  intros Hs. unfold prev_next at 1.
  destruct (index_of (w_id s) (map w_id (weeks_of db (Some s)))) as [idx|] eqn:Ei;
    [|discriminate].
  cbn [snd]. destruct (Z.of_nat idx <? _) eqn:Elt; [|discriminate].
  intros Hn.
  assert (Hin : In n (weeks_of db (Some s))) by (by apply nth_error_In in Hn).
  pose proof (weeks_of_same s n Hin) as Hsame.
  split; [by apply (weeks_of_sub s)|]. split; [done|].
  rewrite Hsame. unfold prev_next.
  rewrite (nth_index_of (w_id n) _ (idx + 1)); [|apply weeks_of_NoDup|by apply nth_error_map_id].
  cbn [fst].
  replace (0 <? Z.of_nat (idx + 1)) with true by (symmetry; apply Z.ltb_lt; lia).
  replace (idx + 1 - 1)%nat with idx by lia.
  apply index_of_nth in Ei. rewrite nth_error_map in Ei.
  destruct (nth_error (weeks_of db (Some s)) idx) as [x|] eqn:Ex; [|discriminate].
  f_equal. apply (NoDup_map_eq w_id (weeks db)); auto.
  - apply (weeks_of_sub s). by apply nth_error_In in Ex.
  - simpl in Ei. congruence.
Qed.

Lemma prev_then_next s p :
  In s (weeks db) ->
  fst (prev_next (weeks_of db (Some s)) (Some s)) = Some p ->
  In p (weeks db) /\
  weeks_of db (Some p) = weeks_of db (Some s) /\
  snd (prev_next (weeks_of db (Some p)) (Some p)) = Some s.
Proof.
  intros Hs. unfold prev_next at 1.
  destruct (index_of (w_id s) (map w_id (weeks_of db (Some s)))) as [idx|] eqn:Ei;
    [|discriminate].
  cbn [fst]. destruct (0 <? Z.of_nat idx) eqn:Elt; [|discriminate].
  apply Z.ltb_lt in Elt. intros Hp.
  assert (Hin : In p (weeks_of db (Some s))) by (by apply nth_error_In in Hp).
  pose proof (weeks_of_same s p Hin) as Hsame.
  split; [by apply (weeks_of_sub s)|]. split; [done|].
  rewrite Hsame. unfold prev_next.
  rewrite (nth_index_of (w_id p) _ (idx - 1)); [|apply weeks_of_NoDup|by apply nth_error_map_id].
  cbn [snd].
  apply index_of_nth in Ei. rewrite nth_error_map in Ei.
  destruct (nth_error (weeks_of db (Some s)) idx) as [x|] eqn:Ex; [|discriminate].
  assert (Hlen : (idx < length (weeks_of db (Some s)))%nat).
  { apply nth_error_Some. congruence. }
  replace (Z.of_nat (idx - 1) <? Z.of_nat (length (weeks_of db (Some s))) - 1) with true
    by (symmetry; apply Z.ltb_lt; lia).
  replace (idx - 1 + 1)%nat with idx by lia.
  rewrite Ex. f_equal. apply (NoDup_map_eq w_id (weeks db)); auto.
  - apply (weeks_of_sub s). by apply nth_error_In in Ex.
  - simpl in Ei. congruence.
Qed.

End Neighbours.

Lemma season_weeks_sub db s w : In w (season_weeks db (Some s)) -> In w (weeks db).
Proof. unfold season_weeks. rewrite py_sort_In, filter_In. tauto. Qed.

Lemma season_weeks_same db s w :
  In w (season_weeks db (Some s)) -> season_weeks db (Some w) = season_weeks db (Some s).
Proof.
  unfold season_weeks. rewrite py_sort_In, filter_In. intros [_ E%Z.eqb_eq].
  by rewrite E.
Qed.

Lemma season_weeks_NoDup db s :
  NoDup (map w_id (weeks db)) -> NoDup (map w_id (season_weeks db (Some s))).
Proof. intros H. unfold season_weeks. apply py_sort_NoDup_map. by apply NoDup_map_filter. Qed.

Lemma segment_weeks_sub db s w : In w (segment_weeks db (Some s)) -> In w (weeks db).
Proof. unfold segment_weeks. rewrite py_sort_In, filter_In. tauto. Qed.

Lemma segment_weeks_same db s w :
  In w (segment_weeks db (Some s)) -> segment_weeks db (Some w) = segment_weeks db (Some s).
Proof.
  unfold segment_weeks. rewrite py_sort_In, filter_In.
  intros [_ [E1%Z.eqb_eq E2%Z.eqb_eq]%andb_true_iff]. by rewrite E1, E2.
Qed.

Lemma segment_weeks_NoDup db s :
  NoDup (map w_id (weeks db)) -> NoDup (map w_id (segment_weeks db (Some s))).
Proof. intros H. unfold segment_weeks. apply py_sort_NoDup_map. by apply NoDup_map_filter. Qed.

Lemma picks_page_selected_In db now week w :
  selected_week db week (Picks._get_current_week db now) = Some w -> In w (weeks db).
Proof. apply selected_week_In. intros c. apply picks_current_week_In. Qed.

Lemma dashboard_selected_In db now week w :
  selected_week db week (Dashboard._get_current_week db now) = Some w -> In w (weeks db).
Proof. apply selected_week_In. intros c. apply dashboard_current_week_In. Qed.

Lemma picks_page_nav db now now' user week err ok :
  u_must_change_password user = false ->
  exists ctx,
    picks_page db now now' (Some user) week err ok = Render ctx /\
    let sel := selected_week db week (Picks._get_current_week db now) in
    pc_selected_week ctx = sel /\ pc_weeks ctx = season_weeks db sel /\
    pc_prev_week ctx = fst (prev_next (season_weeks db sel) sel) /\
    pc_next_week ctx = snd (prev_next (season_weeks db sel) sel).
Proof.
  intros Hu. unfold picks_page. rewrite Hu.
  destruct (prev_next _ _) as [p x]. eexists. split; [reflexivity|]. cbn. auto.
Qed.

Lemma dashboard_ctx_nav db now now' user week weeks_of :
  let sel := selected_week db week (Dashboard._get_current_week db now) in
  let ctx := dashboard_ctx db now now' user week weeks_of in
  dc_selected_week ctx = sel /\ dc_weeks ctx = weeks_of db sel /\
  dc_prev_week ctx = fst (prev_next (weeks_of db sel) sel) /\
  dc_next_week ctx = snd (prev_next (weeks_of db sel) sel).
Proof.
  cbv zeta. unfold dashboard_ctx.
  destruct (prev_next _ _) as [p x].
  destruct (pick_progress _ _ _ _) as [[[tg pm] mi] np].
  destruct (_season_leaderboard _ _) as [lb dg]. cbn. auto.
Qed.

(** What the two links come to, for a selector [weeks_of]. *)
Lemma neighbours_round_trip (weeks_of : DB -> option Week -> list Week) db
    (cur cur1 : option Week) week n :
  (forall s w, In w (weeks_of db (Some s)) -> In w (weeks db)) ->
  (forall s w, In w (weeks_of db (Some s)) -> weeks_of db (Some w) = weeks_of db (Some s)) ->
  (forall s, NoDup (map w_id (weeks_of db (Some s)))) ->
  NoDup (map w_id (weeks db)) ->
  (forall c, cur = Some c -> In c (weeks db)) ->
  let sel := selected_week db week cur in
  let sel1 := selected_week db (Some (w_id n)) cur1 in
  (snd (prev_next (weeks_of db sel) sel) = Some n ->
     sel1 = Some n /\ weeks_of db sel1 = weeks_of db sel /\
     fst (prev_next (weeks_of db sel1) sel1) = sel) /\
  (fst (prev_next (weeks_of db sel) sel) = Some n ->
     sel1 = Some n /\ weeks_of db sel1 = weeks_of db sel /\
     snd (prev_next (weeks_of db sel1) sel1) = sel).
Proof.
  intros H1 H2 H3 Hnd Hcur sel sel1. subst sel1.
  destruct sel as [s|] eqn:Es; [|split; discriminate].
  assert (Hs : In s (weeks db)) by (by apply (selected_week_In db week cur)).
  split; intros Hn.
  - destruct (next_then_prev weeks_of db H1 H2 H3 Hnd s n Hs Hn) as (Hin & Hsame & Hback).
    rewrite (selected_of_id db Hnd n _ Hin). auto.
  - destruct (prev_then_next weeks_of db H1 H2 H3 Hnd s n Hs Hn) as (Hin & Hsame & Hback).
    rewrite (selected_of_id db Hnd n _ Hin). auto.
Qed.

(** X9. Following the "next" link of the picks page, of the dashboard or
    of the dashboard fragment and then the "previous" link leads back:
    when week ids are unique and a page shows [n] as the next week of the
    selected one, the page asked for [n] selects [n], lists the same weeks
    and shows the first selected week as previous; and the same with next
    and previous exchanged. *)
Theorem X9_week_navigation (db : DB) (user : User) (now now' : Z) (week : option Z)
    (n : Week) (now1 now1' : Z) :
  NoDup (map w_id (weeks db)) ->
  (forall err ok err1 ok1 ctx,
     picks_page db now now' (Some user) week err ok = Render ctx ->
     exists ctx1,
       picks_page db now1 now1' (Some user) (Some (w_id n)) err1 ok1 = Render ctx1 /\
       (pc_next_week ctx = Some n ->
          pc_selected_week ctx1 = Some n /\ pc_weeks ctx1 = pc_weeks ctx /\
          pc_prev_week ctx1 = pc_selected_week ctx) /\
       (pc_prev_week ctx = Some n ->
          pc_selected_week ctx1 = Some n /\ pc_weeks ctx1 = pc_weeks ctx /\
          pc_next_week ctx1 = pc_selected_week ctx)) /\
  (forall ctx,
     dashboard db now now' (Some user) week = Render ctx ->
     exists ctx1,
       dashboard db now1 now1' (Some user) (Some (w_id n)) = Render ctx1 /\
       (dc_next_week ctx = Some n ->
          dc_selected_week ctx1 = Some n /\ dc_weeks ctx1 = dc_weeks ctx /\
          dc_prev_week ctx1 = dc_selected_week ctx) /\
       (dc_prev_week ctx = Some n ->
          dc_selected_week ctx1 = Some n /\ dc_weeks ctx1 = dc_weeks ctx /\
          dc_next_week ctx1 = dc_selected_week ctx)) /\
  (forall ctx url,
     dashboard_content db now now' (Some user) week = Render (ctx, url) ->
     exists ctx1 url1,
       dashboard_content db now1 now1' (Some user) (Some (w_id n)) = Render (ctx1, url1) /\
       (dc_next_week ctx = Some n ->
          dc_selected_week ctx1 = Some n /\ dc_weeks ctx1 = dc_weeks ctx /\
          dc_prev_week ctx1 = dc_selected_week ctx) /\
       (dc_prev_week ctx = Some n ->
          dc_selected_week ctx1 = Some n /\ dc_weeks ctx1 = dc_weeks ctx /\
          dc_next_week ctx1 = dc_selected_week ctx)).
Proof.
  intros Hnd.
  destruct (u_must_change_password user) eqn:Hu.
  { unfold picks_page, dashboard, dashboard_content. rewrite Hu.
    split; [|split]; intros; discriminate. }
  pose proof (neighbours_round_trip season_weeks db
                (Picks._get_current_week db now) (Picks._get_current_week db now1) week n
                (season_weeks_sub db) (season_weeks_same db)
                (fun s0 => season_weeks_NoDup db s0 Hnd) Hnd
                (fun c => picks_current_week_In db now c)) as Hpicks.
  pose proof (neighbours_round_trip season_weeks db
                (Dashboard._get_current_week db now) (Dashboard._get_current_week db now1)
                week n
                (season_weeks_sub db) (season_weeks_same db)
                (fun s0 => season_weeks_NoDup db s0 Hnd) Hnd
                (fun c => dashboard_current_week_In db now c)) as Hdash.
  pose proof (neighbours_round_trip segment_weeks db
                (Dashboard._get_current_week db now) (Dashboard._get_current_week db now1)
                week n
                (segment_weeks_sub db) (segment_weeks_same db)
                (fun s0 => segment_weeks_NoDup db s0 Hnd) Hnd
                (fun c => dashboard_current_week_In db now c)) as Hfrag.
  cbv zeta in Hpicks, Hdash, Hfrag.
  split; [|split].
  - intros err ok err1 ok1 ctx Hctx.
    destruct (picks_page_nav db now now' user week err ok Hu) as (c & Hc & Hsel & Hw & Hp & Hx).
    rewrite Hc in Hctx. injection Hctx as <-.
    destruct (picks_page_nav db now1 now1' user (Some (w_id n)) err1 ok1 Hu)
      as (c1 & Hc1 & Hsel1 & Hw1 & Hp1 & Hx1).
    exists c1. split; [exact Hc1|].
    rewrite Hsel, Hw, Hp, Hx, Hsel1, Hw1, Hp1, Hx1. exact Hpicks.
  - intros ctx. unfold dashboard. rewrite Hu. intros [= <-].
    eexists. split; [reflexivity|].
    destruct (dashboard_ctx_nav db now now' user week season_weeks) as (Hsel & Hw & Hp & Hx).
    destruct (dashboard_ctx_nav db now1 now1' user (Some (w_id n)) season_weeks)
      as (Hsel1 & Hw1 & Hp1 & Hx1).
    rewrite Hsel, Hw, Hp, Hx, Hsel1, Hw1, Hp1, Hx1. exact Hdash.
  - intros ctx url. unfold dashboard_content. rewrite Hu. intros [= <- <-].
    do 2 eexists. split; [reflexivity|].
    destruct (dashboard_ctx_nav db now now' user week segment_weeks) as (Hsel & Hw & Hp & Hx).
    destruct (dashboard_ctx_nav db now1 now1' user (Some (w_id n)) segment_weeks)
      as (Hsel1 & Hw1 & Hp1 & Hx1).
    rewrite Hsel, Hw, Hp, Hx, Hsel1, Hw1, Hp1, Hx1. exact Hfrag.
Qed.

(** From week 4 the next link leads to week 5, whose previous link leads
    back to week 4; the postseason week 7 comes after both. *)
Lemma X9_witness :
  NoDup (map w_id (weeks db_three_weeks)) /\
  exists ctx1,
    picks_page db_three_weeks 10 11 (Some (Fixture.user 1 "Ann" "A")) (Some 5) None None
    = Render ctx1 /\
    pc_selected_week ctx1 = Some (mkWeek 5 1 2 2 (utc 2000)) /\
    pc_prev_week ctx1 = Some (mkWeek 4 1 1 2 (utc 1000)).
Proof.
  assert (Hnd : NoDup (map w_id (weeks db_three_weeks))).
  { apply (bool_decide_unpack _). vm_compute. exact I. }
  split; [exact Hnd|].
  destruct (X9_week_navigation db_three_weeks (Fixture.user 1 "Ann" "A") 0 1 (Some 4)
              (mkWeek 5 1 2 2 (utc 2000)) 10 11 Hnd) as [H _].
  edestruct (H None None None None) as (ctx1 & Hc & Hn & _); [reflexivity|].
  exists ctx1. split; [exact Hc|].
  destruct (Hn eq_refl) as (Hs & _ & Hp). split; [exact Hs|exact Hp].
Defined.

(** ** The picks progress of the dashboard *)

Lemma has_pick_iff db uid g :
  has_pick db uid g = true <->
  exists p, In p (picks db) /\ p_user_id p = uid /\ p_game_id p = g_id g.
Proof.
  unfold has_pick. rewrite existsb_exists. split.
  - intros (p & Hp & [E1%Z.eqb_eq E2%Z.eqb_eq]%andb_true_iff). eauto.
  - intros (p & Hp & E1 & E2). exists p. split; auto.
    apply andb_true_iff. split; by apply Z.eqb_eq.
Qed.

Lemma filter_split_length {A} (f : A -> bool) (l : list A) :
  length l = (length (List.filter f l) + length (List.filter (fun x => negb (f x)) l))%nat.
Proof. induction l as [|x l IH]; simpl; auto. destruct (f x); simpl; lia. Qed.

Lemma filter_nonempty_iff {A} (f : A -> bool) (l : list A) :
  (0 < length (List.filter f l))%nat <-> exists x, In x l /\ f x = true.
Proof.
  split.
  - destruct (List.filter f l) as [|x r] eqn:E; simpl; [lia|]. intros _.
    exists x. apply filter_In. rewrite E. simpl. auto.
  - intros (x & Hx & Hf). assert (Hin : In x (List.filter f l)) by (by apply filter_In).
    destruct (List.filter f l); simpl in *; [tauto|lia].
Qed.

(** With at most one pick per user and game, the picks of a user on the
    games of a week are as many as the games of the week the user has
    picked. *)
Lemma picks_made_count db uid (gs : list Game) :
  NoDup (map g_id gs) -> uq_pick_user_game (picks db) = true ->
  length (List.filter (fun p => (p_user_id p =? uid) && in_Z (p_game_id p) (map g_id gs))%bool
            (picks db))
  = length (List.filter (has_pick db uid) gs).
Proof.
  intros Hg Hu.
  set (P := List.filter _ (picks db)).
  rewrite <- (length_map p_game_id P), <- (length_map g_id (List.filter _ gs)).
  apply Permutation_length. apply NoDup_Permutation.
  - by apply user_picks_games_NoDup.
  - by apply NoDup_map_filter.
  - intros x. rewrite !list_elem_of_In, !in_map_iff. split.
    + intros (p & <- & Hp). apply filter_In in Hp as [Hp [E1%Z.eqb_eq E2%in_Z_In]%andb_true_iff].
      apply in_map_iff in E2 as (g & Eg & Hgin). exists g. split; auto.
      apply filter_In. split; auto. apply has_pick_iff. exists p. auto.
    + intros (g & <- & Hgin). apply filter_In in Hgin as [Hgin Hh].
      apply has_pick_iff in Hh as (p & Hp & E1 & E2). exists p. split; auto.
      apply filter_In. split; auto. apply andb_true_iff. split; [by apply Z.eqb_eq|].
      apply in_Z_In. rewrite E2. by apply in_map.
Qed.

Lemma pick_progress_spec db now' user w :
  NoDup (map g_id (games db)) -> uq_pick_user_game (picks db) = true ->
  pick_progress db now' user (Some w)
  = (Z.of_nat (length (week_games db w)),
     Z.of_nat (length (List.filter (has_pick db (u_id user)) (week_games db w))),
     Z.of_nat (length (List.filter (fun g => negb (has_pick db (u_id user) g))
                         (week_games db w))),
     (match List.filter (fun g => negb (has_pick db (u_id user) g)) (week_games db w) with
      | [] => false | _ => true end && negb (is_locked w now'))%bool).
Proof.
  intros Hg Hu. unfold pick_progress.
  pose proof (week_games_NoDup db w Hg) as Hw.
  pose proof (picks_made_count db (u_id user) (week_games db w) Hw Hu) as Hc.
  pose proof (filter_split_length (has_pick db (u_id user)) (week_games db w)) as Hs.
  remember (week_games db w) as gs eqn:Egs. clear Egs.
  assert (Hmade : match map g_id gs with
                  | [] => 0
                  | _ => Z.of_nat (length (List.filter
                           (fun p => (p_user_id p =? u_id user)
                                     && in_Z (p_game_id p) (map g_id gs))%bool (picks db)))
                  end = Z.of_nat (length (List.filter (has_pick db (u_id user)) gs))).
  { destruct gs as [|g gs']; [reflexivity|]. cbn [map]. by rewrite <- Hc. }
  rewrite Hmade.
  set (made := length (List.filter (has_pick db (u_id user)) gs)) in *.
  set (miss := List.filter (fun g => negb (has_pick db (u_id user) g)) gs) in *.
  replace (Z.max 0 (Z.of_nat (length gs) - Z.of_nat made)) with (Z.of_nat (length miss)) by lia.
  do 2 f_equal. by destruct miss.
Qed.

Lemma dashboard_ctx_progress db now now' user week weeks_of :
  let ctx := dashboard_ctx db now now' user week weeks_of in
  (dc_total_games ctx, dc_picks_made ctx, dc_missing ctx, dc_needs_picks ctx)
  = pick_progress db now' user (dc_selected_week ctx).
Proof.
  cbv zeta. unfold dashboard_ctx.
  destruct (prev_next _ _) as [p x].
  destruct (selected_week db week (Dashboard._get_current_week db now)) as [s|];
    destruct (pick_progress _ _ _ _) as [[[tg pm] mi] np] eqn:E;
    destruct (_season_leaderboard _ _) as [lb dg];
    cbn [dc_total_games dc_picks_made dc_missing dc_needs_picks dc_selected_week];
    by rewrite E.
Qed.

(** X10. With game ids unique and at most one pick per user and game, the
    dashboard (page and fragment) counts the games of the selected week,
    those the user has picked and those the user has not; the two add up
    to the total, and the reminder to pick is shown exactly when a game of
    the week is unpicked and the week is not locked.  Without a selected
    week all counts are zero and no reminder is shown. *)
Theorem X10_pick_progress (db : DB) (now now' : Z) (user : User) (week : option Z)
    (ctx : DashboardCtx) :
  NoDup (map g_id (games db)) -> uq_pick_user_game (picks db) = true ->
  (dashboard db now now' (Some user) week = Render ctx \/
   exists url, dashboard_content db now now' (Some user) week = Render (ctx, url)) ->
  match dc_selected_week ctx with
  | None =>
      dc_total_games ctx = 0 /\ dc_picks_made ctx = 0 /\ dc_missing ctx = 0 /\
      dc_needs_picks ctx = false
  | Some w =>
      let gs := week_games db w in
      dc_total_games ctx = Z.of_nat (length gs) /\
      dc_picks_made ctx = Z.of_nat (length (List.filter (has_pick db (u_id user)) gs)) /\
      dc_missing ctx
      = Z.of_nat (length (List.filter (fun g => negb (has_pick db (u_id user) g)) gs)) /\
      dc_picks_made ctx + dc_missing ctx = dc_total_games ctx /\
      (dc_needs_picks ctx = true <->
       (exists g, In g gs /\ has_pick db (u_id user) g = false) /\ is_locked w now' = false)
  end.
Proof.
  intros Hg Hu Hpage.
  assert (Hp : (dc_total_games ctx, dc_picks_made ctx, dc_missing ctx, dc_needs_picks ctx)
               = pick_progress db now' user (dc_selected_week ctx)).
  { destruct Hpage as [H|[url H]].
    - unfold dashboard in H. destruct (u_must_change_password user); [discriminate|].
      injection H as <-. apply dashboard_ctx_progress.
    - unfold dashboard_content in H. destruct (u_must_change_password user); [discriminate|].
      injection H as <- _. apply dashboard_ctx_progress. }
  destruct (dc_selected_week ctx) as [w|].
  - rewrite (pick_progress_spec db now' user w Hg Hu) in Hp.
    injection Hp as -> -> -> ->. cbv zeta.
    split; [reflexivity|]. split; [reflexivity|]. split; [reflexivity|]. split.
    + rewrite (filter_split_length (has_pick db (u_id user)) (week_games db w)). lia.
    + rewrite andb_true_iff, negb_true_iff.
      assert (Hne : match List.filter (fun g => negb (has_pick db (u_id user) g))
                            (week_games db w) with [] => false | _ => true end = true <->
                    exists g, In g (week_games db w) /\ has_pick db (u_id user) g = false).
      { pose proof (filter_nonempty_iff (fun g => negb (has_pick db (u_id user) g))
                      (week_games db w)) as Hf.
        split.
        - intros Hm. destruct Hf as [Hf _].
          destruct Hf as (g & Hgin & Hn).
          + destruct (List.filter _ (week_games db w)); [discriminate|simpl; lia].
          + exists g. split; auto. by apply negb_true_iff.
        - intros (g & Hgin & Hn). destruct Hf as [_ Hf].
          assert (Hlen : (0 < length (List.filter
                                        (fun g => negb (has_pick db (u_id user) g))
                                        (week_games db w)))%nat).
          { apply Hf. exists g. split; auto. by apply negb_true_iff. }
          destruct (List.filter _ (week_games db w)); [simpl in Hlen; lia|reflexivity]. }
      by rewrite Hne.
  - simpl in Hp. by injection Hp as -> -> -> ->.
Qed.

(** Ann has picked one of the two games of week 1, which opens at 1000. *)
Lemma X10_witness :
  exists ctx,
    dashboard Fixture.db_open 500 501 (Some (Fixture.user 1 "Ann" "A")) (Some 1) = Render ctx /\
    dc_selected_week ctx = Some Fixture.wk1 /\
    dc_total_games ctx = 2 /\ dc_picks_made ctx = 1 /\ dc_missing ctx = 1 /\
    dc_needs_picks ctx = true.
Proof.
  assert (Hg : NoDup (map g_id (games Fixture.db_open))).
  { apply (bool_decide_unpack _). vm_compute. exact I. }
  eexists. split; [reflexivity|].
  pose proof (X10_pick_progress Fixture.db_open 500 501 (Fixture.user 1 "Ann" "A") (Some 1)
                _ Hg eq_refl (or_introl eq_refl)) as H.
  split; [reflexivity|].
  cbn [dc_selected_week] in H. cbv zeta in H.
  destruct H as (H1 & H2 & H3 & _ & H5).
  split; [exact H1|]. split; [exact H2|]. split; [exact H3|].
  apply H5. split; [|reflexivity].
  exists (Fixture.game 2 200 IN_PROGRESS 3 0). split; [simpl; auto|reflexivity].
Defined.

(** ** The live board *)

Lemma group_step_spec live_map a b c g :
  group_step live_map (a, b, c) g
  = (a ++ (if shown_live live_map g then [g] else []),
     b ++ (if shown_upcoming live_map g then [g] else []),
     c ++ (if shown_final live_map g then [g] else [])).
Proof.
  unfold group_step, shown_live, shown_upcoming, shown_final.
  destruct (status_eqb (g_status g) FINAL || _)%bool; simpl.
  - by rewrite !app_nil_r.
  - destruct (match live_of live_map g with Some l => is_live l | None => false end);
      simpl; by rewrite !app_nil_r.
Qed.

Lemma group_fold_spec live_map gs : forall a b c,
  fold_left (group_step live_map) gs (a, b, c)
  = (a ++ List.filter (shown_live live_map) gs,
     b ++ List.filter (shown_upcoming live_map) gs,
     c ++ List.filter (shown_final live_map) gs).
Proof.
  induction gs as [|g gs IH]; intros a b c; cbn [fold_left List.filter].
  - by rewrite !app_nil_r.
  - rewrite group_step_spec, IH.
    destruct (shown_live live_map g), (shown_upcoming live_map g), (shown_final live_map g);
      by rewrite <- ?app_assoc.
Qed.

Lemma group_games_spec live_map gs :
  group_games live_map gs
  = (List.filter (shown_live live_map) gs, List.filter (shown_upcoming live_map) gs,
     List.filter (shown_final live_map) gs).
Proof. unfold group_games. by rewrite group_fold_spec. Qed.

Lemma sections_partition live_map gs :
  Permutation (List.filter (shown_live live_map) gs
               ++ List.filter (shown_upcoming live_map) gs
               ++ List.filter (shown_final live_map) gs) gs.
Proof.
  induction gs as [|g gs IH]; simpl; auto.
  unfold shown_live at 1, shown_upcoming at 1.
  destruct (shown_final live_map g) eqn:Ef; simpl.
  - apply Permutation_sym. rewrite app_assoc. apply Permutation_cons_app.
    rewrite <- app_assoc. by apply Permutation_sym.
  - destruct (match live_of live_map g with Some l => is_live l | None => false end); simpl.
    + by apply perm_skip.
    + apply Permutation_sym. apply Permutation_cons_app. by apply Permutation_sym.
Qed.

Lemma status_eqb_eq a b : status_eqb a b = true <-> a = b.
Proof. destruct a, b; simpl; split; congruence. Qed.

Lemma shown_final_iff live_map g :
  shown_final live_map g = true <->
  g_status g = FINAL \/
  exists lg, live_of live_map g = Some lg /\ lg_state lg = "post"%string.
Proof.
  unfold shown_final, is_final. rewrite orb_true_iff, status_eqb_eq. split.
  - intros [H|H]; auto. destruct (live_of live_map g) as [l|]; [|discriminate].
    right. exists l. split; auto. by apply String.eqb_eq.
  - intros [H|(l & -> & H)]; auto. right. by apply String.eqb_eq.
Qed.

Lemma shown_live_iff live_map g :
  shown_live live_map g = true <->
  g_status g <> FINAL /\
  exists lg, live_of live_map g = Some lg /\ lg_state lg = "in"%string.
Proof.
  unfold shown_live, is_live. rewrite andb_true_iff, negb_true_iff. split.
  - intros [Hf H]. destruct (live_of live_map g) as [l|] eqn:El; [|discriminate].
    apply String.eqb_eq in H. split.
    + intros Hs. assert (shown_final live_map g = true); [|congruence].
      apply shown_final_iff. auto.
    + eauto.
  - intros [Hs (l & El & H)]. split.
    + destruct (shown_final live_map g) eqn:Ef; auto.
      apply shown_final_iff in Ef as [Ef|(l' & El' & H')]; [done|].
      rewrite El in El'. injection El' as <-. rewrite H in H'. discriminate.
    + rewrite El. by apply String.eqb_eq.
Qed.

Lemma dashboard_live_sections ttl nttl remote set_iter db now user week demo s ctx s' :
  dashboard_live ttl nttl remote set_iter db now (Some user) week demo s = (Render ctx, s') ->
  lc_games ctx
  = games_by_start db (selected_week db week (Dashboard._get_current_week db now)) /\
  lc_selected_week ctx = selected_week db week (Dashboard._get_current_week db now) /\
  (lc_live_games ctx, lc_upcoming_games ctx, lc_final_games ctx)
  = group_games (lc_live_map ctx) (lc_games ctx) /\
  lc_refresh_interval ctx = match lc_live_games ctx with [] => 60 | _ => 15 end.
Proof.
  unfold dashboard_live. destruct (u_must_change_password user); [discriminate|].
  destruct (match live_event_ids _ with [] => _ | _ => _ end) as [live_map s1].
  destruct (group_games live_map _) as [[lg ug] fg] eqn:Eg.
  destruct (if match demo with Some d => negb (d =? 0) | None => false end then _ else _)
    as [[[t dh] da] dl].
  intros [= <- <-].
  cbn [lc_games lc_selected_week lc_live_games lc_upcoming_games lc_final_games
       lc_live_map lc_refresh_interval].
  by rewrite Eg.
Qed.

(** X11. The live board puts every game of the selected week in exactly
    one of its three sections.  A game is under Final when it is stored as
    Final or the provider reports it over, whatever else the provider
    says; it is under Live when it is not stored as Final and the provider
    reports it in play; the page refreshes every 15 seconds while some
    game is under Live and every 60 seconds otherwise. *)
Theorem X11_live_board_sections (ttl nttl : Z) (remote : Remote)
    (set_iter : list string -> list string) (db : DB) (now : Z) (user : User)
    (week demo : option Z) (s s' : Live) (ctx : LiveCtx) :
  dashboard_live ttl nttl remote set_iter db now (Some user) week demo s = (Render ctx, s') ->
  Permutation (lc_live_games ctx ++ lc_upcoming_games ctx ++ lc_final_games ctx)
              (lc_games ctx) /\
  (forall g, In g (lc_final_games ctx) <->
     In g (lc_games ctx) /\
     (g_status g = FINAL \/
      exists lg, live_of (lc_live_map ctx) g = Some lg /\ lg_state lg = "post"%string)) /\
  (forall g, In g (lc_live_games ctx) <->
     In g (lc_games ctx) /\ g_status g <> FINAL /\
     exists lg, live_of (lc_live_map ctx) g = Some lg /\ lg_state lg = "in"%string) /\
  (forall g, In g (lc_upcoming_games ctx) <->
     In g (lc_games ctx) /\ ~ In g (lc_live_games ctx) /\ ~ In g (lc_final_games ctx)) /\
  lc_refresh_interval ctx = (if bool_decide (lc_live_games ctx = []) then 60 else 15).
Proof.
  intros H. apply dashboard_live_sections in H as (_ & _ & Hg & Hr).
  rewrite group_games_spec in Hg. injection Hg as Hl Hu Hf.
  assert (Hi : lc_refresh_interval ctx
               = if bool_decide (lc_live_games ctx = []) then 60 else 15).
  { rewrite Hr. by destruct (lc_live_games ctx). }
  rewrite Hl in Hi. rewrite Hl, Hu, Hf. clear Hl Hu Hf Hr.
  set (m := lc_live_map ctx) in *. set (gs := lc_games ctx) in *.
  split; [apply sections_partition|].
  split; [|split; [|split; [|exact Hi]]].
  - intros g. by rewrite filter_In, shown_final_iff.
  - intros g. by rewrite filter_In, shown_live_iff.
  - intros g. rewrite !filter_In. unfold shown_upcoming, shown_live.
    destruct (shown_final m g); simpl; [intuition discriminate|].
    destruct (match live_of m g with Some l => is_live l | None => false end); simpl;
      intuition discriminate.
Qed.

(** Event 401 is in play in the cache: game 2 is under Live, game 1,
    stored as Final, under Final, and the page refreshes every 15 seconds. *)
Lemma X11_witness :
  exists ctx s',
    dashboard_live 15 600 Fixture.remote1 remove_dups db_live 500
      (Some (Fixture.user 1 "Ann" "A")) (Some 1) None Fixture.live0 = (Render ctx, s') /\
    In (mkGame 2 1 1 20 21 (utc 200) SCHEDULED 0 0 (Some "401"%string)) (lc_live_games ctx) /\
    In (mkGame 1 1 1 10 11 (utc 100) FINAL 21 14 (Some "400"%string)) (lc_final_games ctx) /\
    lc_refresh_interval ctx = 15.
Proof.
  destruct (dashboard_live 15 600 Fixture.remote1 remove_dups db_live 500
              (Some (Fixture.user 1 "Ann" "A")) (Some 1) None Fixture.live0)
    as [[| |ctx] s'] eqn:E; try (vm_compute in E; discriminate E).
  exists ctx, s'. split; [reflexivity|].
  destruct (X11_live_board_sections _ _ _ _ _ _ _ _ _ _ _ _ E) as (_ & Hf & Hl & _ & Hr).
  assert (Hgames : lc_games ctx
                   = [mkGame 1 1 1 10 11 (utc 100) FINAL 21 14 (Some "400"%string);
                      mkGame 2 1 1 20 21 (utc 200) SCHEDULED 0 0 (Some "401"%string)]).
  { apply dashboard_live_sections in E as (-> & _). reflexivity. }
  assert (Hmap : lc_live_map ctx !! "401"%string = Some Fixture.lg401).
  { vm_compute in E. injection E as <- _. reflexivity. }
  assert (Hlive : In (mkGame 2 1 1 20 21 (utc 200) SCHEDULED 0 0 (Some "401"%string))
                     (lc_live_games ctx)).
  { apply Hl. rewrite Hgames. split; [simpl; auto|]. split; [discriminate|].
    exists Fixture.lg401. split; [exact Hmap|reflexivity]. }
  split; [exact Hlive|]. split.
  - apply Hf. rewrite Hgames. split; [simpl; auto|]. left. reflexivity.
  - rewrite Hr. destruct (lc_live_games ctx); [destruct Hlive|reflexivity].
Defined.

Lemma live_event_ids_In games e :
  In e (live_event_ids games) <->
  exists g, In g games /\ g_provider_game_id g = Some e /\ e <> EmptyString /\
            g_status g <> FINAL.
Proof.
  unfold live_event_ids. rewrite in_flat_map. split.
  - intros (g & Hg & He). exists g. split; auto.
    destruct (g_provider_game_id g) as [e'|]; [|destruct He].
    destruct (str_truthy e' && negb (status_eqb (g_status g) FINAL))%bool eqn:Et;
      [|destruct He].
    destruct He as [->|[]]. apply andb_true_iff in Et as [Et Es].
    split; auto. split.
    + intros ->. discriminate.
    + intros Hs. rewrite Hs in Es. discriminate.
  - intros (g & Hg & Hp & He & Hs). exists g. split; auto. rewrite Hp.
    assert (Et : str_truthy e = true) by (by destruct e).
    assert (Ef : status_eqb (g_status g) FINAL = false) by (by destruct (g_status g)).
    rewrite Et, Ef. simpl. auto.
Qed.

Lemma games_by_start_In db sel g :
  In g (games_by_start db sel) <->
  exists w, sel = Some w /\ In g (games db) /\ g_week_id g = w_id w.
Proof.
  unfold games_by_start. destruct sel as [w|].
  - rewrite py_sort_In. unfold week_games. rewrite filter_In, Z.eqb_eq. split.
    + intros [? ?]. eauto.
    + intros (w' & [= <-] & ? & ?). auto.
  - split; [intros []|]. intros (w & [=] & _).
Qed.

Section Requests.

Variables (ttl nttl : Z) (remote : Remote) (set_iter : list string -> list string).
Hypothesis set_iter_In : forall l x, In x (set_iter l) <-> In x l.
Hypothesis set_iter_NoDup : forall l, NoDup (set_iter l).

(** What an unforced [bulk_fetch_live_events] sends: ids it was given,
    none empty, none twice. *)
Lemma bulk_fetch_sent event_ids s :
  exists sent,
    outbound (snd (bulk_fetch_live_events ttl nttl remote set_iter event_ids false s))
    = outbound s ++ sent /\
    NoDup sent /\
    forall e, In e sent -> In e event_ids /\ e <> EmptyString.
Proof.
  rewrite bulk_unfold. cbv zeta.
  rewrite fetch_fold_outbound.
  eexists. split; [reflexivity|]. split.
  - apply NoDup_ListNoDup, List.NoDup_filter, NoDup_ListNoDup, set_iter_NoDup.
  - intros e [He _]%filter_In. apply (proj1 (set_iter_In _ _)) in He.
    apply filter_In in He as [He Ht]. split; auto. intros ->. discriminate.
Qed.

End Requests.

(** X12. Rendering the live board sends the provider at most one request
    per event, and only for games of the selected week that have a
    provider id and are not stored as Final; a redirect sends none.
    (Python's iteration over a set yields each of its elements once.) *)
Theorem X12_live_board_requests (ttl nttl : Z) (remote : Remote)
    (set_iter : list string -> list string) (db : DB) (now : Z)
    (current_user : option User) (week demo : option Z) (s : Live) :
  (forall l x, In x (set_iter l) <-> In x l) ->
  (forall l, NoDup (set_iter l)) ->
  let r := dashboard_live ttl nttl remote set_iter db now current_user week demo s in
  exists sent,
    outbound (snd r) = outbound s ++ sent /\
    NoDup sent /\
    forall e, In e sent ->
      e <> EmptyString /\
      exists ctx w g,
        fst r = Render ctx /\ lc_selected_week ctx = Some w /\
        In g (games db) /\ g_week_id g = w_id w /\
        g_provider_game_id g = Some e /\ g_status g <> FINAL.
Proof.
  intros Hin Hnd r. subst r. unfold dashboard_live.
  assert (Hnone : exists sent : list string,
             outbound s = outbound s ++ sent /\ NoDup sent /\
             forall e, In e sent -> False).
  { exists []. rewrite app_nil_r. split; auto. split; [constructor|]. intros e []. }
  destruct current_user as [user|].
  2:{ destruct Hnone as (sent & H1 & H2 & H3). exists sent. cbn [fst snd].
      split; auto. split; auto. intros e He. destruct (H3 e He). }
  destruct (u_must_change_password user).
  { destruct Hnone as (sent & H1 & H2 & H3). exists sent. cbn [fst snd].
    split; auto. split; auto. intros e He. destruct (H3 e He). }
  set (sel := selected_week db week (Dashboard._get_current_week db now)).
  set (gs := games_by_start db sel).
  destruct (bulk_fetch_sent ttl nttl remote set_iter Hin Hnd (live_event_ids gs) s)
    as (sent & Hout & Hsent & Hids).
  assert (Hstate : exists sent,
    outbound (snd (match live_event_ids gs with
                   | [] => (∅, s)
                   | _ => bulk_fetch_live_events ttl nttl remote set_iter
                            (live_event_ids gs) false s
                   end)) = outbound s ++ sent /\ NoDup sent /\
    forall e, In e sent -> In e (live_event_ids gs) /\ e <> EmptyString).
  { destruct (live_event_ids gs) as [|e0 ids] eqn:Eids.
    - destruct Hnone as (sent0 & H1 & H2 & H3). exists sent0. cbn [snd].
      split; auto. split; auto. intros e He. destruct (H3 e He).
    - exists sent. auto. }
  clear sent Hout Hsent Hids.
  destruct Hstate as (sent & Hout & Hsent & Hids).
  destruct (match live_event_ids gs with [] => _ | _ => _ end) as [live_map s1].
  destruct (group_games live_map gs) as [[lg ug] fg].
  destruct (if match demo with Some d => negb (d =? 0) | None => false end then _ else _)
    as [[[t dh] da] dl].
  cbn [fst snd] in *. exists sent. split; auto. split; auto.
  intros e He. destruct (Hids e He) as [Hev Hne]. split; auto.
  apply live_event_ids_In in Hev as (g & Hg & Hp & _ & Hs).
  apply games_by_start_In in Hg as (w & Hw & Hgin & Hgw).
  eexists _, w, g. split; [reflexivity|]. cbn [lc_selected_week]. auto.
Qed.

(** With an empty cache the board asks for event 401 and not for event
    400, whose game is stored as Final. *)
Lemma X12_witness :
  outbound (snd (dashboard_live 15 600 Fixture.remote1 remove_dups db_live 500
                   (Some (Fixture.user 1 "Ann" "A")) (Some 1) None (mkLive ∅ ∅ 110 [])))
  = ["401"%string].
Proof.
  assert (Hin : forall (l : list string) x, In x (remove_dups l) <-> In x l).
  { intros l x. rewrite <- !list_elem_of_In. apply elem_of_remove_dups. }
  assert (Hnd : forall l : list string, NoDup (remove_dups l)).
  { intros l. apply NoDup_remove_dups. }
  destruct (X12_live_board_requests 15 600 Fixture.remote1 remove_dups db_live 500
              (Some (Fixture.user 1 "Ann" "A")) (Some 1) None (mkLive ∅ ∅ 110 []) Hin Hnd)
    as (sent & Hout & _ & _).
  rewrite Hout. vm_compute in Hout. rewrite <- Hout. reflexivity.
Defined.

(** ** Who picked who *)

Lemma sample_firstn (l : list string) (n : string) :
  sample (firstn 6 l) n = firstn 6 (l ++ [n]).
Proof.
  unfold sample. destruct (Z.of_nat (length (firstn 6 l)) <? 6) eqn:E.
  - apply Z.ltb_lt in E. rewrite length_firstn in E.
    assert (Hl : (length l < 6)%nat) by lia.
    rewrite (firstn_all2 (n := 6) l) by lia.
    rewrite firstn_all2; [reflexivity|]. rewrite length_app. simpl. lia.
  - apply Z.ltb_ge in E. rewrite length_firstn in E.
    assert (Hl : (6 <= length l)%nat) by lia.
    rewrite firstn_app. replace (6 - length l)%nat with O by lia.
    simpl. by rewrite app_nil_r.
Qed.

Lemma find_game_by_id (gs : list Game) (g : Game) :
  NoDup (map g_id gs) -> In g gs -> List.find (fun x => g_id x =? g_id g) gs = Some g.
Proof.
  intros Hnd Hin.
  destruct (find_exists (fun x => g_id x =? g_id g) gs g Hin (Z.eqb_refl _))
    as (y & Hf & Hy & E).
  rewrite Hf. f_equal. apply (NoDup_map_eq g_id gs); auto. by apply Z.eqb_eq.
Qed.

Lemma summary_of_other nbi g ps p :
  p_game_id p <> g_id g -> summary_of nbi g (ps ++ [p]) = summary_of nbi g ps.
Proof.
  intros Hne. unfold summary_of. rewrite !List.filter_app. cbn [List.filter].
  assert (E : (p_game_id p =? g_id g) = false) by (by apply Z.eqb_neq).
  assert (Hh : on_home g p = false) by (unfold on_home; by rewrite E).
  assert (Ha : on_away g p = false) by (unfold on_away; by rewrite E).
  rewrite Hh, Ha. by rewrite !app_nil_r.
Qed.

Lemma summary_of_snoc nbi g ps p :
  p_game_id p = g_id g ->
  summary_of nbi g (ps ++ [p]) =
  let e := summary_of nbi g ps in
  let name := name_of nbi (p_user_id p) in
  if p_chosen_team_id p =? g_home_team_id g then
    mkGameSummary (home_count e + 1) (away_count e) (sample (home_names e) name)
      (away_names e) (home_all e ++ [name]) (away_all e)
  else if p_chosen_team_id p =? g_away_team_id g then
    mkGameSummary (home_count e) (away_count e + 1) (home_names e)
      (sample (away_names e) name) (home_all e) (away_all e ++ [name])
  else e.
Proof.
  intros E. cbv zeta.
  assert (Hh : on_home g p = (p_chosen_team_id p =? g_home_team_id g)).
  { unfold on_home. by rewrite E, Z.eqb_refl. }
  assert (Ha : on_away g p = (negb (p_chosen_team_id p =? g_home_team_id g)
                              && (p_chosen_team_id p =? g_away_team_id g))%bool).
  { unfold on_away. by rewrite E, Z.eqb_refl. }
  unfold summary_of. cbn [home_count away_count home_names away_names home_all away_all].
  rewrite !List.filter_app. cbn [List.filter]. rewrite Hh, Ha.
  destruct (p_chosen_team_id p =? g_home_team_id g); cbn [negb andb].
  - rewrite !app_nil_r, !length_app, !map_app, sample_firstn. cbn [length map]. f_equal. lia.
  - destruct (p_chosen_team_id p =? g_away_team_id g).
    + rewrite !app_nil_r, !length_app, !map_app, sample_firstn. cbn [length map].
      f_equal. lia.
    + by rewrite !app_nil_r.
Qed.

Lemma summary_step_inv games nbi d ps p :
  NoDup (map g_id games) ->
  (forall g, In g games -> dict_get d (g_id g) = Some (summary_of nbi g ps)) ->
  forall g, In g games ->
    dict_get (summary_step games nbi d p) (g_id g) = Some (summary_of nbi g (ps ++ [p])).
Proof.
  intros Hnd Hinv g Hg. unfold summary_step.
  destruct (Z.eq_dec (p_game_id p) (g_id g)) as [E|E].
  - rewrite (summary_of_snoc nbi g ps p E). cbv zeta.
    rewrite E, (Hinv g Hg), (find_game_by_id games g Hnd Hg).
    destruct (p_chosen_team_id p =? g_home_team_id g).
    + by rewrite dict_get_set_eq.
    + destruct (p_chosen_team_id p =? g_away_team_id g).
      * by rewrite dict_get_set_eq.
      * by apply Hinv.
  - rewrite (summary_of_other nbi g ps p E).
    destruct (dict_get d (p_game_id p)) as [gmap|]; [|by apply Hinv].
    destruct (List.find _ games) as [x|]; [|by apply Hinv].
    destruct (p_chosen_team_id p =? g_home_team_id x).
    + rewrite dict_get_set_ne by done. by apply Hinv.
    + destruct (p_chosen_team_id p =? g_away_team_id x).
      * rewrite dict_get_set_ne by done. by apply Hinv.
      * by apply Hinv.
Qed.

Lemma summary_fold_inv games nbi ps : forall d done,
  NoDup (map g_id games) ->
  (forall g, In g games -> dict_get d (g_id g) = Some (summary_of nbi g done)) ->
  forall g, In g games ->
    dict_get (fold_left (summary_step games nbi) ps d) (g_id g)
    = Some (summary_of nbi g (done ++ ps)).
Proof.
  induction ps as [|p ps IH]; intros d done Hnd Hinv g Hg; cbn [fold_left].
  - rewrite app_nil_r. by apply Hinv.
  - replace (done ++ p :: ps) with ((done ++ [p]) ++ ps) by (by rewrite <- app_assoc).
    apply IH; auto. intros g' Hg'. by apply summary_step_inv.
Qed.

Lemma find_user_by_id (us : list User) (u : User) :
  NoDup (map u_id us) -> In u us -> List.find (fun x => u_id x =? u_id u) us = Some u.
Proof.
  intros Hnd Hin.
  destruct (find_exists (fun x => u_id x =? u_id u) us u Hin (Z.eqb_refl _))
    as (y & Hf & Hy & E).
  rewrite Hf. f_equal. apply (NoDup_map_eq u_id us); auto. by apply Z.eqb_eq.
Qed.

(** The name looked up in [name_by_id] is the name of the user's row. *)
Lemma name_of_shown db uids uid :
  NoDup (map u_id (users db)) -> In uid uids ->
  name_of (name_by_id (users_in db uids)) uid = shown_name db uid.
Proof.
  intros Hnd Hin. unfold name_of, shown_name, name_by_id.
  destruct (List.find (fun u => u_id u =? uid) (users db)) as [u|] eqn:Ef.
  - apply find_some in Ef as [Hu E%Z.eqb_eq]. subst uid.
    rewrite (fold_dict_get_last u_id (fun u => str_or (display_name u) (u_username u))
               (users_in db uids) [] u); auto.
    + unfold users_in. by apply NoDup_map_filter.
    + unfold users_in. apply filter_In. split; auto. by apply in_Z_In.
  - destruct (dict_get _ uid) as [n|] eqn:Eg; [|reflexivity].
    apply fold_dict_get in Eg as [Eg|(u & Hu & Hk & _)]; [discriminate|].
    unfold users_in in Hu. apply filter_In in Hu as [Hu _].
    pose proof (find_none _ _ Ef u Hu) as Hno. simpl in Hno.
    apply Z.eqb_neq in Hno. congruence.
Qed.

Lemma picks_summary_get db games g :
  NoDup (map g_id games) -> In g games ->
  dict_get (picks_summary db games) (g_id g)
  = Some (summary_of (name_by_id (users_in db (map p_user_id (picks_on db (map g_id games)))))
            g (picks_on db (map g_id games))).
Proof.
  intros Hnd Hg. unfold picks_summary.
  assert (E : forall (X : Type) (a : X) (b : list Z -> X),
            match map g_id games with [] => a | i :: ids => b (i :: ids) end
            = b (map g_id games)).
  { intros X a b. destruct games; [destruct Hg|reflexivity]. }
  rewrite (E _ [] (fun game_ids =>
             fold_left (summary_step games (name_by_id (users_in db
                          (map p_user_id (picks_on db game_ids)))))
               (picks_on db game_ids)
               (fold_left (fun d g => dict_set d (g_id g) (mkGameSummary 0 0 [] [] [] []))
                  games []))).
  apply (summary_fold_inv games _ (picks_on db (map g_id games)) _ [] Hnd); [|exact Hg].
  intros g' Hg'.
  by rewrite (fold_dict_get_last g_id (fun _ => mkGameSummary 0 0 [] [] [] []) games [] g').
Qed.

Lemma side_filter_picks_on db games g (f : Pick -> bool) :
  In g games -> (forall p, f p = true -> p_game_id p = g_id g) ->
  List.filter f (picks_on db (map g_id games)) = List.filter f (picks db).
Proof.
  intros Hg Hf. unfold picks_on. rewrite filter_filter'. apply filter_ext_in'.
  intros p _. destruct (f p) eqn:E; [|by rewrite andb_false_r].
  rewrite andb_true_r. apply in_Z_In. rewrite (Hf p E). by apply in_map.
Qed.

Lemma map_ext_in' {A B} (f g : A -> B) (l : list A) :
  (forall x, In x l -> f x = g x) -> map f l = map g l.
Proof.
  induction l as [|x l IH]; simpl; auto. intros H.
  rewrite (H x) by auto. rewrite IH by auto. reflexivity.
Qed.

Lemma games_by_start_NoDup db sel :
  NoDup (map g_id (games db)) -> NoDup (map g_id (games_by_start db sel)).
Proof.
  intros H. unfold games_by_start. destruct sel as [w|]; [|constructor].
  apply py_sort_NoDup_map. by apply week_games_NoDup.
Qed.

Lemma dashboard_live_summary ttl nttl remote set_iter db now user week demo s ctx s' :
  dashboard_live ttl nttl remote set_iter db now (Some user) week demo s = (Render ctx, s') ->
  lc_picks_summary ctx = picks_summary db (lc_games ctx) /\
  lc_user_picks ctx = picks_by_game db (u_id user) (map g_id (lc_games ctx)).
Proof.
  unfold dashboard_live. destruct (u_must_change_password user); [discriminate|].
  destruct (match live_event_ids _ with [] => _ | _ => _ end) as [live_map s1].
  destruct (group_games live_map _) as [[lg ug] fg] eqn:Eg.
  destruct (if match demo with Some d => negb (d =? 0) | None => false end then _ else _)
    as [[[t dh] da] dl].
  by intros [= <- <-].
Qed.

(** X13. On the live board, with game and user ids unique, every game
    shown has an entry saying who picked whom: the home list names, in the
    order of the picks table, the users whose pick on the game is its home
    team, the away list those whose pick is its away team; the counts are
    the lengths of the lists and the sample names are their first six. *)
Theorem X13_who_picked_who (ttl nttl : Z) (remote : Remote)
    (set_iter : list string -> list string) (db : DB) (now : Z) (user : User)
    (week demo : option Z) (s s' : Live) (ctx : LiveCtx) (g : Game) :
  NoDup (map g_id (games db)) -> NoDup (map u_id (users db)) ->
  dashboard_live ttl nttl remote set_iter db now (Some user) week demo s = (Render ctx, s') ->
  In g (lc_games ctx) ->
  exists e,
    dict_get (lc_picks_summary ctx) (g_id g) = Some e /\
    let names f := map (fun p => shown_name db (p_user_id p)) (List.filter f (picks db)) in
    home_all e = names (on_home g) /\ away_all e = names (on_away g) /\
    home_count e = Z.of_nat (length (home_all e)) /\
    away_count e = Z.of_nat (length (away_all e)) /\
    home_names e = firstn 6 (home_all e) /\ away_names e = firstn 6 (away_all e).
Proof.
  intros Hg Hu Hpage Hin.
  pose proof (dashboard_live_summary _ _ _ _ _ _ _ _ _ _ _ _ Hpage) as [Hsum _].
  pose proof (dashboard_live_sections _ _ _ _ _ _ _ _ _ _ _ _ Hpage) as (Hgames & _).
  assert (Hnd : NoDup (map g_id (lc_games ctx))).
  { rewrite Hgames. by apply games_by_start_NoDup. }
  rewrite Hsum, (picks_summary_get db (lc_games ctx) g Hnd Hin).
  eexists. split; [reflexivity|]. cbv zeta.
  set (all_picks := picks_on db (map g_id (lc_games ctx))).
  assert (Hnames : forall f, (forall p, f p = true -> p_game_id p = g_id g) ->
    map (fun p => name_of (name_by_id (users_in db (map p_user_id all_picks))) (p_user_id p))
        (List.filter f all_picks)
    = map (fun p => shown_name db (p_user_id p)) (List.filter f (picks db))).
  { intros f Hf.
    rewrite <- (side_filter_picks_on db (lc_games ctx) g f Hin Hf).
    apply map_ext_in'. intros p [Hp _]%filter_In.
    apply name_of_shown; auto. by apply in_map. }
  assert (Hh : forall p, on_home g p = true -> p_game_id p = g_id g).
  { intros p [E _]%andb_true_iff. by apply Z.eqb_eq. }
  assert (Ha : forall p, on_away g p = true -> p_game_id p = g_id g).
  { intros p [[E _]%andb_true_iff _]%andb_true_iff. by apply Z.eqb_eq. }
  unfold summary_of. cbn [home_count away_count home_names away_names home_all away_all].
  rewrite !length_map, (Hnames _ Hh), (Hnames _ Ha).
  repeat (split; [reflexivity|]). reflexivity.
Qed.

(** Ann and Bob picked game 1 of week 1: Ann, with team 10, the home
    side, Bob the away side. *)
Lemma X13_witness :
  exists ctx s' e,
    dashboard_live 15 600 Fixture.remote1 remove_dups db_live 500
      (Some (Fixture.user 1 "Ann" "A")) (Some 1) None Fixture.live0 = (Render ctx, s') /\
    dict_get (lc_picks_summary ctx) 1 = Some e /\
    home_all e = ["Ann A"%string] /\ away_all e = ["Bob B"%string] /\
    home_count e = 1 /\ away_count e = 1.
Proof.
  assert (Hg : NoDup (map g_id (games db_live))).
  { apply (bool_decide_unpack _). vm_compute. exact I. }
  assert (Hu : NoDup (map u_id (users db_live))).
  { apply (bool_decide_unpack _). vm_compute. exact I. }
  destruct (dashboard_live 15 600 Fixture.remote1 remove_dups db_live 500
              (Some (Fixture.user 1 "Ann" "A")) (Some 1) None Fixture.live0)
    as [[| |ctx] s'] eqn:E; try (vm_compute in E; discriminate E).
  assert (Hin : In (mkGame 1 1 1 10 11 (utc 100) FINAL 21 14 (Some "400"%string))
                   (lc_games ctx)).
  { apply dashboard_live_sections in E as (-> & _). simpl. auto. }
  destruct (X13_who_picked_who _ _ _ _ _ _ _ _ _ _ _ _ _ Hg Hu E Hin)
    as (e & He & H1 & H2 & H3 & H4 & _).
  exists ctx, s', e. split; [reflexivity|]. split; [exact He|].
  rewrite H3, H4, H1, H2. repeat split; reflexivity.
Defined.

(** ** The live scoreboard job *)

Lemma in_window_iff now g :
  in_window now g = true <->
  (exists e, g_provider_game_id g = Some e) /\
  now - hours 6 <= dt_ticks (g_start_time g) <= now + hours 10 /\
  g_status g <> FINAL.
Proof.
  unfold in_window. rewrite !andb_true_iff, !Z.leb_le, negb_true_iff. split.
  - intros [[[Hp H1] H2] Hs]. split; [|split; [lia|]].
    + destruct (g_provider_game_id g) as [e|]; [eauto|discriminate].
    + intros E. rewrite E in Hs. discriminate.
  - intros [[e He] [[H1 H2] Hs]]. rewrite He. repeat split; auto.
    by destruct (g_status g).
Qed.

Lemma Forall2_map_r {A} (P : A -> A -> Prop) (f : A -> A) (l : list A) :
  (forall x, In x l -> P x (f x)) -> Forall2 P l (map f l).
Proof.
  induction l as [|x l IH]; simpl; intros H; constructor; auto.
Qed.

Lemma job_event_ids_In now db e :
  In e (flat_map (fun g => match g_provider_game_id g with
                           | Some e => if str_truthy e then [e] else []
                           | None => []
                           end) (List.filter (in_window now) (games db))) <->
  e <> EmptyString /\
  exists g, In g (games db) /\ in_window now g = true /\ g_provider_game_id g = Some e.
Proof.
  rewrite in_flat_map. split.
  - intros (g & [Hg Hw]%filter_In & He).
    destruct (g_provider_game_id g) as [e'|] eqn:Ep; [|destruct He].
    destruct (str_truthy e') eqn:Et; [|destruct He]. destruct He as [->|[]].
    split; [intros ->; discriminate|]. eauto.
  - intros (Hne & g & Hg & Hw & Hp). exists g. split; [by apply filter_In|].
    rewrite Hp. assert (Et : str_truthy e = true) by (by destruct e).
    rewrite Et. simpl. auto.
Qed.

Section Job.

Variables (ttl nttl : Z) (remote : Remote) (set_iter : list string -> list string).
Hypothesis set_iter_In : forall l x, In x (set_iter l) <-> In x l.

(** What an unforced fetch returns for an id the provider has a summary
    of, when neither cache knows the id. *)
Lemma bulk_fetch_cold event_ids s e lg :
  In e event_ids -> e <> EmptyString ->
  _CACHE s !! e = None -> _NEG_CACHE s !! e = None ->
  reply remote e = Summary (Some lg) ->
  fst (bulk_fetch_live_events ttl nttl remote set_iter event_ids false s) !! e = Some lg.
Proof.
  intros Hin Hne Hc Hn Hr. rewrite bulk_unfold. cbv zeta.
  apply (fetch_fold_success nttl remote (clock s) e lg); auto.
  left. apply filter_In. split; [by apply requested_In|].
  unfold needs_fetch, neg_live, fresh. by rewrite Hc, Hn.
Qed.

End Job.

(** X14. The live scoreboard job changes nothing but the status and the
    scores of games: every other table and every other column is left as
    it was, and the games keep their places.  It leaves alone every game
    that is stored as Final, has no provider id or starts more than six
    hours before or ten hours after the run; it asks the provider only for
    games it may change, once each; and when the caches are empty, a game
    it may change whose event the provider reports takes the status and
    the scores of the report. *)
Theorem X14_live_scoreboard_job (ttl nttl : Z) (remote : Remote)
    (set_iter : list string -> list string) (db : DB) (now : Z) (s : Live) :
  (forall l x, In x (set_iter l) <-> In x l) ->
  (forall l, NoDup (set_iter l)) ->
  let r := run_live_scoreboard ttl nttl remote set_iter db now s in
  let may_change g :=
    (exists e, g_provider_game_id g = Some e) /\
    now - hours 6 <= dt_ticks (g_start_time g) <= now + hours 10 /\
    g_status g <> FINAL in
  let updated lg g :=
    mkGame (g_id g) (g_season_id g) (g_week_id g) (g_home_team_id g) (g_away_team_id g)
           (g_start_time g) (status_of_state (lg_state lg))
           (default (g_home_score g) (lg_home_score lg))
           (default (g_away_score g) (lg_away_score lg)) (g_provider_game_id g) in
  (seasons (fst r) = seasons db /\ weeks (fst r) = weeks db /\ teams (fst r) = teams db /\
   picks (fst r) = picks db /\ tiebreakers (fst r) = tiebreakers db /\
   users (fst r) = users db) /\
  Forall2 (fun g g' => g' = g \/ (may_change g /\ exists lg, g' = updated lg g))
          (games db) (games (fst r)) /\
  (exists sent,
     outbound (snd r) = outbound s ++ sent /\ NoDup sent /\
     forall e, In e sent ->
       e <> EmptyString /\
       exists g, In g (games db) /\ may_change g /\ g_provider_game_id g = Some e) /\
  (_CACHE s = ∅ -> _NEG_CACHE s = ∅ ->
   forall g e lg,
     In g (games db) -> may_change g -> g_provider_game_id g = Some e -> e <> EmptyString ->
     reply remote e = Summary (Some lg) ->
     In (updated lg g) (games (fst r))).
Proof.
  intros Hin Hnd r may_change updated. subst r.
  assert (Hmay : forall g, in_window now g = true <-> may_change g).
  { intros g. apply in_window_iff. }
  assert (Hupd : forall lg g, apply_summary lg g = updated lg g).
  { intros lg g. unfold apply_summary, set_scores, set_status, updated. simpl.
    by destruct (lg_home_score lg), (lg_away_score lg). }
  unfold run_live_scoreboard.
  set (event_ids := flat_map _ (List.filter (in_window now) (games db))).
  assert (Hids : forall e, In e event_ids <->
            e <> EmptyString /\
            exists g, In g (games db) /\ in_window now g = true /\
                      g_provider_game_id g = Some e).
  { intros e. apply job_event_ids_In. }
  destruct event_ids as [|e0 ids] eqn:Eids.
  { cbn [fst snd]. split; [by repeat split|]. split.
    - clear. induction (games db); constructor; auto.
    - split.
      + exists []. rewrite app_nil_r. split; auto. split; [constructor|]. intros e [].
      + intros _ _ g e lg Hg Hm Hp Hne _. exfalso.
        apply (proj2 (Hids e)). split; auto. exists g. split; auto. split; auto.
        by apply Hmay. }
  rewrite <- Eids in *. clear Eids e0 ids.
  destruct (bulk_fetch_sent ttl nttl remote set_iter Hin Hnd event_ids s)
    as (sent & Hout & Hsent & Hs).
  pose proof (bulk_fetch_cold ttl nttl remote set_iter Hin event_ids s) as Hcold.
  destruct (bulk_fetch_live_events ttl nttl remote set_iter event_ids false s)
    as [live s'] eqn:Eb.
  cbn [fst snd] in *. split; [by repeat split|]. split; [|split].
  - unfold with_games. cbn [games]. apply Forall2_map_r. intros g Hg.
    destruct (in_window now g) eqn:Ew; [|by left].
    destruct (live !! default EmptyString (g_provider_game_id g)) as [lg|]; [|by left].
    right. split; [by apply Hmay|]. exists lg. apply Hupd.
  - exists sent. split; auto. split; auto. intros e He.
    destruct (Hs e He) as [Hev Hne]. split; auto.
    apply Hids in Hev as (_ & g & Hg & Hw & Hp). exists g. split; auto. split; auto.
    by apply Hmay.
  - intros Hc Hn g e lg Hg Hm Hp Hne Hr.
    unfold with_games. cbn [games]. apply in_map_iff. exists g. split; auto.
    apply Hmay in Hm. rewrite Hm, Hp.
    change (default EmptyString (Some e)) with e.
    rewrite (Hcold e lg); [apply Hupd| | | | |]; auto.
    + apply Hids. split; auto. eauto.
    + rewrite Hc. apply lookup_empty.
    + rewrite Hn. apply lookup_empty.
Qed.

(** The provider reports event 401 in play at 7-3: the job stores game 2
    as in progress with that score. *)
Lemma X14_witness :
  In (mkGame 2 1 1 20 21 (utc 200) IN_PROGRESS 7 3 (Some "401"%string))
     (games (fst (run_live_scoreboard 15 600 Fixture.remote1 remove_dups db_live 0
                    (mkLive ∅ ∅ 110 [])))).
Proof.
  assert (Hin : forall (l : list string) x, In x (remove_dups l) <-> In x l).
  { intros l x. rewrite <- !list_elem_of_In. apply elem_of_remove_dups. }
  assert (Hnd : forall l : list string, NoDup (remove_dups l)).
  { intros l. apply NoDup_remove_dups. }
  destruct (X14_live_scoreboard_job 15 600 Fixture.remote1 remove_dups db_live 0
              (mkLive ∅ ∅ 110 []) Hin Hnd) as (_ & _ & _ & H).
  apply (H eq_refl eq_refl
           (mkGame 2 1 1 20 21 (utc 200) SCHEDULED 0 0 (Some "401"%string))
           "401"%string Fixture.lg401).
  - simpl. auto.
  - split; [by eexists|]. split; [vm_compute; split; discriminate|discriminate].
  - reflexivity.
  - discriminate.
  - reflexivity.
Defined.

(** ** The current week *)

Lemma earliest_lower ws w x : earliest ws = Some w -> In x ws -> kickoff w <= kickoff x.
Proof.
  intros H Hx.
  pose proof (py_max_upper kickoff Z.gtb) as Hu.
  assert (Z.gtb (kickoff w) (kickoff x) = false); [|lia].
  apply (Hu ltac:(intros; lia) ltac:(intros; lia) ws w x H Hx).
Qed.

Lemma latest_upper ws w x : latest ws = Some w -> In x ws -> kickoff x <= kickoff w.
Proof.
  intros H Hx.
  pose proof (py_max_upper kickoff Z.ltb) as Hu.
  assert (Z.ltb (kickoff w) (kickoff x) = false); [|lia].
  apply (Hu ltac:(intros; lia) ltac:(intros; lia) ws w x H Hx).
Qed.

Lemma upcoming_weeks_iff now ws w : In w (upcoming_weeks now ws) <-> In w ws /\ now <= kickoff w.
Proof. unfold upcoming_weeks. by rewrite filter_In, Z.leb_le. Qed.

(** The two queries both [_get_current_week] run on a set of weeks. *)
Lemma current_of_spec now ws :
  match match earliest (upcoming_weeks now ws) with
        | Some u => Some u
        | None => latest ws
        end with
  | Some w => next_or_last now ws w
  | None => ws = []
  end.
Proof.
  destruct (earliest (upcoming_weeks now ws)) as [u|] eqn:E.
  - pose proof (earliest_In _ _ E) as Hin. apply upcoming_weeks_iff in Hin as [Hin Hk].
    split; auto. left. split; auto. intros w' Hw' Hk'.
    apply (earliest_lower _ _ _ E). by apply upcoming_weeks_iff.
  - apply py_max_None in E.
    destruct (latest ws) as [l|] eqn:El; [|by apply py_max_None in El].
    split; [by apply latest_In in El|]. right. intros w' Hw'. split.
    + destruct (Z_lt_le_dec (kickoff w') now) as [?|Hge]; auto.
      assert (Hup : In w' (upcoming_weeks now ws)) by (by apply upcoming_weeks_iff).
      rewrite E in Hup. destruct Hup.
    + by apply (latest_upper _ _ _ El).
Qed.

(** X15. The week a page opens on without a week in its address: on the
    dashboard, the week with the earliest kickoff not before now, or, when
    every kickoff is past, the week with the latest kickoff, and no week
    only when there is none.  The picks page answers the same question
    within the weeks of the season [_active_season] selects, and falls
    back to the dashboard's answer when that season has no week. *)
Theorem X15_current_week (db : DB) (now : Z) :
  match Dashboard._get_current_week db now with
  | Some w => next_or_last now (weeks db) w
  | None => weeks db = []
  end /\
  match _active_season db None with
  | Some season =>
      let ws := List.filter (fun w => w_season_id w =? s_id season) (weeks db) in
      match ws with
      | [] => Picks._get_current_week db now = Dashboard._get_current_week db now
      | _ => exists w, Picks._get_current_week db now = Some w /\ next_or_last now ws w
      end
  | None => Picks._get_current_week db now = Dashboard._get_current_week db now
  end.
Proof.
  split; [apply current_of_spec|].
  unfold Picks._get_current_week, Dashboard._get_current_week.
  destruct (_active_season db None) as [season|]; [|reflexivity].
  cbv zeta.
  pose proof (current_of_spec now
                (List.filter (fun w => w_season_id w =? s_id season) (weeks db))) as H.
  destruct (List.filter (fun w => w_season_id w =? s_id season) (weeks db)) as [|w0 ws] eqn:E.
  - reflexivity.
  - destruct (match earliest (upcoming_weeks now (w0 :: ws)) with
              | Some u => Some u | None => latest (w0 :: ws) end) as [w|]; [|discriminate].
    exists w. auto.
Qed.

(** ** What an import leaves alone *)

Lemma same_core_refl g : same_core g g.
Proof. by repeat split. Qed.

Lemma same_core_trans a b c : same_core a b -> same_core b c -> same_core a c.
Proof. unfold same_core. intuition congruence. Qed.

Lemma update_game_core g home away pg : same_core g (fst (update_game g home away pg)).
Proof.
  unfold update_game.
  destruct (negb (dt_eqb (g_start_time g) (start_time pg)));
    cbn [g_home_team_id g_away_team_id set_start_time];
    destruct (negb (_ =? t_id home) || negb (_ =? t_id away))%bool;
    destruct (opt_truthy (provider_game_id pg) && _)%bool; by repeat split.
Qed.

Lemma store_game_core b g : same_core g (store_game b g).
Proof. by repeat split. Qed.

Lemma store_game_rest b g : same_rest g (store_game b g).
Proof. unfold same_rest, store_game. cbn. by destruct b. Qed.

Lemma find_game_In b rows wk home away pg row :
  find_game b rows wk home away pg = Some row -> In row rows /\ g_week_id row = wk.
Proof.
  unfold find_game.
  destruct (if opt_truthy (provider_game_id pg) then _ else None) as [g|] eqn:E.
  - intros [= <-]. destruct (opt_truthy (provider_game_id pg)); [|discriminate].
    apply find_some in E as [Hin [Hw _]%andb_true_iff]. split; auto. by apply Z.eqb_eq.
  - intros [Hin H]%find_some. split; auto.
    apply andb_true_iff in H as [H _]. apply andb_true_iff in H as [H _].
    apply andb_true_iff in H as [H _]. by apply Z.eqb_eq.
Qed.

Lemma session_obj_core rows sid wk st row :
  NoDup (map g_id rows) -> session_ok rows sid wk st -> In row rows ->
  same_core row (session_obj (is_dirty st) row) /\
  (g_week_id row <> wk -> session_obj (is_dirty st) row = row).
Proof.
  intros Hnd (Hd & _) Hin. unfold session_obj.
  destruct (dict_get (is_dirty st) (g_id row)) as [o|] eqn:E.
  - destruct (Hd _ _ E) as (row' & Hin' & Hid & Hw & Hc).
    assert (row' = row) by (by apply (NoDup_map_eq g_id rows)). subst row'.
    split; auto. intros Hne. by destruct Hne.
  - split; auto. apply same_core_refl.
Qed.

Lemma import_step_ok b rows sid wk lookup st pg :
  NoDup (map g_id rows) -> session_ok rows sid wk st ->
  session_ok rows sid wk (import_step b rows sid wk lookup st pg) /\
  is_upserted (import_step b rows sid wk lookup st pg) <= is_upserted st + 1.
Proof.
  intros Hnd Hok. rewrite import_step_resolve.
  destruct (resolve lookup pg) as [[home away]|]; [|split; [auto|lia]].
  destruct (find_game b rows wk home away pg) as [row|] eqn:Ef.
  - apply find_game_In in Ef as [Hin Hw].
    destruct (session_obj_core rows sid wk st row Hnd Hok Hin) as [Hc _].
    pose proof (update_game_core (session_obj (is_dirty st) row) home away pg) as Hu.
    destruct (update_game (session_obj (is_dirty st) row) home away pg) as [g' changed].
    cbn [fst] in Hu. destruct Hok as (Hd & Hp & Hn).
    destruct changed; (split; [|cbn; lia]).
    + split; [|split; [exact Hp|cbn; lia]].
      intros k o. cbn [is_dirty].
      destruct (Z.eq_dec (g_id row) k) as [<-|Hne].
      * rewrite dict_get_set_eq. intros [= <-]. exists row. repeat split; auto;
          apply (same_core_trans _ _ _ Hc Hu).
      * rewrite dict_get_set_ne by done. apply Hd.
    + split; [exact Hd|split; [exact Hp|cbn; lia]].
  - destruct Hok as (Hd & Hp & Hn). split; [|cbn; lia].
    split; [exact Hd|split; [|cbn; lia]].
    intros g. cbn [is_pending]. rewrite in_app_iff. intros [Hg|[<-|[]]]; auto.
Qed.

Lemma import_fold_ok b rows sid wk lookup payload : forall st,
  NoDup (map g_id rows) -> session_ok rows sid wk st ->
  session_ok rows sid wk (fold_left (import_step b rows sid wk lookup) payload st) /\
  is_upserted (fold_left (import_step b rows sid wk lookup) payload st)
  <= is_upserted st + Z.of_nat (length payload).
Proof.
  induction payload as [|pg payload IH]; intros st Hnd Hok; cbn [fold_left length].
  - split; auto. lia.
  - destruct (import_step_ok b rows sid wk lookup st pg Hnd Hok) as [Hok' Hle].
    destruct (IH _ Hnd Hok') as [Hok'' Hle']. split; auto. lia.
Qed.

Lemma import_fold_times b rows sid wk lookup payload : forall st,
  is_start_times (fold_left (import_step b rows sid wk lookup) payload st)
  = is_start_times st ++ resolved_times lookup payload.
Proof.
  induction payload as [|pg payload IH]; intros st; cbn [fold_left].
  - unfold resolved_times. simpl. by rewrite app_nil_r.
  - rewrite IH, import_step_resolve. unfold resolved_times. cbn [flat_map].
    destruct (resolve lookup pg) as [[home away]|]; [|reflexivity].
    destruct (find_game b rows wk home away pg) as [row|].
    + destruct (update_game _ home away pg) as [g' changed].
      destruct changed; cbn [is_start_times]; by rewrite <- app_assoc.
    + cbn [is_start_times]. by rewrite <- app_assoc.
Qed.

Lemma assign_ids_spec l : forall next g,
  In g (assign_ids next l) -> exists g0, In g0 l /\ next <= g_id g /\ g = set_id g0 (g_id g).
Proof.
  induction l as [|x l IH]; intros next g; simpl; [intros []|].
  intros [<-|Hg].
  - exists x. simpl. split; auto. split; [lia|reflexivity].
  - destruct (IH _ _ Hg) as (g0 & Hin & Hle & E). exists g0. split; auto. split; [lia|exact E].
Qed.

Lemma Forall2_map_same {A} (P : A -> A -> Prop) (f : A -> A) (l : list A) :
  (forall x, In x l -> P x (f x)) -> Forall2 P l (map f l).
Proof.
  induction l as [|x l IH]; simpl; intros H; constructor; auto.
Qed.

Lemma ensure_season_others db y :
  picks (fst (ensure_season db y)) = picks db /\
  tiebreakers (fst (ensure_season db y)) = tiebreakers db /\
  users (fst (ensure_season db y)) = users db.
Proof. unfold ensure_season. by destruct (List.find _ (seasons db)). Qed.

Lemma ensure_week_others b db season wn st now :
  picks (fst (ensure_week b db season wn st now)) = picks db /\
  tiebreakers (fst (ensure_week b db season wn st now)) = tiebreakers db /\
  users (fst (ensure_week b db season wn st now)) = users db.
Proof. unfold ensure_week. by destruct (List.find _ (weeks db)). Qed.

(** The store the loop of an import reads: the one given, with the season
    and the week of the import. *)
Lemma import_tables b db y wn st now :
  let db2 := fst (ensure_week b (fst (ensure_season db y)) (snd (ensure_season db y))
                    wn st now) in
  teams db2 = teams db /\ games db2 = games db /\ picks db2 = picks db /\
  tiebreakers db2 = tiebreakers db /\ users db2 = users db.
Proof.
  cbv zeta.
  destruct (ensure_week_keeps b (fst (ensure_season db y)) (snd (ensure_season db y)) wn st now)
    as (H1 & H2 & _).
  destruct (ensure_week_others b (fst (ensure_season db y)) (snd (ensure_season db y)) wn st now)
    as (H3 & H4 & H5).
  destruct (ensure_season_keeps db y) as (K1 & K2 & _).
  destruct (ensure_season_others db y) as (K3 & K4 & K5).
  repeat split; congruence.
Qed.

(** X16. An import of a week's schedule, on a store with unique game ids,
    writes to seasons, weeks and games only.  Every stored game keeps its
    place, its id, season, week, status and scores, and a game of another
    week than the imported one keeps its teams, start and provider id as
    well; the games added belong to the imported week, are scheduled, 0-0,
    and get ids above every stored one.  The count returned is at most the
    length of the provider's answer, and an empty answer leaves the store
    as it was. *)
Theorem X16_import_frame (b : Backend) (db : DB) (payload : list ProviderGame)
    (season_year week_number season_type now : Z) :
  NoDup (map g_id (games db)) ->
  let r := import_week_schedule b db payload season_year week_number season_type now in
  let target := target_week b db season_year week_number season_type now in
  (teams (fst r) = teams db /\ picks (fst r) = picks db /\
   tiebreakers (fst r) = tiebreakers db /\ users (fst r) = users db) /\
  (exists kept added,
     games (fst r) = kept ++ added /\
     Forall2 (fun g g' => same_core g g' /\ (g_week_id g <> w_id target -> same_rest g g'))
             (games db) kept /\
     Forall (fun g' => g_week_id g' = w_id target /\ g_status g' = SCHEDULED /\
                       g_home_score g' = 0 /\ g_away_score g' = 0 /\
                       forall g, In g (games db) -> g_id g < g_id g') added) /\
  0 <= snd r <= Z.of_nat (length payload) /\
  (payload = [] -> r = (db, 0)).
Proof.
  intros Hnd r target.
  assert (Hempty : payload = [] -> r = (db, 0)).
  { intros ->. subst r. unfold import_week_schedule.
    destruct (ensure_season db season_year) as [db1 season].
    by destruct (ensure_week b db1 season week_number season_type now) as [db2 week]. }
  assert (Hcase : payload = [] \/ payload <> []).
  { destruct payload; [by left|by right]. }
  destruct Hcase as [Hnil|Hne].
  { rewrite (Hempty Hnil). cbn [fst snd]. split; [by repeat split|]. split.
    - exists (games db), []. rewrite app_nil_r. split; auto. split; [|constructor].
      clear. induction (games db) as [|g l IH]; constructor; auto.
      split; [apply same_core_refl|]. intros _. by repeat split.
    - split; [lia|auto]. }
  clear Hempty. subst r. rewrite (import_unfold b db payload _ _ _ _ Hne).
  cbv zeta. cbn [fst snd].
  destruct (import_tables b db season_year week_number season_type now)
    as (T1 & T2 & T3 & T4 & T5).
  cbv zeta in T1, T2, T3, T4, T5.
  set (db2 := fst (ensure_week b (fst (ensure_season db season_year))
                     (snd (ensure_season db season_year)) week_number season_type now)) in *.
  fold target.
  set (sid := s_id (snd (ensure_season db season_year))).
  rewrite T2.
  assert (Hok0 : session_ok (games db) sid (w_id target) (mkIS [] [] 0 [])).
  { split; [|split]; cbn; [discriminate|intros g []|lia]. }
  destruct (import_fold_ok b (games db) sid (w_id target) (_team_lookup_map db2) payload
              (mkIS [] [] 0 []) Hnd Hok0) as [Hok Hle].
  set (stt := fold_left _ payload (mkIS [] [] 0 [])) in *.
  split; [by repeat split|]. split; [|split; [|intros ->; by destruct Hne]].
  - unfold with_games. cbn [games]. unfold commit_games.
    eexists _, _. split; [reflexivity|]. split.
    + apply Forall2_map_same. intros row Hrow.
      destruct (session_obj_core (games db) sid (w_id target) stt row Hnd Hok Hrow)
        as [Hc Hsame].
      split.
      * apply (same_core_trans _ _ _ Hc). apply store_game_core.
      * intros Hw. rewrite (Hsame Hw). apply store_game_rest.
    + apply List.Forall_forall. intros g' Hg'.
      apply assign_ids_spec in Hg' as (g0 & Hg0 & Hid & E).
      apply in_map_iff in Hg0 as (p & <- & Hp).
      destruct Hok as (_ & Hpend & _). destruct (Hpend p Hp) as (_ & Hw & Hs & Hh & Ha).
      rewrite E. cbn. repeat split; auto.
      intros g Hg.
      pose proof (next_id_gt (map g_id (games db)) (g_id g) (in_map g_id _ _ Hg)). lia.
  - cbn in Hle. destruct Hok as (_ & _ & Hn). lia.
Qed.

(** Week 2 is imported with one new game: nothing is lost, the Final game
    of week 1 is as it was, and one game is counted. *)
Lemma X16_witness :
  NoDup (map g_id (games db_played)) /\
  let r := import_week_schedule Zoned db_played
             [mkPG "BAL" "ARZ" (utc 9500) (Some "402"%string)] 2024 2 2 77 in
  picks (fst r) = picks db_played /\ 0 <= snd r <= 1 /\
  In (mkGame 1 1 1 1 2 (utc 1000) FINAL 27 20 (Some "400"%string)) (games (fst r)).
Proof.
  assert (Hnd : NoDup (map g_id (games db_played))).
  { apply (bool_decide_unpack _). vm_compute. exact I. }
  split; [exact Hnd|]. cbv zeta.
  destruct (X16_import_frame Zoned db_played
              [mkPG "BAL" "ARZ" (utc 9500) (Some "402"%string)] 2024 2 2 77 Hnd)
    as ((_ & Hp & _) & _ & Hc & _).
  split; [exact Hp|]. split; [exact Hc|].
  vm_compute. auto.
Defined.

Lemma find_replace_by_id ws w :
  (exists x, In x ws /\ w_id x = w_id w) ->
  List.find (fun x => w_id x =? w_id w) (replace_week ws w) = Some w.
Proof.
  unfold replace_week. induction ws as [|y ws IH]; intros (x & Hx & E); [destruct Hx|].
  cbn [map List.find]. destruct (w_id y =? w_id w) eqn:Ey.
  - by rewrite Z.eqb_refl.
  - rewrite Ey. apply IH. destruct Hx as [->|Hx]; [|eauto].
    apply Z.eqb_neq in Ey. congruence.
Qed.

Lemma replace_week_other ws w x :
  In x ws -> w_id x <> w_id w -> In x (replace_week ws w).
Proof.
  intros Hx Hne. unfold replace_week. apply in_map_iff. exists x. split; auto.
  apply Z.eqb_neq in Hne. by rewrite Hne.
Qed.

Lemma min_dt_spec l m :
  min_dt l = Some m -> In m l /\ forall t, In t l -> dt_ticks m <= dt_ticks t.
Proof.
  intros H. split; [by apply py_max_In in H|]. intros t Ht.
  pose proof (py_max_upper dt_ticks Z.gtb) as Hu.
  assert (Z.gtb (dt_ticks m) (dt_ticks t) = false); [|lia].
  apply (Hu ltac:(intros; lia) ltac:(intros; lia) l m t H Ht).
Qed.

Lemma target_week_In b db y wn st now :
  In (target_week b db y wn st now)
     (weeks (fst (ensure_week b (fst (ensure_season db y)) (snd (ensure_season db y))
                    wn st now))).
Proof.
  unfold target_week.
  pose proof (ensure_week_find b (fst (ensure_season db y)) (snd (ensure_season db y))
                wn st now) as H.
  by apply find_some in H as [H _].
Qed.

Lemma ensure_weeks_sub b db y wn st now w :
  In w (weeks db) ->
  In w (weeks (fst (ensure_week b (fst (ensure_season db y)) (snd (ensure_season db y))
                      wn st now))).
Proof.
  intros Hw. destruct (ensure_season_keeps db y) as (_ & _ & K).
  unfold ensure_week. destruct (List.find _ (weeks (fst (ensure_season db y)))).
  - cbn. by rewrite K.
  - cbn. rewrite K. apply in_or_app. by left.
Qed.

(** X17. After an import in which an entry of the provider's answer
    resolves to two known teams, the imported week opens and locks at the
    earliest start among the entries that resolve: the week found under
    its id has that instant as first kickoff and keeps its season, number
    and type, and the other weeks are as they were. *)
Theorem X17_import_sets_kickoff (b : Backend) (db : DB) (payload : list ProviderGame)
    (season_year week_number season_type now : Z) (m : datetime) :
  let r := import_week_schedule b db payload season_year week_number season_type now in
  let target := target_week b db season_year week_number season_type now in
  min_dt (resolved_times (_team_lookup_map db) payload) = Some m ->
  (In m (resolved_times (_team_lookup_map db) payload) /\
   forall t, In t (resolved_times (_team_lookup_map db) payload) ->
     dt_ticks m <= dt_ticks t) /\
  (exists w',
     List.find (fun w => w_id w =? w_id target) (weeks (fst r)) = Some w' /\
     w' = set_first_kickoff_at target (store_dt b m) /\
     forall t, is_locked w' t = true <-> dt_ticks m <= t) /\
  (forall w, In w (weeks db) -> w_id w <> w_id target -> In w (weeks (fst r))).
Proof.
  intros r target Hmin. split; [by apply min_dt_spec|].
  assert (Hne : payload <> []).
  { intros ->. discriminate Hmin. }
  subst r. rewrite (import_unfold b db payload _ _ _ _ Hne). cbv zeta. cbn [fst].
  destruct (import_tables b db season_year week_number season_type now) as (T1 & _).
  cbv zeta in T1.
  set (db2 := fst (ensure_week b (fst (ensure_season db season_year))
                     (snd (ensure_season db season_year)) week_number season_type now)) in *.
  fold target.
  rewrite import_fold_times. cbn [is_start_times app].
  rewrite (team_lookup_map_teams db db2 T1), Hmin.
  unfold with_games, with_weeks. cbn [weeks].
  pose proof (target_week_In b db season_year week_number season_type now) as Hin.
  fold db2 in Hin. fold target in Hin.
  set (w1 := set_first_kickoff_at target (store_dt b m)).
  split.
  - exists w1. split; [|split; [reflexivity|]].
    + change (w_id target) with (w_id w1). apply find_replace_by_id. exists target. auto.
    + intros t. unfold is_locked, w1. cbn. rewrite Z.leb_le. by destruct b.
  - intros w Hw Hid. apply replace_week_other; [|exact Hid].
    by apply ensure_weeks_sub.
Qed.

(** Two entries of the answer resolve; the earlier starts at 9300, and
    week 2 then locks at 9300. *)
Lemma X17_witness :
  let r := import_week_schedule Zoned db_played
             [mkPG "BAL" "ARZ" (utc 9500) (Some "402"%string);
              mkPG "KC" "ARI" (utc 9300) (Some "401"%string);
              mkPG "KC" "NYJ" (utc 9100) (Some "403"%string)] 2024 2 2 77 in
  exists w', List.find (fun w => w_id w =? 2) (weeks (fst r)) = Some w' /\
             is_locked w' 9299 = false /\ is_locked w' 9300 = true.
Proof.
  cbv zeta.
  destruct (X17_import_sets_kickoff Zoned db_played
              [mkPG "BAL" "ARZ" (utc 9500) (Some "402"%string);
               mkPG "KC" "ARI" (utc 9300) (Some "401"%string);
               mkPG "KC" "NYJ" (utc 9100) (Some "403"%string)] 2024 2 2 77 (utc 9300)
              ltac:(vm_compute; reflexivity)) as (_ & (w' & Hf & _ & Hl) & _).
  exists w'. split; [exact Hf|]. split.
  - destruct (is_locked w' 9299) eqn:E; [|reflexivity].
    apply Hl in E. simpl in E. lia.
  - apply Hl. simpl. lia.
Defined.

(** ** What the picks page shows *)

Lemma games_by_start_Permutation db w :
  Permutation (games_by_start db (Some w)) (week_games db w).
Proof. apply py_sort_Permutation. Qed.

Lemma games_by_start_sorted db sel :
  StronglySorted (fun a b => dt_ticks (g_start_time a) <= dt_ticks (g_start_time b))
    (games_by_start db sel).
Proof.
  unfold games_by_start. destruct sel as [w|]; [|constructor].
  pose proof (py_sort_sorted (fun a b : Game => dt_ticks (g_start_time a) <? dt_ticks (g_start_time b))
                ltac:(intros a b; cbv beta; intros ?%Z.ltb_lt; apply Z.ltb_ge; lia)
                ltac:(intros a b c; cbv beta; intros ?%Z.ltb_ge ?%Z.ltb_ge; apply Z.ltb_ge; lia)
                (week_games db w)) as H.
  induction H as [|g l Hl IH Hg]; constructor; auto.
  rewrite List.Forall_forall in Hg |- *. intros x Hx.
  specialize (Hg x Hx). unfold before in Hg. by apply Z.ltb_ge in Hg.
Qed.

Lemma picks_by_game_get db uid (gs : list Game) gid t :
  uq_pick_user_game (picks db) = true ->
  dict_get (picks_by_game db uid (map g_id gs)) gid = Some t <->
  exists p g, In p (picks db) /\ p_user_id p = uid /\ In g gs /\
              p_game_id p = g_id g /\ g_id g = gid /\ p_chosen_team_id p = t.
Proof.
  intros Huq. unfold picks_by_game.
  set (mine := List.filter _ (picks db)).
  assert (Hmine : forall p, In p mine <->
            In p (picks db) /\ p_user_id p = uid /\ exists g, In g gs /\ p_game_id p = g_id g).
  { intros p. unfold mine. rewrite filter_In, andb_true_iff, Z.eqb_eq, in_Z_In, in_map_iff.
    split.
    - intros (Hp & Hu & g & Hg & Hin). split; auto. split; auto. exists g. auto.
    - intros (Hp & Hu & g & Hin & Hg). split; auto. split; auto. exists g. auto. }
  assert (Hres : dict_get (fold_left (fun d p => dict_set d (p_game_id p) (p_chosen_team_id p))
                             mine []) gid = Some t <->
                 exists p, In p mine /\ p_game_id p = gid /\ p_chosen_team_id p = t).
  { split.
    - intros [H|H]%fold_dict_get; [discriminate|exact H].
    - intros (p & Hp & <- & <-).
      apply (fold_dict_get_last p_game_id p_chosen_team_id mine [] p); auto.
      unfold mine. by apply user_picks_games_NoDup. }
  destruct (map g_id gs) eqn:Em.
  { destruct gs; [|discriminate]. simpl. split; [discriminate|].
    intros (p & g & _ & _ & [] & _). }
  rewrite Hres. split.
  - intros (p & (Hp & Hu & g & Hg & Hpg)%Hmine & Hgid & Ht).
    exists p, g. repeat split; auto. congruence.
  - intros (p & g & Hp & Hu & Hg & Hpg & Hgid & Ht). exists p. split; [|split; auto; congruence].
    apply Hmine. split; auto. split; auto. eauto.
Qed.

Lemma teams_of_games_get db (gs : list Game) tid t :
  NoDup (map t_id (teams db)) ->
  dict_get (teams_of_games db gs) tid = Some t <->
  In t (teams db) /\ t_id t = tid /\
  exists g, In g gs /\ (tid = g_home_team_id g \/ tid = g_away_team_id g).
Proof.
  intros Hnd. unfold teams_of_games.
  set (team_ids := flat_map (fun g => [g_home_team_id g; g_away_team_id g]) gs).
  assert (Hids : forall i, In i team_ids <->
            exists g, In g gs /\ (i = g_home_team_id g \/ i = g_away_team_id g)).
  { intros i. unfold team_ids. rewrite in_flat_map. split.
    - intros (g & Hg & [<-|[<-|[]]]); eauto.
    - intros (g & Hg & [-> | ->]); exists g; simpl; auto. }
  set (shown := List.filter (fun t => in_Z (t_id t) team_ids) (teams db)).
  assert (Hres : dict_get (fold_left (fun d t => dict_set d (t_id t) t) shown []) tid = Some t <->
                 In t shown /\ t_id t = tid).
  { split.
    - intros [H|(x & Hx & Hk & <-)]%fold_dict_get; [discriminate|auto].
    - intros (Ht & <-).
      apply (fold_dict_get_last t_id (fun t => t) shown [] t); auto.
      unfold shown. by apply NoDup_map_filter. }
  assert (Hshown : In t shown <-> In t (teams db) /\ In (t_id t) team_ids).
  { unfold shown. by rewrite filter_In, in_Z_In. }
  destruct team_ids as [|i0 ids] eqn:Eids.
  { simpl. split; [discriminate|]. intros (_ & _ & Hg). apply Hids in Hg. destruct Hg. }
  rewrite Hres, Hshown. split.
  - intros ((Ht & Hin) & E). split; auto. split; auto. apply Hids. by rewrite <- E.
  - intros (Ht & E & Hg). split; auto. split; auto. rewrite E. by apply Hids.
Qed.

(** X18. The picks page of a user for a week lists the games of that week,
    each once, in the order of their start; shows as existing picks the
    picks of that user on those games and nothing else (no other user's
    pick, no pick on another week's game); holds the row of every team
    that plays in a listed game; and says locked exactly when the first
    kickoff of the week is not after the time of the request.  Picks are
    unique per user and game, and team ids are unique. *)
Theorem X18_picks_page_content (db : DB) (now now' : Z) (user : User) (week : option Z)
    (err ok : option string) (ctx : PicksCtx) (w : Week) :
  uq_pick_user_game (picks db) = true -> NoDup (map t_id (teams db)) ->
  picks_page db now now' (Some user) week err ok = Render ctx ->
  pc_selected_week ctx = Some w ->
  Permutation (pc_games ctx) (week_games db w) /\
  StronglySorted (fun a b => dt_ticks (g_start_time a) <= dt_ticks (g_start_time b))
    (pc_games ctx) /\
  (forall gid t,
     dict_get (pc_existing_picks ctx) gid = Some t <->
     exists p g, In p (picks db) /\ p_user_id p = u_id user /\ In g (week_games db w) /\
                 p_game_id p = g_id g /\ g_id g = gid /\ p_chosen_team_id p = t) /\
  (forall tid t,
     dict_get (pc_teams_by_id ctx) tid = Some t <->
     In t (teams db) /\ t_id t = tid /\
     exists g, In g (week_games db w) /\ (tid = g_home_team_id g \/ tid = g_away_team_id g)) /\
  (pc_locked ctx = true <-> dt_ticks (w_first_kickoff_at w) <= now').
Proof.
  intros Huq Hnd Hpage Hsel. unfold picks_page in Hpage.
  destruct (u_must_change_password user); [discriminate|].
  destruct (prev_next _ _) as [p x]. injection Hpage as <-.
  cbn [pc_selected_week pc_games pc_existing_picks pc_teams_by_id pc_locked] in *.
  rewrite Hsel.
  assert (Hin : forall g, In g (games_by_start db (Some w)) <-> In g (week_games db w)).
  { intros g. unfold games_by_start. apply py_sort_In. }
  split; [apply games_by_start_Permutation|].
  split; [apply games_by_start_sorted|].
  split; [|split].
  - intros gid t. rewrite (picks_by_game_get db (u_id user) _ gid t Huq).
    split; intros (p0 & g & H1 & H2 & H3 & H4); exists p0, g; repeat split; try tauto;
      by apply Hin.
  - intros tid t. rewrite (teams_of_games_get db _ tid t Hnd).
    split; intros (H1 & H2 & g & H3 & H4); repeat split; auto; exists g; split; auto;
      by apply Hin.
  - unfold is_locked. by rewrite Z.leb_le.
Qed.

(** Bob's page for week 1 after the pick of team 10 in game 1: both games
    are listed, one pick is shown, the page is open at 500 and locked at
    1000. *)
Lemma X18_witness :
  let db := with_picks Fixture.db_picks [mkPick 1 2 1 10; mkPick 2 1 2 21] in
  exists ctx,
    picks_page db 400 500 (Some Fixture.bob) (Some 1) None None = Render ctx /\
    dict_get (pc_existing_picks ctx) 1 = Some 10 /\
    dict_get (pc_existing_picks ctx) 2 = None /\
    pc_locked ctx = false.
Proof.
  cbv zeta.
  set (db := with_picks Fixture.db_picks [mkPick 1 2 1 10; mkPick 2 1 2 21]).
  destruct (picks_page db 400 500 (Some Fixture.bob) (Some 1) None None)
    as [| |ctx] eqn:E; try (vm_compute in E; discriminate E).
  exists ctx. split; [reflexivity|].
  assert (Hsel : pc_selected_week ctx = Some Fixture.wk1).
  { vm_compute in E. by injection E as <-. }
  destruct (X18_picks_page_content db 400 500 Fixture.bob (Some 1) None None ctx Fixture.wk1
              eq_refl ltac:(constructor) E Hsel) as (_ & _ & Hp & _ & Hl).
  split; [|split].
  - apply Hp. exists (mkPick 1 2 1 10), (Fixture.game 1 2000 SCHEDULED 0 0).
    repeat split; simpl; auto.
  - destruct (dict_get (pc_existing_picks ctx) 2) as [t|] eqn:E2; [|reflexivity].
    apply Hp in E2 as (p & g & [<-|[<-|[]]] & Hu & _ & Hg & Hid & _); simpl in *.
    + destruct g; simpl in *; lia.
    + discriminate Hu.
  - destruct (pc_locked ctx); [|reflexivity]. destruct Hl as [Hl _].
    specialize (Hl eq_refl). simpl in Hl. lia.
Defined.

(** ** What the ESPN provider hands to the importer *)

Lemma ascii_upper_idem c : ascii_upper (ascii_upper c) = ascii_upper c.
Proof.
  destruct c as [[] [] [] [] [] [] [] []]; reflexivity.
Qed.

Lemma upper_idem s : upper (upper s) = upper s.
Proof.
  unfold upper. induction s as [|c s IH]; simpl; [reflexivity|].
  by rewrite ascii_upper_idem, IH.
Qed.

(** The three-way test on [c.get("homeAway")]. *)
Lemma side_match {A} (s : string) (a b c : A) :
  match s with
  | "home"%string => a
  | "away"%string => b
  | _ => c
  end = if String.eqb s "home" then a else if String.eqb s "away" then b else c.
Proof.
  destruct (String.eqb s "home") eqn:E1.
  { apply String.eqb_eq in E1. by subst s. }
  destruct (String.eqb s "away") eqn:E2.
  { apply String.eqb_eq in E2. by subst s. }
  apply String.eqb_neq in E1, E2.
  repeat (match goal with
          | |- context [match ?s with EmptyString => _ | String _ _ => _ end] =>
              destruct s as [|? s]; try reflexivity
          | |- context [match ?a with Ascii _ _ _ _ _ _ _ _ => _ end] =>
              destruct a as [[] [] [] [] [] [] [] []]; try reflexivity
          end); congruence.
Qed.

Section Contract.

Variable fromisoformat : string -> option (Z * option Z).
Variable py_repr : json -> string.

Lemma parse_iso_aware now v : dt_aware (_parse_iso_utc fromisoformat now v) = true.
Proof.
  unfold _parse_iso_utc. destruct v; try reflexivity.
  destruct (fromisoformat (iso_normalize s)) as [[wall [offset|]]|]; reflexivity.
Qed.

Lemma abbr_of_upper team a : abbr_of team = Done a -> upper a = a.
Proof.
  unfold abbr_of. destruct team; try discriminate. simpl.
  destruct (truthy (fields_get fields "abbreviation")).
  - destruct (fields_get fields "abbreviation"); try discriminate.
    intros [= <-]. apply upper_idem.
  - by intros [= <-].
Qed.

Lemma scan_competitors_upper cs : forall acc r,
  (forall x, fst acc = Some x -> upper x = x) ->
  (forall x, snd acc = Some x -> upper x = x) ->
  scan_competitors cs acc = Done r ->
  (forall x, fst r = Some x -> upper x = x) /\ (forall x, snd r = Some x -> upper x = x).
Proof.
  induction cs as [|c cs IH]; intros acc r H1 H2; simpl.
  - intros [= <-]. auto.
  - destruct (jget c "team") as [t| |]; try discriminate. simpl.
    destruct (abbr_of (jor t (JObj []))) as [abbr| |] eqn:Ea; try discriminate. simpl.
    destruct (jget c "homeAway") as [side| |]; try discriminate. simpl.
    apply abbr_of_upper in Ea.
    assert (Hside : forall s : string,
              match s with
              | "home"%string => (Some abbr, snd acc)
              | "away"%string => (fst acc, Some abbr)
              | _ => acc
              end = if String.eqb s "home" then (Some abbr, snd acc)
                    else if String.eqb s "away" then (fst acc, Some abbr) else acc).
    { intros s. apply side_match. }
    apply IH.
    + destruct side as [| | |s| |]; auto. rewrite Hside.
      destruct (String.eqb s "home"); [simpl; by intros x [= <-]|].
      by destruct (String.eqb s "away").
    + destruct side as [| | |s| |]; auto. rewrite Hside.
      destruct (String.eqb s "home"); [exact H2|].
      destruct (String.eqb s "away"); [simpl; by intros x [= <-]|exact H2].
Qed.

End Contract.

Lemma parse_event_contract fromisoformat py_repr now ev g :
  parse_event fromisoformat py_repr now ev = Done g ->
  dt_aware (start_time g) = true /\
  home_abbr g <> EmptyString /\ away_abbr g <> EmptyString /\
  upper (home_abbr g) = home_abbr g /\ upper (away_abbr g) = away_abbr g.
Proof.
  unfold parse_event.
  destruct (jget ev "competitions") as [comps| |]; try discriminate. simpl.
  destruct (negb (truthy comps)); try discriminate.
  destruct (match comps with JArr (c :: _) => Done c | _ => Raised end) as [comp| |];
    try discriminate. simpl.
  destruct (jget comp "date") as [d1| |]; try discriminate. simpl.
  destruct (if truthy d1 then Done JNull else jget ev "date") as [d2| |]; try discriminate.
  simpl. destruct (negb (truthy (jor d1 d2))); try discriminate.
  destruct (jget comp "competitors") as [cv| |]; try discriminate. simpl.
  destruct (competitors_of cv) as [cs| |]; try discriminate. simpl.
  destruct (scan_competitors cs (None, None)) as [[h a]| |] eqn:Es; try discriminate. simpl.
  destruct (scan_competitors_upper cs (None, None) (h, a)) as [Hh Ha]; auto;
    try (simpl; discriminate).
  simpl in Hh, Ha.
  destruct h as [h|]; [|discriminate]. destruct a as [a|]; [|by rewrite orb_true_r].
  simpl. destruct (negb (str_truthy h) || negb (str_truthy a))%bool eqn:Et; [discriminate|].
  apply orb_false_iff in Et as [Eh Ea]. apply negb_false_iff in Eh, Ea.
  destruct (jget ev "id") as [i| |]; try discriminate. simpl.
  intros [= <-]. simpl. split; [apply parse_iso_aware|].
  split; [by destruct h|]. split; [by destruct a|]. auto.
Qed.

Lemma schedule_of_events_In fromisoformat py_repr now events g :
  In g (schedule_of_events fromisoformat py_repr now events) ->
  exists ev, In ev events /\ parse_event fromisoformat py_repr now ev = Done g.
Proof.
  induction events as [|ev events IH]; simpl; [intros []|].
  destruct (parse_event fromisoformat py_repr now ev) as [g0| |] eqn:E.
  - intros [<-|H]; [eauto|]. destruct (IH H) as (ev' & ? & ?). eauto.
  - intros H. destruct (IH H) as (ev' & ? & ?). eauto.
  - intros H. destruct (IH H) as (ev' & ? & ?). eauto.
Qed.

Lemma schedule_of_events_length fromisoformat py_repr now events :
  (length (schedule_of_events fromisoformat py_repr now events) <= length events)%nat.
Proof.
  induction events as [|ev events IH]; simpl; [lia|].
  destruct (parse_event fromisoformat py_repr now ev); simpl; lia.
Qed.

(** X19. The schedule the ESPN provider builds from the events it fetched
    keeps the provider's contract with the importer: every game in it
    comes from one of the events, starts at a timezone-aware UTC time
    (the parsed one, or the time of the call if the date does not parse),
    and names a home and an away team by a non-empty abbreviation in upper
    case; and it never has more games than there were events. *)
Theorem X19_schedule_contract (fromisoformat : string -> option (Z * option Z))
    (py_repr : json -> string) (now : Z) (events : list json) (g : ProviderGame) :
  In g (schedule_of_events fromisoformat py_repr now events) ->
  (exists ev, In ev events /\ parse_event fromisoformat py_repr now ev = Done g /\
              start_time g = _parse_iso_utc fromisoformat now (event_date ev)) /\
  dt_aware (start_time g) = true /\
  home_abbr g <> EmptyString /\ away_abbr g <> EmptyString /\
  upper (home_abbr g) = home_abbr g /\ upper (away_abbr g) = away_abbr g /\
  (length (schedule_of_events fromisoformat py_repr now events) <= length events)%nat.
Proof.
  intros Hg. apply schedule_of_events_In in Hg as (ev & Hev & Hp).
  destruct (parse_event_contract _ _ _ _ _ Hp) as (H1 & H2 & H3 & H4 & H5).
  split.
  - exists ev. split; auto. split; auto. by apply parse_event_start_time in Hp.
  - repeat split; auto. apply schedule_of_events_length.
Qed.

(** The event with the abbreviations [kc] and [Bal] in lower and mixed
    case yields the game of KC and BAL. *)
Lemma X19_witness :
  let g := mkPG "KC" "BAL" (utc 1725567600000000) (Some "401"%string) in
  In g (schedule_of_events Fixture.iso_basic Fixture.repr_none 777
          [Fixture.ev_no_teams; Fixture.event "401" "2024-09-05T20:20Z" "kc" "Bal"]) /\
  dt_aware (start_time g) = true /\ upper (home_abbr g) = home_abbr g.
Proof.
  cbv zeta.
  assert (Hin : In (mkPG "KC" "BAL" (utc 1725567600000000) (Some "401"%string))
                  (schedule_of_events Fixture.iso_basic Fixture.repr_none 777
                     [Fixture.ev_no_teams;
                      Fixture.event "401" "2024-09-05T20:20Z" "kc" "Bal"])).
  { vm_compute. auto. }
  split; [exact Hin|].
  destruct (X19_schedule_contract _ _ _ _ _ Hin) as (_ & H1 & _ & _ & H2 & _).
  split; [exact H1|exact H2].
Defined.

(** ** Deleting a user, and the standings *)

Lemma season_final_NoDup db season :
  NoDup (map g_id (games db)) -> NoDup (map g_id (season_final_games db season)).
Proof. intros H. unfold season_final_games. by apply NoDup_map_filter. Qed.

(** The standings of a season, row by row. *)
Lemma full_board_rows db season e :
  NoDup (map g_id (games db)) -> NoDup (map u_id (users db)) ->
  In e (full_board db season) <->
  e = entry_of db season (e_user_id e) /\
  exists p, In p (picks db) /\ p_user_id p = e_user_id e /\
            on_decided (season_games db season) p = true.
Proof.
  intros Hg Hu.
  pose proof (season_games_NoDup db season Hg) as Hgs.
  pose proof (season_final_NoDup db season Hg) as Hfg.
  pose proof (season_final_games_iff db season) as Hiff.
  set (wbg := winners_by_game (season_final_games db season)).
  assert (Hcnt : forall p, counted wbg p = on_decided (season_games db season) p).
  { intros p. by destruct (counted_on_decided (season_games db season)
                             (season_final_games db season) p Hgs Hiff Hfg). }
  pose proof (fun u => count_picks_counts db (season_games db season)
                         (season_final_games db season) u Hgs Hiff Hfg) as Hval.
  cbv zeta in Hval. fold wbg in Hval.
  pose proof (count_from_keys wbg (picks_on db (decided_ids wbg)) ([], [])) as K1.
  pose proof (count_from_keys_rev wbg (picks_on db (decided_ids wbg)) ([], [])) as K2.
  unfold count_from in K1, K2. fold (count_picks wbg (picks_on db (decided_ids wbg))) in K1, K2.
  unfold full_board. fold wbg.
  destruct (count_picks wbg (picks_on db (decided_ids wbg))) as [cc pc].
  cbn [fst snd] in *.
  assert (Hkey : forall u, In u (dict_keys pc) <->
            exists p, In p (picks db) /\ p_user_id p = u /\
                      on_decided (season_games db season) p = true).
  { intros u. split.
    - intros [[]|(p & Hp & Hc & Hu')]%K1. exists p. split; [|split; auto].
      + unfold picks_on in Hp. by apply filter_In in Hp as [? _].
      + by rewrite <- Hcnt.
    - intros (p & Hp & Hu' & Hd). apply K2. right. exists p. split; [|split; auto].
      + assert (Hw : In p (picks_where (p_user_id p) (counted wbg)
                             (picks_on db (decided_ids wbg)))).
        { pose proof (picks_on_counted db (season_final_games db season) (p_user_id p)
                        (counted wbg) (fun q Hq => Hq)) as E.
          fold wbg in E. rewrite E.
          apply filter_In. split; auto. rewrite Z.eqb_refl. simpl. by rewrite Hcnt. }
        by apply filter_In in Hw as [? _].
      + by rewrite Hcnt. }
  assert (Hentry : forall u, In u (dict_keys pc) ->
            board_entry (name_by_id (users_in db (dict_keys pc))) cc pc u
            = entry_of db season u).
  { intros u Hin. unfold board_entry, entry_of. cbv zeta.
    destruct (Hval u) as [Ht Hc]. rewrite Ht, Hc.
    by rewrite (name_of_shown db (dict_keys pc) u Hu Hin). }
  rewrite py_sort_In, in_map_iff. split.
  - intros (u & <- & Hin). rewrite (Hentry u Hin). cbn [e_user_id entry_of].
    split; [reflexivity|]. by apply Hkey.
  - intros (He & Hp). apply Hkey in Hp. exists (e_user_id e). split; auto.
    rewrite (Hentry _ Hp). by symmetry.
Qed.

Lemma find_filter_same {A} (f g : A -> bool) (l : list A) :
  (forall x, In x l -> f x = true -> g x = true) ->
  List.find f (List.filter g l) = List.find f l.
Proof.
  induction l as [|x l IH]; simpl; auto. intros H.
  destruct (g x) eqn:Eg; simpl.
  - destruct (f x); auto.
  - destruct (f x) eqn:Ef; auto. rewrite (H x) in Eg; auto. discriminate.
Qed.

Lemma delete_user_picks_where db target u f :
  u <> u_id target ->
  picks_where u f (picks (delete_user db target)) = picks_where u f (picks db).
Proof.
  intros Hne. unfold picks_where, delete_user. cbn [picks].
  rewrite filter_filter'. apply filter_ext_in'. intros p _.
  destruct (p_user_id p =? u) eqn:E; [|by rewrite andb_false_r].
  apply Z.eqb_eq in E. subst u. apply Z.eqb_neq in Hne. by rewrite Hne.
Qed.

Lemma delete_user_shown_name db target u :
  u <> u_id target -> shown_name (delete_user db target) u = shown_name db u.
Proof.
  intros Hne. unfold shown_name, delete_user. cbn [users].
  rewrite find_filter_same; auto.
  intros x _ E%Z.eqb_eq. apply negb_true_iff, Z.eqb_neq. congruence.
Qed.

Lemma delete_user_entry db season target u :
  u <> u_id target -> entry_of (delete_user db target) season u = entry_of db season u.
Proof.
  intros Hne. unfold entry_of.
  change (season_games (delete_user db target) season) with (season_games db season).
  by rewrite !delete_user_picks_where, delete_user_shown_name.
Qed.

(** X20. [admin_user_delete] changes the store only for an administrator
    who deletes another, existing user.  Then the user's row, picks and
    tiebreakers are gone and every other row of every table is as it was;
    and, ids of games and users being unique, the standings of a season
    lose the row of that user and nothing else: every other row is there
    with the same name, counts and percentage, and the number of decided
    games is the same. *)
Theorem X20_user_delete (db : DB) (current_user : option User) (user_id : Z) :
  NoDup (map g_id (games db)) -> NoDup (map u_id (users db)) ->
  let db' := fst (admin_user_delete db current_user user_id) in
  let reply := snd (admin_user_delete db current_user user_id) in
  (reply <> DelDeleted -> db' = db) /\
  (reply = DelDeleted ->
     (exists admin, current_user = Some admin /\ u_is_admin admin = true /\
                    u_id admin <> user_id) /\
     (seasons db' = seasons db /\ weeks db' = weeks db /\ teams db' = teams db /\
      games db' = games db) /\
     users db' = List.filter (fun u => negb (u_id u =? user_id)) (users db) /\
     picks db' = List.filter (fun p => negb (p_user_id p =? user_id)) (picks db) /\
     tiebreakers db' = List.filter (fun t => negb (tb_user_id t =? user_id)) (tiebreakers db) /\
     forall wk season,
       _active_season db wk = Some season ->
       fst (_season_leaderboard db' wk) = firstn 10 (full_board db' season) /\
       (forall e, In e (full_board db' season) <->
                  In e (full_board db season) /\ e_user_id e <> user_id) /\
       snd (_season_leaderboard db' wk) = snd (_season_leaderboard db wk)).
Proof.
  intros Hg Hu db' reply. subst db' reply. unfold admin_user_delete.
  destruct current_user as [admin|]; [|split; [auto|discriminate]].
  destruct (u_is_admin admin) eqn:Ea; [|split; [auto|discriminate]]. cbn [negb].
  destruct (u_must_change_password admin); [split; [auto|discriminate]|].
  destruct (List.find (fun u => u_id u =? user_id) (users db)) as [target|] eqn:Ef;
    [|split; [auto|discriminate]].
  apply find_some in Ef as [Hin Eid%Z.eqb_eq].
  destruct (u_id target =? u_id admin) eqn:Eself; [split; [auto|discriminate]|].
  apply Z.eqb_neq in Eself. cbn [fst snd]. split; [intros []; reflexivity|]. intros _.
  split; [exists admin; repeat split; auto; congruence|].
  split; [by repeat split|].
  unfold delete_user at 1 2 3. cbn [users picks tiebreakers]. rewrite Eid.
  split; [reflexivity|]. split; [reflexivity|]. split; [reflexivity|].
  intros wk season Hs.
  assert (Hs' : _active_season (delete_user db target) wk = Some season) by exact Hs.
  assert (Hu' : NoDup (map u_id (users (delete_user db target)))).
  { unfold delete_user. cbn [users]. by apply NoDup_map_filter. }
  assert (Hg' : NoDup (map g_id (games (delete_user db target)))) by exact Hg.
  split; [by apply season_leaderboard_full|]. split.
  - intros e. rewrite (full_board_rows _ season e Hg' Hu'), (full_board_rows db season e Hg Hu).
    change (season_games (delete_user db target) season) with (season_games db season).
    split.
    + intros (He & p & Hp & Hpu & Hd).
      unfold delete_user in Hp. cbn [picks] in Hp.
      apply filter_In in Hp as [Hp Hne%negb_true_iff%Z.eqb_neq].
      assert (Hne' : e_user_id e <> u_id target) by congruence.
      rewrite delete_user_entry in He by done.
      split; [|congruence]. split; auto. eauto.
    + intros ((He & p & Hp & Hpu & Hd) & Hne).
      assert (Hne' : e_user_id e <> u_id target) by congruence.
      rewrite delete_user_entry by done. split; auto.
      exists p. split; [|auto]. unfold delete_user. cbn [picks].
      apply filter_In. split; auto. apply negb_true_iff, Z.eqb_neq. congruence.
  - by rewrite (season_leaderboard_count _ wk season Hs'),
               (season_leaderboard_count db wk season Hs).
Qed.

(** Ann, an administrator, deletes Bob: the standings keep Ann's row and
    lose Bob's. *)
Lemma X20_witness :
  let ann := mkUser 1 "Ann" "Ann" "A" true false in
  let r := admin_user_delete Fixture.db_ab (Some ann) 2 in
  snd r = DelDeleted /\
  map p_user_id (picks (fst r)) = [1; 1] /\
  forall e, In e (full_board (fst r) (mkSeason 1 2024 true)) -> e_user_id e <> 2.
Proof.
  cbv zeta.
  assert (Hg : NoDup (map g_id (games Fixture.db_ab))).
  { apply (bool_decide_unpack _). vm_compute. exact I. }
  assert (Hu : NoDup (map u_id (users Fixture.db_ab))).
  { apply (bool_decide_unpack _). vm_compute. exact I. }
  destruct (X20_user_delete Fixture.db_ab (Some (mkUser 1 "Ann" "Ann" "A" true false)) 2
              Hg Hu) as [_ H].
  destruct (H eq_refl) as (_ & _ & _ & Hp & _ & Hb).
  split; [reflexivity|]. split; [by rewrite Hp|].
  intros e He.
  destruct (Hb (Some Fixture.wk1) (mkSeason 1 2024 true) eq_refl) as (_ & Hrows & _).
  by apply Hrows in He as [_ Hne].
Defined.

(** ** The import of a whole season *)

Lemma Forall2_same_core_refl l : Forall2 same_core l l.
Proof. induction l; constructor; auto. apply same_core_refl. Qed.

Lemma Forall2_same_core_ids l k : Forall2 same_core l k -> map g_id k = map g_id l.
Proof. induction 1 as [|x y l k [Hid _] _ IH]; simpl; [reflexivity|]. by rewrite Hid, IH. Qed.

Lemma Forall2_same_core_trans l k m :
  Forall2 same_core l k -> Forall2 same_core k m -> Forall2 same_core l m.
Proof.
  intros H. revert m. induction H as [|x y l k Hxy _ IH]; intros m Hm.
  - inversion Hm. constructor.
  - inversion Hm as [|? z ? m' Hyz Hm']; subst. constructor; [|by apply IH].
    by apply (same_core_trans x y z).
Qed.

Lemma grows_refl db : grows db db.
Proof.
  repeat split; auto. exists (games db), []. rewrite app_nil_r.
  split; auto. split; [apply Forall2_same_core_refl|]. split; constructor.
Qed.

Lemma grows_NoDup db db' :
  NoDup (map g_id (games db)) -> grows db db' -> NoDup (map g_id (games db')).
Proof.
  intros Hnd (_ & _ & _ & _ & kept & added & -> & Hk & Ha & Hf).
  rewrite map_app, (Forall2_same_core_ids _ _ Hk).
  apply NoDup_app. split; [exact Hnd|]. split; [|exact Ha].
  intros x Hx%list_elem_of_In Hy%list_elem_of_In.
  apply in_map_iff in Hx as (g & <- & Hg). apply in_map_iff in Hy as (g' & E & Hg').
  rewrite List.Forall_forall in Hf. destruct (Hf g' Hg') as (_ & _ & _ & Hlt).
  specialize (Hlt g Hg). lia.
Qed.

Lemma grows_trans a b c : grows a b -> grows b c -> grows a c.
Proof.
  intros (T1 & P1 & B1 & U1 & k1 & a1 & G1 & K1 & N1 & F1)
         (T2 & P2 & B2 & U2 & k2 & a2 & G2 & K2 & N2 & F2).
  split; [congruence|]. split; [congruence|]. split; [congruence|]. split; [congruence|].
  rewrite G1 in K2. apply Forall2_app_inv_l in K2 as (k2a & k2b & Ka & Kb & ->).
  exists k2a, (k2b ++ a2). split; [by rewrite G2, <- app_assoc|].
  split; [by apply (Forall2_same_core_trans _ k1)|].
  rewrite List.Forall_forall in F1, F2.
  assert (Hida : forall g, In g (games a) -> In (g_id g) (map g_id (games b))).
  { intros g Hg. rewrite G1, map_app, (Forall2_same_core_ids _ _ K1).
    apply in_or_app. left. by apply in_map. }
  assert (Hlt2 : forall g' , In g' a2 -> forall x, In x (map g_id (games b)) -> x < g_id g').
  { intros g' Hg' x (g & <- & Hg)%in_map_iff. by apply (F2 g' Hg'). }
  split.
  - rewrite map_app, (Forall2_same_core_ids _ _ Kb).
    apply NoDup_app. split; [exact N1|]. split; [|exact N2].
    intros x Hx%list_elem_of_In Hy%list_elem_of_In.
    apply in_map_iff in Hy as (g' & E & Hg').
    assert (x < g_id g'); [|lia].
    apply (Hlt2 g' Hg'). rewrite G1, map_app. apply in_or_app. by right.
  - apply List.Forall_forall. intros g' [Hg'|Hg']%in_app_iff.
    + assert (Hex : exists g1, In g1 a1 /\ same_core g1 g').
      { clear -Kb Hg'. induction Kb as [|x y l k Hxy _ IH]; [destruct Hg'|].
        destruct Hg' as [<-|Hg']; [exists x; simpl; auto|].
        destruct (IH Hg') as (g1 & ? & ?). exists g1. simpl. auto. }
      destruct Hex as (g1 & Hg1 & Hid & _ & _ & Hs & Hh & Ha).
      destruct (F1 g1 Hg1) as (S1 & S2 & S3 & S4).
      split; [congruence|]. split; [congruence|]. split; [congruence|].
      intros g Hg. rewrite Hid. by apply S4.
    + destruct (F2 g' Hg') as (S1 & S2 & S3 & _).
      split; [exact S1|]. split; [exact S2|]. split; [exact S3|].
      intros g Hg. apply (Hlt2 g' Hg'). by apply Hida.
Qed.

Lemma assign_ids_ids l : forall next,
  map g_id (assign_ids next l) = map (fun i => next + Z.of_nat i) (seq 0 (length l)).
Proof.
  induction l as [|a l IH]; intros next; simpl; auto.
  rewrite IH. f_equal; [lia|]. rewrite <- seq_shift, map_map.
  apply map_ext. intros i. lia.
Qed.

Lemma assign_ids_NoDup l next : NoDup (map g_id (assign_ids next l)).
Proof.
  rewrite assign_ids_ids. apply NoDup_fmap_2; [|apply NoDup_ListNoDup, seq_NoDup].
  intros i j. lia.
Qed.

(** One import, on the store a session sees. *)
Lemma import_week_grows b view payload y wn st now :
  NoDup (map g_id (games view)) ->
  grows view (fst (import_week_schedule b view payload y wn st now)) /\
  0 <= snd (import_week_schedule b view payload y wn st now) <= Z.of_nat (length payload).
Proof.
  intros Hnd.
  assert (Hcase : payload = [] \/ payload <> []).
  { destruct payload; [by left|by right]. }
  destruct Hcase as [->|Hne].
  { unfold import_week_schedule.
    destruct (ensure_season view y) as [db1 season].
    destruct (ensure_week b db1 season wn st now) as [db2 week].
    cbn [fst snd length]. split; [apply grows_refl|lia]. }
  rewrite (import_unfold b view payload _ _ _ _ Hne). cbv zeta. cbn [fst snd].
  destruct (import_tables b view y wn st now) as (T1 & T2 & T3 & T4 & T5).
  cbv zeta in T1, T2, T3, T4, T5.
  set (db2 := fst (ensure_week b (fst (ensure_season view y)) (snd (ensure_season view y))
                     wn st now)) in *.
  set (wk := w_id (snd (ensure_week b (fst (ensure_season view y))
                          (snd (ensure_season view y)) wn st now))).
  set (sid := s_id (snd (ensure_season view y))).
  rewrite T2.
  assert (Hok0 : session_ok (games view) sid wk (mkIS [] [] 0 [])).
  { split; [|split]; cbn; [discriminate|intros g []|lia]. }
  destruct (import_fold_ok b (games view) sid wk (_team_lookup_map db2) payload
              (mkIS [] [] 0 []) Hnd Hok0) as [Hok Hle].
  set (stt := fold_left _ payload (mkIS [] [] 0 [])) in *.
  split.
  - split; [exact T1|]. split; [exact T3|]. split; [exact T4|]. split; [exact T5|].
    unfold with_games. cbn [games]. unfold commit_games.
    eexists _, _. split; [reflexivity|]. split; [|split].
    + apply Forall2_map_same. intros row Hrow.
      destruct (session_obj_core (games view) sid wk stt row Hnd Hok Hrow) as [Hc _].
      apply (same_core_trans _ _ _ Hc). apply store_game_core.
    + apply assign_ids_NoDup.
    + apply List.Forall_forall. intros g' Hg'.
      apply assign_ids_spec in Hg' as (g0 & Hg0 & Hid & E).
      apply in_map_iff in Hg0 as (p & <- & Hp).
      destruct Hok as (_ & Hpend & _). destruct (Hpend p Hp) as (_ & Hw & Hs & Hh & Ha).
      rewrite E. cbn. split; [exact Hs|]. split; [exact Hh|]. split; [exact Ha|].
      intros g Hg.
      pose proof (next_id_gt (map g_id (games view)) (g_id g) (in_map g_id _ _ Hg)). lia.
  - cbn in Hle. destruct Hok as (_ & _ & Hn). lia.
Qed.

Lemma ensure_grows b view y wn st now :
  grows view (fst (ensure_week b (fst (ensure_season view y)) (snd (ensure_season view y))
                     wn st now)).
Proof.
  destruct (import_tables b view y wn st now) as (T1 & T2 & T3 & T4 & T5).
  cbv zeta in T1, T2, T3, T4, T5.
  split; [exact T1|]. split; [exact T3|]. split; [exact T4|]. split; [exact T5|].
  exists (games view), []. rewrite app_nil_r. split; [exact T2|].
  split; [apply Forall2_same_core_refl|]. split; constructor.
Qed.

(** One call in the shared session. *)
Lemma import_in_session_spec b view payload y wn st now :
  NoDup (map g_id (games view)) ->
  let r := import_week_in_session b view payload y wn st now in
  grows view (fst (fst r)) /\ 0 <= snd (fst r) <= Z.of_nat (length payload) /\
  (payload = [] -> snd r = false /\ snd (fst r) = 0).
Proof.
  intros Hnd. unfold import_week_in_session. destruct payload as [|pg payload].
  - cbn [fst snd length]. split; [apply ensure_grows|]. split; [lia|auto].
  - cbn [fst snd]. destruct (import_week_grows b view (pg :: payload) y wn st now Hnd).
    split; auto. split; auto. discriminate.
Qed.

Section Season.

Variables (b : Backend) (provider : Z -> Z -> list ProviderGame) (clock : Z -> Z -> Z).
Variable season_year : Z.
Variable db : DB.
Hypothesis games_NoDup : NoDup (map g_id (games db)).

Let step := season_step b provider clock season_year.

Lemma season_step_ok st r wk :
  st = 1 \/ st = 2 \/ st = 3 -> run_ok db r -> run_ok db (step st r wk).
Proof.
  intros Hst (Hv & Hs & Hp & Hr & Ho & Hw & Hz). unfold step, season_step.
  pose proof (grows_NoDup db (run_view r) games_NoDup Hv) as Hnd.
  destruct (import_in_session_spec b (run_view r) (provider wk st) season_year wk st
              (clock wk st) Hnd) as (Hg & Hc & _).
  destruct (import_week_in_session b (run_view r) (provider wk st) season_year wk st
              (clock wk st)) as [[view' c] committed].
  cbn [fst snd] in Hg, Hc.
  assert (Hv' : grows db view') by (by apply (grows_trans db (run_view r))).
  assert (Hs' : grows db (if committed then view' else run_store r)).
  { by destruct committed. }
  destruct (0 <? c) eqn:Ec.
  - apply Z.ltb_lt in Ec. unfold run_ok. cbn.
    split; [exact Hv'|]. split; [exact Hs'|].
    destruct Hst as [-> | [-> | ->]]; cbn; lia.
  - unfold run_ok. cbn. split; [exact Hv'|]. split; [exact Hs'|]. lia.
Qed.

Lemma season_fold_ok st l : forall r,
  st = 1 \/ st = 2 \/ st = 3 -> run_ok db r -> run_ok db (fold_left (step st) l r).
Proof.
  induction l as [|wk l IH]; intros r Hst Hr; cbn [fold_left]; auto.
  apply IH; auto. by apply season_step_ok.
Qed.

Lemma season_step_weeks st r wk :
  run_weeks r <= run_weeks (step st r wk) <= run_weeks r + 1.
Proof.
  unfold step, season_step.
  destruct (import_week_in_session _ _ _ _ _ _ _) as [[view' c] committed].
  destruct (0 <? c); cbn; lia.
Qed.

Lemma season_fold_weeks st l : forall r,
  run_weeks (fold_left (step st) l r) <= run_weeks r + Z.of_nat (length l).
Proof.
  induction l as [|wk l IH]; intros r; cbn [fold_left length]; [lia|].
  specialize (IH (step st r wk)). pose proof (season_step_weeks st r wk). lia.
Qed.

Lemma season_step_others st r wk :
  (st <> 1 -> run_pre (step st r wk) = run_pre r) /\
  (st <> 3 -> run_post (step st r wk) = run_post r).
Proof.
  unfold step, season_step.
  destruct (import_week_in_session _ _ _ _ _ _ _) as [[view' c] committed].
  destruct (0 <? c); cbn; [|auto].
  split; intros Hne%Z.eqb_neq; by rewrite Hne.
Qed.

Lemma season_fold_others st l : forall r,
  (st <> 1 -> run_pre (fold_left (step st) l r) = run_pre r) /\
  (st <> 3 -> run_post (fold_left (step st) l r) = run_post r).
Proof.
  induction l as [|wk l IH]; intros r; cbn [fold_left]; [auto|].
  destruct (IH (step st r wk)) as [H1 H2]. destruct (season_step_others st r wk) as [K1 K2].
  split; intros Hne; [rewrite H1, K1|rewrite H2, K2]; auto.
Qed.

Lemma season_fold_idle st l : forall r,
  (forall wk s, provider wk s = []) -> run_idle db r -> run_idle db (fold_left (step st) l r).
Proof.
  induction l as [|wk l IH]; intros r Hempty Hr; cbn [fold_left]; auto.
  apply IH; auto. unfold step, season_step, import_week_in_session.
  rewrite (Hempty wk st). cbn. exact Hr.
Qed.

End Season.

Lemma import_full_season_final b provider clock y db pre post :
  import_full_season b provider clock y db pre post
  = (run_store (season_final b provider clock y db pre post),
     mkSummary (run_pre (season_final b provider clock y db pre post))
       (run_reg (season_final b provider clock y db pre post))
       (run_post (season_final b provider clock y db pre post))
       (run_pre (season_final b provider clock y db pre post)
        + run_reg (season_final b provider clock y db pre post)
        + run_post (season_final b provider clock y db pre post))
       (run_weeks (season_final b provider clock y db pre post))).
Proof. unfold import_full_season, season_final. by destruct pre, post. Qed.

(** X21. [import_full_season], on a store with unique game ids: the total
    of the summary is the sum of its three parts, none of them negative;
    the number of weeks counted is at most 27, at most the total, and zero
    only if the total is; a part that is not asked for stays zero.  The
    store it leaves has the teams, picks, tiebreakers and users it had,
    and its games in their places with their ids, seasons, weeks, status
    and scores, followed by new scheduled games without score.  If the
    provider has nothing for any week, the store is left as it was. *)
Theorem X21_import_full_season (b : Backend) (provider : Z -> Z -> list ProviderGame)
    (clock : Z -> Z -> Z) (season_year : Z) (db : DB)
    (include_preseason include_postseason : bool) :
  NoDup (map g_id (games db)) ->
  let r := import_full_season b provider clock season_year db
             include_preseason include_postseason in
  let s := snd r in
  (sm_total s = sm_pre s + sm_reg s + sm_post s /\
   0 <= sm_pre s /\ 0 <= sm_reg s /\ 0 <= sm_post s /\
   0 <= sm_weeks s <= 27 /\ sm_weeks s <= sm_total s /\
   (sm_weeks s = 0 -> sm_total s = 0) /\
   (include_preseason = false -> sm_pre s = 0) /\
   (include_postseason = false -> sm_post s = 0)) /\
  (teams (fst r) = teams db /\ picks (fst r) = picks db /\
   tiebreakers (fst r) = tiebreakers db /\ users (fst r) = users db /\
   exists kept added,
     games (fst r) = kept ++ added /\
     Forall2 same_core (games db) kept /\
     Forall (fun g' => g_status g' = SCHEDULED /\ g_home_score g' = 0 /\
                       g_away_score g' = 0 /\
                       forall g, In g (games db) -> g_id g < g_id g') added) /\
  ((forall wk season_type, provider wk season_type = []) ->
   fst r = db /\ sm_total s = 0 /\ sm_weeks s = 0).
Proof.
  intros Hnd r s. subst s r. rewrite import_full_season_final. cbn [fst snd].
  cbn [sm_total sm_pre sm_reg sm_post sm_weeks].
  set (step := season_step b provider clock season_year).
  set (r0 := mkRun db db 0 0 0 0).
  assert (Hok0 : run_ok db r0).
  { unfold run_ok, r0. cbn. split; [apply grows_refl|]. split; [apply grows_refl|]. lia. }
  assert (Hfold : forall st l r, st = 1 \/ st = 2 \/ st = 3 -> run_ok db r ->
            run_ok db (fold_left (step st) l r)).
  { intros st l r. apply season_fold_ok. exact Hnd. }
  pose proof (season_fold_weeks b provider clock season_year) as Hweeks.
  pose proof (season_fold_others b provider clock season_year) as Hothers.
  fold step in Hweeks, Hothers.
  unfold season_final. fold step. fold r0. cbv zeta.
  set (r1 := if include_preseason then fold_left (step 1) (py_range 1 5) r0 else r0).
  set (r2 := fold_left (step 2) (py_range 1 19) r1).
  set (r3 := if include_postseason then fold_left (step 3) (py_range 1 6) r2 else r2).
  assert (Hok1 : run_ok db r1).
  { unfold r1. destruct include_preseason; [|exact Hok0].
    apply Hfold; [by left|exact Hok0]. }
  assert (Hok2 : run_ok db r2).
  { apply Hfold; [right; by left|exact Hok1]. }
  assert (Hok3 : run_ok db r3).
  { unfold r3. destruct include_postseason; [|exact Hok2].
    apply Hfold; [right; by right|exact Hok2]. }
  assert (L1 : length (py_range 1 5) = 4%nat) by reflexivity.
  assert (L2 : length (py_range 1 19) = 18%nat) by reflexivity.
  assert (L3 : length (py_range 1 6) = 5%nat) by reflexivity.
  assert (W1 : run_weeks r1 <= 4).
  { unfold r1. destruct include_preseason; [|unfold r0; cbn [run_weeks]; lia].
    pose proof (Hweeks 1 (py_range 1 5) r0) as H. rewrite L1 in H.
    unfold r0 in H at 2. cbn [run_weeks] in H. lia. }
  assert (W2 : run_weeks r2 <= run_weeks r1 + 18).
  { pose proof (Hweeks 2 (py_range 1 19) r1) as H. rewrite L2 in H. fold r2 in H. lia. }
  assert (W3 : run_weeks r3 <= run_weeks r2 + 5).
  { unfold r3. destruct include_postseason; [|lia].
    pose proof (Hweeks 3 (py_range 1 6) r2) as H. rewrite L3 in H. lia. }
  destruct Hok3 as (Hv & Hs & Hp & Hr & Ho & Hw & Hz).
  split; [|split].
  - split; [reflexivity|]. split; [exact Hp|]. split; [exact Hr|]. split; [exact Ho|].
    split; [lia|]. split; [lia|]. split; [exact Hz|]. split.
    + intros ->. unfold r3.
      assert (E2 : run_pre r2 = run_pre r1).
      { destruct (Hothers 2 (py_range 1 19) r1) as [H _]. apply H. lia. }
      assert (E3 : run_pre r3 = run_pre r2).
      { unfold r3. destruct include_postseason; [|reflexivity].
        destruct (Hothers 3 (py_range 1 6) r2) as [H _]. apply H. lia. }
      fold r3. rewrite E3, E2. reflexivity.
    + intros E. unfold r3. rewrite E.
      destruct (Hothers 2 (py_range 1 19) r1) as [_ H]. unfold r2. rewrite H by lia.
      unfold r1. destruct include_preseason; [|reflexivity].
      destruct (Hothers 1 (py_range 1 5) r0) as [_ H']. rewrite H' by lia. reflexivity.
  - destruct Hs as (T1 & T2 & T3 & T4 & kept & added & G & K & _ & F).
    split; [exact T1|]. split; [exact T2|]. split; [exact T3|]. split; [exact T4|].
    exists kept, added. auto.
  - intros Hempty.
    pose proof (season_fold_idle b provider clock season_year db) as Hidle.
    fold step in Hidle.
    assert (I0 : run_idle db r0) by (by repeat split).
    assert (I1 : run_idle db r1).
    { unfold r1. destruct include_preseason; [|exact I0]. apply Hidle; [exact Hempty|exact I0]. }
    assert (I2 : run_idle db r2).
    { apply Hidle; [exact Hempty|exact I1]. }
    assert (I3 : run_idle db r3).
    { unfold r3. destruct include_postseason; [|exact I2].
      apply Hidle; [exact Hempty|exact I2]. }
    destruct I3 as (E1 & E2 & E3 & E4 & E5). rewrite E1, E2, E3, E4, E5. auto.
Qed.

(** One game is imported in one week; the pick there was is kept. *)
Lemma X21_witness :
  let r := import_full_season Zoned provider_week2 (fun _ _ => 77) 2024 db_played true true in
  NoDup (map g_id (games db_played)) /\
  sm_total (snd r) = 1 /\ sm_weeks (snd r) = 1 /\ picks (fst r) = [mkPick 1 1 1 1].
Proof.
  cbv zeta.
  assert (Hnd : NoDup (map g_id (games db_played))).
  { apply (bool_decide_unpack _). vm_compute. exact I. }
  destruct (X21_import_full_season Zoned provider_week2 (fun _ _ => 77) 2024 db_played
              true true Hnd) as ((Ht & _ & _ & _ & _ & Hw & _) & (_ & Hp & _) & _).
  split; [exact Hnd|]. split; [|split].
  - vm_compute. reflexivity.
  - vm_compute. reflexivity.
  - rewrite Hp. reflexivity.
Defined.

(** ** The weeks a season import leaves behind *)

Lemma keeps_weeks_refl db : keeps_weeks db db.
Proof. split; auto. intros w Hw. exists w. auto. Qed.

Lemma keeps_weeks_trans a b c : keeps_weeks a b -> keeps_weeks b c -> keeps_weeks a c.
Proof.
  intros [S1 W1] [S2 W2]. split; [auto|]. intros w Hw.
  destruct (W1 w Hw) as (w1 & H1 & E1 & E2 & E3 & E4).
  destruct (W2 w1 H1) as (w2 & H2 & F1 & F2 & F3 & F4).
  exists w2. repeat split; auto; congruence.
Qed.

Lemma keeps_weeks_has db db' y st wk :
  keeps_weeks db db' -> has_week db y st wk -> has_week db' y st wk.
Proof.
  intros [HS HW] (s & w & Hs & Hy & Hw & E1 & E2 & E3).
  destruct (HW w Hw) as (w' & Hw' & _ & F1 & F2 & F3).
  exists s, w'. repeat split; auto; congruence.
Qed.

Lemma ensure_season_sub db y s :
  In s (seasons db) -> In s (seasons (fst (ensure_season db y))).
Proof.
  intros Hs. unfold ensure_season. destruct (List.find _ (seasons db)); cbn; auto.
  apply in_or_app. by left.
Qed.

Lemma ensure_week_sub b db season wn st now w :
  In w (weeks db) -> In w (weeks (fst (ensure_week b db season wn st now))).
Proof.
  intros Hw. unfold ensure_week. destruct (List.find _ (weeks db)); cbn; auto.
  apply in_or_app. by left.
Qed.

Lemma ensure_week_ids b db season wn st now :
  NoDup (map w_id (weeks db)) ->
  NoDup (map w_id (weeks (fst (ensure_week b db season wn st now)))).
Proof.
  intros Hnd. unfold ensure_week. destruct (List.find _ (weeks db)); cbn; auto.
  rewrite map_app. apply NoDup_app. split; [exact Hnd|]. split.
  - intros x Hx%list_elem_of_In Hy%list_elem_of_In. cbn in Hy. destruct Hy as [<-|[]].
    apply next_id_gt in Hx. lia.
  - apply NoDup_singleton.
Qed.

(** The store the loop of an import reads, and the weeks. *)
Lemma ensure_keeps b view y wn st now :
  let db2 := fst (ensure_week b (fst (ensure_season view y)) (snd (ensure_season view y))
                    wn st now) in
  keeps_weeks view db2 /\ has_week db2 y st wn /\
  (NoDup (map w_id (weeks view)) -> NoDup (map w_id (weeks db2))).
Proof.
  cbv zeta.
  destruct (ensure_season_keeps view y) as (_ & _ & K).
  destruct (ensure_week_keeps b (fst (ensure_season view y)) (snd (ensure_season view y))
              wn st now) as (_ & _ & KS).
  split; [|split].
  - split.
    + intros s Hs. rewrite KS. by apply ensure_season_sub.
    + intros w Hw. exists w. split; [|auto]. apply ensure_week_sub. by rewrite K.
  - pose proof (ensure_season_find view y) as Hs. apply find_some in Hs as [Hs Hy].
    pose proof (ensure_week_find b (fst (ensure_season view y)) (snd (ensure_season view y))
                  wn st now) as Hw.
    apply find_some in Hw as [Hw Hp]. unfold week_pred in Hp.
    apply andb_true_iff in Hp as [Hp E3]. apply andb_true_iff in Hp as [E1 E2].
    exists (snd (ensure_season view y)), (snd (ensure_week b (fst (ensure_season view y))
                                               (snd (ensure_season view y)) wn st now)).
    rewrite KS. repeat split; auto; by apply Z.eqb_eq.
  - intros Hnd. apply ensure_week_ids. by rewrite K.
Qed.

Lemma replace_week_keeps ws w d :
  NoDup (map w_id ws) -> In w ws ->
  (forall x, In x ws ->
     exists x', In x' (replace_week ws (set_first_kickoff_at w d)) /\ w_id x' = w_id x /\
                w_season_id x' = w_season_id x /\ w_week_number x' = w_week_number x /\
                w_season_type x' = w_season_type x) /\
  map w_id (replace_week ws (set_first_kickoff_at w d)) = map w_id ws.
Proof.
  intros Hnd Hw. split.
  - intros x Hx. destruct (Z.eq_dec (w_id x) (w_id w)) as [E|E].
    + assert (x = w) by (by apply (NoDup_map_eq w_id ws)). subst x.
      exists (set_first_kickoff_at w d). split; [|by repeat split].
      unfold replace_week. apply in_map_iff. exists w. split; auto.
      cbn. by rewrite Z.eqb_refl.
    + exists x. split; [|auto]. by apply replace_week_other.
  - unfold replace_week. rewrite map_map. apply map_ext_in'. intros x _.
    cbn. destruct (w_id x =? w_id w) eqn:E; [|reflexivity].
    apply Z.eqb_eq in E. by cbn.
Qed.

(** One call in the shared session, and the weeks. *)
Lemma import_in_session_weeks b view payload y wn st now :
  NoDup (map w_id (weeks view)) ->
  let r := import_week_in_session b view payload y wn st now in
  keeps_weeks view (fst (fst r)) /\ has_week (fst (fst r)) y st wn /\
  NoDup (map w_id (weeks (fst (fst r)))) /\
  (payload <> [] -> snd r = true).
Proof.
  intros Hnd. cbv zeta.
  destruct (ensure_keeps b view y wn st now) as (Hk & Hh & Hn). cbv zeta in Hk, Hh, Hn.
  specialize (Hn Hnd).
  unfold import_week_in_session. destruct payload as [|pg payload].
  { cbn [fst snd]. split; [exact Hk|]. split; [exact Hh|]. split; [exact Hn|].
    intros H. by destruct H. }
  cbn [fst snd].
  rewrite (import_unfold b view (pg :: payload) y wn st now ltac:(discriminate)).
  cbv zeta. cbn [fst].
  pose proof (target_week_In b view y wn st now) as Hin. unfold target_week in Hin.
  set (db2 := fst (ensure_week b (fst (ensure_season view y)) (snd (ensure_season view y))
                     wn st now)) in *.
  set (week := snd (ensure_week b (fst (ensure_season view y)) (snd (ensure_season view y))
                      wn st now)) in *.
  set (ws := match min_dt _ with Some m => _ | None => weeks db2 end).
  assert (Hws : (forall x, In x (weeks db2) ->
                   exists x', In x' ws /\ w_id x' = w_id x /\
                     w_season_id x' = w_season_id x /\ w_week_number x' = w_week_number x /\
                     w_season_type x' = w_season_type x) /\
                map w_id ws = map w_id (weeks db2)).
  { unfold ws. destruct (min_dt _) as [m|].
    - by apply replace_week_keeps.
    - split; [|reflexivity]. intros x Hx. exists x. auto. }
  destruct Hws as [Hws Hids].
  assert (Hk2 : keeps_weeks db2 (with_games (with_weeks db2 ws)
                                   (commit_games b (games db2)
                                      (fold_left (import_step b (games db2)
                                                    (s_id (snd (ensure_season view y)))
                                                    (w_id week) (_team_lookup_map db2))
                                         (pg :: payload) (mkIS [] [] 0 []))))).
  { split; [auto|]. exact Hws. }
  split; [by apply (keeps_weeks_trans view db2)|].
  split; [by apply (keeps_weeks_has db2)|].
  split; [|auto]. unfold with_games, with_weeks. cbn [weeks]. by rewrite Hids.
Qed.

Section Plan.

Variables (b : Backend) (provider : Z -> Z -> list ProviderGame) (clock : Z -> Z -> Z).
Variable season_year : Z.

Let pstep := plan_step b provider clock season_year.

Lemma plan_step_spec r p :
  NoDup (map w_id (weeks (run_view r))) ->
  keeps_weeks (run_view r) (run_view (pstep r p)) /\
  has_week (run_view (pstep r p)) season_year (fst p) (snd p) /\
  NoDup (map w_id (weeks (run_view (pstep r p)))) /\
  (run_store (pstep r p) = run_store r \/
   run_store (pstep r p) = run_view (pstep r p)) /\
  (provider (snd p) (fst p) <> [] -> run_store (pstep r p) = run_view (pstep r p)).
Proof.
  intros Hnd. unfold pstep, plan_step, season_step.
  destruct (import_in_session_weeks b (run_view r) (provider (snd p) (fst p)) season_year
              (snd p) (fst p) (clock (snd p) (fst p)) Hnd) as (Hk & Hh & Hn & Hc).
  destruct (import_week_in_session _ _ _ _ _ _ _) as [[view' c] committed].
  cbn [fst snd] in *.
  destruct (0 <? c); cbn [run_view run_store];
    (split; [exact Hk|]; split; [exact Hh|]; split; [exact Hn|]; split;
     [destruct committed; auto|intros Hne; by rewrite (Hc Hne)]).
Qed.

(** Once the session and the store have a week, they keep it. *)
Lemma plan_fold_keeps l y st wk : forall r,
  NoDup (map w_id (weeks (run_view r))) ->
  has_week (run_view r) y st wk -> has_week (run_store r) y st wk ->
  has_week (run_store (fold_left pstep l r)) y st wk.
Proof.
  induction l as [|p l IH]; intros r Hnd Hv Hs; cbn [fold_left]; auto.
  destruct (plan_step_spec r p Hnd) as (Hk & _ & Hn & Hst & _).
  pose proof (keeps_weeks_has _ _ y st wk Hk Hv) as Hv'.
  apply IH; auto. destruct Hst as [-> | ->]; auto.
Qed.

(** A week the session has reaches the store with the next commit. *)
Lemma plan_fold_commits l y st wk : forall r,
  NoDup (map w_id (weeks (run_view r))) ->
  has_week (run_view r) y st wk ->
  (exists q, In q l /\ provider (snd q) (fst q) <> []) ->
  has_week (run_store (fold_left pstep l r)) y st wk.
Proof.
  induction l as [|p l IH]; intros r Hnd Hv (q & Hq & Hne); [destruct Hq|].
  cbn [fold_left].
  destruct (plan_step_spec r p Hnd) as (Hk & _ & Hn & _ & Hc).
  pose proof (keeps_weeks_has _ _ y st wk Hk Hv) as Hv'.
  destruct (list_eq_nil_dec (provider (snd p) (fst p))) as [Hempty|Hfull].
  - destruct Hq as [<-|Hq]; [by destruct Hne|]. apply IH; eauto.
  - apply plan_fold_keeps; auto. by rewrite (Hc Hfull).
Qed.

Lemma plan_fold_ids l : forall r,
  NoDup (map w_id (weeks (run_view r))) ->
  NoDup (map w_id (weeks (run_view (fold_left pstep l r)))).
Proof.
  induction l as [|p l IH]; intros r Hnd; cbn [fold_left]; auto.
  apply IH. by destruct (plan_step_spec r p Hnd) as (_ & _ & Hn & _).
Qed.

(** The week of a call is in the store after the run if that call or a
    later one has an answer that is not empty. *)
Lemma plan_fold_weeks l1 p l2 r :
  NoDup (map w_id (weeks (run_view r))) ->
  (exists q, In q (p :: l2) /\ provider (snd q) (fst q) <> []) ->
  has_week (run_store (fold_left pstep (l1 ++ p :: l2) r)) season_year (fst p) (snd p).
Proof.
  intros Hnd (q & Hq & Hne). rewrite fold_left_app. cbn [fold_left].
  pose proof (plan_fold_ids l1 r Hnd) as Hnd1.
  set (r1 := fold_left pstep l1 r) in *.
  destruct (plan_step_spec r1 p Hnd1) as (_ & Hh & Hn & _ & Hc).
  destruct (list_eq_nil_dec (provider (snd p) (fst p))) as [Hempty|Hfull].
  - destruct Hq as [<-|Hq]; [by destruct Hne|]. apply plan_fold_commits; eauto.
  - apply plan_fold_keeps; auto. by rewrite (Hc Hfull).
Qed.

End Plan.

Lemma py_range_In a b i : In i (py_range a b) <-> a <= i < b.
Proof.
  unfold py_range. rewrite in_map_iff. split.
  - intros (k & <- & Hk%in_seq). lia.
  - intros H. exists (Z.to_nat (i - a)). split; [lia|]. apply in_seq. lia.
Qed.

Lemma season_plan_In pre post st wk :
  In (st, wk) (season_plan pre post) <-> called pre post st wk.
Proof.
  unfold season_plan, called. rewrite !in_app_iff. 
  assert (H : forall k a b, In (st, wk) (map (pair k) (py_range a b)) <->
                            st = k /\ a <= wk < b).
  { intros k a b. rewrite in_map_iff. split.
    - intros (i & [= <- <-] & Hi%py_range_In). auto.
    - intros [-> Hi]. exists wk. split; auto. by apply py_range_In. }
  destruct pre, post; rewrite ?H; simpl; intuition (try discriminate; try lia).
Qed.

Lemma season_plan_sorted pre post : sorted_lex (season_plan pre post) = true.
Proof. destruct pre, post; vm_compute; reflexivity. Qed.

Lemma sorted_lex_after l : forall l1 p l2 q,
  sorted_lex l = true -> l = l1 ++ p :: l2 -> In q l -> lex_ltb q p = false ->
  In q (p :: l2).
Proof.
  induction l as [|x l IH]; intros l1 p l2 q Hs Hl Hq Hle.
  - by destruct l1.
  - cbn [sorted_lex] in Hs. apply andb_true_iff in Hs as [Hx Hs].
    destruct l1 as [|y l1]; cbn [app] in Hl; injection Hl as -> ->.
    + exact Hq.
    + destruct Hq as [->|Hq]; [|by apply (IH l1 p l2 q)].
      rewrite forallb_forall in Hx. rewrite (Hx p) in Hle; [discriminate|].
      apply in_or_app. right. by left.
Qed.

Lemma fold_parts {R} (f : Z -> R -> Z -> R) (w1 w2 w3 : list Z) (r0 : R)
    (pre post : bool) :
  (let r1 := if pre then fold_left (f 1) w1 r0 else r0 in
   let r2 := fold_left (f 2) w2 r1 in
   if post then fold_left (f 3) w3 r2 else r2)
  = fold_left (fun r p => f (fst p) r (snd p))
      ((if pre then map (pair 1) w1 else [])
       ++ map (pair 2) w2 ++ (if post then map (pair 3) w3 else [])) r0.
Proof.
  assert (P : forall k l r,
            fold_left (fun r p => f (fst p) r (snd p)) (map (pair k) l) r
            = fold_left (f k) l r).
  { intros k l. induction l as [|x l IH]; intros r; cbn [map fold_left fst snd]; auto. }
  cbv zeta. rewrite !fold_left_app, (P 2).
  destruct pre, post; cbn [fold_left]; rewrite ?P; reflexivity.
Qed.

Lemma season_final_plan b provider clock y db pre post :
  season_final b provider clock y db pre post
  = fold_left (plan_step b provider clock y) (season_plan pre post) (mkRun db db 0 0 0 0).
Proof.
  exact (fold_parts (season_step b provider clock y) (py_range 1 5) (py_range 1 19)
           (py_range 1 6) (mkRun db db 0 0 0 0) pre post).
Qed.

(** X22. In a run of [import_full_season] the calls share one session, so
    the week a call looks up or creates is stored as soon as that call or
    a later one commits: with week ids unique, for every week the run
    calls for, if the provider has a non-empty answer for it or for a week
    called for later (a later week of the same part, or a week of a later
    part), the store has a season of the year with a week of that type and
    number afterwards, whether or not the provider had anything for the
    week itself. *)
Theorem X22_season_weeks (b : Backend) (provider : Z -> Z -> list ProviderGame)
    (clock : Z -> Z -> Z) (season_year : Z) (db : DB)
    (include_preseason include_postseason : bool)
    (season_type week_number later_type later_week : Z) :
  NoDup (map w_id (weeks db)) ->
  called include_preseason include_postseason season_type week_number ->
  called include_preseason include_postseason later_type later_week ->
  (season_type < later_type \/ (season_type = later_type /\ week_number <= later_week)) ->
  provider later_week later_type <> [] ->
  has_week (fst (import_full_season b provider clock season_year db
                   include_preseason include_postseason))
    season_year season_type week_number.
Proof.
  intros Hnd Hp Hq Hle Hne.
  rewrite import_full_season_final. cbn [fst]. rewrite season_final_plan.
  apply season_plan_In in Hp, Hq.
  destruct (in_split _ _ Hp) as (l1 & l2 & Hl).
  assert (Hafter : In (later_type, later_week) ((season_type, week_number) :: l2)).
  { apply (sorted_lex_after (season_plan include_preseason include_postseason) l1); auto.
    - apply season_plan_sorted.
    - unfold lex_ltb. cbn [fst snd].
      apply orb_false_iff. split; [apply Z.ltb_ge; lia|].
      destruct Hle as [Hlt|[-> Hw]].
      + apply andb_false_iff. left. apply Z.eqb_neq. lia.
      + apply andb_false_iff. right. apply Z.ltb_ge. lia. }
  rewrite Hl.
  apply (plan_fold_weeks b provider clock season_year l1 (season_type, week_number) l2
           (mkRun db db 0 0 0 0) Hnd).
  exists (later_type, later_week). split; [exact Hafter|exact Hne].
Qed.

(** The provider has a game for week 2 of the regular season only; the
    run leaves a week 1 of the preseason of 2024 in the store. *)
Lemma X22_witness :
  NoDup (map w_id (weeks db_played)) /\
  has_week (fst (import_full_season Zoned provider_week2 (fun _ _ => 77) 2024 db_played
                   true true)) 2024 1 1 /\
  ~ has_week db_played 2024 1 1.
Proof.
  assert (Hnd : NoDup (map w_id (weeks db_played))).
  { apply (bool_decide_unpack _). vm_compute. exact I. }
  split; [exact Hnd|]. split.
  - apply (X22_season_weeks Zoned provider_week2 (fun _ _ => 77) 2024 db_played true true
             1 1 2 2 Hnd).
    + left. repeat split; lia.
    + right. left. split; lia.
    + left. lia.
    + discriminate.
  - intros (s & w & _ & _ & Hw & _ & _ & Ht). simpl in Hw.
    destruct Hw as [<-|[<-|[]]]; discriminate Ht.
Defined.

(** ** Refreshing the logos *)

Lemma opt_str_eqb_eq (a b : option string) : opt_str_eqb a b = true -> a = b.
Proof.
  destruct a as [x|], b as [y|]; simpl; try discriminate; auto.
  intros H. apply String.eqb_eq in H. by subst.
Qed.

Lemma set_logo_path_same t : set_logo_path t (tr_logo_path t) = t.
Proof. by destruct t. Qed.

Lemma set_logo_refreshed m pts i t p :
  set_logo_path (refreshed m pts i t) p = set_logo_path t p.
Proof. unfold refreshed. by destruct (List.find _ _). Qed.

Lemma refreshed_same m pts i t : same_but_logo t (refreshed m pts i t).
Proof. unfold refreshed, same_but_logo. destruct (List.find _ _); simpl; tauto. Qed.

Lemma refreshed_twice m pts i t :
  refreshed m pts i (refreshed m pts i t) = refreshed m pts i t.
Proof. unfold refreshed. by destruct (List.find _ _). Qed.

Lemma refreshed_snoc m pts pt i t :
  refreshed m (pts ++ [pt]) i t
  = if names m i pt then set_logo_path t (pt_logo_path pt) else refreshed m pts i t.
Proof.
  unfold refreshed. rewrite rev_app_distr. cbn [rev app List.find].
  by destruct (names m i pt).
Qed.

(** *** The dictionary of the rows *)

Lemma by_abbr_from_sound rows : forall i m k j,
  by_abbr_from i rows m !! k = Some j ->
  m !! k = Some j \/
  exists t, (i <= j)%nat /\ rows !! (j - i)%nat = Some t /\ upper (tr_abbr t) = k.
Proof.
  induction rows as [|t rest IH]; intros i m k j H; cbn [by_abbr_from] in H; [by left|].
  apply IH in H as [H|(t' & Hle & Ht' & Hk)].
  - apply lookup_insert_Some in H as [[<- <-]|[_ H]]; [|by left].
    right. exists t. split; [lia|]. by rewrite Nat.sub_diag.
  - right. exists t'. split; [lia|]. split; [|done].
    replace (j - i)%nat with (S (j - S i)) by lia. exact Ht'.
Qed.

Lemma by_abbr_of_sound rows k j :
  by_abbr_of rows !! k = Some j ->
  exists t, rows !! j = Some t /\ upper (tr_abbr t) = k.
Proof.
  intros H. apply by_abbr_from_sound in H as [H|(t & _ & Ht & Hk)].
  - by rewrite lookup_empty in H.
  - exists t. by rewrite Nat.sub_0_r in Ht.
Qed.

Lemma by_abbr_from_other rows : forall i m k,
  ~ In k (map (fun t => upper (tr_abbr t)) rows) ->
  by_abbr_from i rows m !! k = m !! k.
Proof.
  induction rows as [|t rest IH]; intros i m k Hk; cbn [by_abbr_from]; [done|].
  rewrite IH by (intros H; apply Hk; by right).
  apply lookup_insert_ne. intros E. apply Hk. by left.
Qed.

Lemma by_abbr_from_complete rows : forall i m j t,
  NoDup (map (fun t => upper (tr_abbr t)) rows) ->
  rows !! j = Some t ->
  by_abbr_from i rows m !! upper (tr_abbr t) = Some (i + j)%nat.
Proof.
  induction rows as [|t0 rest IH]; intros i m j t Hnd Hj; [done|].
  cbn [map] in Hnd. apply NoDup_cons in Hnd as [Hnot Hnd].
  cbn [by_abbr_from]. destruct j as [|j].
  - injection Hj as <-. rewrite by_abbr_from_other.
    + rewrite Nat.add_0_r. apply lookup_insert_eq.
    + intros H. apply Hnot. by apply list_elem_of_In.
  - rewrite (IH (S i) _ j t Hnd Hj). f_equal. lia.
Qed.

Lemma by_abbr_from_ext rows : forall rows' i m,
  map tr_abbr rows = map tr_abbr rows' ->
  by_abbr_from i rows m = by_abbr_from i rows' m.
Proof.
  induction rows as [|t rest IH]; intros [|t' rest'] i m E; try discriminate; [done|].
  cbn [map] in E. injection E as Ea Er. cbn [by_abbr_from]. rewrite Ea. by apply IH.
Qed.

(** *** The loop *)

Lemma refresh_step_counts m rows u s pt :
  let st := refresh_step m (rows, u, s) pt in
  length st.1.1 = length rows /\
  ((st.1.2 = u /\ st.2 = s + 1 /\ st.1.1 = rows) \/ (st.1.2 = u + 1 /\ st.2 = s)).
Proof.
  unfold refresh_step.
  destruct (m !! upper (pt_abbr pt)) as [i|]; [|simpl; auto].
  destruct (rows !! i) as [t|]; [|simpl; auto].
  destruct (negb (opt_truthy (pt_logo_path pt))); [simpl; auto|].
  destruct (negb (opt_str_eqb (tr_logo_path t) (pt_logo_path pt))); [|simpl; auto].
  cbn [fst snd]. split; [apply length_insert|]. by right.
Qed.

Lemma refresh_fold_counts m pts : forall rows u s,
  let st := fold_left (refresh_step m) pts (rows, u, s) in
  length st.1.1 = length rows /\
  u <= st.1.2 /\ s <= st.2 /\ st.1.2 + st.2 = u + s + Z.of_nat (length pts) /\
  (st.1.2 = u -> st.1.1 = rows).
Proof.
  induction pts as [|pt pts IH]; intros rows u s; cbn [fold_left].
  { cbn [fst snd length]. repeat split; auto; lia. }
  cbv zeta.
  pose proof (refresh_step_counts m rows u s pt) as Hs. cbv zeta in Hs.
  destruct (refresh_step m (rows, u, s) pt) as [[rows1 u1] s1]. cbn [fst snd] in Hs.
  specialize (IH rows1 u1 s1). cbv zeta in IH.
  destruct (fold_left (refresh_step m) pts (rows1, u1, s1)) as [[rows2 u2] s2].
  cbn [fst snd] in *. destruct IH as (Hl & Hu & Hsk & Hsum & Hsame).
  destruct Hs as [Hl1 Hs]. cbn [length]. rewrite Nat2Z.inj_succ.
  split; [congruence|].
  destruct Hs as [(-> & -> & ->)|(-> & ->)].
  - split; [lia|]. split; [lia|]. split; [lia|]. auto.
  - split; [lia|]. split; [lia|]. split; [lia|]. intros E. lia.
Qed.

Lemma refresh_fold_rows m pts : forall rows u s i t,
  rows !! i = Some t ->
  (fold_left (refresh_step m) pts (rows, u, s)).1.1 !! i = Some (refreshed m pts i t).
Proof.
  induction pts as [|pt pts IH] using rev_ind; intros rows u s i t Hi; [exact Hi|].
  rewrite fold_left_app. cbn [fold_left]. rewrite refreshed_snoc.
  specialize (IH rows u s i t Hi).
  destruct (fold_left (refresh_step m) pts (rows, u, s)) as [[rows1 u1] s1].
  cbn [fst snd] in IH. unfold refresh_step, names.
  destruct (m !! upper (pt_abbr pt)) as [j|] eqn:Ej.
  2:{ rewrite bool_decide_eq_false_2 by discriminate. exact IH. }
  destruct (decide (j = i)) as [->|Hne].
  - rewrite bool_decide_eq_true_2 by reflexivity. rewrite IH. cbn [andb].
    destruct (opt_truthy (pt_logo_path pt)); cbn [negb]; [|exact IH].
    destruct (opt_str_eqb (tr_logo_path (refreshed m pts i t)) (pt_logo_path pt)) eqn:Eq;
      cbn [negb fst].
    + apply opt_str_eqb_eq in Eq. rewrite IH. f_equal.
      rewrite <- (set_logo_refreshed m pts i t), <- Eq. by rewrite set_logo_path_same.
    + rewrite list_lookup_insert_eq by (by apply lookup_lt_Some in IH).
      by rewrite set_logo_refreshed.
  - rewrite bool_decide_eq_false_2 by (intros E; injection E; auto). cbn [andb].
    destruct (rows1 !! j) as [tj|]; [|exact IH].
    destruct (negb (opt_truthy (pt_logo_path pt))); [exact IH|].
    destruct (negb (opt_str_eqb (tr_logo_path tj) (pt_logo_path pt))); [|exact IH].
    cbn [fst]. by rewrite list_lookup_insert_ne.
Qed.

(** A table the provider's entries already agree with is left alone. *)
Lemma refresh_fold_fixed m pts : forall rows u s,
  (forall pt i t, In pt pts -> m !! upper (pt_abbr pt) = Some i -> rows !! i = Some t ->
                  opt_truthy (pt_logo_path pt) = true ->
                  tr_logo_path t = pt_logo_path pt) ->
  fold_left (refresh_step m) pts (rows, u, s) = (rows, u, s + Z.of_nat (length pts)).
Proof.
  induction pts as [|pt pts IH]; intros rows u s H; cbn [fold_left length].
  { by rewrite Z.add_0_r. }
  assert (E : refresh_step m (rows, u, s) pt = (rows, u, s + 1)).
  { unfold refresh_step.
    destruct (m !! upper (pt_abbr pt)) as [i|] eqn:Ei; [|done].
    destruct (rows !! i) as [t|] eqn:Et; [|done].
    destruct (opt_truthy (pt_logo_path pt)) eqn:Etr; [|done]. cbn [negb].
    rewrite (H pt i t (or_introl eq_refl) Ei Et Etr), opt_str_eqb_refl. done. }
  rewrite E, IH.
  - f_equal. lia.
  - intros pt' i t Hin. apply H. by right.
Qed.

Lemma refresh_unfold rows pts :
  refresh_team_logos rows pts
  = let st := fold_left (refresh_step (by_abbr_of rows)) pts (rows, 0, 0) in
    (st.1.1, (st.1.2, st.2)).
Proof.
  unfold refresh_team_logos. cbv zeta.
  by destruct (fold_left _ pts (rows, 0, 0)) as [[? ?] ?].
Qed.

Lemma same_but_logo_abbrs rows rows' :
  Forall2 same_but_logo rows rows' -> map tr_abbr rows = map tr_abbr rows'.
Proof.
  induction 1 as [|t t' l l' (_ & _ & _ & _ & Ha & _) _ IH]; [done|].
  cbn [map]. by rewrite Ha, IH.
Qed.

(** What the table is after the loop, place by place. *)
Lemma refresh_rows_spec rows pts :
  length (refresh_team_logos rows pts).1 = length rows /\
  forall i t, rows !! i = Some t ->
    (refresh_team_logos rows pts).1 !! i = Some (refreshed (by_abbr_of rows) pts i t).
Proof.
  rewrite refresh_unfold. cbv zeta. cbn [fst]. split.
  - apply (refresh_fold_counts (by_abbr_of rows) pts rows 0 0).
  - intros i t. apply refresh_fold_rows.
Qed.

Lemma refresh_rows_same rows pts :
  Forall2 same_but_logo rows (refresh_team_logos rows pts).1.
Proof.
  destruct (refresh_rows_spec rows pts) as [Hl Hr].
  apply Forall2_same_length_lookup_2; [by rewrite Hl|].
  intros i x y Hx Hy. rewrite (Hr i x Hx) in Hy. injection Hy as <-.
  apply refreshed_same.
Qed.

(** The entry a refreshed row has its logo from. *)
Lemma refreshed_from rows pts i t pt :
  rows !! i = Some t ->
  List.find (names (by_abbr_of rows) i) (rev pts) = Some pt ->
  In pt pts /\ upper (pt_abbr pt) = upper (tr_abbr t) /\
  opt_truthy (pt_logo_path pt) = true.
Proof.
  intros Hi Hf. apply find_some in Hf as [Hin Hn].
  apply in_rev in Hin. unfold names in Hn. apply andb_true_iff in Hn as [Hm Ht].
  apply bool_decide_eq_true in Hm.
  apply by_abbr_of_sound in Hm as (t' & Ht' & Hk).
  rewrite Hi in Ht'. injection Ht' as <-. auto.
Qed.

(** With the provider's abbreviations distinct, an entry with a logo that
    is looked up under a row is the one the row has its logo from. *)
Lemma refreshed_by rows pts i t pt :
  NoDup (map (fun pt => upper (pt_abbr pt)) pts) ->
  rows !! i = Some t -> In pt pts ->
  by_abbr_of rows !! upper (pt_abbr pt) = Some i ->
  opt_truthy (pt_logo_path pt) = true ->
  tr_logo_path (refreshed (by_abbr_of rows) pts i t) = pt_logo_path pt.
Proof.
  intros Hnd Hi Hin Hm Ht. unfold refreshed.
  destruct (List.find (names (by_abbr_of rows) i) (rev pts)) as [pt'|] eqn:Ef.
  - destruct (refreshed_from rows pts i t pt' Hi Ef) as (Hin' & Hk' & _).
    destruct (by_abbr_of_sound rows _ _ Hm) as (t' & Ht' & Hk).
    rewrite Hi in Ht'. injection Ht' as <-.
    assert (pt' = pt) as ->; [|done].
    apply (NoDup_map_eq (fun pt => upper (pt_abbr pt)) pts); auto. congruence.
  - pose proof (find_none _ _ Ef pt (proj1 (in_rev pts pt) Hin)) as Hn.
    unfold names in Hn. rewrite bool_decide_eq_true_2 in Hn by done.
    rewrite Ht in Hn. discriminate.
Qed.

(** X23. [refresh_team_logos] counts every entry of the provider once, as
    updated or as skipped; it adds and removes no row and writes no column
    but [logo_path]; a row whose logo it changes has the logo of an entry
    of the provider with the row's abbreviation (up to case) and a
    non-empty logo; if nothing is counted as updated the table is as it
    was.  Where neither the table nor the provider has an abbreviation
    twice (up to case), every row has the logo of the provider's entry of
    its abbreviation, if that has one. *)
Theorem X23_refresh_team_logos (rows : list TeamRow) (provider_teams : list ProviderTeam) :
  let rows' := fst (refresh_team_logos rows provider_teams) in
  let updated := fst (snd (refresh_team_logos rows provider_teams)) in
  let skipped := snd (snd (refresh_team_logos rows provider_teams)) in
  (0 <= updated /\ 0 <= skipped /\
   updated + skipped = Z.of_nat (length provider_teams)) /\
  (updated = 0 -> rows' = rows) /\
  Forall2 (fun t t' =>
             same_but_logo t t' /\
             (tr_logo_path t' <> tr_logo_path t ->
              exists pt, In pt provider_teams /\
                         upper (pt_abbr pt) = upper (tr_abbr t) /\
                         opt_truthy (pt_logo_path pt) = true /\
                         tr_logo_path t' = pt_logo_path pt) /\
             (NoDup (map (fun t => upper (tr_abbr t)) rows) ->
              NoDup (map (fun pt => upper (pt_abbr pt)) provider_teams) ->
              forall pt, In pt provider_teams ->
                         upper (pt_abbr pt) = upper (tr_abbr t) ->
                         opt_truthy (pt_logo_path pt) = true ->
                         tr_logo_path t' = pt_logo_path pt))
          rows rows'.
Proof.
  cbv zeta.
  pose proof (refresh_fold_counts (by_abbr_of rows) provider_teams rows 0 0) as Hc.
  destruct (refresh_rows_spec rows provider_teams) as [Hl Hr].
  rewrite refresh_unfold in *. cbv zeta in *. cbn [fst snd] in *.
  destruct Hc as (_ & Hu & Hs & Hsum & Hsame).
  split; [split; [exact Hu|split; [exact Hs|lia]]|].
  split; [exact Hsame|].
  apply Forall2_same_length_lookup_2; [by rewrite Hl|].
  intros i t t' Hi Hi'. rewrite (Hr i t Hi) in Hi'. injection Hi' as <-.
  split; [apply refreshed_same|]. split.
  - intros Hch. unfold refreshed in *.
    destruct (List.find (names (by_abbr_of rows) i) (rev provider_teams)) as [pt|] eqn:Ef;
      [|by destruct Hch].
    destruct (refreshed_from rows provider_teams i t pt Hi Ef) as (Hin & Hk & Ht).
    exists pt. auto.
  - intros Hndr Hndp pt Hin Hk Ht.
    apply refreshed_by; auto.
    rewrite Hk. unfold by_abbr_of.
    by rewrite (by_abbr_from_complete rows 0 ∅ i t Hndr Hi).
Qed.

(** X24. Refreshing the logos a second time from the same answer of the
    provider leaves the table as the first time left it; and if the
    provider has no abbreviation twice (up to case), the second time
    nothing is counted as updated and every entry as skipped. *)
Theorem X24_refresh_twice (rows : list TeamRow) (provider_teams : list ProviderTeam) :
  let once := refresh_team_logos rows provider_teams in
  let twice := refresh_team_logos (fst once) provider_teams in
  fst twice = fst once /\
  (NoDup (map (fun pt => upper (pt_abbr pt)) provider_teams) ->
   snd twice = (0, Z.of_nat (length provider_teams))).
Proof.
  cbv zeta.
  destruct (refresh_rows_spec rows provider_teams) as [Hl Hr].
  pose proof (refresh_rows_same rows provider_teams) as Hsame.
  set (rows1 := (refresh_team_logos rows provider_teams).1) in *.
  assert (Hm : by_abbr_of rows1 = by_abbr_of rows).
  { unfold by_abbr_of. symmetry. apply by_abbr_from_ext. by apply same_but_logo_abbrs. }
  split.
  - destruct (refresh_rows_spec rows1 provider_teams) as [Hl2 Hr2].
    apply (list_eq_same_length _ _ (length rows)); [exact Hl|by rewrite Hl2|].
    intros i x y Hlt Hx Hy.
    destruct (lookup_lt_is_Some_2 rows i Hlt) as [t Ht].
    rewrite (Hr i t Ht) in Hy. injection Hy as <-.
    rewrite (Hr2 i _ (Hr i t Ht)), Hm, refreshed_twice in Hx. by injection Hx as <-.
  - intros Hnd. rewrite refresh_unfold. cbv zeta. rewrite Hm.
    rewrite refresh_fold_fixed; [done|].
    intros pt i t1 Hin Hk Hi Ht.
    destruct (by_abbr_of_sound rows _ _ Hk) as (t & Hti & _).
    rewrite (Hr i t Hti) in Hi. injection Hi as <-.
    by apply refreshed_by.
Qed.
